(* ===== verification/_CoqProject ===== *)
-Q . S2P
Prelude.v
GoStrings.v
Sha256.v
GoTime.v
Json.v
JsonString.v
JsonText.v
JsonParse.v
Protocol.v
Wire.v
Config.v
Validator.v
Metrics.v
Backoff.v
NonceCache.v
ReportQueue.v
Receiver.v
Goroutines.v
Races.v
PollLoop.v
Uploader.v
UploadSystem.v
UploadDrain.v
Unstructured.v
Drift.v
Merge.v
Cluster.v
Executor.v
UpdateBody.v
ExecutorReports.v
ExecutorSafety.v
ExecutorDrain.v
ExecutorTotal.v
RestGetter.v
Operator.v
Informers.v
Inventory.v
HttpClient.v
WsClient.v
WsLoops.v
HealthServer.v
Startup.v
Lifecycle.v
Codecs.v
MockServer.v
ControlPlane.v
AgentSystem.v
Outcomes.v
