(* ===== verification/Prelude.v ===== *)
(** * The k8s-agent operator: a verification library

    The program (src/) is an in-cluster agent of a few goroutines.  Informers
    watch the cluster and hand every change to the uploader, which batches
    inventory events and posts them to the control plane.  The receiver polls
    the control plane, and listens on a WebSocket, for signed commands; it
    checks signature, clock and nonce and starts the executor, which carries the
    command out against the Kubernetes API with dry runs and a drift gate and
    reports every stage back through the receiver.  cmd/operator/main.go builds
    and wires all of it and supervises the goroutines.  cmd/mockserver is a small
    control plane for development; here it is the other end of the wire.

    ** Files

    - [Prelude], [GoStrings], [GoTime], [Sha256], [Json]: what the sources use
      of Go and its standard library, executable.  Machine integers are [Z] with
      their wrap-around or saturation written out ([GoTime.Sub] saturates like
      time.Time.Sub); [GoStrings] has the string, base64, hex and decimal
      functions, [Json] the text json.Marshal produces, and [JsonText] proves that
      the text determines the value.
    - [JsonString] and [JsonParse]: encoding/json on strings and on whole values,
      printer and parser, with their round trip.  [Wire]: the texts of every
      message of types.go and ws.go, from the struct tags.  [Codecs]: these as
      instances of the interfaces below.
    - [Protocol] (internal/protocol/types.go, ws.go, sign.go): wire records,
      signing payload, Sign and VerifySignature.
    - [Config] (internal/config), [Validator] (internal/validator), [Metrics]
      (internal/metrics, as a record of gauges and counters).
    - [Backoff] (the backoff type of receiver.go and wsclient.go, and the
      uploader's jitter), [NonceCache] and [ReportQueue] (the two data
      structures of receiver.go), [Receiver] (the rest of it, one definition per
      method), [Goroutines] (the same as goroutines: poll loop, WebSocket loop
      and command goroutines pass their critical sections in any order), [Races]
      (the lookups in the replay caches as the memory accesses they are) and
      [PollLoop] (the loop of Run with its sleeps).
    - [Uploader] (internal/uploader: one definition per method, [run_once] for an
      iteration of Run), [UploadSystem] (its goroutines, crashes and restarts as a
      step relation) and [UploadDrain] (the loop of Run).
    - [Unstructured]: the accessors of unstructured.Unstructured the code calls,
      as a class with the laws of their documentation and a reference instance.
    - [Drift] (internal/drift), [Merge] (mergeMap to pvcStorageFloor of
      executor.go).
    - [Cluster]: the Kubernetes and Helm operations as a class, a monad [M] that
      threads the cluster's state and records every operation, report and metric
      as an event, and a weakest-precondition logic over the recorded history.
    - [Executor] (internal/executor: HandleCommand and every verb), with its
      theorems in [UpdateBody], [ExecutorReports], [ExecutorSafety],
      [ExecutorDrain] and [ExecutorTotal]; [RestGetter] (the lazily built clients
      of helm.go and the REST mapper of executor.New); [Operator] composes the
      executor with the receiver.
    - [Informers] (internal/informers) and [Inventory] (cache changes, handlers,
      uploader and the server's table), [HttpClient] (internal/protocol/http.go),
      [WsClient] (internal/wsclient) with its loops Run and keepalive in
      [WsLoops], [HealthServer] (internal/server and the readiness goroutine),
      [Startup] (run of cmd/operator/main.go until the goroutines start),
      [Lifecycle] (the goroutines as automata of their Run functions, their
      supervision and the shutdown).
    - [MockServer] (cmd/mockserver); [ControlPlane], where the agent's clients
      talk to its handlers through the texts of [Wire]; [AgentSystem], the
      goroutines of the agent and the server with a network between them that
      loses, delays and breaks off; [Outcomes], where the command goroutines of
      that system run the executor.

    ** What the theorems show

    - Commands: only signed commands run, a nonce runs once within 10000
      dispatches, in every interleaving of the goroutines; the signed text
      determines every signed field, the timestamp test is exact, the nonce cache
      implements its abstract specification over every sequence of lookups, and
      without a writer token nothing runs ([Goroutines], [Receiver], [NonceCache],
      [Protocol], [Startup]).  The caches have no lock.  In [Goroutines] a lookup is
      one step; with its accesses as steps of their own the same holds while lookups
      do not overlap, so in particular with the fast path off, and with both loops
      at work a command can be started twice ([Races]).  The poll loop backs off
      within bounds and complains once about a rejected token ([PollLoop]).
    - Writes: every update, manifest patch and delete follows a read of the object
      that passed the drift policy, and with DRY_RUN_FIRST a dry run precedes these,
      the creates, and the Helm installs and upgrades; the writes the code sends
      without the one or the other (cordons, evictions, Helm, the hash annotation)
      are named in [ExecutorSafety].  A drain evicts only what it may, update bodies keep live values, immutable
      fields and the resource version and never shrink a claim, and the drift check finds no drift exactly
      when nothing but server-managed metadata changed, SHA-256 collisions aside
      ([ExecutorSafety], [ExecutorDrain], [UpdateBody], [Merge], [Drift]).
    - Reports: exactly one terminal report per command, as its last act, and it is
      queued until a poll acknowledged it; a poll never clears a report it did
      not carry, and no interleaving loses one ([ExecutorReports], [Operator],
      [ReportQueue], [Goroutines]: the goroutines' use of the queue is a run of
      [QueueSystem]).
    - Inventory: with a spill file that can be written, read and removed no event is
      lost between informer and acknowledgement, whatever else fails; sequence
      numbers have no gaps, across restarts as far as the number could be saved,
      batches respect both limits, and
      values of secrets do not influence what is uploaded, annotations excepted
      ([UploadSystem], [Uploader], [Informers]).  While the spill file is not used
      the server's table, as SERVER.md describes it, converges to the informer
      caches, whatever is lost on the way; after an overflow it can stay behind
      ([Inventory]).
    - The wire: every message is read back as it was sent, and whatever text
      arrives, the commands read from it are well-typed ([Wire]).
    - Both ends together ([ControlPlane]): an agent set up from what the mock
      server prints executes the server's command file, over the poll and over the
      WebSocket, uploads its whole backlog, and delivers its reports; with another
      token everything is an authentication error.  Over a network that loses and
      delays ([AgentSystem]) each command still runs at most once, each terminal
      report gets there at least once unless the queue overflows, from every state
      the queue can be drained, and a command whose goroutine has ended has its
      outcome in the server's log or on the way there, a stalled drain its notice
      ([Outcomes]); the reports have to be UTF-8 for that.  The WebSocket has the
      read limits of both ends, and reports sent over it reach the server's log.
    - Connections and the process: HTTP replies are classified by status, the
      WebSocket carries commands and reports only after the server's ack accepted
      the hello,
      reconnects with bounded delays and notices a dead peer within 55 seconds,
      readiness means synced caches, reader and writer credentials stay apart, the
      subsystems run and stop together (a shutdown takes at most twelve steps
      besides timers that fire and calls that still succeed), and Load accepts exactly the well-formed
      configurations ([HttpClient], [WsClient], [WsLoops], [HealthServer],
      [Startup], [Lifecycle], [Config]).
    - Where the code falls short of its documentation a theorem says so:
      [policy_not_enforced] (the validator is never called), [race_runs_twice],
      [spill_overtaken], [stale_after_overflow], [failed_number_goes_to_snapshot], [annotations_of_secrets_leave],
      [stamp_drops_annotations], [null_in_new_map_survives],
      [ready_without_tunnel].

    ** Parameters

    Code outside the repository is a class: [Ed25519] with [Ed25519Laws],
    [EventCodec] (JSON lines of the spill file) with its laws, [BatchSender] (an
    upload), [PushChannel], [Unstructured] with [UnstructuredLaws],
    [Quantities] (resource.Quantity) with [QuantityLaws], [Decoders] (YAML and
    JSON of payloads), [Cluster], [Transport] and [Messages] (net/http),
    [Sockets] and [Frames] (the WebSocket library), [KubeClients] (client-go's
    constructors).  [HttpClient.http_sender] and [WsClient.ws_push] are the
    instances the agent uses for [BatchSender] and [PushChannel], and [Codecs] has
    those for [EventCodec], [Messages] and [Frames]; [ControlPlane] has a
    [Transport] and [Sockets] that lead to the mock server.  Every theorem
    with such hypotheses is applied to a concrete instance in an example module
    of its file or of [Operator].

    ** Fuel and bounds

    An eviction is retried until the stall timeout; [HandleCommand] takes the
    number of attempts as fuel, and [handle_command_returns] proves that
    [drain_fuel], the stall timeout divided by the two-second pause, is enough
    on every cluster whose clock runs ([RunningClock]).  [snapshot_loop] has the
    number of events as fuel, each round sends at least one, and
    [run_once_refines] shows that it never runs out.  [run_until_idle] takes the
    number of rounds; [mock_uploads_drain] proves that one more than the events
    left over is enough.  [readLoop] reads as many frames as its fuel says and
    [WsLoops.Run] and [PollLoop.Run] make as many attempts; the theorems hold for
    every fuel, or are on the step relation, which has no bound.  The JSON parser nests as deep as
    encoding/json, 10000 levels.  Random draws, clock readings and the outcome
    of file-system calls are arguments, so theorems hold for all of them.

    ** Not modelled

    Log lines; cancellation of contexts beyond the places where it changes a
    result, and in [Lifecycle] every wait of a Run function; crashes of a goroutine
    beyond the [Panic] of the definitions that can; net/http, client-go, Helm, the WebSocket library and Prometheus, which
    are parameters; main functions, which parse flags, print and exit.  In [Wire] a
    key that occurs twice in an object is read as encoding/json does, and error
    texts of encoding/json are a parameter.

    In [AgentSystem] and [Outcomes] a cache lookup is one step, and the uploader is
    left out: it shares no state with the commands, and [Inventory] has its own end
    of the server.  There a snapshot reads all caches at one instant and a batch
    that is not acknowledged arrives before the next one is sent or never; the table
    is not in the sources and follows SERVER.md. *)

From Stdlib Require Import Ascii.
From stdpp Require Export base gmap strings list fin_maps sorting.

(** ** Scopes and notations *)

Declare Scope go_scope.
Delimit Scope go_scope with go.

(** Go's boolean string equality, [a == b]. *)
Notation "a =s b" := (String.eqb a b) (at level 70, no associativity) : go_scope.
(** Go's string concatenation. *)
Infix "^^" := String.append (at level 60, right associativity) : go_scope.
Open Scope go_scope.

(** ** Hint databases of the development *)

Create HintDb agent.
Create Rewrite HintDb agent_strings.

(** ** Tactics *)

(** Turns boolean tests of the code into the propositions they decide. *)
Ltac bool_to_prop :=
  repeat match goal with
  | H : (_ && _)%bool = true |- _ => apply andb_true_iff in H; destruct H
  | H : (_ || _)%bool = false |- _ => apply orb_false_iff in H; destruct H
  | H : (_ =s _) = true |- _ => apply String.eqb_eq in H
  | H : (_ =s _) = false |- _ => apply String.eqb_neq in H
  | H : negb _ = true |- _ => apply negb_true_iff in H
  | H : negb _ = false |- _ => apply negb_false_iff in H
  | H : (_ <=? _)%Z = true |- _ => apply Z.leb_le in H
  | H : (_ <=? _)%Z = false |- _ => apply Z.leb_gt in H
  | H : (_ <? _)%Z = true |- _ => apply Z.ltb_lt in H
  | H : (_ <? _)%Z = false |- _ => apply Z.ltb_ge in H
  | H : (_ <=? _)%nat = true |- _ => apply Nat.leb_le in H
  | H : (_ <=? _)%nat = false |- _ => apply Nat.leb_gt in H
  | H : (_ <? _)%nat = true |- _ => apply Nat.ltb_lt in H
  | H : (_ <? _)%nat = false |- _ => apply Nat.ltb_ge in H
  | H : bool_decide _ = true |- _ => apply bool_decide_eq_true in H
  | H : bool_decide _ = false |- _ => apply bool_decide_eq_false in H
  end.

(** Case analysis on the innermost scrutinee of the goal, recording the
    equation and cleaning up the impossible branches. *)
Ltac case_goal :=
  match goal with
  | |- context [match ?x with _ => _ end] =>
      lazymatch x with
      | context [match _ with _ => _ end] => fail
      | _ => destruct x eqn:?
      end
  end; simplify_eq/=.

Ltac case_hyp H :=
  match type of H with
  | context [match ?x with _ => _ end] =>
      lazymatch x with
      | context [match _ with _ => _ end] => fail
      | _ => destruct x eqn:?
      end
  end; simplify_eq/=.

(** ** Strings *)

Lemma eqb_refl_string (s : string) : (s =s s) = true.
Proof. apply String.eqb_refl. Qed.

Lemma string_eqb_true (a b : string) : (a =s b) = true <-> a = b.
Proof. apply String.eqb_eq. Qed.

Lemma string_eqb_false (a b : string) : (a =s b) = false <-> a <> b.
Proof. apply String.eqb_neq. Qed.

Lemma string_app_cons x (a b : string) : String x a ^^ b = String x (a ^^ b).
Proof. done. Qed.

Lemma string_app_nil_l (a : string) : "" ^^ a = a.
Proof. done. Qed.

Lemma string_app_assoc (a b c : string) : (a ^^ b) ^^ c = a ^^ b ^^ c.
Proof. induction a as [|x a IH]; [done|]. by rewrite !string_app_cons, IH. Qed.

Lemma string_app_nil_r (a : string) : a ^^ "" = a.
Proof. induction a as [|x a IH]; [done|]. by rewrite !string_app_cons, IH. Qed.

Lemma string_length_app (a b : string) :
  String.length (a ^^ b) = (String.length a + String.length b)%nat.
Proof. induction a as [|x a IH]; [done|]. rewrite string_app_cons. simpl. by rewrite IH. Qed.

Lemma string_app_inv_l (s a b : string) : s ^^ a = s ^^ b -> a = b.
Proof.
  induction s as [|x s IH]; [done|]. rewrite !string_app_cons. intros; simplify_eq; auto.
Qed.

(** Equal-length prefixes of equal concatenations are equal. *)
Lemma string_app_inj (a b a' b' : string) :
  String.length a = String.length a' ->
  a ^^ b = a' ^^ b' -> a = a' /\ b = b'.
Proof.
  revert a'; induction a as [|x a IH]; intros [|y a'] Hl Heq; simpl in *;
    rewrite ?string_app_cons, ?string_app_nil_l in Heq; simplify_eq; [done|].
  destruct (IH a') as [-> ->]; auto.
Qed.

(** [has_char c s]: the byte [c] occurs in [s]. *)
Fixpoint has_char (c : ascii) (s : string) : bool :=
  match s with
  | EmptyString => false
  | String x s' => Ascii.eqb x c || has_char c s'
  end.

Lemma has_char_app c (a b : string) :
  has_char c (a ^^ b) = has_char c a || has_char c b.
Proof.
  induction a as [|x a IH]; [done|]. rewrite string_app_cons. simpl. by rewrite IH, orb_assoc.
Qed.

(** A separator-terminated prefix without the separator is determined. *)
Lemma string_sep_inj c (a a' b b' : string) :
  has_char c a = false -> has_char c a' = false ->
  a ^^ String c b = a' ^^ String c b' -> a = a' /\ b = b'.
Proof.
  revert a'; induction a as [|x a IH]; intros [|y a'] Ha Ha' Heq; simpl in *;
    rewrite ?string_app_cons, ?string_app_nil_l in Heq; simplify_eq; bool_to_prop; [done| | |].
  - by rewrite Ascii.eqb_refl in *.
  - by rewrite Ascii.eqb_refl in *.
  - destruct (IH a') as [-> ->]; auto.
Qed.

#[export] Hint Rewrite string_app_cons string_app_nil_l string_app_assoc string_app_nil_r string_length_app
  has_char_app eqb_refl_string : agent_strings.

(** ** Machine integers *)

Definition int64_min : Z := -(2 ^ 63).
Definition int64_max : Z := 2 ^ 63 - 1.

(** Two's complement wrap-around of Go's [int64] arithmetic. *)
Definition wrap64 (z : Z) : Z := ((z + 2 ^ 63) mod 2 ^ 64 - 2 ^ 63)%Z.

(** Wrap-around of a conversion to Go's [int32]. *)
Definition wrap32 (z : Z) : Z := ((z + 2 ^ 31) mod 2 ^ 32 - 2 ^ 31)%Z.

Definition in_int64 (z : Z) : Prop := (int64_min <= z <= int64_max)%Z.

Lemma wrap64_range z : in_int64 (wrap64 z).
Proof.
  unfold in_int64, int64_min, int64_max, wrap64.
  pose proof (Z.mod_pos_bound (z + 2 ^ 63) (2 ^ 64) ltac:(lia)). lia.
Qed.

Lemma wrap64_id z : in_int64 z -> wrap64 z = z.
Proof.
  unfold in_int64, int64_min, int64_max, wrap64. intros H.
  rewrite Z.mod_small; lia.
Qed.

Lemma wrap64_cong z : exists k, (wrap64 z = z + k * 2 ^ 64)%Z.
Proof.
  exists (- ((z + 2 ^ 63) / 2 ^ 64))%Z. unfold wrap64.
  pose proof (Z.div_mod (z + 2 ^ 63) (2 ^ 64) ltac:(lia)). lia.
Qed.

Lemma wrap32_id z : (- 2 ^ 31 <= z < 2 ^ 31)%Z -> wrap32 z = z.
Proof. unfold wrap32. intros H. rewrite Z.mod_small; lia. Qed.

(** ** Go outcomes *)

(** A Go call returns or panics (a nil dereference, an index out of range). *)
Inductive outcome (A : Type) : Type :=
| Done (a : A)
| Panic.
Arguments Done {A} _.
Arguments Panic {A}.

Definition outcome_bind {A B} (m : outcome A) (f : A -> outcome B) : outcome B :=
  match m with Done a => f a | Panic => Panic end.

(** ** Lists *)

(** [last_n n l]: the last [n] elements of [l], all of it when shorter. *)
Definition last_n {A} (n : nat) (l : list A) : list A := drop (length l - n) l.

Lemma submseteq_NoDup {A} (l k : list A) : l ⊆+ k -> NoDup k -> NoDup l.
Proof. intros [k' ->]%submseteq_Permutation Hk. by apply NoDup_app in Hk as [? _]. Qed.

Lemma last_n_length {A} n (l : list A) : length (last_n n l) = min n (length l).
Proof. unfold last_n. rewrite length_drop. lia. Qed.

Lemma last_n_all {A} n (l : list A) : (length l <= n)%nat -> last_n n l = l.
Proof. intros H. unfold last_n. by replace (length l - n)%nat with 0%nat by lia. Qed.

Lemma last_n_suffix {A} n (l : list A) : exists p, l = p ++ last_n n l.
Proof. exists (take (length l - n) l). unfold last_n. by rewrite take_drop. Qed.

(** Pushing at the back of a full window drops its oldest element. *)
Lemma last_n_snoc {A} n (l : list A) x :
  (0 < n)%nat ->
  last_n n (l ++ [x]) =
  (if (n <=? length (last_n n l))%nat then drop 1 (last_n n l) else last_n n l) ++ [x].
Proof.
  intros Hn. rewrite last_n_length.
  unfold last_n at 1. rewrite length_app. simpl.
  destruct (Nat.leb_spec n (min n (length l))) as [H|H].
  - unfold last_n. rewrite drop_drop.
    replace (length l - n + 1)%nat with (length l + 1 - n)%nat by lia.
    rewrite drop_app_le by lia. done.
  - rewrite last_n_all by lia.
    replace (length l + 1 - n)%nat with 0%nat by lia. done.
Qed.

Lemma elem_of_last_n {A} n (l : list A) x : x ∈ last_n n l -> x ∈ l.
Proof.
  intros H. destruct (last_n_suffix n l) as [p Hp]. rewrite Hp. set_solver.
Qed.

#[export] Hint Resolve elem_of_last_n wrap64_range wrap64_id wrap32_id : agent.
