(* ===== verification/GoStrings.v ===== *)
(** * Go's string and byte helpers used by the agent

    The agent uses [strings], [strconv], [fmt], [encoding/hex] and
    [encoding/base64] of the Go standard library.  A Go string (and a [[]byte])
    is a sequence of bytes: here a [string] of [ascii].  Every function below is
    executable and behaves as the library documents it on byte strings; the
    case and white-space tables are the ASCII ones (the agent applies them to
    kind names, tokens and decimal numbers). *)

From Stdlib Require Import Ascii.
From S2P Require Import Prelude.

(** ** Characters *)

Definition chr (n : nat) : ascii := ascii_of_nat n.
Definition newline : ascii := chr 10.
Definition quote : ascii := chr 34.
Definition nl : string := String newline "".

(** ** [strings] *)

Fixpoint HasPrefix (s prefix : string) : bool :=
  match prefix, s with
  | EmptyString, _ => true
  | String p prefix', String c s' => Ascii.eqb c p && HasPrefix s' prefix'
  | String _ _, EmptyString => false
  end.

Fixpoint skip (n : nat) (s : string) : string :=
  match n, s with
  | S n', String _ s' => skip n' s'
  | _, _ => s
  end.

Fixpoint take_bytes (n : nat) (s : string) : string :=
  match n, s with
  | S n', String c s' => String c (take_bytes n' s')
  | _, _ => ""
  end.

Definition TrimPrefix (s prefix : string) : string :=
  if HasPrefix s prefix then skip (String.length prefix) s else s.

Fixpoint rev_string (s acc : string) : string :=
  match s with
  | EmptyString => acc
  | String c s' => rev_string s' (String c acc)
  end.

Fixpoint trim_left (f : ascii -> bool) (s : string) : string :=
  match s with
  | String c s' => if f c then trim_left f s' else s
  | EmptyString => ""
  end.

Definition trim_right (f : ascii -> bool) (s : string) : string :=
  rev_string (trim_left f (rev_string s "")) "".

(** [strings.TrimRight(s, "/")]. *)
Definition TrimRightSlash (s : string) : string := trim_right (Ascii.eqb "/") s.

Definition is_space (c : ascii) : bool :=
  let n := nat_of_ascii c in
  ((9 <=? n) && (n <=? 13))%nat || (n =? 32)%nat.

Definition TrimSpace (s : string) : string := trim_right is_space (trim_left is_space s).

Definition lower_ascii (c : ascii) : ascii :=
  let n := nat_of_ascii c in
  if ((65 <=? n) && (n <=? 90))%nat then chr (n + 32) else c.

Fixpoint ToLower (s : string) : string :=
  match s with
  | EmptyString => ""
  | String c s' => String (lower_ascii c) (ToLower s')
  end.

Fixpoint Contains (s sub : string) : bool :=
  HasPrefix s sub ||
  match s with
  | EmptyString => false
  | String _ s' => Contains s' sub
  end.

(** [strings.Split(s, sep)] for a one-byte separator: never empty. *)
Fixpoint Split (sep : ascii) (s : string) : list string :=
  match s with
  | EmptyString => [""]
  | String c s' =>
      let parts := Split sep s' in
      if Ascii.eqb c sep then "" :: parts
      else match parts with
           | p :: ps => String c p :: ps
           | [] => [String c ""]
           end
  end.

Fixpoint Join (elems : list string) (sep : string) : string :=
  match elems with
  | [] => ""
  | [e] => e
  | e :: es => e ^^ sep ^^ Join es sep
  end.

(** [msg[:strings.IndexByte(msg, c)]] when [c] occurs, [msg] otherwise. *)
Fixpoint upto_byte (c : ascii) (s : string) : string :=
  match s with
  | EmptyString => ""
  | String x s' => if Ascii.eqb x c then "" else String x (upto_byte c s')
  end.

(** ** [strconv] *)

Definition digit (n : Z) : ascii := chr (48 + Z.to_nat n).

(** Decimal digits of a non-negative number, most significant first; the fuel
    bounds the number of digits. *)
Fixpoint digits_fuel (fuel : nat) (n : Z) (acc : string) : string :=
  match fuel with
  | O => acc
  | S f =>
      let acc' := String (digit (n mod 10)) acc in
      if (n <? 10)%Z then acc' else digits_fuel f (n / 10) acc'
  end.

Definition format_nat (n : Z) : string := digits_fuel (S (Z.to_nat (Z.log2 (n + 1)))) n "".

(** [strconv.FormatInt(n, 10)] and the [%d] verb. *)
Definition FormatInt (n : Z) : string :=
  if (n <? 0)%Z then String "-" (format_nat (- n)) else format_nat n.

Definition digit_val (c : ascii) : option Z :=
  let n := nat_of_ascii c in
  if ((48 <=? n) && (n <=? 57))%nat then Some (Z.of_nat n - 48)%Z else None.

Fixpoint parse_digits (s : string) (acc : Z) : option Z :=
  match s with
  | EmptyString => Some acc
  | String c s' => d ← digit_val c; parse_digits s' (acc * 10 + d)
  end.

Definition parse_unsigned (s : string) : option Z :=
  match s with
  | EmptyString => None
  | _ => parse_digits s 0
  end.

(** [strconv.ParseInt(s, 10, 64)]: an optional sign, digits, in range. *)
Definition ParseInt (s : string) : option Z :=
  match
    match s with
    | String c s' =>
        if Ascii.eqb c "-" then Z.opp <$> parse_unsigned s'
        else if Ascii.eqb c "+" then parse_unsigned s'
        else parse_unsigned s
    | EmptyString => None
    end
  with
  | Some n => if ((int64_min <=? n) && (n <=? int64_max))%Z then Some n else None
  | None => None
  end.

(** [strconv.ParseBool]. *)
Definition ParseBool (s : string) : option bool :=
  if existsb (String.eqb s) ["1"; "t"; "T"; "TRUE"; "true"; "True"] then Some true
  else if existsb (String.eqb s) ["0"; "f"; "F"; "FALSE"; "false"; "False"] then Some false
  else None.

(** The [%t] verb. *)
Definition format_bool (b : bool) : string := if b then "true" else "false".

(** The [%q] verb on strings of printable ASCII without quotes or backslashes. *)
Definition quoted (s : string) : string := String quote (s ^^ String quote "").

(** ** [encoding/hex] *)

Definition hex_digit (n : nat) : ascii := if (n <? 10)%nat then chr (48 + n) else chr (87 + n).

(** [hex.EncodeToString] and the [%x] verb on bytes. *)
Fixpoint hex_encode (s : string) : string :=
  match s with
  | EmptyString => ""
  | String c s' =>
      let n := nat_of_ascii c in
      String (hex_digit (n / 16)) (String (hex_digit (n mod 16)) (hex_encode s'))
  end.

Definition hex_val (c : ascii) : option nat :=
  let n := nat_of_ascii c in
  if ((48 <=? n) && (n <=? 57))%nat then Some (n - 48)%nat
  else if ((97 <=? n) && (n <=? 102))%nat then Some (n - 87)%nat
  else if ((65 <=? n) && (n <=? 70))%nat then Some (n - 55)%nat
  else None.

(** [hex.DecodeString]: an error on odd length or on a non-hex byte. *)
Fixpoint hex_decode (s : string) : option string :=
  match s with
  | EmptyString => Some ""
  | String a (String b s') =>
      h ← hex_val a; l ← hex_val b; r ← hex_decode s';
      Some (String (chr (16 * h + l)) r)
  | String _ EmptyString => None
  end.

(** ** [encoding/base64], the standard padded alphabet *)

Definition b64_digit (n : nat) : ascii :=
  if (n <? 26)%nat then chr (65 + n)
  else if (n <? 52)%nat then chr (71 + n)
  else if (n <? 62)%nat then chr (n - 4)
  else if (n =? 62)%nat then "+"%char else "/"%char.

Definition b64_val (c : ascii) : option nat :=
  let n := nat_of_ascii c in
  if ((65 <=? n) && (n <=? 90))%nat then Some (n - 65)%nat
  else if ((97 <=? n) && (n <=? 122))%nat then Some (n - 71)%nat
  else if ((48 <=? n) && (n <=? 57))%nat then Some (n + 4)%nat
  else if (n =? 43)%nat then Some 62%nat
  else if (n =? 47)%nat then Some 63%nat
  else None.

Fixpoint b64_encode (s : string) : string :=
  match s with
  | EmptyString => ""
  | String a EmptyString =>
      let n := nat_of_ascii a in
      String (b64_digit (n / 4)) (String (b64_digit (n mod 4 * 16)) "==")
  | String a (String b EmptyString) =>
      let n := nat_of_ascii a in let m := nat_of_ascii b in
      String (b64_digit (n / 4)) (String (b64_digit (n mod 4 * 16 + m / 16))
        (String (b64_digit (m mod 16 * 4)) "="))
  | String a (String b (String c s')) =>
      let n := nat_of_ascii a in let m := nat_of_ascii b in let k := nat_of_ascii c in
      String (b64_digit (n / 4)) (String (b64_digit (n mod 4 * 16 + m / 16))
        (String (b64_digit (m mod 16 * 4 + k / 64)) (String (b64_digit (k mod 64)) (b64_encode s'))))
  end.

(** [base64.StdEncoding] ignores the line breaks of its input. *)
Fixpoint drop_newlines (s : string) : string :=
  match s with
  | EmptyString => ""
  | String c s' =>
      if Ascii.eqb c newline || Ascii.eqb c (chr 13) then drop_newlines s'
      else String c (drop_newlines s')
  end.

(** Decoding of full quanta; padding ends the input. *)
Fixpoint b64_quanta (s : string) : option string :=
  match s with
  | EmptyString => Some ""
  | String a (String b (String c (String d s'))) =>
      x ← b64_val a; y ← b64_val b;
      let hi := chr (x * 4 + y / 16) in
      if Ascii.eqb c "=" then
        if Ascii.eqb d "=" then
          match s' with EmptyString => Some (String hi "") | _ => None end
        else None
      else
        z ← b64_val c;
        let mid := chr (y mod 16 * 16 + z / 4) in
        if Ascii.eqb d "=" then
          match s' with EmptyString => Some (String hi (String mid "")) | _ => None end
        else
          w ← b64_val d;
          r ← b64_quanta s';
          Some (String hi (String mid (String (chr (z mod 4 * 64 + w)) r)))
  | _ => None
  end.

Definition b64_decode (s : string) : option string := b64_quanta (drop_newlines s).

(** ** Facts: round trips of the encodings *)

Lemma HasPrefix_app a b : HasPrefix (a ^^ b) a = true.
Proof. induction a as [|x a IH]; [by destruct b|]. rewrite string_app_cons. cbn. by rewrite Ascii.eqb_refl. Qed.

Lemma nat_of_chr n : (n < 256)%nat -> nat_of_ascii (chr n) = n.
Proof. apply nat_ascii_embedding. Qed.

Lemma chr_nat_of a : chr (nat_of_ascii a) = a.
Proof. apply ascii_nat_embedding. Qed.

Lemma chr_eq n a : n = nat_of_ascii a -> chr n = a.
Proof. intros ->. apply chr_nat_of. Qed.

Lemma byte_bound a : (nat_of_ascii a < 256)%nat.
Proof. apply nat_ascii_bounded. Qed.

(** Decides a statement about all naturals below a constant by evaluation. *)
Lemma forallb_below (f : nat -> bool) n :
  forallb f (seq 0 n) = true -> forall i, (i < n)%nat -> f i = true.
Proof.
  intros H i Hi. rewrite forallb_forall in H. apply H, in_seq. lia.
Qed.

Lemma hex_val_digit n : (n < 16)%nat -> hex_val (hex_digit n) = Some n.
Proof.
  intros H. apply (bool_decide_eq_true_1 (hex_val (hex_digit n) = Some n)).
  revert n H. apply (forallb_below (fun n => bool_decide (hex_val (hex_digit n) = Some n))).
  vm_compute. reflexivity.
Qed.

Lemma b64_val_digit n : (n < 64)%nat -> b64_val (b64_digit n) = Some n.
Proof.
  intros H. apply (bool_decide_eq_true_1 (b64_val (b64_digit n) = Some n)).
  revert n H. apply (forallb_below (fun n => bool_decide (b64_val (b64_digit n) = Some n))).
  vm_compute. reflexivity.
Qed.

Lemma b64_digit_plain n : (n < 64)%nat ->
  Ascii.eqb (b64_digit n) newline || Ascii.eqb (b64_digit n) (chr 13)
  || Ascii.eqb (b64_digit n) "=" = false.
Proof.
  intros H. apply negb_true_iff.
  revert n H. apply (forallb_below (fun n => negb (Ascii.eqb (b64_digit n) newline
    || Ascii.eqb (b64_digit n) (chr 13) || Ascii.eqb (b64_digit n) "="))).
  vm_compute. reflexivity.
Qed.

Lemma hex_digit_not_newline n : (n < 16)%nat -> Ascii.eqb (hex_digit n) newline = false.
Proof.
  intros H. apply negb_true_iff.
  revert n H. apply (forallb_below (fun n => negb (Ascii.eqb (hex_digit n) newline))).
  vm_compute. reflexivity.
Qed.

(** Arithmetic on the halves and quanta of bytes. *)
Ltac byte_arith :=
  repeat match goal with
  | |- context [nat_of_ascii ?a] =>
      lazymatch goal with
      | _ : (nat_of_ascii a < 256)%nat |- _ => fail
      | _ => pose proof (byte_bound a)
      end
  end;
  repeat match goal with
  | |- context [(?x / ?k)%nat] =>
      lazymatch goal with
      | _ : x = (k * (x / k) + x mod k)%nat |- _ => fail
      | _ => pose proof (Nat.div_mod_eq x k); pose proof (Nat.mod_upper_bound x k ltac:(lia))
      end
  | |- context [(?x mod ?k)%nat] =>
      lazymatch goal with
      | _ : x = (k * (x / k) + x mod k)%nat |- _ => fail
      | _ => pose proof (Nat.div_mod_eq x k); pose proof (Nat.mod_upper_bound x k ltac:(lia))
      end
  end; lia.

Lemma hex_decode_encode (s : string) : hex_decode (hex_encode s) = Some s.
Proof.
  induction s as [|c s IH]; [done|]. cbn [hex_encode hex_decode].
  pose proof (byte_bound c).
  rewrite !hex_val_digit by byte_arith.
  cbn [mbind option_bind]. rewrite IH. cbn [mbind option_bind]. do 2 f_equal.
  apply chr_eq. byte_arith.
Qed.

Lemma hex_encode_inj (a b : string) : hex_encode a = hex_encode b -> a = b.
Proof.
  intros H. apply (f_equal hex_decode) in H. rewrite !hex_decode_encode in H. congruence.
Qed.

Lemma hex_encode_no_newline (s : string) : has_char newline (hex_encode s) = false.
Proof.
  induction s as [|c s IH]; [done|]. cbn [hex_encode has_char].
  pose proof (byte_bound c).
  rewrite !hex_digit_not_newline, IH by byte_arith. done.
Qed.

Lemma hex_encode_length (s : string) : String.length (hex_encode s) = (2 * String.length s)%nat.
Proof. induction s as [|c s IH]; simpl; lia. Qed.

(** Induction on strings three bytes at a time, the quantum of base64. *)
Lemma string_ind3 (P : string -> Prop) :
  P "" -> (forall a, P (String a "")) -> (forall a b, P (String a (String b ""))) ->
  (forall a b c s, P s -> P (String a (String b (String c s)))) -> forall s, P s.
Proof.
  intros H0 H1 H2 H3. fix IH 1. intros [|a [|b [|c s]]]; [exact H0|apply H1|apply H2|apply H3, IH].
Qed.

Lemma drop_newlines_b64_digit n s :
  (n < 64)%nat -> drop_newlines (String (b64_digit n) s) = String (b64_digit n) (drop_newlines s).
Proof.
  intros H. cbn [drop_newlines]. pose proof (b64_digit_plain n H) as Hp.
  apply orb_false_iff in Hp as [-> _]. done.
Qed.

Lemma b64_digit_not_pad n : (n < 64)%nat -> Ascii.eqb (b64_digit n) "=" = false.
Proof. intros H. pose proof (b64_digit_plain n H) as Hp. by apply orb_false_iff in Hp as [_ ->]. Qed.

Lemma b64_decode_encode (s : string) : b64_decode (b64_encode s) = Some s.
Proof.
  unfold b64_decode. induction s as [|a|a b|a b c s IH] using string_ind3; [done| | |];
    cbn [b64_encode];
    rewrite ?drop_newlines_b64_digit by byte_arith; cbn [b64_quanta drop_newlines];
    rewrite ?b64_digit_not_pad, ?b64_val_digit by byte_arith; cbn [mbind option_bind];
    rewrite ?b64_digit_not_pad, ?b64_val_digit by byte_arith; cbn [mbind option_bind];
    rewrite ?b64_digit_not_pad, ?b64_val_digit by byte_arith; cbn [mbind option_bind];
    rewrite ?IH; cbn [mbind option_bind]; repeat f_equal;
    apply chr_eq; byte_arith.
Qed.

(** ** Facts: decimal numbers *)

Lemma digit_val_digit n : (0 <= n < 10)%Z -> digit_val (digit n) = Some n.
Proof.
  intros H. unfold digit, digit_val. rewrite nat_of_chr by lia.
  destruct (Nat.leb_spec 48 (48 + Z.to_nat n)), (Nat.leb_spec (48 + Z.to_nat n) 57);
    simpl; try lia. f_equal. lia.
Qed.

Lemma parse_digits_fuel fuel n acc k :
  (0 <= n)%Z -> (n < 10 ^ Z.of_nat fuel)%Z -> (0 < fuel)%nat ->
  exists m, parse_digits (digits_fuel fuel n acc) k = parse_digits acc (k * m + n) /\ (0 < m)%Z.
Proof.
  revert n acc k. induction fuel as [|f IH]; intros n acc k Hn Hb Hf; [lia|].
  cbn [digits_fuel]. pose proof (Z.mod_pos_bound n 10 ltac:(lia)).
  pose proof (Z.div_mod n 10 ltac:(lia)) as Hdm.
  destruct (Z.ltb_spec n 10) as [Hlt|Hge].
  - exists 10%Z. cbn [parse_digits]. rewrite digit_val_digit by lia. cbn.
    split; [|lia]. f_equal. rewrite Z.mod_small by lia. lia.
  - assert (0 < f)%nat by (destruct f; [cbn in Hb|]; lia).
    assert (n / 10 < 10 ^ Z.of_nat f)%Z.
    { rewrite Nat2Z.inj_succ, Z.pow_succ_r in Hb by lia. apply Z.div_lt_upper_bound; lia. }
    destruct (IH (n / 10)%Z (String (digit (n mod 10)) acc) k) as (m & Hm & Hpos); [|lia..|].
    { apply Z.div_pos; lia. }
    exists (m * 10)%Z. rewrite Hm. cbn [parse_digits]. rewrite digit_val_digit by lia.
    cbn. split; [|lia]. f_equal. lia.
Qed.

Lemma digit_neq d c : (0 <= d < 10)%Z -> digit_val c = None -> Ascii.eqb (digit d) c = false.
Proof.
  intros Hd Hc. apply Ascii.eqb_neq. intros <-. by rewrite digit_val_digit in Hc.
Qed.

Lemma digits_fuel_head fuel n acc :
  (0 < fuel)%nat -> exists d s, (0 <= d < 10)%Z /\ digits_fuel fuel n acc = String (digit d) s.
Proof.
  revert n acc. induction fuel as [|f IH]; intros n acc Hf; [lia|]. cbn [digits_fuel].
  pose proof (Z.mod_pos_bound n 10 ltac:(lia)).
  destruct (n <? 10)%Z; [by eauto|].
  destruct f as [|f]; [cbn; by eauto|]. apply IH. lia.
Qed.

Lemma digits_fuel_no_char c fuel n acc :
  digit_val c = None -> has_char c acc = false -> has_char c (digits_fuel fuel n acc) = false.
Proof.
  intros Hc. revert n acc. induction fuel as [|f IH]; intros n acc Hacc; [done|].
  cbn [digits_fuel]. pose proof (Z.mod_pos_bound n 10 ltac:(lia)).
  assert (has_char c (String (digit (n mod 10)) acc) = false).
  { cbn [has_char]. by rewrite digit_neq. }
  destruct (n <? 10)%Z; auto.
Qed.

Lemma format_fuel_enough n : (0 <= n)%Z -> (n < 10 ^ Z.of_nat (S (Z.to_nat (Z.log2 (n + 1)))))%Z.
Proof.
  intros H. pose proof (Z.log2_nonneg (n + 1)).
  rewrite Nat2Z.inj_succ, Z2Nat.id by lia.
  pose proof (Z.log2_spec (n + 1) ltac:(lia)) as [_ Hs].
  pose proof (Z.pow_le_mono_l 2 10 (Z.succ (Z.log2 (n + 1))) ltac:(lia)). lia.
Qed.

Lemma parse_format_nat n : (0 <= n)%Z -> parse_digits (format_nat n) 0 = Some n.
Proof.
  intros H. unfold format_nat.
  destruct (parse_digits_fuel (S (Z.to_nat (Z.log2 (n + 1)))) n "" 0 H) as (m & -> & _);
    [by apply format_fuel_enough | lia | done].
Qed.

Lemma format_nat_head n : exists d s, (0 <= d < 10)%Z /\ format_nat n = String (digit d) s.
Proof. apply digits_fuel_head. lia. Qed.

(** [ParseInt] inverts [FormatInt] on the whole [int64] range. *)
Lemma ParseInt_FormatInt n : in_int64 n -> ParseInt (FormatInt n) = Some n.
Proof.
  unfold in_int64. intros Hr. unfold FormatInt, ParseInt.
  destruct (Z.ltb_spec n 0) as [Hn|Hn]; cbn [Ascii.eqb].
  - change (Ascii.eqb "-" "-") with true. cbn [fmap option_fmap option_map].
    destruct (format_nat_head (- n)) as (d & s & Hd & Hs).
    unfold parse_unsigned. rewrite Hs, <- Hs, parse_format_nat by lia. cbn.
    rewrite Z.opp_involutive.
    destruct (Z.leb_spec int64_min n), (Z.leb_spec n int64_max); simpl; lia || done.
  - destruct (format_nat_head n) as (d & s & Hd & Hs). rewrite Hs, !digit_neq by done.
    unfold parse_unsigned. rewrite <- Hs, parse_format_nat by lia.
    destruct (Z.leb_spec int64_min n), (Z.leb_spec n int64_max); simpl; lia || done.
Qed.

Lemma FormatInt_inj a b : in_int64 a -> in_int64 b -> FormatInt a = FormatInt b -> a = b.
Proof.
  intros Ha Hb H. apply (f_equal ParseInt) in H.
  rewrite !ParseInt_FormatInt in H by done. congruence.
Qed.

Lemma FormatInt_no_char c n :
  digit_val c = None -> c <> "-"%char -> has_char c (FormatInt n) = false.
Proof.
  intros Hc Hm. unfold FormatInt, format_nat.
  destruct (n <? 0)%Z; cbn [has_char]; rewrite ?digits_fuel_no_char by done; [|done].
  rewrite orb_false_r. apply Ascii.eqb_neq. done.
Qed.

Lemma FormatInt_no_newline n : has_char newline (FormatInt n) = false.
Proof. by apply FormatInt_no_char. Qed.

(** ** Facts: trimming *)

Lemma trim_left_id (f : ascii -> bool) (s : string) :
  (match s with String c _ => f c = false | EmptyString => True end) -> trim_left f s = s.
Proof. destruct s as [|c s]; simpl; [done|]. by intros ->. Qed.

Lemma rev_string_app (s a b : string) : rev_string s (a ^^ b) = rev_string s a ^^ b.
Proof.
  revert a. induction s as [|c s IH]; intros a; [done|]. simpl.
  by rewrite <- IH, string_app_cons.
Qed.

Lemma rev_string_involutive (s a : string) : rev_string (rev_string s a) "" = rev_string a s.
Proof.
  revert a. induction s as [|c s IH]; intros a; simpl; [done|]. by rewrite IH.
Qed.

Lemma has_char_rev c (s a : string) : has_char c (rev_string s a) = has_char c s || has_char c a.
Proof.
  revert a. induction s as [|x s IH]; intros a; simpl; [done|].
  rewrite IH. simpl. by rewrite !orb_assoc, (orb_comm (has_char c s)).
Qed.

(** A string without any trimmed byte is left alone on both sides. *)
Lemma trim_none (f : ascii -> bool) (s : string) :
  (forall c, f c = true -> has_char c s = false) ->
  trim_left f s = s /\ trim_right f s = s.
Proof.
  intros H.
  assert (forall t, (forall c, f c = true -> has_char c t = false) -> trim_left f t = t) as Hl.
  { intros [|c t] Ht; [done|]. apply trim_left_id. destruct (f c) eqn:Hf; [|done].
    specialize (Ht c Hf). simpl in Ht. by rewrite Ascii.eqb_refl in Ht. }
  split; [by apply Hl|]. unfold trim_right. rewrite Hl.
  - by rewrite rev_string_involutive.
  - intros c Hc. rewrite has_char_rev, H by done. done.
Qed.

Lemma space_no_digit c : is_space c = true -> digit_val c = None.
Proof.
  unfold is_space, digit_val. intros Hc. pose proof (byte_bound c).
  destruct (Nat.leb_spec 48 (nat_of_ascii c)); simpl; [|done].
  destruct (Nat.leb_spec 9 (nat_of_ascii c)), (Nat.leb_spec (nat_of_ascii c) 13),
    (Nat.eqb_spec (nat_of_ascii c) 32); simpl in Hc; lia || done.
Qed.

Lemma TrimSpace_FormatInt n : TrimSpace (FormatInt n) = FormatInt n.
Proof.
  unfold TrimSpace. destruct (trim_none is_space (FormatInt n)) as [-> ->]; [|done].
  intros c Hc. apply FormatInt_no_char.
  - by apply space_no_digit.
  - intros ->. vm_compute in Hc. done.
Qed.

(** ** Facts: hexadecimal text read as base64 *)

Lemma hex_digit_plain n : (n < 16)%nat ->
  Ascii.eqb (hex_digit n) newline || Ascii.eqb (hex_digit n) (chr 13)
  || Ascii.eqb (hex_digit n) "=" = false.
Proof.
  intros H. apply negb_true_iff.
  revert n H. apply (forallb_below (fun n => negb (Ascii.eqb (hex_digit n) newline
    || Ascii.eqb (hex_digit n) (chr 13) || Ascii.eqb (hex_digit n) "="))).
  vm_compute. reflexivity.
Qed.

Lemma hex_encode_plain (s : string) :
  drop_newlines (hex_encode s) = hex_encode s /\ has_char "=" (hex_encode s) = false.
Proof.
  induction s as [|c s [IH1 IH2]]; [done|]. cbn [hex_encode drop_newlines has_char].
  pose proof (hex_digit_plain (nat_of_ascii c / 16) ltac:(byte_arith)) as H1.
  pose proof (hex_digit_plain (nat_of_ascii c mod 16) ltac:(byte_arith)) as H2.
  apply orb_false_iff in H1 as [-> ->], H2 as [-> ->]. by rewrite IH1, IH2.
Qed.

(** Unpadded base64 decodes four bytes to three. *)
Lemma b64_quanta_length_fuel n (s r : string) :
  (String.length s <= n)%nat -> has_char "=" s = false -> b64_quanta s = Some r ->
  (4 * String.length r = 3 * String.length s)%nat.
Proof.
  revert s r. induction n as [|n IH]; intros s r Hn Hc H;
    destruct s as [|a [|b [|c [|d s]]]]; simpl in Hn; try lia; simplify_eq/=; [done|done|].
  bool_to_prop.
  repeat match goal with H : (_ || _)%bool = false |- _ => apply orb_false_iff in H as [? ?] end.
  repeat match goal with
  | E : Ascii.eqb ?c "=" = false, H' : context [Ascii.eqb ?c "="] |- _ =>
      lazymatch H' with E => fail | _ => rewrite E in H' end
  end.
  destruct (b64_val a); simplify_eq/=. destruct (b64_val b); simplify_eq/=.
  destruct (b64_val c); simplify_eq/=. destruct (b64_val d); simplify_eq/=.
  destruct (b64_quanta s) as [r'|] eqn:E; simplify_eq/=.
  apply IH in E; [lia|lia|done].
Qed.

(** ** Facts: a number cut short *)

Lemma take_bytes_split n (s : string) : exists rest, s = take_bytes n s ^^ rest.
Proof.
  revert s. induction n as [|n IH]; intros s; [by exists s|]. destruct s as [|c s]; [by exists ""|].
  destruct (IH s) as [rest Hr]. exists rest. cbn [take_bytes]. rewrite string_app_cons. by f_equal.
Qed.

Lemma has_char_take c n (s : string) : has_char c s = false -> has_char c (take_bytes n s) = false.
Proof.
  revert s. induction n as [|n IH]; intros [|x s]; cbn; try done. intros [Hx Hs]%orb_false_iff. by rewrite Hx, IH.
Qed.

Lemma digit_val_range c d : digit_val c = Some d -> (0 <= d < 10)%Z.
Proof.
  unfold digit_val. destruct (Nat.leb_spec 48 (nat_of_ascii c)), (Nat.leb_spec (nat_of_ascii c) 57); cbn; try done.
  intros [= <-]. lia.
Qed.

Lemma parse_digits_app (a b : string) k : parse_digits (a ^^ b) k = (v ← parse_digits a k; parse_digits b v).
Proof.
  revert k. induction a as [|c a IH]; intros k; [done|]. rewrite string_app_cons. cbn [parse_digits].
  destruct (digit_val c); cbn; [apply IH|done].
Qed.

Lemma parse_digits_grows (s : string) k v : (0 <= k)%Z -> parse_digits s k = Some v -> (k <= v)%Z.
Proof.
  revert k. induction s as [|c s IH]; intros k Hk; cbn [parse_digits]; [intros [= ->]; lia|].
  destruct (digit_val c) as [d|] eqn:Hd; [|done]. apply digit_val_range in Hd. cbn. intros Hv.
  apply IH in Hv; lia.
Qed.

(** A prefix of a printed number reads as a number that is not larger, or not at
    all. *)
Lemma ParseInt_cut n m :
  (0 <= m)%Z ->
  match ParseInt (TrimSpace (take_bytes n (FormatInt m))) with Some k => (0 <= k <= m)%Z | None => True end.
Proof.
  intros Hm. unfold TrimSpace. destruct (trim_none is_space (take_bytes n (FormatInt m))) as [-> ->].
  { intros c Hc. apply has_char_take, FormatInt_no_char; [by apply space_no_digit|]. intros ->. vm_compute in Hc. done. }
  unfold FormatInt. rewrite (proj2 (Z.ltb_ge _ _)) by lia.
  destruct (take_bytes_split n (format_nat m)) as [rest Hr]. pose proof (parse_format_nat m Hm) as Hp.
  rewrite Hr, parse_digits_app in Hp. set (t := take_bytes n (format_nat m)) in *.
  destruct (parse_digits t 0) as [k|] eqn:Hk; [|done]. cbn in Hp.
  pose proof (parse_digits_grows _ _ _ (Z.le_refl 0) Hk). apply parse_digits_grows in Hp; [|done].
  unfold ParseInt. destruct t as [|c t'] eqn:Ht; [done|].
  assert (Ascii.eqb c "-" = false /\ Ascii.eqb c "+" = false) as [-> ->].
  { split; apply Ascii.eqb_neq; intros ->; by cbn in Hk. }
  unfold parse_unsigned. rewrite Hk. by destruct (_ && _).
Qed.

(** ** Facts: splitting *)

Lemma Split_nonempty c s : Split c s <> [].
Proof. destruct s as [|x s]; simpl; [done|]. destruct (Ascii.eqb x c); [done|]. by destruct (Split c s). Qed.

Lemma Split_sep c (a b : string) :
  has_char c a = false -> Split c (a ^^ String c b) = a :: Split c b.
Proof.
  induction a as [|x a IH]; intros Ha.
  - rewrite string_app_nil_l. simpl. by rewrite Ascii.eqb_refl.
  - simpl in Ha. apply orb_false_iff in Ha as [Hx Ha].
    rewrite string_app_cons. cbn [Split]. by rewrite Hx, IH.
Qed.

(** A string does not end in a byte it does not contain. *)
Lemma rev_string_head (s : string) c s' :
  rev_string s "" = String c s' -> has_char c s = true.
Proof.
  intros Hr. pose proof (has_char_rev c s "") as Hc. rewrite Hr in Hc. simpl in Hc.
  rewrite Ascii.eqb_refl, orb_false_r in Hc. done.
Qed.
