(* ===== verification/Sha256.v ===== *)
(** * SHA-256 (FIPS 180-4), the hash of Go's [crypto/sha256]

    [sha256.Sum256] is used by the drift detector and by the canonical signing
    payload.  The function below computes it on byte strings; it is checked
    against published test vectors by evaluation. *)

From Stdlib Require Import Ascii.
From S2P Require Import Prelude GoStrings.
Local Open Scope Z_scope.

(** 32-bit words are kept in [0, 2^32). *)
Definition w32 (x : Z) : Z := Z.land x 4294967295.
Definition add32 (x y : Z) : Z := w32 (x + y).
Definition rotr32 (n x : Z) : Z := Z.lor (Z.shiftr x n) (w32 (Z.shiftl x (32 - n))).

Definition big_sigma0 (x : Z) : Z := Z.lxor (rotr32 2 x) (Z.lxor (rotr32 13 x) (rotr32 22 x)).
Definition big_sigma1 (x : Z) : Z := Z.lxor (rotr32 6 x) (Z.lxor (rotr32 11 x) (rotr32 25 x)).
Definition small_sigma0 (x : Z) : Z := Z.lxor (rotr32 7 x) (Z.lxor (rotr32 18 x) (Z.shiftr x 3)).
Definition small_sigma1 (x : Z) : Z := Z.lxor (rotr32 17 x) (Z.lxor (rotr32 19 x) (Z.shiftr x 10)).
Definition choose (x y z : Z) : Z := Z.lxor z (Z.land x (Z.lxor y z)).
Definition majority (x y z : Z) : Z := Z.lxor (Z.land x y) (Z.lxor (Z.land x z) (Z.land y z)).

Definition round_constants : list Z :=
  [1116352408; 1899447441; 3049323471; 3921009573; 961987163; 1508970993; 2453635748; 2870763221;
   3624381080; 310598401; 607225278; 1426881987; 1925078388; 2162078206; 2614888103; 3248222580;
   3835390401; 4022224774; 264347078; 604807628; 770255983; 1249150122; 1555081692; 1996064986;
   2554220882; 2821834349; 2952996808; 3210313671; 3336571891; 3584528711; 113926993; 338241895;
   666307205; 773529912; 1294757372; 1396182291; 1695183700; 1986661051; 2177026350; 2456956037;
   2730485921; 2820302411; 3259730800; 3345764771; 3516065817; 3600352804; 4094571909; 275423344;
   430227734; 506948616; 659060556; 883997877; 958139571; 1322822218; 1537002063; 1747873779;
   1955562222; 2024104815; 2227730452; 2361852424; 2428436474; 2756734187; 3204031479; 3329325298].

Definition initial_state : list Z :=
  [1779033703; 3144134277; 1013904242; 2773480762; 1359893119; 2600822924; 528734635; 1541459225].

(** The message schedule as a sliding window of sixteen words. *)
Definition next_word (w : list Z) : Z :=
  let nth i := nth i w 0 in
  add32 (add32 (small_sigma1 (nth 14%nat)) (nth 9%nat)) (add32 (small_sigma0 (nth 1%nat)) (nth 0%nat)).

Definition sha_round (st : list Z * list Z) (k : Z) : list Z * list Z :=
  match st with
  | ([a; b; c; d; e; f; g; h], (w :: ws) as win) =>
      let t1 := add32 (add32 h (big_sigma1 e)) (add32 (add32 (choose e f g) k) w) in
      let t2 := add32 (big_sigma0 a) (majority a b c) in
      ([add32 t1 t2; a; b; c; add32 d t1; e; f; g], ws ++ [next_word win])
  | _ => st
  end.

Definition compress (h block : list Z) : list Z :=
  zip_with add32 h (foldl sha_round (h, block) round_constants).1.

Fixpoint words_of_bytes (bs : list Z) : list Z :=
  match bs with
  | a :: b :: c :: d :: r => (((a * 256 + b) * 256 + c) * 256 + d) :: words_of_bytes r
  | _ => []
  end.

Fixpoint be_bytes (n : nat) (x : Z) : list Z :=
  match n with
  | O => []
  | S n' => be_bytes n' (Z.shiftr x 8) ++ [Z.land x 255]
  end.

Definition pad (bs : list Z) : list Z :=
  let len := Z.of_nat (length bs) in
  bs ++ [128] ++ replicate (Z.to_nat ((55 - len) mod 64)) 0 ++ be_bytes 8 (len * 8).

(** The fuel is the number of words: every block consumes sixteen of them. *)
Fixpoint process_blocks (fuel : nat) (h ws : list Z) : list Z :=
  match fuel, ws with
  | S f, _ :: _ => process_blocks f (compress h (take 16 ws)) (drop 16 ws)
  | _, _ => h
  end.

Definition bytes_of_string (s : string) : list Z :=
  Z.of_nat ∘ nat_of_ascii <$> String.list_ascii_of_string s.

Definition string_of_bytes (bs : list Z) : string :=
  String.string_of_list_ascii ((chr ∘ Z.to_nat) <$> bs).

(** [sha256.Sum256]: the 32 digest bytes. *)
Definition Sum256 (s : string) : string :=
  let ws := words_of_bytes (pad (bytes_of_string s)) in
  string_of_bytes (process_blocks (length ws) initial_state ws ≫= be_bytes 4).

(** The [%x] rendering of the digest. *)
Definition sha256hex (s : string) : string := hex_encode (Sum256 s).

(** FIPS 180-4 test vectors: zero, one and two blocks. *)
Example sha256_empty :
  sha256hex "" = "e3b0c44298fc1c149afbf4c8996fb92427ae41e4649b934ca495991b7852b855".
Proof. vm_compute. reflexivity. Qed.

Example sha256_abc :
  sha256hex "abc" = "ba7816bf8f01cfea414140de5dae2223b00361a396177a9cb410ff61f20015ad".
Proof. vm_compute. reflexivity. Qed.

Example sha256_two_blocks :
  sha256hex "abcdbcdecdefdefgefghfghighijhijkijkljklmklmnlmnomnopnopq" =
  "248d6a61d20638b8e5c026930c3e6039a33ce45964ff2167f6ecedd419db06c1".
Proof. vm_compute. reflexivity. Qed.

(** ** The digest has a fixed width *)

Lemma be_bytes_length n x : length (be_bytes n x) = n.
Proof.
  revert x. induction n as [|n IH]; intros x; [done|]. simpl. rewrite length_app, IH. simpl. lia.
Qed.

Lemma sha_round_length st k : length (sha_round st k).1 = length st.1.
Proof.
  destruct st as [l ws].
  do 9 (destruct l as [|? l]; [try done|]); try done. by destruct ws.
Qed.

Lemma foldl_round_length ks st : length (foldl sha_round st ks).1 = length st.1.
Proof.
  revert st. induction ks as [|k ks IH]; intros st; [done|]. simpl.
  by rewrite IH, sha_round_length.
Qed.

Lemma compress_length h b : length (compress h b) = length h.
Proof.
  unfold compress. rewrite length_zip_with, foldl_round_length. simpl. lia.
Qed.

Lemma process_blocks_length fuel h ws : length (process_blocks fuel h ws) = length h.
Proof.
  revert h ws. induction fuel as [|f IH]; intros h [|w ws]; [done..|].
  cbn [process_blocks]. by rewrite IH, compress_length.
Qed.

Lemma length_string_of_bytes bs : String.length (string_of_bytes bs) = length bs.
Proof.
  unfold string_of_bytes. induction bs as [|b bs IH]; [done|].
  cbn [fmap list_fmap String.string_of_list_ascii String.length]. by rewrite IH.
Qed.

Lemma bind_be_bytes_length n (l : list Z) : length (l ≫= be_bytes n) = (length l * n)%nat.
Proof.
  induction l as [|x l IH]; [done|].
  rewrite bind_cons, length_app, IH, be_bytes_length. done.
Qed.

Lemma Sum256_length s : String.length (Sum256 s) = 32%nat.
Proof.
  unfold Sum256. by rewrite length_string_of_bytes, bind_be_bytes_length, process_blocks_length.
Qed.

Lemma sha256hex_length s : String.length (sha256hex s) = 64%nat.
Proof. unfold sha256hex. by rewrite hex_encode_length, Sum256_length. Qed.

Lemma sha256hex_no_newline s : has_char newline (sha256hex s) = false.
Proof. apply hex_encode_no_newline. Qed.

#[export] Hint Resolve sha256hex_no_newline FormatInt_no_newline : agent.
