(* ===== verification/GoTime.v ===== *)
(** * Go's [time] package as the agent uses it

    A [Duration] is an [int64] count of nanoseconds.  A [Time] is what the
    package stores for a wall-clock instant: seconds since year 1 as an
    [int64], and nanoseconds within the second.  [Unix], [Add], [Equal],
    [Before] and [Sub] follow the package's arithmetic, wrap-around and
    saturation included, because the command-timestamp check feeds them an
    [int64] chosen by the control plane. *)

From Stdlib Require Import Ascii.
From S2P Require Import Prelude GoStrings.
Local Open Scope Z_scope.

Definition Nanosecond : Z := 1.
Definition Second : Z := 1000000000.
Definition Minute : Z := 60 * Second.
Definition Hour : Z := 60 * Minute.

Definition minDuration : Z := int64_min.
Definition maxDuration : Z := int64_max.

(** Seconds from year 1 to the Unix epoch. *)
Definition unixToInternal : Z := 62135596800.

Record Time := mkTime { t_sec : Z; t_nsec : Z }.

(** [time.Unix(sec, 0)]. *)
Definition Unix (sec : Z) : Time := mkTime (wrap64 (sec + unixToInternal)) 0.

(** [t.Unix()]. *)
Definition ToUnix (t : Time) : Z := wrap64 (t_sec t - unixToInternal).

(** [t.addSec]: saturating. *)
Definition addSec (s d : Z) : Z :=
  let sum := wrap64 (s + d) in
  if Bool.eqb (s <? sum) (0 <? d) then sum
  else if 0 <? d then int64_max else - int64_max.

Definition Add (t : Time) (d : Z) : Time :=
  let dsec := Z.quot d Second in
  let nsec := t_nsec t + Z.rem d Second in
  if Second <=? nsec then mkTime (addSec (t_sec t) (dsec + 1)) (nsec - Second)
  else if nsec <? 0 then mkTime (addSec (t_sec t) (dsec - 1)) (nsec + Second)
  else mkTime (addSec (t_sec t) dsec) nsec.

Definition Equal (t u : Time) : bool := (t_sec t =? t_sec u) && (t_nsec t =? t_nsec u).

Definition Before (t u : Time) : bool :=
  (t_sec t <? t_sec u) || ((t_sec t =? t_sec u) && (t_nsec t <? t_nsec u)).

(** [t.Sub(u)] on wall-clock times: exact when representable, else saturated. *)
Definition Sub (t u : Time) : Z :=
  let d := wrap64 (wrap64 (wrap64 (t_sec t - t_sec u) * Second) + (t_nsec t - t_nsec u)) in
  if Equal (Add u d) t then d
  else if Before t u then minDuration
  else maxDuration.

(** Nanoseconds since year 1. *)
Definition instant (t : Time) : Z := t_sec t * Second + t_nsec t.

(** A clock reading of this era: after the Unix epoch and before year 36800. *)
Definition sane (t : Time) : Prop :=
  unixToInternal <= t_sec t < unixToInternal + 2 ^ 40 /\ 0 <= t_nsec t < Second.

(** [d.Round(time.Second)]. *)
Definition RoundSecond (d : Z) : Z :=
  let r := Z.rem d Second in
  if d <? 0 then
    let r := - r in
    if r + r <? Second then d + r
    else let d1 := wrap64 (d - Second + r) in if d1 <? d then d1 else minDuration
  else
    if r + r <? Second then d - r
    else let d1 := wrap64 (d + Second - r) in if d <? d1 then d1 else maxDuration.

(** ** ParseDuration *)

Fixpoint span (f : ascii -> bool) (s : string) : string * string :=
  match s with
  | EmptyString => ("", "")
  | String c s' => if f c then let '(a, b) := span f s' in (String c a, b) else ("", s)
  end.

Definition is_digit (c : ascii) : bool := bool_decide (is_Some (digit_val c)).

Definition units : list (string * Z) :=
  [("ns", 1); ("us", 1000); (String (chr 194) (String (chr 181) "s"), 1000);
   (String (chr 206) (String (chr 188) "s"), 1000);
   ("ms", 1000000); ("s", Second); ("m", Minute); ("h", Hour)].

Fixpoint assoc (u : string) (l : list (string * Z)) : option Z :=
  match l with
  | [] => None
  | (k, v) :: l' => if u =s k then Some v else assoc u l'
  end.

(** One [number unit] group: its value in nanoseconds and the rest.  The
    fraction is evaluated exactly. *)
Definition parse_group (s : string) : option (Z * string) :=
  let '(ip, s1) := span is_digit s in
  let '(dot, fp, s2) :=
    match s1 with
    | String c s1' => if Ascii.eqb c "." then let '(fp, s2) := span is_digit s1' in (true, fp, s2)
                      else (false, "", s1)
    | EmptyString => (false, "", "")
    end in
  if (ip =s "") && (fp =s "") then None
  else
    let '(u, s3) := span (fun c => negb (Ascii.eqb c "." || is_digit c)) s2 in
    if u =s "" then None
    else
      unit ← assoc u units;
      v ← parse_digits ip 0;
      f ← parse_digits fp 0;
      if 2 ^ 63 <? v then None
      else if 2 ^ 63 / unit <? v then None
      else
        let w := v * unit + f * unit / 10 ^ Z.of_nat (String.length fp) in
        if 2 ^ 63 <? w then None else Some (w, s3).

(** The fuel is the length of the text: every group consumes a byte. *)
Fixpoint parse_groups (fuel : nat) (s : string) (d : Z) : option Z :=
  match s, fuel with
  | EmptyString, _ => Some d
  | _, O => None
  | _, S f =>
      '(v, s') ← parse_group s;
      if 2 ^ 63 <? d + v then None else parse_groups f s' (d + v)
  end.

Definition ParseDuration (s : string) : option Z :=
  let '(neg, s) :=
    match s with
    | String c s' => if Ascii.eqb c "-" then (true, s') else if Ascii.eqb c "+" then (false, s') else (false, s)
    | EmptyString => (false, "")
    end in
  if s =s "0" then Some 0
  else if s =s "" then None
  else
    d ← parse_groups (String.length s) s 0;
    if neg : bool then Some (- d) else if int64_max <? d then None else Some d.

Example ParseDuration_ex :
  (ParseDuration "30s", ParseDuration "1h15m", ParseDuration "1.5s", ParseDuration "-2m", ParseDuration "15",
   ParseDuration "9223372036854775808ns") =
  (Some (30 * Second), Some (75 * Minute), Some 1500000000, Some (- 2 * Minute), None, None).
Proof. vm_compute. reflexivity. Qed.

(** ** Facts on [Sub] *)

Lemma addSec_exact s d :
  in_int64 s -> in_int64 (s + d) -> addSec s d = s + d.
Proof.
  intros Hs Hd. unfold addSec. rewrite wrap64_id by done.
  destruct (Z.ltb_spec s (s + d)), (Z.ltb_spec 0 d); simpl; lia.
Qed.

(** [addSec] either adds exactly or lands on an extreme of the range. *)
Lemma addSec_cases s d :
  in_int64 s -> in_int64 d ->
  addSec s d = s + d \/ addSec s d = int64_max \/ addSec s d = - int64_max.
Proof.
  unfold in_int64, int64_min, int64_max. intros Hs Hd. unfold addSec.
  destruct (decide (in_int64 (s + d))) as [Hr|Hr].
  - rewrite wrap64_id by done. left.
    destruct (Z.ltb_spec s (s + d)), (Z.ltb_spec 0 d); simpl; lia.
  - destruct (wrap64_cong (s + d)) as [k Hk]. pose proof (wrap64_range (s + d)) as Hw.
    rewrite Hk in *. unfold in_int64, int64_min, int64_max in *.
    destruct (Z.ltb_spec s (s + d + k * 2 ^ 64)), (Z.ltb_spec 0 d); simpl; auto; exfalso; lia.
Qed.

Lemma quot_rem_bounds d : in_int64 d ->
  d = Second * Z.quot d Second + Z.rem d Second /\ - Second < Z.rem d Second < Second /\
  - 10 ^ 10 < Z.quot d Second < 10 ^ 10.
Proof.
  intros Hd. pose proof (Z.quot_rem d Second ltac:(discriminate)).
  pose proof (Z.rem_bound_abs d Second ltac:(discriminate)).
  unfold in_int64, int64_min, int64_max, Second in *. lia.
Qed.

Lemma Add_Equal_instant u d t :
  in_int64 (t_sec u) -> 0 <= t_nsec u < Second -> in_int64 d -> sane t ->
  Equal (Add u d) t = true -> instant t = instant u + d.
Proof.
  intros Hu Hn Hd [Ht Htn]. destruct (quot_rem_bounds d Hd) as (Hqr & Hr & Hq).
  unfold Equal, Add, instant. intros Heq.
  assert (forall e, - 10 ^ 10 - 1 <= e <= 10 ^ 10 + 1 -> t_sec t = addSec (t_sec u) e -> t_sec t = t_sec u + e) as Hsec.
  { intros e He Hs. destruct (addSec_cases (t_sec u) e Hu) as [H|[H|H]];
      unfold in_int64, int64_min, int64_max, unixToInternal in *; lia. }
  destruct (Z.leb_spec Second (t_nsec u + Z.rem d Second)) as [H1|H1];
    [|destruct (Z.ltb_spec (t_nsec u + Z.rem d Second) 0) as [H2|H2]];
    cbn [t_sec t_nsec] in Heq; apply andb_true_iff in Heq as [Es En];
    apply Z.eqb_eq in Es, En; symmetry in Es; apply Hsec in Es; lia.
Qed.

Lemma Add_exact u d t :
  in_int64 (t_sec u) -> 0 <= t_nsec u < Second -> in_int64 d -> sane t ->
  instant t = instant u + d -> Equal (Add u d) t = true.
Proof.
  intros Hu Hn Hd [Ht Htn] Hi. destruct (quot_rem_bounds d Hd) as (Hqr & Hr & Hq).
  unfold instant in Hi. unfold Equal, Add.
  unfold in_int64, int64_min, int64_max, unixToInternal, Second in *.
  destruct (Z.leb_spec 1000000000 (t_nsec u + Z.rem d 1000000000));
    [|destruct (Z.ltb_spec (t_nsec u + Z.rem d 1000000000) 0)]; cbn [t_sec t_nsec];
    rewrite addSec_exact by (unfold in_int64, int64_min, int64_max; lia);
    apply andb_true_iff; split; apply Z.eqb_eq; lia.
Qed.

(** [Sub] is exact whenever it is not saturated, and a saturated result is
    beyond any window narrower than the [int64] range. *)
Lemma Sub_window t u m :
  sane t -> in_int64 (t_sec u) -> 0 <= t_nsec u < Second -> 0 <= m <= Hour ->
  (- m <= Sub t u <= m <-> - m <= instant t - instant u <= m).
Proof.
  intros Ht Hu Hn Hm. unfold Sub.
  set (d := wrap64 _).
  assert (in_int64 d) as Hd by apply wrap64_range.
  destruct (Equal (Add u d) t) eqn:He.
  - apply Add_Equal_instant in He; auto. lia.
  - assert (~ (- m <= instant t - instant u <= m)) as Hout.
    { intros Hin. assert (d = instant t - instant u) as Hdi.
      { subst d. destruct Ht as [Hts Htn]. unfold instant in *.
        unfold in_int64, int64_min, int64_max, unixToInternal, Hour, Minute, Second in *.
        rewrite (wrap64_id (t_sec t - t_sec u)) by (unfold in_int64, int64_min, int64_max; lia).
        rewrite (wrap64_id (_ * _)) by (unfold in_int64, int64_min, int64_max; lia).
        rewrite wrap64_id by (unfold in_int64, int64_min, int64_max; lia). lia. }
      rewrite Add_exact in He; try done. lia. }
    unfold minDuration, maxDuration, int64_min, int64_max, Hour, Minute, Second in *.
    destruct (Before t u); lia.
Qed.

(** The age of an [int64] Unix timestamp lies in a window exactly when the true
    difference does: the wrap-around of [time.Unix] never lets one in. *)
Lemma Since_Unix_window t ts m :
  sane t -> in_int64 ts -> 0 <= m <= Hour ->
  (- m <= Sub t (Unix ts) <= m <-> - m <= instant t - (ts + unixToInternal) * Second <= m).
Proof.
  intros Ht Hts Hm.
  rewrite Sub_window; [|done|apply wrap64_range|split; [done|reflexivity]|done].
  unfold instant at 2 4. cbn [Unix t_sec t_nsec].
  destruct (wrap64_cong (ts + unixToInternal)) as [k Hk].
  pose proof (wrap64_range (ts + unixToInternal)) as Hr. rewrite Hk in *.
  destruct Ht as [Hs Hn]. unfold instant.
  unfold in_int64, int64_min, int64_max, unixToInternal, Hour, Minute, Second in *.
  destruct (Z.eq_dec k 0) as [->|Hk0]; lia.
Qed.

(** ** [Duration.String] *)

(** [n] zero-padded to [prec] decimal digits. *)
Fixpoint pad_digits (prec : nat) (n : Z) (acc : string) : string :=
  match prec with
  | O => acc
  | S p => pad_digits p (n / 10) (String (digit (n mod 10)) acc)
  end.

(** The integer and the fraction of [v / 10^prec], trailing zeros dropped. *)
Definition fmt_frac (v : Z) (prec : nat) : string :=
  let p := 10 ^ Z.of_nat prec in
  let frac := trim_right (Ascii.eqb "0") (pad_digits prec (v mod p) "") in
  FormatInt (v / p) ^^ (if frac =s "" then "" else "." ^^ frac).

Definition Duration_String (d : Z) : string :=
  let u := Z.abs d in
  let body :=
    if u =? 0 then "0s"
    else if u <? 1000 then FormatInt u ^^ "ns"
    else if u <? 1000000 then fmt_frac u 3 ^^ String (chr 194) (String (chr 181) "s")
    else if u <? Second then fmt_frac u 6 ^^ "ms"
    else
      let s := u / Second in
      let sec := fmt_frac (s mod 60 * Second + u mod Second) 9 ^^ "s" in
      let m := s / 60 in
      if m =? 0 then sec
      else
        let h := m / 60 in
        (if h =? 0 then "" else FormatInt h ^^ "h") ^^ FormatInt (m mod 60) ^^ "m" ^^ sec in
  if d <? 0 then "-" ^^ body else body.

Example Duration_String_ex :
  (Duration_String (5 * Minute), Duration_String (- 3661 * Second), Duration_String maxDuration,
   Duration_String 1500000) = ("5m0s", "-1h1m1s", "2562047h47m16.854775807s", "1.5ms").
Proof. vm_compute. reflexivity. Qed.

(** A duration that has elapsed shows in [Sub], saturated or not. *)
Lemma Sub_elapsed t u d :
  sane t -> sane u -> 0 <= d <= int64_max -> d <= instant t - instant u -> d <= Sub t u.
Proof.
  intros Ht Hu Hd Hi. unfold Sub. set (s := wrap64 _). assert (in_int64 s) as Hs by apply wrap64_range.
  destruct Hu as [Hus Hun]. assert (in_int64 (t_sec u)) as Hu64.
  { unfold in_int64, int64_min, int64_max, unixToInternal in *. lia. }
  destruct (Equal (Add u s) t) eqn:E.
  - apply (Add_Equal_instant u s t) in E; [lia|done..].
  - destruct (Before t u) eqn:B; [|unfold maxDuration; lia]. exfalso.
    destruct Ht as [_ Htn]. unfold Before, instant, Second in *.
    destruct (Z.ltb_spec (t_sec t) (t_sec u)); [lia|].
    cbn [orb] in B. destruct (Z.eqb_spec (t_sec t) (t_sec u)); [|done]. cbn [andb] in B. bool_to_prop. lia.
Qed.
