(* ===== verification/Json.v ===== *)
(** * JSON-shaped values

    [map[string]interface{}] trees, the content of every Kubernetes object the
    agent handles, and [encoding/json]'s [Marshal] on them.  Maps are stdpp
    finite maps, so two objects are equal exactly when Go's [reflect.DeepEqual]
    says so.  A number is kept as the text [Marshal] prints for it. *)

From Stdlib Require Import Ascii.
From S2P Require Import Prelude GoStrings.

(** ** Values *)

Inductive json :=
| JNull
| JBool (b : bool)
| JNum (literal : string)
| JStr (s : string)
| JArr (elems : list json)
| JObj (fields : gmap string json).

(** An object: [map[string]interface{}]. *)
Abbreviation obj := (gmap string json).

(** The number of nodes, a measure for induction through maps. *)
Fixpoint jsize (j : json) : nat :=
  match j with
  | JArr l => S (foldr (fun v n => jsize v + n)%nat 0 l)
  | JObj m => S (map_fold (fun _ v n => jsize v + n)%nat 0 m)
  | _ => 1
  end.

Lemma jsize_field (m : obj) k v : m !! k = Some v -> (jsize v < jsize (JObj m))%nat.
Proof.
  intros Hk. cbn [jsize].
  rewrite (map_fold_delete_L (fun _ v n => jsize v + n)%nat 0 k v m) by (done || intros; lia). lia.
Qed.

Lemma jsize_elem l v : v ∈ l -> (jsize v < jsize (JArr l))%nat.
Proof. cbn [jsize]. induction 1 as [|v w l _ IH]; cbn [foldr]; lia. Qed.

(** Induction through arrays and maps. *)
Lemma json_induction (P : json -> Prop) :
  P JNull -> (forall b, P (JBool b)) -> (forall n, P (JNum n)) -> (forall s, P (JStr s)) ->
  (forall l, (forall v, v ∈ l -> P v) -> P (JArr l)) ->
  (forall m, (forall k v, m !! k = Some v -> P v) -> P (JObj m)) ->
  forall j, P j.
Proof.
  intros Hn Hb Hnum Hs Ha Ho.
  assert (forall n j, (jsize j < n)%nat -> P j) as Hgen; [|intros j; apply (Hgen (S (jsize j))); lia].
  induction n as [|n IH]; [lia|]. intros j Hj. destruct j as [| | | |l|m]; auto.
  - apply Ha. intros v Hv. apply IH. apply jsize_elem in Hv. lia.
  - apply Ho. intros k v Hv. apply IH. apply jsize_field in Hv. lia.
Qed.

(** Type assertions of the code. *)
Definition as_obj (v : option json) : option obj :=
  match v with
  | Some (JObj m) => Some m
  | _ => None
  end.

Definition as_str (v : option json) : option string :=
  match v with
  | Some (JStr s) => Some s
  | _ => None
  end.

(** ** json.Marshal *)

(** The bytes of the UTF-8 sequence at the head of [s], 0 when it is invalid
    (an overlong form, a surrogate, or beyond U+10FFFF). *)
Definition is_cont (a : ascii) : bool :=
  let n := nat_of_ascii a in (128 <=? n)%nat && (n <=? 191)%nat.

Definition rune_len (s : string) : nat :=
  match s with
  | EmptyString => 0
  | String a s1 =>
      let n := nat_of_ascii a in
      if (n <? 128)%nat then 1
      else
        match s1 with
        | EmptyString => 0
        | String b s2 =>
            let m := nat_of_ascii b in
            if ((194 <=? n) && (n <=? 223))%nat then if is_cont b then 2 else 0
            else
              match s2 with
              | EmptyString => 0
              | String c s3 =>
                  if ((224 <=? n) && (n <=? 239))%nat then
                    if is_cont b && is_cont c && negb ((n =? 224) && (m <? 160))%nat
                       && negb ((n =? 237) && (160 <=? m))%nat
                    then 3 else 0
                  else
                    match s3 with
                    | EmptyString => 0
                    | String d _ =>
                        if ((240 <=? n) && (n <=? 244))%nat then
                          if is_cont b && is_cont c && is_cont d && negb ((n =? 240) && (m <? 144))%nat
                             && negb ((n =? 244) && (144 <=? m))%nat
                          then 4 else 0
                        else 0
                    end
              end
        end
  end.

Definition backslash : ascii := chr 92.

(** A backslash followed by [u00] and the two hex digits of a byte. *)
Definition escape_u00 (n : nat) : string :=
  String backslash (String "u" (String "0" (String "0" (String (hex_digit (n / 16)) (String (hex_digit (n mod 16)) ""))))).

(** One byte below 128, with HTML escaping on. *)
Definition escape_ascii (a : ascii) : string :=
  let n := nat_of_ascii a in
  if (n =? 34)%nat || (n =? 92)%nat then String backslash (String a "")
  else if (n =? 8)%nat then String backslash "b"
  else if (n =? 12)%nat then String backslash "f"
  else if (n =? 10)%nat then String backslash "n"
  else if (n =? 13)%nat then String backslash "r"
  else if (n =? 9)%nat then String backslash "t"
  else if (n <? 32)%nat || (n =? 60)%nat || (n =? 62)%nat || (n =? 38)%nat then escape_u00 n
  else String a "".

(** U+2028 and U+2029. *)
Definition line_separator (s : string) : option string :=
  match s with
  | String a (String b (String c _)) =>
      if (nat_of_ascii a =? 226)%nat && (nat_of_ascii b =? 128)%nat then
        if (nat_of_ascii c =? 168)%nat then Some (String backslash "u2028")
        else if (nat_of_ascii c =? 169)%nat then Some (String backslash "u2029")
        else None
      else None
  | _ => None
  end.

(** The text for the sequence at the head of [s], of [rune_len s] bytes. *)
Definition escape_rune (s : string) : string :=
  match rune_len s, line_separator s with
  | O, _ => String backslash "ufffd"
  | 1, _ => match s with String a _ => escape_ascii a | EmptyString => "" end
  | _, Some t => t
  | n, None => take_bytes n s
  end.

(** The body of a JSON string; [done] bytes at the head belong to a sequence
    already written. *)
Fixpoint escape_body (s : string) (done : nat) : string :=
  match s with
  | EmptyString => ""
  | String _ s' =>
      match done with
      | S d => escape_body s' d
      | O => escape_rune s ^^ escape_body s' (rune_len s - 1)
      end
  end.

Definition marshal_string (s : string) : string := quoted (escape_body s 0).

Definition le_key (a b : string * string) : Prop := String.leb a.1 b.1 = true.

#[export] Instance le_key_dec : RelDecision le_key.
Proof. intros a b. unfold le_key. apply _. Defined.

(** The text of an object whose values are already written: keys in byte
    order. *)
Definition object_text (fields : list (string * string)) : string :=
  "{" ^^ Join ((fun '(k, v) => marshal_string k ^^ ":" ^^ v) <$> merge_sort le_key fields) "," ^^ "}".

(** json.Marshal. *)
Fixpoint Marshal (j : json) : string :=
  match j with
  | JNull => "null"
  | JBool b => format_bool b
  | JNum n => n
  | JStr s => marshal_string s
  | JArr l => "[" ^^ Join (map Marshal l) "," ^^ "]"
  | JObj m => object_text (map_fold (fun k v acc => (k, Marshal v) :: acc) [] m)
  end.

Definition marshal_obj (m : obj) : string := Marshal (JObj m).

Example marshal_sample :
  marshal_obj (<["b" := JArr [JNum "1"; JNull]]> (<["a" := JStr "x<y"]> ∅))
  = "{" ^^ quoted "a" ^^ ":" ^^ quoted ("x" ^^ String backslash "u003cy") ^^ "," ^^ quoted "b" ^^ ":[1,null]}".
Proof. vm_compute. reflexivity. Qed.
