(* ===== verification/JsonString.v ===== *)
(** * JSON strings: UTF-8 and encoding/json's reader

    What json.Unmarshal makes of a string literal ([read_string], with Go's
    treatment of escapes, surrogates and invalid UTF-8), and that it reads back
    what json.Marshal wrote.  A reader returns the rest of its input. *)

From Stdlib Require Import Ascii.
From S2P Require Import Prelude GoStrings Json.

(** ** Valid UTF-8 *)

(** [done] bytes at the head belong to a sequence already seen. *)
Fixpoint valid_from (s : string) (done : nat) : bool :=
  match s with
  | EmptyString => (done =? 0)%nat
  | String _ s' =>
      match done with
      | S d => valid_from s' d
      | O => negb (rune_len s =? 0)%nat && valid_from s' (rune_len s - 1)
      end
  end.
Definition valid_utf8 (s : string) : bool := valid_from s 0.

(** ** Reading *)

Definition byte (n : Z) : ascii := chr (Z.to_nat n).

(** unicode.ReplacementChar and utf8.AppendRune, for the runes a four-digit
    escape or a surrogate pair stands for. *)
Definition runeError : Z := 65533.
Definition encode_rune (r : Z) : string :=
  if (r <? 128)%Z then String (byte r) ""
  else if (r <? 2048)%Z then String (byte (192 + r / 64)) (String (byte (128 + r mod 64)) "")
  else if (r <? 65536)%Z then
    String (byte (224 + r / 4096)) (String (byte (128 + r / 64 mod 64)) (String (byte (128 + r mod 64)) ""))
  else
    String (byte (240 + r / 262144)) (String (byte (128 + r / 4096 mod 64))
      (String (byte (128 + r / 64 mod 64)) (String (byte (128 + r mod 64)) ""))).

(** Four hex digits. *)
Definition hex4 (s : string) : option Z :=
  match s with
  | String a (String b (String c (String d _))) =>
      x ← hex_val a; y ← hex_val b; z ← hex_val c; w ← hex_val d;
      Some (((Z.of_nat x * 16 + Z.of_nat y) * 16 + Z.of_nat z) * 16 + Z.of_nat w)%Z
  | _ => None
  end.

(** getu4: a backslash, [u] and four hex digits. *)
Definition getu4 (s : string) : option Z :=
  match s with
  | String a (String b s') => if Ascii.eqb a backslash && Ascii.eqb b "u" then hex4 s' else None
  | _ => None
  end.

(** utf16.IsSurrogate and utf16.DecodeRune. *)
Definition is_surrogate (r : Z) : bool := (55296 <=? r)%Z && (r <? 57344)%Z.
Definition decode_pair (r1 r2 : Z) : option Z :=
  if (55296 <=? r1)%Z && (r1 <? 56320)%Z && (56320 <=? r2)%Z && (r2 <? 57344)%Z
  then Some ((r1 - 55296) * 1024 + (r2 - 56320) + 65536)%Z
  else None.

(** The token at the head of a string body: what it stands for and its length. *)
Definition escape_token (s : string) : option (string * nat) :=
  match s with
  | EmptyString => None
  | String c s' =>
      if Ascii.eqb c quote || Ascii.eqb c backslash || Ascii.eqb c "/" then Some (String c "", 2)
      else if Ascii.eqb c "b" then Some (String (chr 8) "", 2)
      else if Ascii.eqb c "f" then Some (String (chr 12) "", 2)
      else if Ascii.eqb c "n" then Some (String (chr 10) "", 2)
      else if Ascii.eqb c "r" then Some (String (chr 13) "", 2)
      else if Ascii.eqb c "t" then Some (String (chr 9) "", 2)
      else if Ascii.eqb c "u" then
        match hex4 s' with
        | None => None
        | Some r =>
            if is_surrogate r then
              match getu4 (skip 4 s') ≫= decode_pair r with
              | Some p => Some (encode_rune p, 12)
              | None => Some (encode_rune runeError, 6)
              end
            else Some (encode_rune r, 6)
        end
      else None
  end.

Definition token (s : string) : option (string * nat) :=
  match s with
  | EmptyString => None
  | String a s' =>
      let n := nat_of_ascii a in
      if (n <? 32)%nat then None
      else if Ascii.eqb a backslash then escape_token s'
      else match rune_len s with
           | O => Some (encode_rune runeError, 1)
           | k => Some (take_bytes k s, k)
           end
  end.

Definition prepend (a : string) (r : option (string * string)) : option (string * string) :=
  match r with
  | Some (s, t) => Some (a ^^ s, t)
  | None => None
  end.

(** The body of a string literal up to its closing quote; [done] bytes at the
    head belong to a token already read. *)
Fixpoint read_body (t : string) (done : nat) : option (string * string) :=
  match t with
  | EmptyString => None
  | String a t' =>
      match done with
      | S d => read_body t' d
      | O =>
          if Ascii.eqb a quote then Some ("", t')
          else match token t with
               | Some (out, n) => prepend out (read_body t' (n - 1))
               | None => None
               end
      end
  end.

(** A string literal. *)
Definition read_string (t : string) : option (string * string) :=
  match t with
  | String a t' => if Ascii.eqb a quote then read_body t' 0 else None
  | EmptyString => None
  end.

Example reads :
  read_string (String quote (String backslash "u00e9" ^^ String backslash "ud83d" ^^ String backslash "ude00"
    ^^ String quote "!"))
  = Some (encode_rune 233 ^^ encode_rune 128512, "!").
Proof. vm_compute. reflexivity. Qed.

Example reads_lone_surrogate :
  read_string (String quote (String backslash "ud83dx" ^^ String quote "")) = Some (encode_rune runeError ^^ "x", "").
Proof. vm_compute. reflexivity. Qed.

(** ** One sequence at a time *)

Lemma take_skip n s : take_bytes n s ^^ skip n s = s.
Proof.
  revert s. induction n as [|n IH]; intros [|a s]; try done.
  cbn [take_bytes skip]. by rewrite string_app_cons, IH.
Qed.

Lemma skip_app (c t : string) : skip (String.length c) (c ^^ t) = t.
Proof. induction c as [|a c IH]; [by destruct t|]. rewrite string_app_cons. exact IH. Qed.

Lemma take_app (c t : string) : take_bytes (String.length c) (c ^^ t) = c.
Proof. induction c as [|a c IH]; [by destruct t|]. rewrite string_app_cons. cbn. by rewrite IH. Qed.

Lemma take_length n s : (n <= String.length s)%nat -> String.length (take_bytes n s) = n.
Proof.
  revert s. induction n as [|n IH]; intros [|a s] Hn; cbn in *; try lia. rewrite IH by lia. done.
Qed.

Lemma read_body_skip t d : read_body t d = read_body (skip d t) 0.
Proof. revert d. induction t as [|a t IH]; intros [|d]; try done. cbn [read_body skip]. apply IH. Qed.

Lemma escape_body_skip s d : escape_body s d = escape_body (skip d s) 0.
Proof. revert d. induction s as [|a s IH]; intros [|d]; try done. cbn [escape_body skip]. apply IH. Qed.

Lemma valid_from_skip s d : valid_from s d = true -> (d <= String.length s)%nat /\ valid_from (skip d s) 0 = true.
Proof.
  revert d. induction s as [|a s IH]; intros [|d] Hd; cbn in *; try done; try (split; [lia|done]).
  destruct (IH d Hd). split; [lia|done].
Qed.

Lemma valid_skip_from s d : (d <= String.length s)%nat -> valid_from s d = valid_from (skip d s) 0.
Proof.
  revert d. induction s as [|a s IH]; intros [|d] Hd; try done; [cbn in Hd; lia|].
  cbn [valid_from skip]. apply IH. cbn in Hd. lia.
Qed.

(** [c] is one complete sequence, whatever follows. *)
Definition one_rune (c : string) : Prop := c <> "" /\ forall u, rune_len (c ^^ u) = String.length c.

Lemma valid_one_rune c u : one_rune c -> valid_utf8 (c ^^ u) = valid_utf8 u.
Proof.
  intros [Hne Hc]. destruct c as [|a c]; [done|]. unfold valid_utf8. rewrite string_app_cons. cbn [valid_from].
  specialize (Hc u). rewrite string_app_cons in Hc. rewrite Hc. cbn [String.length Nat.eqb negb andb Nat.sub].
  rewrite Nat.sub_0_r, valid_skip_from, skip_app; [done|]. rewrite string_length_app. lia.
Qed.

(** The head of a valid string is one byte below 128, or bytes from 128 on. *)
Lemma rune_cases s :
  rune_len s <> 0%nat ->
  (rune_len s = 1 /\ exists a s', s = String a s' /\ nat_of_ascii a < 128)%nat \/
  ((2 <= rune_len s <= String.length s)%nat /\ one_rune (take_bytes (rune_len s) s) /\
   forall i a, String.get i (take_bytes (rune_len s) s) = Some a -> (128 <= nat_of_ascii a)%nat).
Proof.
  destruct s as [|a s1]; [done|]. unfold one_rune.
  destruct (Nat.ltb_spec (nat_of_ascii a) 128) as [Ha|Ha].
  { intros _. left. unfold rune_len. apply Nat.ltb_lt in Ha as Ha'. rewrite Ha'. eauto. }
  intros Hn. right. revert Hn. unfold rune_len, is_cont. apply Nat.ltb_ge in Ha as Ha'. rewrite Ha'.
  intros Hn. repeat (case_match; try done); subst.
  all: split; [cbn [String.length]; lia|]; split; [split; [discriminate|]; intros u; cbn [take_bytes]; rewrite ?string_app_cons|].
  all: try (rewrite Ha'; repeat match goal with Hb : ?b = _ |- context [if ?b then _ else _] => rewrite Hb end; done).
  all: repeat match goal with
    | Hb : _ && _ = true |- _ => apply andb_true_iff in Hb as [? ?]
    | Hb : (_ <=? _)%nat = true |- _ => apply Nat.leb_le in Hb
    end; intros i x Hx;
    repeat (destruct i as [|i]; [cbn in Hx; injection Hx as <-; assumption|]); by destruct i.
Qed.

(** ** Reading back what json.Marshal wrote *)

Lemma prepend_prepend a b r : prepend a (prepend b r) = prepend (a ^^ b) r.
Proof. destruct r as [[s t]|]; cbn; [|done]. by rewrite string_app_assoc. Qed.

(** A token is read in one step. *)
Lemma read_token a c t out :
  a <> quote -> token (String a c ^^ t) = Some (out, S (String.length c)) ->
  read_body (String a c ^^ t) 0 = prepend out (read_body t 0).
Proof.
  intros Ha Ht. rewrite string_app_cons in *. cbn [read_body].
  destruct (Ascii.eqb_spec a quote) as [?|_]; [done|]. rewrite Ht.
  by rewrite Nat.sub_succ, Nat.sub_0_r, read_body_skip, skip_app.
Qed.

Lemma read_ascii a t :
  (nat_of_ascii a < 128)%nat -> read_body (escape_ascii a ^^ t) 0 = prepend (String a "") (read_body t 0).
Proof.
  intros Ha. destruct a as [b0 b1 b2 b3 b4 b5 b6 b7]. apply Nat.ltb_lt in Ha.
  destruct b7; [destruct b0, b1, b2, b3, b4, b5, b6; vm_compute in Ha; discriminate|]. clear Ha.
  destruct b0, b1, b2, b3, b4, b5, b6; reflexivity.
Qed.

(** The two line separators, and their escapes. *)
Definition separator (last : bool) : string :=
  String (chr 226) (String (chr 128) (String (if last then chr 169 else chr 168) "")).
Definition separator_text (last : bool) : string := String backslash (if last then "u2029" else "u2028").

Lemma nat_of_ascii_chr a n : (nat_of_ascii a =? n)%nat = true -> a = chr n.
Proof. intros Ha. apply Nat.eqb_eq in Ha. unfold chr. by rewrite <- Ha, ascii_nat_embedding. Qed.

Lemma line_separator_inv s u :
  line_separator s = Some u -> exists last s', s = separator last ^^ s' /\ u = separator_text last.
Proof.
  unfold line_separator. intros Hu.
  destruct s as [|a [|b [|c s']]]; try done.
  destruct (nat_of_ascii a =? 226)%nat eqn:Ha; [|done]. destruct (nat_of_ascii b =? 128)%nat eqn:Hb; [|done].
  apply nat_of_ascii_chr in Ha, Hb. subst a b. cbn [andb] in Hu.
  destruct (nat_of_ascii c =? 168)%nat eqn:Hc; [|destruct (nat_of_ascii c =? 169)%nat eqn:Hc'; [|done]];
    injection Hu as <-; [apply nat_of_ascii_chr in Hc; subst c; by exists false, s'|].
  apply nat_of_ascii_chr in Hc'. subst c. by exists true, s'.
Qed.

Lemma rune_len_separator last s : rune_len (separator last ^^ s) = 3%nat.
Proof. by destruct last. Qed.

Lemma read_separator last t : read_body (separator_text last ^^ t) 0 = prepend (separator last) (read_body t 0).
Proof. by destruct last. Qed.

(** A sequence of bytes from 128 on is a token. *)
Lemma read_high c t :
  one_rune c -> (forall i a, String.get i c = Some a -> (128 <= nat_of_ascii a)%nat) ->
  read_body (c ^^ t) 0 = prepend c (read_body t 0).
Proof.
  intros [Hne Hc] Hhigh. destruct c as [|a c]; [done|]. pose proof (Hhigh 0 a eq_refl) as Ha.
  apply read_token; [intros ->; vm_compute in Ha; lia|]. specialize (Hc t).
  unfold token. rewrite string_app_cons in *. destruct (Nat.ltb_spec (nat_of_ascii a) 32) as [?|_]; [lia|].
  destruct (Ascii.eqb_spec a backslash) as [->|_]; [vm_compute in Ha; lia|].
  rewrite Hc, <- string_app_cons. cbn [String.length]. do 2 f_equal. apply (take_app (String a c)).
Qed.

Lemma read_rune s t :
  rune_len s <> 0%nat -> read_body (escape_rune s ^^ t) 0 = prepend (take_bytes (rune_len s) s) (read_body t 0).
Proof.
  intros Hn. destruct (rune_cases s Hn) as [[Hr (a & s' & -> & Ha)]|(Hr & Hone & Hget)].
  { unfold escape_rune. rewrite Hr. by apply read_ascii. }
  unfold escape_rune. destruct (line_separator s) as [u|] eqn:Hu.
  - destruct (rune_len s) as [|[|r]] eqn:E; [lia..|]. rewrite <- E in *. clear E Hn Hr Hget Hone.
    apply line_separator_inv in Hu as (last & s' & -> & ->). rewrite rune_len_separator, read_separator.
    reflexivity.
  - destruct (rune_len s) as [|[|r]] eqn:E; [lia..|]. by apply read_high.
Qed.

Lemma read_body_escape s rest :
  valid_utf8 s = true -> read_body (escape_body s 0 ^^ String quote rest) 0 = Some (s, rest).
Proof.
  unfold valid_utf8. remember (String.length s) as n eqn:Hlen. revert s Hlen.
  induction (lt_wf n) as [n _ IH]. intros [|a s] -> Hv; [reflexivity|].
  cbn [valid_from] in Hv. apply andb_true_iff in Hv as [Hn Hv].
  apply negb_true_iff, Nat.eqb_neq in Hn. apply valid_from_skip in Hv as [Hd Hv].
  cbn [escape_body]. rewrite string_app_assoc, read_rune, escape_body_skip by done.
  rewrite (IH (String.length (skip (rune_len (String a s) - 1) s))); [|..|done|done].
  - cbn [prepend]. destruct (rune_len (String a s)) as [|r]; [done|]. cbn [take_bytes].
    rewrite Nat.sub_succ, Nat.sub_0_r, string_app_cons, take_skip. done.
  - cbn [String.length]. pose proof (f_equal String.length (take_skip (rune_len (String a s) - 1) s)) as Hl.
    rewrite string_length_app in Hl. lia.
Qed.

(** A string literal written by json.Marshal reads back as the string. *)
Lemma read_marshal_string s rest :
  valid_utf8 s = true -> read_string (marshal_string s ^^ rest) = Some (s, rest).
Proof.
  intros Hs. unfold marshal_string, quoted. rewrite !string_app_cons, !string_app_assoc.
  cbn [read_string]. rewrite Ascii.eqb_refl. by apply read_body_escape.
Qed.

Lemma marshal_string_inj s1 s2 r1 r2 :
  valid_utf8 s1 = true -> valid_utf8 s2 = true ->
  marshal_string s1 ^^ r1 = marshal_string s2 ^^ r2 -> s1 = s2 /\ r1 = r2.
Proof.
  intros H1 H2 Heq. apply (f_equal read_string) in Heq. rewrite !read_marshal_string in Heq by done. by simplify_eq.
Qed.

(** ** What is read is valid UTF-8 *)

Lemma nat_of_byte z : (0 <= z < 256)%Z -> nat_of_ascii (byte z) = Z.to_nat z.
Proof. intros Hz. unfold byte. apply nat_of_chr. lia. Qed.

(** The base-64 digits of a rune. *)
Lemma rune_digits r :
  (0 <= r < 1114112)%Z ->
  (0 <= r mod 64 < 64 /\ 0 <= r / 64 mod 64 < 64 /\ 0 <= r / 4096 mod 64 < 64 /\ 0 <= r / 262144 < 5 /\
   r / 64 = r / 4096 * 64 + r / 64 mod 64 /\ r / 4096 = r / 262144 * 64 + r / 4096 mod 64 /\
   r = r / 64 * 64 + r mod 64)%Z.
Proof. intros Hr. Z.to_euclidean_division_equations. lia. Qed.

(** Decides the tests of [rune_len] by arithmetic. *)
Ltac decide_bytes :=
  repeat (match goal with
  | |- context [(?a <? ?b)%nat] => destruct (Nat.ltb_spec a b)
  | |- context [(?a <=? ?b)%nat] => destruct (Nat.leb_spec a b)
  | |- context [(?a =? ?b)%nat] => destruct (Nat.eqb_spec a b)
  end; try (exfalso; lia); cbn [andb negb]); try done.

Lemma encode_rune_one r : (0 <= r < 1114112)%Z -> is_surrogate r = false -> one_rune (encode_rune r).
Proof.
  intros Hr Hs. unfold is_surrogate in Hs. apply andb_false_iff in Hs.
  rewrite Z.leb_gt, Z.ltb_ge in Hs. destruct (rune_digits r Hr) as (H1 & H2 & H3 & H4 & H5 & H6 & H7).
  unfold encode_rune. generalize dependent (r mod 64)%Z. intros d1 H1 H7.
  generalize dependent (r / 64 mod 64)%Z. intros d2 H2 H5. generalize dependent (r / 4096 mod 64)%Z. intros d3 H3 H6.
  generalize dependent (r / 262144)%Z. intros d4 H4 H6. generalize dependent (r / 4096)%Z. intros q2 H5 H6.
  generalize dependent (r / 64)%Z. intros q1 H5 H7.
  repeat case_match; bool_to_prop; (split; [discriminate|]); intros u; rewrite ?string_app_cons;
    unfold rune_len, is_cont; rewrite ?nat_of_byte by lia; decide_bytes.
Qed.

Lemma ascii_one a : (nat_of_ascii a < 128)%nat -> one_rune (String a "").
Proof.
  intros Ha. split; [discriminate|]. intros u. rewrite string_app_cons. unfold rune_len.
  by apply Nat.ltb_lt in Ha as ->.
Qed.

Lemma hex_val_bound a n : hex_val a = Some n -> (n < 16)%nat.
Proof. unfold hex_val. intros Ha. repeat case_match; bool_to_prop; simplify_eq; lia. Qed.

Lemma hex4_bound s r : hex4 s = Some r -> (0 <= r < 65536)%Z.
Proof.
  unfold hex4. intros Hr. destruct s as [|a [|b [|c [|d s]]]]; try done.
  destruct (hex_val a) eqn:Ha, (hex_val b) eqn:Hb, (hex_val c) eqn:Hc, (hex_val d) eqn:Hd; try done.
  apply hex_val_bound in Ha, Hb, Hc, Hd. cbn in Hr. simplify_eq. lia.
Qed.

Lemma getu4_bound s r : getu4 s = Some r -> (0 <= r < 65536)%Z.
Proof. unfold getu4. intros Hr. repeat case_match; try done. by eapply hex4_bound. Qed.

Lemma runeError_one : one_rune (encode_rune runeError).
Proof. by apply encode_rune_one. Qed.

Lemma escape_token_one s out n : escape_token s = Some (out, n) -> one_rune out.
Proof.
  destruct s as [|c s]; [done|]. unfold escape_token.
  destruct (Ascii.eqb c quote || Ascii.eqb c backslash || Ascii.eqb c "/") eqn:E.
  { intros [= <- _]. apply ascii_one. apply orb_true_iff in E as [E|E]; [apply orb_true_iff in E as [E|E]|];
      apply Ascii.eqb_eq in E as ->; vm_compute; lia. }
  intros Ht. repeat case_match; simplify_eq; try (apply ascii_one; vm_compute; lia); try apply runeError_one.
  - apply encode_rune_one. (* pair *)
    + match goal with H : _ ≫= _ = Some _ |- _ => apply bind_Some in H as (r2 & _ & H); unfold decode_pair in H end.
      case_match; simplify_eq. bool_to_prop. lia.
    + match goal with H : _ ≫= _ = Some _ |- _ => apply bind_Some in H as (r2 & _ & H); unfold decode_pair in H end.
      case_match; simplify_eq. bool_to_prop. unfold is_surrogate. apply andb_false_iff. right. apply Z.ltb_ge. lia.
  - apply encode_rune_one; [|done]. match goal with H : hex4 _ = Some _ |- _ => apply hex4_bound in H end. lia.
Qed.

Lemma token_one s out n : token s = Some (out, n) -> one_rune out.
Proof.
  destruct s as [|a s]; [done|]. unfold token. intros Ht. repeat case_match; simplify_eq.
  - by eapply escape_token_one.
  - apply runeError_one.
  - destruct (rune_cases (String a s)) as [[Hr (a' & s' & Heq & Ha)]|(_ & Hone & _)]; [congruence| |].
    + simplify_eq. assert (n0 = 0%nat) as -> by congruence. by apply ascii_one.
    + match goal with H : rune_len _ = _ |- _ => by rewrite H in Hone end.
Qed.

Lemma read_body_valid t d s r : read_body t d = Some (s, r) -> valid_utf8 s = true.
Proof.
  revert d s. induction t as [|a t IH]; intros d s Hr; [done|]. cbn [read_body] in Hr.
  destruct d as [|d]; [|by eapply IH]. destruct (Ascii.eqb a quote); [by simplify_eq|].
  destruct (token (String a t)) as [[out n]|] eqn:Ht; [|done].
  destruct (read_body t (n - 1)) as [[s' r']|] eqn:Hb; [|done]. cbn [prepend] in Hr. simplify_eq.
  rewrite valid_one_rune by (by eapply token_one). by eapply IH.
Qed.

Lemma read_string_valid t s r : read_string t = Some (s, r) -> valid_utf8 s = true.
Proof.
  unfold read_string. destruct t as [|a t]; [done|]. destruct (Ascii.eqb a quote); [|done]. apply read_body_valid.
Qed.

(** ** Texts without line breaks *)

Definition one_line (s : string) : bool := negb (has_char newline s || has_char (chr 13) s).

Lemma one_line_app a b : one_line (a ^^ b) = one_line a && one_line b.
Proof.
  unfold one_line. rewrite !has_char_app.
  by destruct (has_char newline a), (has_char newline b), (has_char (chr 13) a), (has_char (chr 13) b).
Qed.

Lemma has_char_high c s :
  (nat_of_ascii c < 128)%nat -> (forall i a, String.get i s = Some a -> (128 <= nat_of_ascii a)%nat) ->
  has_char c s = false.
Proof.
  intros Hc. induction s as [|a s IH]; intros Hs; [done|]. cbn [has_char]. rewrite IH by (intros i; apply (Hs (S i))).
  pose proof (Hs 0 a eq_refl). destruct (Ascii.eqb_spec a c) as [->|]; [lia|done].
Qed.

Lemma escape_ascii_one_line a : one_line (escape_ascii a) = true.
Proof. destruct a as [[] [] [] [] [] [] [] []]; reflexivity. Qed.

Lemma escape_rune_one_line s : one_line (escape_rune s) = true.
Proof.
  destruct (rune_len s) as [|n] eqn:Hn; [unfold escape_rune; by rewrite Hn|].
  destruct (rune_cases s) as [[Hr (a & s' & -> & Ha)]|(Hr & _ & Hget)]; [congruence| |].
  - unfold escape_rune. rewrite Hr. apply escape_ascii_one_line.
  - unfold escape_rune. rewrite Hn in *. destruct n as [|n]; [lia|].
    destruct (line_separator s) as [u|] eqn:Hu.
    + apply line_separator_inv in Hu as ([] & s' & _ & ->); reflexivity.
    + unfold one_line. rewrite !has_char_high by (done || (vm_compute; lia)). done.
Qed.

Lemma escape_body_one_line s d : one_line (escape_body s d) = true.
Proof.
  revert d. induction s as [|a s IH]; intros [|d]; try done; cbn [escape_body]; [|apply IH].
  by rewrite one_line_app, escape_rune_one_line, IH.
Qed.

Lemma marshal_string_one_line s : one_line (marshal_string s) = true.
Proof.
  unfold marshal_string, quoted. change (String quote ?t) with (String quote "" ^^ t).
  by rewrite !one_line_app, escape_body_one_line.
Qed.

Lemma valid_ascii s : (forall i a, String.get i s = Some a -> (nat_of_ascii a < 128)%nat) -> valid_utf8 s = true.
Proof.
  induction s as [|a s IH]; intros Hs; [done|]. change (String a s) with (String a "" ^^ s).
  rewrite valid_one_rune by (apply ascii_one, (Hs 0 a eq_refl)). apply IH. intros i. apply (Hs (S i)).
Qed.

Lemma b64_digit_ascii n : (n < 64)%nat -> (nat_of_ascii (b64_digit n) < 128)%nat.
Proof. intros Hn. do 64 (destruct n as [|n]; [vm_compute; lia|]). lia. Qed.

Lemma valid_b64 s : valid_utf8 (b64_encode s) = true.
Proof.
  induction s as [|a|a b|a b c s IH] using string_ind3; [done| | |]; cbn [b64_encode];
    repeat match goal with
    | |- valid_utf8 (String ?x ?t) = true =>
        change (String x t) with (String x "" ^^ t); rewrite valid_one_rune;
          [|apply ascii_one; try apply b64_digit_ascii;
            pose proof (nat_ascii_bounded a); byte_arith || (vm_compute; lia)]
    end; try done.
Qed.

Lemma hex_digit_ascii n : (n < 16)%nat -> (nat_of_ascii (hex_digit n) < 128)%nat.
Proof. intros Hn. do 16 (destruct n as [|n]; [vm_compute; lia|]). lia. Qed.

Lemma valid_hex s : valid_utf8 (hex_encode s) = true.
Proof.
  induction s as [|a s IH]; [done|]. cbn [hex_encode]. pose proof (byte_bound a).
  change (String ?x (String ?y ?t)) with (String x "" ^^ String y "" ^^ t).
  by rewrite !valid_one_rune by (apply ascii_one, hex_digit_ascii; byte_arith).
Qed.
