(* ===== verification/JsonText.v ===== *)
(** * JSON texts determine their values

    json.Marshal is injective on values whose strings are valid UTF-8: no two
    different objects have the same text, so a hash of the text is a hash of the
    object.  Strings are read back by [JsonString.read_string]; arrays and objects by comparing
    element by element, each element's text ending where the separator starts. *)

From Stdlib Require Import Ascii.
From S2P Require Import Prelude GoStrings Json JsonString.

(** ** Values json.Marshal represents faithfully *)

Definition number_char (a : ascii) : bool :=
  match digit_val a with
  | Some _ => true
  | None => existsb (Ascii.eqb a) ["-"; "+"; "."; "e"; "E"]%char
  end.
Fixpoint all_chars (f : ascii -> bool) (s : string) : bool :=
  match s with
  | EmptyString => true
  | String a s' => f a && all_chars f s'
  end.

(** A number's text: it starts with a digit or a minus sign. *)
Definition number_text (s : string) : bool :=
  match s with
  | String a _ => (match digit_val a with Some _ => true | None => Ascii.eqb a "-" end) && all_chars number_char s
  | EmptyString => false
  end.

Fixpoint encodable (j : json) : bool :=
  match j with
  | JNull | JBool _ => true
  | JNum n => number_text n
  | JStr s => valid_utf8 s
  | JArr l => forallb encodable l
  | JObj m => map_fold (fun k v ok => valid_utf8 k && encodable v && ok) true m
  end.

Lemma encodable_obj (m : obj) :
  encodable (JObj m) = true <-> forall k v, m !! k = Some v -> valid_utf8 k = true /\ encodable v = true.
Proof.
  cbn [encodable]. rewrite map_fold_foldr. setoid_rewrite <- elem_of_map_to_list.
  induction (map_to_list m) as [|[k v] l IH]; cbn [foldr uncurry].
  { split; [intros _ k v Hn; by apply elem_of_nil in Hn|done]. }
  rewrite !andb_true_iff, IH. split.
  - intros [[Hk Hv] Hl] k' v' Hin. apply elem_of_cons in Hin as [[= -> ->]|Hin]; auto.
  - intros Hall. split; [apply Hall; by left|]. intros k' v' Hin. apply Hall. by right.
Qed.

(** ** Texts that end where the next one starts *)

(** A text that follows a value: it does not continue a number. *)
Definition delim (r : string) : Prop :=
  match r with
  | EmptyString => True
  | String a _ => number_char a = false
  end.

Lemma number_inj n1 n2 r1 r2 :
  all_chars number_char n1 = true -> all_chars number_char n2 = true -> delim r1 -> delim r2 ->
  n1 ^^ r1 = n2 ^^ r2 -> n1 = n2 /\ r1 = r2.
Proof.
  revert n2. induction n1 as [|a n1 IH]; intros [|b n2] H1 H2 Hd1 Hd2 Heq; cbn [all_chars] in H1, H2;
    rewrite ?string_app_nil_l, ?string_app_cons in Heq; subst; cbn [delim] in *;
    repeat match goal with Hb : _ && _ = true |- _ => apply andb_true_iff in Hb as [? ?] end; try congruence; [done|].
  injection Heq as -> Heq. by destruct (IH n2) as [-> ->].
Qed.

Section Sequences.
Context {A : Type} (text : A -> string) (ok : A -> Prop) (close : ascii).
Hypothesis close_delim : number_char close = false.
Hypothesis close_comma : close <> ","%char.
Hypothesis text_not_close : forall x r r', ok x -> text x ^^ r <> String close r'.

(** [x]'s text, followed by a delimiter, is the text of no other value. *)
Definition reads_back (x : A) : Prop :=
  forall y r1 r2, ok y -> delim r1 -> delim r2 -> text x ^^ r1 = text y ^^ r2 -> x = y /\ r1 = r2.

Fixpoint tail_text (l : list A) (r : string) : string :=
  match l with
  | [] => String close r
  | x :: l' => String "," (text x ^^ tail_text l' r)
  end.

Lemma tail_text_delim l r : delim (tail_text l r).
Proof. destruct l; [exact close_delim|reflexivity]. Qed.

Lemma Join_text x l r : Join (text <$> x :: l) "," ^^ String close r = text x ^^ tail_text l r.
Proof.
  revert x. induction l as [|y l IH]; intros x; [done|].
  change (Join (text <$> x :: y :: l) ",") with (text x ^^ "," ^^ Join (text <$> y :: l) ",").
  by rewrite !string_app_assoc, IH.
Qed.

Lemma tail_text_inj l1 l2 r1 r2 :
  Forall reads_back l1 -> Forall ok l2 -> tail_text l1 r1 = tail_text l2 r2 -> l1 = l2 /\ r1 = r2.
Proof.
  intros H1. revert l2. induction H1 as [|x l1 Hx _ IH]; intros [|y l2] H2 Heq; cbn [tail_text] in Heq;
    [by simplify_eq|by simplify_eq|by simplify_eq|].
  apply Forall_cons in H2 as [Hy H2]. injection Heq as Heq.
  apply Hx in Heq as [-> Heq]; [|done|apply tail_text_delim..]. by destruct (IH l2 H2 Heq) as [-> ->].
Qed.

Lemma sequence_inj l1 l2 r1 r2 :
  Forall reads_back l1 -> Forall ok l1 -> Forall ok l2 ->
  Join (text <$> l1) "," ^^ String close r1 = Join (text <$> l2) "," ^^ String close r2 -> l1 = l2 /\ r1 = r2.
Proof.
  intros H1 Ho1 H2. destruct l1 as [|x l1], l2 as [|y l2]; rewrite ?Join_text; intros Heq.
  - cbn in Heq. rewrite !string_app_nil_l in Heq. by simplify_eq.
  - cbn in Heq. rewrite string_app_nil_l in Heq. apply Forall_cons in H2 as [Hy _].
    by destruct (text_not_close y (tail_text l2 r2) r1 Hy).
  - cbn in Heq. rewrite string_app_nil_l in Heq. apply Forall_cons in Ho1 as [Hx _].
    by destruct (text_not_close x (tail_text l1 r1) r2 Hx).
  - apply Forall_cons in H1 as [Hx H1], H2 as [Hy H2]. apply Hx in Heq as [-> Heq]; [|done|apply tail_text_delim..].
    by destruct (tail_text_inj l1 l2 r1 r2 H1 H2 Heq) as [-> ->].
Qed.
End Sequences.

(** ** Values *)

(** The kind of value a text starts. *)
Definition text_kind (t : string) : nat :=
  match t with
  | EmptyString => 0
  | String a _ =>
      if Ascii.eqb a "n" then 1
      else if Ascii.eqb a "t" || Ascii.eqb a "f" then 2
      else if Ascii.eqb a quote then 3
      else if Ascii.eqb a "[" then 4
      else if Ascii.eqb a "{" then 5
      else if match digit_val a with Some _ => true | None => Ascii.eqb a "-" end then 6
      else 0
  end.

Definition kind (j : json) : nat :=
  match j with
  | JNull => 1 | JBool _ => 2 | JStr _ => 3 | JArr _ => 4 | JObj _ => 5 | JNum _ => 6
  end.

Lemma number_kind n r : number_text n = true -> text_kind (n ^^ r) = 6%nat.
Proof.
  destruct n as [|a n]; [done|]. cbn [number_text]. intros Ha. apply andb_true_iff in Ha as [Ha _].
  rewrite string_app_cons. unfold text_kind. rewrite Ha.
  repeat match goal with
  | |- context [Ascii.eqb a ?c] => destruct (Ascii.eqb_spec a c) as [->|_]; [discriminate Ha|]; cbn [orb]
  end. done.
Qed.

Lemma Marshal_kind j r : encodable j = true -> text_kind (Marshal j ^^ r) = kind j.
Proof.
  destruct j as [|[]|n|s|l|m]; cbn [encodable kind Marshal]; intros He; try reflexivity. by apply number_kind.
Qed.

(** A field of an object. *)
Definition field_text (f : string * json) : string := marshal_string f.1 ^^ ":" ^^ Marshal f.2.
Definition field_ok (f : string * json) : Prop := valid_utf8 f.1 = true /\ encodable f.2 = true.

(** The text of an object lists its fields in some order. *)
Lemma Marshal_obj_fields (m : obj) :
  exists l, l ≡ₚ map_to_list m /\ Marshal (JObj m) = "{" ^^ Join (field_text <$> l) "," ^^ "}".
Proof.
  cbn [Marshal]. unfold object_text. rewrite map_fold_foldr.
  assert (foldr (uncurry (fun k v acc => (k, Marshal v) :: acc)) [] (map_to_list m)
    = (fun f => (f.1, Marshal f.2)) <$> map_to_list m) as ->.
  { induction (map_to_list m) as [|[k v] l IH]; [done|]. cbn. by rewrite IH. }
  pose proof (merge_sort_Permutation le_key ((fun f : string * json => (f.1, Marshal f.2)) <$> map_to_list m)) as Hp.
  apply Permutation_map_inv in Hp as (l & Hl & Hp). rewrite Hl. exists l. split; [by symmetry|].
  do 2 f_equal. change (map ?f l) with (f <$> l). by rewrite <- list_fmap_compose.
Qed.

Abbreviation value_reads := (reads_back Marshal (fun j => encodable j = true)).

Lemma field_reads_back f : field_ok f -> value_reads f.2 -> reads_back field_text field_ok f.
Proof.
  destruct f as [k v]. intros [Hk Hv] Hr [k' v'] r1 r2 [Hk' Hv'] Hd1 Hd2 Heq. unfold field_text in Heq.
  cbn [fst snd] in *. rewrite !string_app_assoc in Heq. apply marshal_string_inj in Heq as [-> Heq]; [|done..].
  rewrite !string_app_cons, !string_app_nil_l in Heq. injection Heq as Heq. apply Hr in Heq as [-> ->]; done.
Qed.

Lemma Marshal_not_close j close r r' :
  encodable j = true -> text_kind (String close r') = 0%nat -> Marshal j ^^ r <> String close r'.
Proof. intros He Hc Heq. apply (f_equal text_kind) in Heq. rewrite Marshal_kind, Hc in Heq by done. by destruct j. Qed.

Lemma array_reads l : Forall value_reads l -> Forall (fun j => encodable j = true) l -> value_reads (JArr l).
Proof.
  intros Hl Hok j r1 r2 Hj Hd1 Hd2 Heq. pose proof (f_equal text_kind Heq) as Hk.
  rewrite (Marshal_kind j) in Hk by done. destruct j as [| | | |l2|]; try discriminate Hk.
  cbn [Marshal] in Heq. rewrite !string_app_assoc in Heq. apply string_app_inv_l in Heq.
  rewrite !string_app_cons, !string_app_nil_l in Heq.
  apply (sequence_inj Marshal (fun j => encodable j = true) "]") in Heq as [-> ->]; try done.
  - intros x r r' Hx. by apply Marshal_not_close.
  - apply Forall_forall. intros x Hx. cbn [encodable] in Hj. rewrite forallb_forall in Hj.
    apply Hj. by apply list_elem_of_In.
Qed.

Lemma object_reads (m : obj) :
  (forall k v, m !! k = Some v -> value_reads v) -> encodable (JObj m) = true -> value_reads (JObj m).
Proof.
  intros Hm Hok j r1 r2 Hj Hd1 Hd2 Heq. pose proof (f_equal text_kind Heq) as Hk.
  rewrite !Marshal_kind in Hk by done. destruct j as [| | | | |m2]; try discriminate Hk.
  rewrite encodable_obj in Hok, Hj.
  destruct (Marshal_obj_fields m) as (l1 & Hl1 & E1), (Marshal_obj_fields m2) as (l2 & Hl2 & E2).
  rewrite E1, E2, !string_app_assoc in Heq. apply string_app_inv_l in Heq.
  rewrite !string_app_cons, !string_app_nil_l in Heq.
  assert (forall (m : obj) l, l ≡ₚ map_to_list m ->
    (forall k v, m !! k = Some v -> valid_utf8 k = true /\ encodable v = true) -> Forall field_ok l) as Hfields.
  { intros m' l Hl Hm'. rewrite Hl, Forall_forall. intros [k v] Hin. apply Hm'. by apply elem_of_map_to_list. }
  apply (sequence_inj field_text field_ok "}") in Heq as [-> ->]; try done; eauto.
  - split; [|done]. f_equal. apply map_to_list_inj. by rewrite <- Hl1, <- Hl2.
  - pose proof (Hfields m l1 Hl1 Hok) as Hf. rewrite Forall_forall in Hf |- *. intros [k v] Hin.
    apply field_reads_back; [by apply Hf|]. apply (Hm k). rewrite Hl1 in Hin. by apply elem_of_map_to_list in Hin.
Qed.

(** A value's text is read back as that value only. *)
Lemma Marshal_reads j : encodable j = true -> value_reads j.
Proof.
  induction j as [|b|n|s|l IH|m IH] using json_induction; intros He.
  5: { assert (Forall (fun j => encodable j = true) l) as Hl.
       { apply Forall_forall. intros x Hx. cbn [encodable] in He. rewrite forallb_forall in He.
         apply He. by apply list_elem_of_In. }
       apply array_reads; [|done]. rewrite Forall_forall in Hl |- *. eauto. }
  5: { apply object_reads; [|done]. rewrite encodable_obj in He. intros k v Hv. by apply (IH k), (He k). }
  all: intros j r1 r2 Hj Hd1 Hd2 Heq; pose proof (f_equal text_kind Heq) as Hk;
    rewrite !Marshal_kind in Hk by done; destruct j; try discriminate Hk; cbn [Marshal] in Heq.
  - by apply string_app_inv_l in Heq.
  - destruct b, b0; try discriminate Heq; by apply string_app_inv_l in Heq.
  - cbn [encodable] in He, Hj. apply number_inj in Heq as [-> ->]; try done;
      unfold number_text in *; repeat case_match; try done;
      match goal with Hb : _ && _ = true |- _ => by apply andb_true_iff in Hb as [_ ?] end.
  - by apply marshal_string_inj in Heq as [-> ->].
Qed.

Lemma marshal_obj_inj (m1 m2 : obj) :
  encodable (JObj m1) = true -> encodable (JObj m2) = true -> marshal_obj m1 = marshal_obj m2 -> m1 = m2.
Proof.
  intros H1 H2 Heq. apply (f_equal (fun t => t ^^ "")) in Heq.
  destruct (Marshal_reads (JObj m1) H1 (JObj m2) "" "") as [Hm _]; try done. by injection Hm.
Qed.
