(* ===== verification/JsonParse.v ===== *)
(** * encoding/json: parsing

    json.Unmarshal's syntax ([parse_value] to [Unmarshal_value]) into a tree
    that keeps the order and repetition of object keys, and the text of a tree
    ([print]).  The structures of the wire are read from and written to such
    trees in [Wire]. *)

From Stdlib Require Import Ascii.
From S2P Require Import Prelude GoStrings Json JsonString JsonText.

Inductive jval :=
| VNull
| VBool (b : bool)
| VNum (literal : string)
| VStr (s : string)
| VArr (elems : list jval)
| VObj (fields : list (string * jval)).

(** Induction through arrays and objects. *)
Lemma jval_induction (P : jval -> Prop) :
  P VNull -> (forall b, P (VBool b)) -> (forall n, P (VNum n)) -> (forall s, P (VStr s)) ->
  (forall l, Forall P l -> P (VArr l)) -> (forall fs, Forall (fun f => P f.2) fs -> P (VObj fs)) ->
  forall v, P v.
Proof.
  intros Hn Hb Hnum Hs Ha Ho. fix IH 1. intros [|b|n|s|l|fs]; [exact Hn|apply Hb|apply Hnum|apply Hs| |].
  - apply Ha. induction l as [|v l IHl]; constructor; [apply IH|exact IHl].
  - apply Ho. induction fs as [|[k v] fs IHl]; constructor; [apply IH|exact IHl].
Qed.

(** ** Printing *)

Fixpoint print (v : jval) : string :=
  match v with
  | VNull => "null"
  | VBool b => format_bool b
  | VNum n => n
  | VStr s => marshal_string s
  | VArr l => "[" ^^ Join (map print l) "," ^^ "]"
  | VObj fs => "{" ^^ Join (map (fun f => marshal_string f.1 ^^ ":" ^^ print f.2) fs) "," ^^ "}"
  end.

(** ** Numbers *)

Fixpoint drop_digits (s : string) : string :=
  match s with
  | String a s' => match digit_val a with Some _ => drop_digits s' | None => s end
  | EmptyString => ""
  end.

(** One digit at least, then [k] on what follows the digits. *)
Definition some_digits (k : string -> bool) (s : string) : bool :=
  match s with
  | String a s' => match digit_val a with Some _ => k (drop_digits s') | None => false end
  | EmptyString => false
  end.

Definition exponent_ok (s : string) : bool :=
  match s with
  | EmptyString => true
  | String a s' =>
      (Ascii.eqb a "e" || Ascii.eqb a "E") &&
      some_digits (fun r => r =s "")
        (match s' with
         | String b s'' => if Ascii.eqb b "+" || Ascii.eqb b "-" then s'' else s'
         | EmptyString => s'
         end)
  end.

Definition fraction_ok (s : string) : bool :=
  match s with
  | String a s' => if Ascii.eqb a "." then some_digits exponent_ok s' else exponent_ok s
  | EmptyString => true
  end.

(** JSON's number grammar: no leading zeros. *)
Definition valid_number (s : string) : bool :=
  match (match s with String a s' => if Ascii.eqb a "-" then s' else s | _ => s end) with
  | String a s' => if Ascii.eqb a "0" then fraction_ok s' else some_digits fraction_ok (String a s')
  | EmptyString => false
  end.

(** The longest prefix that can belong to a number. *)
Fixpoint span_number (s : string) : string * string :=
  match s with
  | String a s' => if number_char a then let '(n, r) := span_number s' in (String a n, r) else ("", s)
  | EmptyString => ("", "")
  end.

(** ** Values *)

Definition json_space (a : ascii) : bool :=
  existsb (Ascii.eqb a) [" "%char; chr 9; chr 10; chr 13].
Definition skip_ws (s : string) : string := trim_left json_space s.

Section Sequences.
Variable parse : string -> option (jval * string).

(** The elements of a non-empty array and the closing bracket; [n] bounds their
    number, and each takes a byte at least. *)
Fixpoint parse_elems (n : nat) (s : string) : option (list jval * string) :=
  match n with
  | O => None
  | S n' =>
      match parse s with
      | Some (v, r) =>
          match skip_ws r with
          | String c r' =>
              if Ascii.eqb c "," then
                match parse_elems n' r' with Some (l, r'') => Some (v :: l, r'') | None => None end
              else if Ascii.eqb c "]" then Some ([v], r')
              else None
          | EmptyString => None
          end
      | None => None
      end
  end.

Definition parse_field (s : string) : option (string * jval * string) :=
  match read_string (skip_ws s) with
  | Some (k, r) =>
      match skip_ws r with
      | String c r' =>
          if Ascii.eqb c ":" then
            match parse r' with Some (v, r'') => Some (k, v, r'') | None => None end
          else None
      | EmptyString => None
      end
  | None => None
  end.

Fixpoint parse_fields (n : nat) (s : string) : option (list (string * jval) * string) :=
  match n with
  | O => None
  | S n' =>
      match parse_field s with
      | Some (f, r) =>
          match skip_ws r with
          | String c r' =>
              if Ascii.eqb c "," then
                match parse_fields n' r' with Some (l, r'') => Some (f :: l, r'') | None => None end
              else if Ascii.eqb c "}" then Some ([f], r')
              else None
          | EmptyString => None
          end
      | None => None
      end
  end.

Definition parse_array (s : string) : option (jval * string) :=
  match skip_ws s with
  | String c r =>
      if Ascii.eqb c "]" then Some (VArr [], r)
      else match parse_elems (String.length s) s with Some (l, r) => Some (VArr l, r) | None => None end
  | EmptyString => None
  end.

Definition parse_object (s : string) : option (jval * string) :=
  match skip_ws s with
  | String c r =>
      if Ascii.eqb c "}" then Some (VObj [], r)
      else match parse_fields (String.length s) s with Some (l, r) => Some (VObj l, r) | None => None end
  | EmptyString => None
  end.
End Sequences.

Definition parse_literal (s : string) : option (jval * string) :=
  if HasPrefix s "null" then Some (VNull, skip 4 s)
  else if HasPrefix s "true" then Some (VBool true, skip 4 s)
  else if HasPrefix s "false" then Some (VBool false, skip 5 s)
  else None.

Definition parse_number (s : string) : option (jval * string) :=
  let '(n, r) := span_number s in if valid_number n then Some (VNum n, r) else None.

(** A value; [d] bounds the nesting of arrays and objects. *)
Fixpoint parse_value (d : nat) (s : string) : option (jval * string) :=
  match skip_ws s with
  | EmptyString => None
  | String a r =>
      if Ascii.eqb a quote then
        match read_string (String a r) with Some (str, r') => Some (VStr str, r') | None => None end
      else if Ascii.eqb a "[" then
        match d with O => None | S d' => parse_array (parse_value d') r end
      else if Ascii.eqb a "{" then
        match d with O => None | S d' => parse_object (parse_value d') r end
      else if Ascii.eqb a "n" || Ascii.eqb a "t" || Ascii.eqb a "f" then parse_literal (String a r)
      else parse_number (String a r)
  end.

(** encoding/json's limit on nesting. *)
Definition maxNestingDepth : nat := Z.to_nat 10000.

Lemma nesting_enough n : (n <= 10)%nat -> (n <= maxNestingDepth)%nat.
Proof. unfold maxNestingDepth. lia. Qed.
#[global] Opaque maxNestingDepth.

(** json.Unmarshal: one value and white space. *)
Definition Unmarshal_value (s : string) : option jval :=
  match parse_value maxNestingDepth s with
  | Some (v, r) => if skip_ws r =s "" then Some v else None
  | None => None
  end.

(** json.Decoder.Decode: the first value of the input. *)
Definition Decode_value (s : string) : option jval := fst <$> parse_value maxNestingDepth s.

Example parses :
  Unmarshal_value (" { " ^^ quoted "a" ^^ " : [1, -2.5e3 ,null] , " ^^ quoted "a" ^^ ":{} } ")
  = Some (VObj [("a", VArr [VNum "1"; VNum "-2.5e3"; VNull]); ("a", VObj [])]).
Proof. vm_compute. reflexivity. Qed.

Example rejects :
  Unmarshal_value <$> ["01"; "[1,]"; "{} x"; "nul"; "-"; "1e"; "[1 2]"; ""] = repeat None 8.
Proof. vm_compute. reflexivity. Qed.

(** ** Reading back a printed value *)

(** A tree json.Marshal can print: strings are valid UTF-8, numbers numbers. *)
Fixpoint jval_ok (v : jval) : bool :=
  match v with
  | VNull | VBool _ => true
  | VNum n => valid_number n
  | VStr s => valid_utf8 s
  | VArr l => forallb jval_ok l
  | VObj fs => forallb (fun f => valid_utf8 f.1 && jval_ok f.2) fs
  end.

Fixpoint jdepth (v : jval) : nat :=
  match v with
  | VArr l => S (list_max (map jdepth l))
  | VObj fs => S (list_max (map (fun f => jdepth f.2) fs))
  | _ => 0
  end.

Lemma drop_digits_chars s : all_chars number_char (drop_digits s) = true -> all_chars number_char s = true.
Proof.
  induction s as [|a s IH]; [done|]. cbn [drop_digits all_chars]. destruct (digit_val a) eqn:Ha; [|done].
  intros Hs. rewrite IH by done. unfold number_char. by rewrite Ha.
Qed.

Lemma some_digits_chars k s :
  (forall r, k r = true -> all_chars number_char r = true) -> some_digits k s = true -> all_chars number_char s = true.
Proof.
  intros Hk. destruct s as [|a s]; [done|]. cbn [some_digits all_chars]. destruct (digit_val a) eqn:Ha; [|done].
  intros Hs. unfold number_char at 1. rewrite Ha. by apply drop_digits_chars, Hk.
Qed.

Lemma exponent_chars s : exponent_ok s = true -> all_chars number_char s = true.
Proof.
  destruct s as [|a s]; [done|]. cbn [exponent_ok all_chars]. intros Hs. apply andb_true_iff in Hs as [Ha Hs].
  apply some_digits_chars in Hs; [|intros r Hr; by apply String.eqb_eq in Hr as ->].
  assert (number_char a = true) as -> by (apply orb_true_iff in Ha as [Ha|Ha]; apply Ascii.eqb_eq in Ha as ->; reflexivity).
  destruct s as [|b s]; [done|]. destruct (Ascii.eqb b "+" || Ascii.eqb b "-") eqn:Hb; [|done].
  cbn [all_chars andb]. rewrite Hs.
  apply orb_true_iff in Hb as [Hb|Hb]; apply Ascii.eqb_eq in Hb as ->; reflexivity.
Qed.

Lemma fraction_chars s : fraction_ok s = true -> all_chars number_char s = true.
Proof.
  destruct s as [|a s]; [done|]. cbn [fraction_ok]. destruct (Ascii.eqb_spec a ".") as [->|_]; [|apply exponent_chars].
  intros Hs. cbn [all_chars]. apply (some_digits_chars _ _ exponent_chars), Hs.
Qed.

(** The kinds of characters a value starts with. *)
Definition number_head (a : ascii) : bool :=
  match digit_val a with Some _ => true | None => Ascii.eqb a "-" end.
Definition value_head (a : ascii) : bool :=
  number_head a || existsb (Ascii.eqb a) [quote; "["%char; "{"%char; "n"%char; "t"%char; "f"%char].

Lemma valid_number_inv n :
  valid_number n = true -> all_chars number_char n = true /\ exists a n', n = String a n' /\ number_head a = true.
Proof.
  unfold valid_number. destruct n as [|a n]; [done|]. destruct (Ascii.eqb_spec a "-") as [->|Ha].
  - intros Hn. split; [|by eauto]. cbn [all_chars]. destruct n as [|b n]; [done|].
    destruct (Ascii.eqb_spec b "0") as [->|_]; [by apply fraction_chars in Hn|].
    by apply (some_digits_chars _ _ fraction_chars) in Hn.
  - destruct (Ascii.eqb_spec a "0") as [->|_].
    + intros Hn%fraction_chars. split; [done|by eauto].
    + intros Hn. split; [by apply (some_digits_chars _ _ fraction_chars)|]. exists a, n. split; [done|].
      cbn [some_digits] in Hn. unfold number_head. by destruct (digit_val a).
Qed.

Lemma span_number_app n r : all_chars number_char n = true -> delim r -> span_number (n ^^ r) = (n, r).
Proof.
  intros Hn Hr. induction n as [|a n IH]; [rewrite string_app_nil_l|].
  - destruct r as [|b r]; [done|]. cbn [delim span_number] in *. by rewrite Hr.
  - cbn [all_chars] in Hn. apply andb_true_iff in Hn as [Ha Hn]. rewrite string_app_cons. cbn [span_number].
    by rewrite Ha, IH.
Qed.

Lemma value_head_facts a : value_head a = true -> json_space a = false /\ a <> "]"%char /\ a <> "}"%char.
Proof. destruct a as [[] [] [] [] [] [] [] []]; cbv; intros; (discriminate || split_and!; done || (intros [=])). Qed.

Lemma number_head_facts a :
  number_head a = true ->
  Ascii.eqb a quote = false /\ Ascii.eqb a "[" = false /\ Ascii.eqb a "{" = false /\
  Ascii.eqb a "n" || Ascii.eqb a "t" || Ascii.eqb a "f" = false.
Proof. destruct a as [[] [] [] [] [] [] [] []]; cbv; intros; (discriminate || split_and!; done). Qed.

Lemma print_head v : jval_ok v = true -> exists a t, print v = String a t /\ value_head a = true.
Proof.
  destruct v as [|[]|n|s|l|fs]; cbn [jval_ok print]; intros Hv; try (by eexists _, _).
  apply valid_number_inv in Hv as [_ (a & n' & -> & Ha)]. exists a, n'. unfold value_head. by rewrite Ha.
Qed.

Lemma skip_ws_value v r : jval_ok v = true -> skip_ws (print v ^^ r) = print v ^^ r.
Proof.
  intros (a & t & -> & Ha)%print_head. rewrite string_app_cons. unfold skip_ws. cbn [trim_left].
  apply value_head_facts in Ha as [Ha _]. by rewrite Ha.
Qed.

(** ** Sequences *)

Lemma tail_text_length {A} (text : A -> string) close l r :
  (S (length l) <= String.length (tail_text text close l r))%nat.
Proof.
  induction l as [|x l IH]; cbn [tail_text String.length length]; [lia|]. rewrite string_length_app. lia.
Qed.

(** A separator or bracket after a value. *)
Lemma skip_ws_tail {A} (text : A -> string) close l r :
  json_space close = false -> skip_ws (tail_text text close l r) = tail_text text close l r.
Proof. intros Hc. destruct l; unfold skip_ws; cbn [tail_text trim_left]; [by rewrite Hc|reflexivity]. Qed.

Lemma parse_elems_text parse l x n r :
  Forall (fun v => forall r, delim r -> parse (print v ^^ r) = Some (v, r)) (x :: l) ->
  (length l < n)%nat ->
  parse_elems parse n (print x ^^ tail_text print "]" l r) = Some (x :: l, r).
Proof.
  revert x n. induction l as [|y l IH]; intros x [|n] Hall Hn; cbn [length] in Hn; try lia;
    apply Forall_cons in Hall as [Hx Hall]; cbn [parse_elems].
  - cbn [tail_text]. rewrite Hx by reflexivity. reflexivity.
  - rewrite Hx by (by apply tail_text_delim). rewrite skip_ws_tail by done. cbn [tail_text Ascii.eqb].
    rewrite IH by (done || lia). reflexivity.
Qed.

(** The text of a field. *)
Definition field_print (f : string * jval) : string := marshal_string f.1 ^^ ":" ^^ print f.2.

Lemma skip_ws_quote s r : skip_ws (marshal_string s ^^ r) = marshal_string s ^^ r.
Proof. unfold marshal_string, quoted. rewrite !string_app_cons. reflexivity. Qed.

Lemma parse_field_text parse f r :
  valid_utf8 f.1 = true -> delim r -> (forall r, delim r -> parse (print f.2 ^^ r) = Some (f.2, r)) ->
  parse_field parse (field_print f ^^ r) = Some (f, r).
Proof.
  destruct f as [k v]. cbn [fst snd]. intros Hk Hr Hv. unfold parse_field, field_print. cbn [fst snd].
  rewrite !string_app_assoc, skip_ws_quote, read_marshal_string by done.
  change (":" ^^ print v ^^ r) with (String ":" (print v ^^ r)). unfold skip_ws. cbn [trim_left].
  change (json_space ":") with false. cbn [Ascii.eqb]. cbv iota. change (Ascii.eqb ":" ":") with true. cbv iota.
  by rewrite Hv.
Qed.

Lemma parse_fields_text parse l x n r :
  Forall (fun f => forall r, delim r -> parse_field parse (field_print f ^^ r) = Some (f, r)) (x :: l) ->
  (length l < n)%nat ->
  parse_fields parse n (field_print x ^^ tail_text field_print "}" l r) = Some (x :: l, r).
Proof.
  revert x n. induction l as [|y l IH]; intros x [|n] Hall Hn; cbn [length] in Hn; try lia;
    apply Forall_cons in Hall as [Hx Hall]; cbn [parse_fields].
  - cbn [tail_text]. rewrite Hx by reflexivity. reflexivity.
  - rewrite Hx by (by apply tail_text_delim). rewrite skip_ws_tail by done. cbn [tail_text Ascii.eqb].
    rewrite IH by (done || lia). reflexivity.
Qed.

Lemma parse_array_text parse l r :
  Forall (fun v => jval_ok v = true) l ->
  Forall (fun v => forall r, delim r -> parse (print v ^^ r) = Some (v, r)) l ->
  parse_array parse (Join (map print l) "," ^^ String "]" r) = Some (VArr l, r).
Proof.
  intros Hok Hall. destruct l as [|x l]; [reflexivity|].
  change (map print (x :: l)) with (print <$> x :: l). rewrite Join_text.
  apply Forall_cons in Hok as [Hx _]. unfold parse_array. rewrite skip_ws_value by done.
  destruct (print_head x Hx) as (a & t & Hp & Ha). apply value_head_facts in Ha as (_ & Hb & _).
  assert (exists t', print x ^^ tail_text print "]" l r = String a t') as [t' Ht]
    by (rewrite Hp, string_app_cons; by eexists).
  pose proof Ht as Ht'. rewrite Ht'. destruct (Ascii.eqb_spec a "]") as [?|_]; [done|].
  rewrite <- Ht. rewrite parse_elems_text; [done|done|].
  rewrite string_length_app. pose proof (tail_text_length print "]" l r). lia.
Qed.

Lemma parse_object_text parse fs r :
  Forall (fun f => forall r, delim r -> parse_field parse (field_print f ^^ r) = Some (f, r)) fs ->
  parse_object parse (Join (map field_print fs) "," ^^ String "}" r) = Some (VObj fs, r).
Proof.
  intros Hall. destruct fs as [|x l]; [reflexivity|].
  change (map field_print (x :: l)) with (field_print <$> x :: l). rewrite Join_text. unfold parse_object.
  assert (exists t, field_print x ^^ tail_text field_print "}" l r = String quote t) as [t Ht] by (by eexists).
  pose proof Ht as Ht'. rewrite Ht'. unfold skip_ws. cbn [trim_left]. change (json_space quote) with false. cbv iota.
  change (Ascii.eqb quote "}") with false. cbv iota.
  rewrite <- Ht. rewrite parse_fields_text; [done|done|].
  rewrite string_length_app. pose proof (tail_text_length field_print "}" l r). lia.
Qed.

Lemma list_max_Forall l n : (list_max l <= n)%nat <-> Forall (fun k => (k <= n)%nat) l.
Proof. apply list_max_le. Qed.

Lemma parse_print v d r :
  jval_ok v = true -> (jdepth v <= d)%nat -> delim r -> parse_value d (print v ^^ r) = Some (v, r).
Proof.
  revert d r. induction v as [|b|n|s|l IH|fs IH] using jval_induction; intros d r Hok Hd Hr.
  - destruct d, r; reflexivity.
  - destruct b, d, r; reflexivity.
  - cbn [jval_ok print] in *. apply valid_number_inv in Hok as Hn. destruct Hn as [Hc (a & n' & -> & Ha)].
    apply number_head_facts in Ha as (H1 & H2 & H3 & H4).
    assert (skip_ws (String a n' ^^ r) = String a (n' ^^ r)) as Hs by (by apply (skip_ws_value (VNum (String a n')))).
    destruct d; cbn [parse_value]; rewrite Hs, H1, H2, H3, H4; unfold parse_number; rewrite <- string_app_cons;
      by rewrite span_number_app, Hok.
  - cbn [jval_ok print] in *.
    assert (exists t, marshal_string s ^^ r = String quote t) as [t Ht] by (by eexists).
    destruct d; cbn [parse_value]; rewrite skip_ws_quote, Ht; cbn [Ascii.eqb]; change (Ascii.eqb quote quote) with true;
      cbv iota; rewrite <- Ht, read_marshal_string by done; reflexivity.
  - destruct d as [|d]; [cbn in Hd; lia|]. cbn [jval_ok jdepth print] in *.
    rewrite !string_app_assoc. change ("]" ^^ r) with (String "]" r).
    change (parse_value (S d) ("[" ^^ ?t)) with (parse_array (parse_value d) t).
    rewrite forallb_forall in Hok.
    assert (Forall (fun v => jval_ok v = true) l) as Hl
      by (apply Forall_forall; intros x Hx; apply Hok; by apply list_elem_of_In).
    apply parse_array_text; [done|]. apply le_S_n in Hd. rewrite list_max_Forall in Hd.
    rewrite Forall_fmap in Hd. rewrite Forall_forall in IH, Hl, Hd |- *. intros x Hx r' Hr'.
    apply IH; [done|by apply Hl|by apply Hd|done].
  - destruct d as [|d]; [cbn in Hd; lia|]. cbn [jval_ok jdepth print] in *.
    rewrite !string_app_assoc. change ("}" ^^ r) with (String "}" r).
    change (parse_value (S d) ("{" ^^ ?t)) with (parse_object (parse_value d) t).
    rewrite forallb_forall in Hok. apply le_S_n in Hd. rewrite list_max_Forall in Hd.
    rewrite Forall_fmap in Hd.
    apply parse_object_text. rewrite Forall_forall in IH, Hd |- *. intros f Hf r' Hr'.
    specialize (Hok f (proj1 (list_elem_of_In _ _) Hf)). apply andb_true_iff in Hok as [Hk Hv].
    apply parse_field_text; [done|done|]. intros r'' Hr''. apply IH; [done|done|by apply Hd|done].
Qed.

(** json.Unmarshal reads back what json.Marshal printed. *)
Lemma Unmarshal_print v :
  jval_ok v = true -> (jdepth v <= maxNestingDepth)%nat -> Unmarshal_value (print v) = Some v.
Proof.
  intros Hok Hd. unfold Unmarshal_value. rewrite <- (string_app_nil_r (print v)), parse_print by done. reflexivity.
Qed.

(** ** What is read is a value json.Marshal can print *)

Lemma parse_elems_ok parse n s l r :
  (forall s v r, parse s = Some (v, r) -> jval_ok v = true) ->
  parse_elems parse n s = Some (l, r) -> forallb jval_ok l = true.
Proof.
  intros Hp. revert s l. induction n as [|n IH]; intros s l Hr; [done|]. cbn [parse_elems] in Hr.
  destruct (parse s) as [[v r1]|] eqn:Hv; [|done]. apply Hp in Hv.
  destruct (skip_ws r1) as [|c r2]; [done|]. destruct (Ascii.eqb c ",").
  - destruct (parse_elems parse n r2) as [[l' r3]|] eqn:Hl; [|done]. simplify_eq. cbn. by rewrite Hv, (IH _ _ Hl).
  - destruct (Ascii.eqb c "]"); [|done]. simplify_eq. cbn. by rewrite Hv.
Qed.

Lemma parse_fields_ok parse n s l r :
  (forall s v r, parse s = Some (v, r) -> jval_ok v = true) ->
  parse_fields parse n s = Some (l, r) -> forallb (fun f => valid_utf8 f.1 && jval_ok f.2) l = true.
Proof.
  intros Hp. revert s l. induction n as [|n IH]; intros s l Hr; [done|]. cbn [parse_fields] in Hr.
  destruct (parse_field parse s) as [[[k v] r1]|] eqn:Hf; [|done].
  assert (valid_utf8 k && jval_ok v = true) as Hkv.
  { unfold parse_field in Hf. destruct (read_string (skip_ws s)) as [[k' r2]|] eqn:Hk; [|done].
    apply read_string_valid in Hk. destruct (skip_ws r2) as [|c r3]; [done|]. destruct (Ascii.eqb c ":"); [|done].
    destruct (parse r3) as [[v' r4]|] eqn:Hv; [|done]. apply Hp in Hv. simplify_eq. by rewrite Hk, Hv. }
  destruct (skip_ws r1) as [|c r2]; [done|]. destruct (Ascii.eqb c ",").
  - destruct (parse_fields parse n r2) as [[l' r3]|] eqn:Hl; [|done]. simplify_eq. cbn [forallb fst snd].
    by rewrite Hkv, (IH _ _ Hl).
  - destruct (Ascii.eqb c "}"); [|done]. simplify_eq. cbn [forallb fst snd]. by rewrite Hkv.
Qed.

Lemma parse_value_ok d s v r : parse_value d s = Some (v, r) -> jval_ok v = true.
Proof.
  revert s v r. induction d as [|d IH]; intros s v r Hr; cbn [parse_value] in Hr;
    destruct (skip_ws s) as [|a t]; try done;
    (destruct (Ascii.eqb a quote);
      [destruct (read_string _) as [[str r']|] eqn:Hs; [|done]; simplify_eq; by apply read_string_valid in Hs|]);
    destruct (Ascii.eqb a "["); try done.
  2: { unfold parse_array in Hr. destruct (skip_ws t) as [|c t']; [done|].
       destruct (Ascii.eqb c "]"); [by simplify_eq|].
       destruct (parse_elems _ _ _) as [[l r']|] eqn:Hl; [|done]. simplify_eq. by eapply parse_elems_ok. }
  all: destruct (Ascii.eqb a "{"); try done.
  2: { unfold parse_object in Hr. destruct (skip_ws t) as [|c t']; [done|].
       destruct (Ascii.eqb c "}"); [by simplify_eq|].
       destruct (parse_fields _ _ _) as [[l r']|] eqn:Hl; [|done]. simplify_eq. by eapply parse_fields_ok. }
  all: destruct (Ascii.eqb a "n" || Ascii.eqb a "t" || Ascii.eqb a "f");
    [unfold parse_literal in Hr; repeat case_match; by simplify_eq|].
  all: unfold parse_number in Hr; destruct (span_number _) as [n r']; destruct (valid_number n) eqn:Hn; [|done];
    by simplify_eq.
Qed.

Lemma Unmarshal_value_ok s v : Unmarshal_value s = Some v -> jval_ok v = true.
Proof.
  unfold Unmarshal_value. destruct (parse_value _ _) as [[v' r]|] eqn:Hp; [|done].
  destruct (_ =s _); [|done]. intros [= <-]. by eapply parse_value_ok.
Qed.

(** ** Printed values have no line breaks *)

Lemma number_one_line n : all_chars number_char n = true -> one_line n = true.
Proof.
  induction n as [|a n IH]; [done|]. cbn [all_chars]. intros Hn. apply andb_true_iff in Hn as [Ha Hn].
  change (String a n) with (String a "" ^^ n). rewrite one_line_app, IH by done.
  destruct a as [[] [] [] [] [] [] [] []]; done.
Qed.

Lemma Join_one_line l : Forall (fun s => one_line s = true) l -> one_line (Join l ",") = true.
Proof.
  induction 1 as [|x l Hx _ IH]; [done|]. destruct l as [|y l]; [done|].
  change (Join (x :: y :: l) ",") with (x ^^ "," ^^ Join (y :: l) ","). by rewrite !one_line_app, Hx, IH.
Qed.

(** Numbers are numbers, strings whatever they are. *)
Fixpoint numbers_ok (v : jval) : bool :=
  match v with
  | VNum n => valid_number n
  | VArr l => forallb numbers_ok l
  | VObj fs => forallb (fun f => numbers_ok f.2) fs
  | _ => true
  end.

Lemma print_one_line v : numbers_ok v = true -> one_line (print v) = true.
Proof.
  induction v as [|b|n|s|l IH|fs IH] using jval_induction; cbn [numbers_ok print]; intros Hok; try done.
  - by destruct b.
  - apply number_one_line. by apply valid_number_inv in Hok as [? _].
  - apply marshal_string_one_line.
  - rewrite !one_line_app, Join_one_line; [done|]. rewrite forallb_forall in Hok. apply Forall_fmap, Forall_forall.
    rewrite Forall_forall in IH. intros x Hx. apply IH; [done|]. apply Hok. by apply list_elem_of_In.
  - rewrite !one_line_app, Join_one_line; [done|]. rewrite forallb_forall in Hok. apply Forall_fmap, Forall_forall.
    rewrite Forall_forall in IH. intros x Hx. cbn. rewrite !one_line_app, marshal_string_one_line.
    rewrite IH; [done|done|]. apply Hok. by apply list_elem_of_In.
Qed.

(** ** Integers are numbers *)

Lemma digits_fuel_leading fuel n acc :
  (0 < n)%Z -> (n < 10 ^ Z.of_nat fuel)%Z -> drop_digits acc = "" ->
  exists d s, (1 <= d < 10)%Z /\ digits_fuel fuel n acc = String (digit d) s /\ drop_digits s = "".
Proof.
  revert n acc. induction fuel as [|f IH]; intros n acc Hn Hb Hacc; [cbn in Hb; lia|]. cbn [digits_fuel].
  pose proof (Z.mod_pos_bound n 10 ltac:(lia)). destruct (Z.ltb_spec n 10) as [Hlt|Hge].
  - exists (n mod 10)%Z, acc. rewrite Z.mod_small by lia. split; [lia|done].
  - apply IH.
    + apply Z.div_str_pos. lia.
    + rewrite Nat2Z.inj_succ, Z.pow_succ_r in Hb by lia. apply Z.div_lt_upper_bound; lia.
    + cbn [drop_digits]. by rewrite digit_val_digit by lia.
Qed.

Lemma format_nat_leading n :
  (0 < n)%Z -> exists d s, (1 <= d < 10)%Z /\ format_nat n = String (digit d) s /\ drop_digits s = "".
Proof. intros Hn. apply digits_fuel_leading; [done|apply format_fuel_enough; lia|done]. Qed.

Lemma digit_not_zero d : (1 <= d < 10)%Z -> Ascii.eqb (digit d) "0" = false.
Proof.
  intros Hd. apply Ascii.eqb_neq. intros He. apply (f_equal digit_val) in He.
  rewrite digit_val_digit in He by lia.
  change (digit_val "0") with (Some 0%Z) in He. injection He as He. lia.
Qed.

Lemma valid_FormatInt n : valid_number (FormatInt n) = true.
Proof.
  unfold FormatInt. destruct (Z.ltb_spec n 0) as [Hn|Hn].
  - destruct (format_nat_leading (- n)) as (d & s & Hd & -> & Hs); [lia|]. unfold valid_number.
    change (Ascii.eqb "-" "-") with true. cbv iota. rewrite digit_not_zero by done. cbn [some_digits].
    rewrite digit_val_digit by lia. by rewrite Hs.
  - destruct (Z.eqb_spec n 0) as [->|Hz]; [reflexivity|].
    destruct (format_nat_leading n) as (d & s & Hd & -> & Hs); [lia|]. unfold valid_number.
    rewrite (digit_neq d "-") by (done || lia). rewrite digit_not_zero by done. cbn [some_digits].
    rewrite digit_val_digit by lia. by rewrite Hs.
Qed.
