(* ===== verification/Protocol.v ===== *)
(** * internal/protocol: wire types and command signing

    Models [types.go], [ws.go] (the constants and structures of the control
    plane protocol) and [sign.go] (the canonical signing payload, [Sign] and
    [VerifySignature]).  Strings and byte slices are byte strings, a nilable
    pointer is an [option], an [int64] is a [Z] in [in_int64].

    Ed25519 is the only primitive kept abstract: the class [Ed25519] lists its
    operations and the documented law that a signature made with a private key
    verifies under its public key. *)

From Stdlib Require Import Ascii.
From S2P Require Import Prelude GoStrings Sha256.

(** ** types.go: constants *)

(** Inventory event operations. *)
Definition OpAdd := "add".
Definition OpUpdate := "update".
Definition OpDelete := "delete".
Definition OpSync := "sync".

(** Command verbs. *)
Definition VerbApply := "apply".
Definition VerbPatch := "patch".
Definition VerbDelete := "delete".
Definition VerbDrainNode := "drain-node".
Definition VerbUncordonNode := "uncordon-node".
Definition VerbHelmInstall := "helm-install".
Definition VerbHelmUpgrade := "helm-upgrade".
Definition VerbHelmUninstall := "helm-uninstall".
Definition VerbCertRotate := "cert-rotate".
Definition VerbClusterUpgrade := "cluster-upgrade".

(** Report statuses. *)
Definition StatusReceived := "received".
Definition StatusValidating := "validating".
Definition StatusDryRun := "dry-run".
Definition StatusApplying := "applying".
Definition StatusProgress := "progress".
Definition StatusSucceeded := "succeeded".
Definition StatusFailed := "failed".
Definition StatusRefused := "refused".

(** Patch types accepted for VerbPatch. *)
Definition PatchStrategic := "strategic".
Definition PatchMerge := "merge".
Definition PatchJSON := "json".

(** ** types.go: structures *)

Record ResourceRef := mkResourceRef {
  Ref_Group : string;
  Ref_Version : string;
  Ref_Resource : string;
  Ref_Namespace : string;
  Ref_Name : string;
}.

Record InventoryEvent := mkInventoryEvent {
  Ev_Op : string;
  Ev_Ref : ResourceRef;
  Ev_ObjectJSON : string;
  Ev_Timestamp : Z;
}.

Record InventoryBatch := mkInventoryBatch {
  Batch_ClusterID : string;
  Batch_Seq : Z;
  Batch_Full : bool;
  Batch_Events : list InventoryEvent;
}.

Record InventoryAck := mkInventoryAck {
  Ack_OK : bool;
  Ack_LastSeq : Z;
  Ack_Error : string;
}.

Record HelmSpec := mkHelmSpec {
  Helm_ReleaseName : string;
  Helm_Namespace : string;
  Helm_ChartRef : string;
  Helm_Version : string;
  Helm_ValuesYAML : string;
}.

Record Command := mkCommand {
  Cmd_ID : string;
  Cmd_Nonce : string;
  Cmd_Timestamp : Z;
  Cmd_Verb : string;
  Cmd_Target : ResourceRef;
  Cmd_Payload : string;
  Cmd_PatchType : string;
  Cmd_Helm : option HelmSpec;
  Cmd_ExpectedHash : string;
  Cmd_Override : bool;
  Cmd_Signature : string;
}.

Record Report := mkReport {
  Rep_ClusterID : string;
  Rep_CommandID : string;
  Rep_Status : string;
  Rep_Message : string;
  Rep_Diff : string;
  Rep_Progress : Z;
  Rep_Timestamp : Z;
}.

Record PollRequest := mkPollRequest {
  Poll_ClusterID : string;
  Poll_Version : string;
  Poll_Reports : list Report;
}.

Record PollResponse := mkPollResponse {
  Resp_OK : bool;
  Resp_Commands : list (option Command);  (* []*Command: a JSON null is a nil pointer *)
}.

#[export] Instance ResourceRef_eq_dec : EqDecision ResourceRef.
Proof. solve_decision. Defined.
#[export] Instance InventoryEvent_eq_dec : EqDecision InventoryEvent.
Proof. solve_decision. Defined.
#[export] Instance InventoryBatch_eq_dec : EqDecision InventoryBatch.
Proof. solve_decision. Defined.
#[export] Instance HelmSpec_eq_dec : EqDecision HelmSpec.
Proof. solve_decision. Defined.
#[export] Instance Command_eq_dec : EqDecision Command.
Proof. solve_decision. Defined.
#[export] Instance Report_eq_dec : EqDecision Report.
Proof. solve_decision. Defined.

(** ** ws.go: frame type tags and frames *)

Definition WsTypeAgentHello := "agent_hello".
Definition WsTypeHelloAck := "hello_ack".
Definition WsTypeCommand := "command".
Definition WsTypeReport := "report".
Definition WsTypeError := "error".

Record WsHello := mkWsHello {
  Hello_Type : string;
  Hello_Token : string;
  Hello_ClusterID : string;
  Hello_Version : string;
}.

Record WsHelloAck := mkWsHelloAck {
  HelloAck_Type : string;
  HelloAck_Accepted : bool;
  HelloAck_Message : string;
}.

(** ** sign.go *)

(** [SigningPayload]: the lines of the canonical payload, in order. *)
Definition signing_lines (c : Command) : list string :=
  [Cmd_Nonce c; FormatInt (Cmd_Timestamp c); Cmd_ID c; Cmd_Verb c;
   Ref_Group (Cmd_Target c); Ref_Version (Cmd_Target c); Ref_Resource (Cmd_Target c);
   Ref_Namespace (Cmd_Target c); Ref_Name (Cmd_Target c);
   Cmd_PatchType c; sha256hex (Cmd_Payload c); Cmd_ExpectedHash c; format_bool (Cmd_Override c)].

Definition helm_lines (h : HelmSpec) : list string :=
  [Helm_ReleaseName h; Helm_Namespace h; Helm_ChartRef h; Helm_Version h;
   sha256hex (Helm_ValuesYAML h)].

Definition SigningPayload (c : Command) : string :=
  let b := Join (signing_lines c) nl in
  match Cmd_Helm c with
  | Some h => b ^^ nl ^^ Join (helm_lines h) nl
  | None => b
  end.

(** What sign.go uses of crypto/ed25519: keys, messages and signatures are byte
    strings. *)
Class Ed25519 := {
  Public : string -> string;
  ed25519_Sign : string -> string -> string;
  ed25519_Verify : string -> string -> string -> bool;
}.

(** The documented behaviour of crypto/ed25519: a signature is 64 bytes long
    and verifies under the public half of the key that made it. *)
Class Ed25519Laws `{Ed25519} : Prop := {
  ed25519_sign_size priv msg : String.length (ed25519_Sign priv msg) = 64%nat;
  ed25519_sign_verify priv msg : ed25519_Verify (Public priv) msg (ed25519_Sign priv msg) = true;
}.

Definition set_Signature (c : Command) (sig : string) : Command :=
  {| Cmd_ID := Cmd_ID c; Cmd_Nonce := Cmd_Nonce c; Cmd_Timestamp := Cmd_Timestamp c;
     Cmd_Verb := Cmd_Verb c; Cmd_Target := Cmd_Target c; Cmd_Payload := Cmd_Payload c;
     Cmd_PatchType := Cmd_PatchType c; Cmd_Helm := Cmd_Helm c;
     Cmd_ExpectedHash := Cmd_ExpectedHash c; Cmd_Override := Cmd_Override c;
     Cmd_Signature := sig |}.

(** The errors of [VerifySignature], and the text of their [Error()] (the byte
    offset the base64 decoder appends is left out). *)
Inductive SignatureError := NoSignature | BadBase64 | InvalidSignature.

Definition SignatureError_text (e : SignatureError) : string :=
  match e with
  | NoSignature => "command has no signature"
  | BadBase64 => "signature is not valid base64: illegal base64 data"
  | InvalidSignature => "invalid command signature"
  end.

Section Signing.
Context `{Ed25519}.

(** [Sign] sets [c.Signature] in place; here it returns the updated command. *)
Definition Sign (c : Command) (priv : string) : Command :=
  set_Signature c (b64_encode (ed25519_Sign priv (SigningPayload c))).

(** [VerifySignature]: [None] is Go's nil error. *)
Definition VerifySignature (c : Command) (pub : string) : option SignatureError :=
  if Cmd_Signature c =s "" then Some NoSignature
  else match b64_decode (Cmd_Signature c) with
  | None => Some BadBase64
  | Some sig =>
      if negb (ed25519_Verify pub (SigningPayload c) sig) then Some InvalidSignature
      else None
  end.

(** A verified command carries a signature of its payload under the key. *)
Lemma VerifySignature_ok c pub :
  VerifySignature c pub = None <->
  exists sig, b64_decode (Cmd_Signature c) = Some sig /\ Cmd_Signature c <> "" /\
    ed25519_Verify pub (SigningPayload c) sig = true.
Proof.
  unfold VerifySignature. split.
  - intros Hv. repeat case_hyp Hv; bool_to_prop; eauto.
  - intros (sig & Hd & Hne & Hv). apply string_eqb_false in Hne. by rewrite Hne, Hd, Hv.
Qed.

Lemma SigningPayload_set_Signature c sig : SigningPayload (set_Signature c sig) = SigningPayload c.
Proof. done. Qed.

Lemma b64_encode_nonempty (s : string) : s <> "" -> b64_encode s <> "".
Proof. by destruct s as [|a [|b [|c s]]]. Qed.

(** A command signed with a private key is accepted by [VerifySignature]
    under the matching public key: signing and verifying agree on the canonical
    payload, which does not depend on the signature field itself. *)
Theorem sign_then_verify `{!Ed25519Laws} c priv :
  VerifySignature (Sign c priv) (Public priv) = None.
Proof.
  apply VerifySignature_ok. unfold Sign.
  exists (ed25519_Sign priv (SigningPayload c)).
  rewrite SigningPayload_set_Signature, ed25519_sign_verify. cbn [set_Signature Cmd_Signature].
  rewrite b64_decode_encode. split; [done|split; [|done]].
  apply b64_encode_nonempty. intros Heq.
  pose proof (ed25519_sign_size priv (SigningPayload c)) as Hl. by rewrite Heq in Hl.
Qed.

End Signing.

(** A deliberately weak instance (a keyed digest), to instantiate the class. *)
Module ToyEd25519.
#[local] Instance toy : Ed25519 := {
  Public priv := priv;
  ed25519_Sign priv msg := sha256hex (priv ^^ msg);
  ed25519_Verify pub msg sig := sig =s sha256hex (pub ^^ msg);
}.

Lemma toy_laws : @Ed25519Laws toy.
Proof.
  split; intros; simpl; [apply sha256hex_length|apply eqb_refl_string].
Qed.
End ToyEd25519.

(** ** The payload determines the command *)

Definition no_newline (s : string) : Prop := has_char newline s = false.

#[export] Instance no_newline_dec s : Decision (no_newline s).
Proof. unfold no_newline. apply _. Defined.

#[export] Hint Unfold no_newline : agent.

Lemma Join_cons2 (a b : string) (l : list string) sep :
  Join (a :: b :: l) sep = a ^^ sep ^^ Join (b :: l) sep.
Proof. done. Qed.

(** Joining newline-free lines is injective on non-empty lists. *)
Lemma Join_nl_inj (l1 l2 : list string) :
  l1 <> [] -> l2 <> [] -> Forall no_newline l1 -> Forall no_newline l2 ->
  Join l1 nl = Join l2 nl -> l1 = l2.
Proof.
  revert l2. induction l1 as [|a l1 IH]; intros [|b l2] Hn1 Hn2 H1 H2 Heq; try done.
  inversion_clear H1 as [|?? Ha H1']; inversion_clear H2 as [|?? Hb H2'].
  destruct l1 as [|a' l1], l2 as [|b' l2].
  - simpl in Heq. by subst.
  - rewrite Join_cons2 in Heq. simpl in Heq. subst a. unfold no_newline in Ha.
    rewrite has_char_app in Ha. unfold nl in Ha. rewrite string_app_cons in Ha. simpl in Ha.
    by rewrite orb_true_r in Ha.
  - rewrite Join_cons2 in Heq. simpl in Heq. subst b. unfold no_newline in Hb.
    rewrite has_char_app in Hb. unfold nl in Hb. rewrite string_app_cons in Hb. simpl in Hb.
    by rewrite orb_true_r in Hb.
  - rewrite !Join_cons2 in Heq. unfold nl at 1 3 in Heq. rewrite !string_app_cons, !string_app_nil_l in Heq.
    apply string_sep_inj in Heq as [-> Heq]; [|done..].
    f_equal. by apply IH.
Qed.

Lemma Join_app (l1 l2 : list string) sep :
  l1 <> [] -> l2 <> [] -> Join (l1 ++ l2) sep = Join l1 sep ^^ sep ^^ Join l2 sep.
Proof.
  intros H1 H2. induction l1 as [|a l1 IH]; [done|].
  destruct l1 as [|a' l1].
  - simpl. by destruct l2.
  - change ((a :: a' :: l1) ++ l2) with (a :: a' :: (l1 ++ l2)).
    rewrite !Join_cons2, !string_app_assoc. by rewrite <- IH.
Qed.

Definition all_lines (c : Command) : list string :=
  signing_lines c ++ match Cmd_Helm c with Some h => helm_lines h | None => [] end.

Lemma SigningPayload_lines c : SigningPayload c = Join (all_lines c) nl.
Proof.
  unfold SigningPayload, all_lines. destruct (Cmd_Helm c) as [h|].
  - by rewrite Join_app.
  - by rewrite app_nil_r.
Qed.

(** The free-text fields of a command are single lines. *)
Definition single_line (c : Command) : Prop :=
  Forall no_newline
    [Cmd_Nonce c; Cmd_ID c; Cmd_Verb c; Ref_Group (Cmd_Target c); Ref_Version (Cmd_Target c);
     Ref_Resource (Cmd_Target c); Ref_Namespace (Cmd_Target c); Ref_Name (Cmd_Target c);
     Cmd_PatchType c; Cmd_ExpectedHash c]
  /\ match Cmd_Helm c with
     | Some h => Forall no_newline [Helm_ReleaseName h; Helm_Namespace h; Helm_ChartRef h; Helm_Version h]
     | None => True
     end.

Lemma single_line_all c : single_line c -> Forall no_newline (all_lines c).
Proof.
  intros [H1 H2]. unfold all_lines, signing_lines, helm_lines.
  decompose_Forall_hyps.
  assert (no_newline (format_bool (Cmd_Override c))) by (by destruct (Cmd_Override c)).
  destruct (Cmd_Helm c); decompose_Forall_hyps; repeat constructor; auto with agent.
Qed.

(** Two commands agree on everything the signature covers: every field but the
    signature, with the payload and the values file compared by digest. *)
Definition helm_agree (h1 h2 : HelmSpec) : Prop :=
  Helm_ReleaseName h1 = Helm_ReleaseName h2 /\ Helm_Namespace h1 = Helm_Namespace h2 /\
  Helm_ChartRef h1 = Helm_ChartRef h2 /\ Helm_Version h1 = Helm_Version h2 /\
  Sum256 (Helm_ValuesYAML h1) = Sum256 (Helm_ValuesYAML h2).

Definition signed_agree (c1 c2 : Command) : Prop :=
  Cmd_Nonce c1 = Cmd_Nonce c2 /\ Cmd_Timestamp c1 = Cmd_Timestamp c2 /\
  Cmd_ID c1 = Cmd_ID c2 /\ Cmd_Verb c1 = Cmd_Verb c2 /\ Cmd_Target c1 = Cmd_Target c2 /\
  Cmd_PatchType c1 = Cmd_PatchType c2 /\ Sum256 (Cmd_Payload c1) = Sum256 (Cmd_Payload c2) /\
  Cmd_ExpectedHash c1 = Cmd_ExpectedHash c2 /\ Cmd_Override c1 = Cmd_Override c2 /\
  match Cmd_Helm c1, Cmd_Helm c2 with
  | Some h1, Some h2 => helm_agree h1 h2
  | None, None => True
  | _, _ => False
  end.

Lemma ResourceRef_ext r1 r2 :
  Ref_Group r1 = Ref_Group r2 -> Ref_Version r1 = Ref_Version r2 ->
  Ref_Resource r1 = Ref_Resource r2 -> Ref_Namespace r1 = Ref_Namespace r2 ->
  Ref_Name r1 = Ref_Name r2 -> r1 = r2.
Proof. destruct r1, r2; simpl; congruence. Qed.

Lemma format_bool_inj a b : format_bool a = format_bool b -> a = b.
Proof. by destruct a, b. Qed.

Lemma sha256hex_digest a b : sha256hex a = sha256hex b -> Sum256 a = Sum256 b.
Proof. apply hex_encode_inj. Qed.

#[export] Hint Resolve ResourceRef_ext format_bool_inj sha256hex_digest FormatInt_inj : agent.

Lemma all_lines_agree c1 c2 :
  in_int64 (Cmd_Timestamp c1) -> in_int64 (Cmd_Timestamp c2) ->
  all_lines c1 = all_lines c2 -> signed_agree c1 c2.
Proof.
  intros Ht1 Ht2. unfold all_lines, signing_lines, helm_lines. intros Heq.
  destruct (Cmd_Helm c1) as [h1|] eqn:E1, (Cmd_Helm c2) as [h2|] eqn:E2; simplify_eq Heq; intros.
  - unfold signed_agree. rewrite E1, E2. unfold helm_agree. naive_solver (auto with agent).
  - unfold signed_agree. rewrite E1, E2. naive_solver (auto with agent).
Qed.

(** C33. The canonical payload is unambiguous for single-line commands: two such
    commands with the same signing payload agree on every signed field (the
    payload and the Helm values through their SHA-256 digest), including
    whether a Helm specification is present at all. *)
Theorem signing_payload_injective c1 c2 :
  single_line c1 -> single_line c2 ->
  in_int64 (Cmd_Timestamp c1) -> in_int64 (Cmd_Timestamp c2) ->
  SigningPayload c1 = SigningPayload c2 -> signed_agree c1 c2.
Proof.
  intros H1 H2 Ht1 Ht2. rewrite !SigningPayload_lines. intros Heq.
  apply all_lines_agree; [done..|].
  apply Join_nl_inj; auto using single_line_all; done.
Qed.

(** ** Concrete commands *)

Definition sample_ref : ResourceRef := mkResourceRef "apps" "v1" "deployments" "default" "web".

Definition sample_command : Command :=
  {| Cmd_ID := "cmd-1"; Cmd_Nonce := "n-1"; Cmd_Timestamp := 1700000000; Cmd_Verb := VerbApply;
     Cmd_Target := sample_ref; Cmd_Payload := "kind: ConfigMap"; Cmd_PatchType := "";
     Cmd_Helm := None; Cmd_ExpectedHash := ""; Cmd_Override := false; Cmd_Signature := "" |}.

Lemma sign_then_verify_witness :
  let _ := ToyEd25519.toy in VerifySignature (Sign sample_command "key") (Public "key") = None.
Proof. exact (@sign_then_verify ToyEd25519.toy ToyEd25519.toy_laws sample_command "key"). Defined.

Lemma signing_payload_injective_witness :
  signed_agree sample_command (set_Signature sample_command "c2ln").
Proof.
  apply (signing_payload_injective sample_command (set_Signature sample_command "c2ln"));
    [split; [repeat constructor|exact I]| split; [repeat constructor|exact I]
    |split; discriminate|split; discriminate|reflexivity].
Defined.

(** Without the single-line hypothesis the payload is ambiguous: a line break
    moved from the name to the namespace leaves it unchanged. *)
Definition retarget (ns name : string) : Command :=
  {| Cmd_ID := "cmd-1"; Cmd_Nonce := "n-1"; Cmd_Timestamp := 1700000000; Cmd_Verb := VerbDelete;
     Cmd_Target := mkResourceRef "apps" "v1" "deployments" ns name; Cmd_Payload := "";
     Cmd_PatchType := ""; Cmd_Helm := None; Cmd_ExpectedHash := ""; Cmd_Override := false;
     Cmd_Signature := "" |}.

Example signing_payload_multi_line_ambiguous :
  SigningPayload (retarget "prod" ("db" ^^ nl ^^ "old")) =
  SigningPayload (retarget ("prod" ^^ nl ^^ "db") "old").
Proof. vm_compute. reflexivity. Qed.
