(* ===== verification/Wire.v ===== *)
(** * internal/protocol: the JSON form of the wire types

    json.Marshal and json.Unmarshal on the structures of types.go and ws.go:
    each structure has a writer that lists its fields as the struct tags say
    (names, order, omitempty) and a reader that sets the fields it knows, the
    way encoding/json does (keys match exactly or up to case folding, unknown
    keys are ignored, null leaves a value alone or makes a pointer or slice nil,
    a later occurrence of a key overwrites, a wrong type is an error).  A reader
    takes the value an earlier occurrence of the key left. *)

From Stdlib Require Import Ascii.
From S2P Require Import Prelude GoStrings Json JsonString JsonText JsonParse Protocol.

(** ** Fields *)

(** encoding/json's folding of key names: ASCII letters, and the two other runes
    that fold to one. *)
Fixpoint fold_name (s : string) : string :=
  match s with
  | EmptyString => ""
  | String a s1 =>
      match s1 with
      | String b s2 =>
          if (nat_of_ascii a =? 197)%nat && (nat_of_ascii b =? 191)%nat then String "s" (fold_name s2)
          else
            match s2 with
            | String c s3 =>
                if (nat_of_ascii a =? 226)%nat && (nat_of_ascii b =? 132)%nat && (nat_of_ascii c =? 170)%nat
                then String "k" (fold_name s3)
                else String (lower_ascii a) (fold_name s1)
            | EmptyString => String (lower_ascii a) (fold_name s1)
            end
      | EmptyString => String (lower_ascii a) ""
      end
  end.

(** The field a key stands for. *)
Definition match_field (names : list string) (key : string) : option string :=
  if existsb (String.eqb key) names then Some key
  else find (fun n => fold_name n =s fold_name key) names.

Section Struct.
Context {A : Type} (names : list string) (set : string -> jval -> A -> option A).

Fixpoint read_fields (fs : list (string * jval)) (cur : A) : option A :=
  match fs with
  | [] => Some cur
  | (k, v) :: fs' =>
      match match_field names k with
      | None => read_fields fs' cur
      | Some n => cur' ← set n v cur; read_fields fs' cur'
      end
  end.

Definition read_struct (v : jval) (cur : A) : option A :=
  match v with
  | VNull => Some cur
  | VObj fs => read_fields fs cur
  | _ => None
  end.
End Struct.

(** A field that is always written, and one with omitempty. *)
Definition always (k : string) (v : jval) : list (string * jval) := [(k, v)].
Definition omitempty (empty : bool) (k : string) (v : jval) : list (string * jval) :=
  if empty then [] else [(k, v)].

(** ** Basic types *)

Definition read_str (v : jval) (cur : string) : option string :=
  match v with
  | VNull => Some cur
  | VStr s => Some s
  | _ => None
  end.

Definition read_bool (v : jval) (cur : bool) : option bool :=
  match v with
  | VNull => Some cur
  | VBool b => Some b
  | _ => None
  end.

Definition write_int (n : Z) : jval := VNum (FormatInt n).

(** A signed integer type with values [lo] to [hi]. *)
Definition read_int (lo hi : Z) (v : jval) (cur : Z) : option Z :=
  match v with
  | VNull => Some cur
  | VNum lit =>
      match ParseInt lit with
      | Some n => if (lo <=? n)%Z && (n <=? hi)%Z then Some n else None
      | None => None
      end
  | _ => None
  end.
Definition int32_min : Z := -(2 ^ 31).
Definition int32_max : Z := 2 ^ 31 - 1.
Definition read_int64 : jval -> Z -> option Z := read_int int64_min int64_max.
Definition read_int32 : jval -> Z -> option Z := read_int int32_min int32_max.

(** An element of a []byte given as an array of numbers. *)
Definition read_uint8 (v : jval) (cur : Z) : option Z :=
  match v with
  | VNum (String a _) => if Ascii.eqb a "-" then None else read_int 0 255 v cur
  | _ => read_int 0 255 v cur
  end.

(** The elements of a slice, over those already there. *)
Fixpoint read_elems {A} (read : jval -> A -> option A) (zero : A) (l : list jval) (cur : list A) : option (list A) :=
  match l with
  | [] => Some []
  | v :: l' =>
      x ← read v (default zero (head cur));
      xs ← read_elems read zero l' (tail cur);
      Some (x :: xs)
  end.

Definition read_slice {A} (read : jval -> A -> option A) (zero : A) (v : jval) (cur : list A) : option (list A) :=
  match v with
  | VNull => Some []
  | VArr l => read_elems read zero l cur
  | _ => None
  end.

Fixpoint byte_values (s : string) : list Z :=
  match s with
  | EmptyString => []
  | String a s' => Z.of_nat (nat_of_ascii a) :: byte_values s'
  end.
Fixpoint of_byte_values (l : list Z) : string :=
  match l with
  | [] => ""
  | z :: l' => String (byte z) (of_byte_values l')
  end.

(** []byte: base64 text, or an array of numbers. *)
Definition write_bytes (s : string) : jval := VStr (b64_encode s).
Definition read_bytes (v : jval) (cur : string) : option string :=
  match v with
  | VNull => Some ""
  | VStr s => b64_decode s
  | VArr l => of_byte_values <$> read_elems read_uint8 0%Z l (byte_values cur)
  | _ => None
  end.

(** A pointer. *)
Definition write_ptr {A} (write : A -> jval) (p : option A) : jval :=
  match p with
  | None => VNull
  | Some a => write a
  end.
Definition read_ptr {A} (read : jval -> A -> option A) (zero : A) (v : jval) (cur : option A) : option (option A) :=
  match v with
  | VNull => Some None
  | _ => Some <$> read v (default zero cur)
  end.

(** ** types.go *)

Definition write_ResourceRef (r : ResourceRef) : jval :=
  VObj (always "group" (VStr (Ref_Group r)) ++ always "version" (VStr (Ref_Version r))
    ++ always "resource" (VStr (Ref_Resource r))
    ++ omitempty (Ref_Namespace r =s "") "namespace" (VStr (Ref_Namespace r))
    ++ always "name" (VStr (Ref_Name r))).

Definition set_ResourceRef (n : string) (v : jval) (r : ResourceRef) : option ResourceRef :=
  let '(mkResourceRef g ver res ns nm) := r in
  if n =s "group" then (fun x => mkResourceRef x ver res ns nm) <$> read_str v g
  else if n =s "version" then (fun x => mkResourceRef g x res ns nm) <$> read_str v ver
  else if n =s "resource" then (fun x => mkResourceRef g ver x ns nm) <$> read_str v res
  else if n =s "namespace" then (fun x => mkResourceRef g ver res x nm) <$> read_str v ns
  else (fun x => mkResourceRef g ver res ns x) <$> read_str v nm.
Definition read_ResourceRef : jval -> ResourceRef -> option ResourceRef :=
  read_struct ["group"; "version"; "resource"; "namespace"; "name"] set_ResourceRef.
Definition zero_ResourceRef : ResourceRef := mkResourceRef "" "" "" "" "".

Definition write_InventoryEvent (e : InventoryEvent) : jval :=
  VObj (always "op" (VStr (Ev_Op e)) ++ always "ref" (write_ResourceRef (Ev_Ref e))
    ++ omitempty (Ev_ObjectJSON e =s "") "objectJson" (write_bytes (Ev_ObjectJSON e))
    ++ always "timestamp" (write_int (Ev_Timestamp e))).

Definition set_InventoryEvent (n : string) (v : jval) (e : InventoryEvent) : option InventoryEvent :=
  let '(mkInventoryEvent op ref obj ts) := e in
  if n =s "op" then (fun x => mkInventoryEvent x ref obj ts) <$> read_str v op
  else if n =s "ref" then (fun x => mkInventoryEvent op x obj ts) <$> read_ResourceRef v ref
  else if n =s "objectJson" then (fun x => mkInventoryEvent op ref x ts) <$> read_bytes v obj
  else (fun x => mkInventoryEvent op ref obj x) <$> read_int64 v ts.
Definition read_InventoryEvent : jval -> InventoryEvent -> option InventoryEvent :=
  read_struct ["op"; "ref"; "objectJson"; "timestamp"] set_InventoryEvent.
Definition zero_InventoryEvent : InventoryEvent := mkInventoryEvent "" zero_ResourceRef "" 0.

Definition write_InventoryBatch (b : InventoryBatch) : jval :=
  VObj (omitempty (Batch_ClusterID b =s "") "clusterId" (VStr (Batch_ClusterID b))
    ++ always "seq" (write_int (Batch_Seq b)) ++ omitempty (negb (Batch_Full b)) "full" (VBool (Batch_Full b))
    ++ always "events" (VArr (map write_InventoryEvent (Batch_Events b)))).

Definition write_InventoryAck (a : InventoryAck) : jval :=
  VObj (always "ok" (VBool (Ack_OK a)) ++ always "lastSeq" (write_int (Ack_LastSeq a))
    ++ omitempty (Ack_Error a =s "") "error" (VStr (Ack_Error a))).
Definition set_InventoryAck (n : string) (v : jval) (a : InventoryAck) : option InventoryAck :=
  let '(mkInventoryAck ok seq err) := a in
  if n =s "ok" then (fun x => mkInventoryAck x seq err) <$> read_bool v ok
  else if n =s "lastSeq" then (fun x => mkInventoryAck ok x err) <$> read_int64 v seq
  else (fun x => mkInventoryAck ok seq x) <$> read_str v err.
Definition read_InventoryAck : jval -> InventoryAck -> option InventoryAck :=
  read_struct ["ok"; "lastSeq"; "error"] set_InventoryAck.
Definition zero_InventoryAck : InventoryAck := mkInventoryAck false 0 "".

Definition write_HelmSpec (h : HelmSpec) : jval :=
  VObj (always "releaseName" (VStr (Helm_ReleaseName h)) ++ always "namespace" (VStr (Helm_Namespace h))
    ++ always "chartRef" (VStr (Helm_ChartRef h))
    ++ omitempty (Helm_Version h =s "") "version" (VStr (Helm_Version h))
    ++ omitempty (Helm_ValuesYAML h =s "") "valuesYaml" (write_bytes (Helm_ValuesYAML h))).
Definition set_HelmSpec (n : string) (v : jval) (h : HelmSpec) : option HelmSpec :=
  let '(mkHelmSpec rel ns chart ver vals) := h in
  if n =s "releaseName" then (fun x => mkHelmSpec x ns chart ver vals) <$> read_str v rel
  else if n =s "namespace" then (fun x => mkHelmSpec rel x chart ver vals) <$> read_str v ns
  else if n =s "chartRef" then (fun x => mkHelmSpec rel ns x ver vals) <$> read_str v chart
  else if n =s "version" then (fun x => mkHelmSpec rel ns chart x vals) <$> read_str v ver
  else (fun x => mkHelmSpec rel ns chart ver x) <$> read_bytes v vals.
Definition read_HelmSpec : jval -> HelmSpec -> option HelmSpec :=
  read_struct ["releaseName"; "namespace"; "chartRef"; "version"; "valuesYaml"] set_HelmSpec.
Definition zero_HelmSpec : HelmSpec := mkHelmSpec "" "" "" "" "".

Definition write_Command (c : Command) : jval :=
  VObj (always "id" (VStr (Cmd_ID c)) ++ always "nonce" (VStr (Cmd_Nonce c))
    ++ always "timestamp" (write_int (Cmd_Timestamp c)) ++ always "verb" (VStr (Cmd_Verb c))
    ++ always "target" (write_ResourceRef (Cmd_Target c))
    ++ omitempty (Cmd_Payload c =s "") "payload" (write_bytes (Cmd_Payload c))
    ++ omitempty (Cmd_PatchType c =s "") "patchType" (VStr (Cmd_PatchType c))
    ++ omitempty (bool_decide (Cmd_Helm c = None)) "helm" (write_ptr write_HelmSpec (Cmd_Helm c))
    ++ omitempty (Cmd_ExpectedHash c =s "") "expectedHash" (VStr (Cmd_ExpectedHash c))
    ++ omitempty (negb (Cmd_Override c)) "override" (VBool (Cmd_Override c))
    ++ always "signature" (VStr (Cmd_Signature c))).
Definition set_Command (n : string) (v : jval) (c : Command) : option Command :=
  let '(mkCommand id nonce ts verb tgt pay pt helm hash ov sig) := c in
  if n =s "id" then (fun x => mkCommand x nonce ts verb tgt pay pt helm hash ov sig) <$> read_str v id
  else if n =s "nonce" then (fun x => mkCommand id x ts verb tgt pay pt helm hash ov sig) <$> read_str v nonce
  else if n =s "timestamp" then (fun x => mkCommand id nonce x verb tgt pay pt helm hash ov sig) <$> read_int64 v ts
  else if n =s "verb" then (fun x => mkCommand id nonce ts x tgt pay pt helm hash ov sig) <$> read_str v verb
  else if n =s "target" then (fun x => mkCommand id nonce ts verb x pay pt helm hash ov sig) <$> read_ResourceRef v tgt
  else if n =s "payload" then (fun x => mkCommand id nonce ts verb tgt x pt helm hash ov sig) <$> read_bytes v pay
  else if n =s "patchType" then (fun x => mkCommand id nonce ts verb tgt pay x helm hash ov sig) <$> read_str v pt
  else if n =s "helm" then
    (fun x => mkCommand id nonce ts verb tgt pay pt x hash ov sig) <$> read_ptr read_HelmSpec zero_HelmSpec v helm
  else if n =s "expectedHash" then (fun x => mkCommand id nonce ts verb tgt pay pt helm x ov sig) <$> read_str v hash
  else if n =s "override" then (fun x => mkCommand id nonce ts verb tgt pay pt helm hash x sig) <$> read_bool v ov
  else (fun x => mkCommand id nonce ts verb tgt pay pt helm hash ov x) <$> read_str v sig.
Definition read_Command : jval -> Command -> option Command :=
  read_struct ["id"; "nonce"; "timestamp"; "verb"; "target"; "payload"; "patchType"; "helm"; "expectedHash";
    "override"; "signature"] set_Command.
Definition zero_Command : Command := mkCommand "" "" 0 "" zero_ResourceRef "" "" None "" false "".

Definition write_Report (r : Report) : jval :=
  VObj (omitempty (Rep_ClusterID r =s "") "clusterId" (VStr (Rep_ClusterID r))
    ++ always "commandId" (VStr (Rep_CommandID r)) ++ always "status" (VStr (Rep_Status r))
    ++ omitempty (Rep_Message r =s "") "message" (VStr (Rep_Message r))
    ++ omitempty (Rep_Diff r =s "") "diff" (VStr (Rep_Diff r))
    ++ omitempty (Rep_Progress r =? 0)%Z "progress" (write_int (Rep_Progress r))
    ++ always "timestamp" (write_int (Rep_Timestamp r))).
Definition set_Report (n : string) (v : jval) (r : Report) : option Report :=
  let '(mkReport cl cmd st msg diff prog ts) := r in
  if n =s "clusterId" then (fun x => mkReport x cmd st msg diff prog ts) <$> read_str v cl
  else if n =s "commandId" then (fun x => mkReport cl x st msg diff prog ts) <$> read_str v cmd
  else if n =s "status" then (fun x => mkReport cl cmd x msg diff prog ts) <$> read_str v st
  else if n =s "message" then (fun x => mkReport cl cmd st x diff prog ts) <$> read_str v msg
  else if n =s "diff" then (fun x => mkReport cl cmd st msg x prog ts) <$> read_str v diff
  else if n =s "progress" then (fun x => mkReport cl cmd st msg diff x ts) <$> read_int32 v prog
  else (fun x => mkReport cl cmd st msg diff prog x) <$> read_int64 v ts.
Definition read_Report : jval -> Report -> option Report :=
  read_struct ["clusterId"; "commandId"; "status"; "message"; "diff"; "progress"; "timestamp"] set_Report.
Definition zero_Report : Report := mkReport "" "" "" "" "" 0 0.

Definition write_PollRequest (p : PollRequest) : jval :=
  VObj (omitempty (Poll_ClusterID p =s "") "clusterId" (VStr (Poll_ClusterID p))
    ++ omitempty (Poll_Version p =s "") "version" (VStr (Poll_Version p))
    ++ omitempty (bool_decide (Poll_Reports p = [])) "reports" (VArr (map write_Report (Poll_Reports p)))).

Definition write_PollResponse (p : PollResponse) : jval :=
  VObj (always "ok" (VBool (Resp_OK p))
    ++ omitempty (bool_decide (Resp_Commands p = [])) "commands"
         (VArr (map (write_ptr write_Command) (Resp_Commands p)))).
Definition set_PollResponse (n : string) (v : jval) (p : PollResponse) : option PollResponse :=
  let '(mkPollResponse ok cmds) := p in
  if n =s "ok" then (fun x => mkPollResponse x cmds) <$> read_bool v ok
  else (fun x => mkPollResponse ok x) <$> read_slice (read_ptr read_Command zero_Command) None v cmds.
Definition read_PollResponse : jval -> PollResponse -> option PollResponse :=
  read_struct ["ok"; "commands"] set_PollResponse.
Definition zero_PollResponse : PollResponse := mkPollResponse false [].

(** Requests as a server reads them: elements of the slices may be nil. *)
Record BatchRead := mkBatchRead {
  BR_ClusterID : string; BR_Seq : Z; BR_Full : bool; BR_Events : list (option InventoryEvent);
}.
Definition set_BatchRead (n : string) (v : jval) (b : BatchRead) : option BatchRead :=
  let '(mkBatchRead cl seq full evs) := b in
  if n =s "clusterId" then (fun x => mkBatchRead x seq full evs) <$> read_str v cl
  else if n =s "seq" then (fun x => mkBatchRead cl x full evs) <$> read_int64 v seq
  else if n =s "full" then (fun x => mkBatchRead cl seq x evs) <$> read_bool v full
  else (fun x => mkBatchRead cl seq full x)
         <$> read_slice (read_ptr read_InventoryEvent zero_InventoryEvent) None v evs.
Definition read_InventoryBatch : jval -> BatchRead -> option BatchRead :=
  read_struct ["clusterId"; "seq"; "full"; "events"] set_BatchRead.
Definition zero_BatchRead : BatchRead := mkBatchRead "" 0 false [].

Record PollRead := mkPollRead { PR_ClusterID : string; PR_Version : string; PR_Reports : list (option Report) }.
Definition set_PollRead (n : string) (v : jval) (p : PollRead) : option PollRead :=
  let '(mkPollRead cl ver reps) := p in
  if n =s "clusterId" then (fun x => mkPollRead x ver reps) <$> read_str v cl
  else if n =s "version" then (fun x => mkPollRead cl x reps) <$> read_str v ver
  else (fun x => mkPollRead cl ver x) <$> read_slice (read_ptr read_Report zero_Report) None v reps.
Definition read_PollRequest : jval -> PollRead -> option PollRead :=
  read_struct ["clusterId"; "version"; "reports"] set_PollRead.
Definition zero_PollRead : PollRead := mkPollRead "" "" [].

(** ** ws.go *)

Definition write_WsHello (h : WsHello) : jval :=
  VObj (always "type" (VStr (Hello_Type h)) ++ always "token" (VStr (Hello_Token h))
    ++ omitempty (Hello_ClusterID h =s "") "clusterId" (VStr (Hello_ClusterID h))
    ++ omitempty (Hello_Version h =s "") "version" (VStr (Hello_Version h))).
Definition set_WsHello (n : string) (v : jval) (h : WsHello) : option WsHello :=
  let '(mkWsHello ty tok cl ver) := h in
  if n =s "type" then (fun x => mkWsHello x tok cl ver) <$> read_str v ty
  else if n =s "token" then (fun x => mkWsHello ty x cl ver) <$> read_str v tok
  else if n =s "clusterId" then (fun x => mkWsHello ty tok x ver) <$> read_str v cl
  else (fun x => mkWsHello ty tok cl x) <$> read_str v ver.
Definition read_WsHello : jval -> WsHello -> option WsHello :=
  read_struct ["type"; "token"; "clusterId"; "version"] set_WsHello.
Definition zero_WsHello : WsHello := mkWsHello "" "" "" "".

Definition write_WsHelloAck (a : WsHelloAck) : jval :=
  VObj (always "type" (VStr (HelloAck_Type a)) ++ always "accepted" (VBool (HelloAck_Accepted a))
    ++ omitempty (HelloAck_Message a =s "") "message" (VStr (HelloAck_Message a))).
Definition set_WsHelloAck (n : string) (v : jval) (a : WsHelloAck) : option WsHelloAck :=
  let '(mkWsHelloAck ty acc msg) := a in
  if n =s "type" then (fun x => mkWsHelloAck x acc msg) <$> read_str v ty
  else if n =s "accepted" then (fun x => mkWsHelloAck ty x msg) <$> read_bool v acc
  else (fun x => mkWsHelloAck ty acc x) <$> read_str v msg.
Definition read_WsHelloAck : jval -> WsHelloAck -> option WsHelloAck :=
  read_struct ["type"; "accepted"; "message"] set_WsHelloAck.
Definition zero_WsHelloAck : WsHelloAck := mkWsHelloAck "" false "".

Record WsEnvelope := mkWsEnvelope { Env_Type : string }.
Definition read_WsEnvelope : jval -> WsEnvelope -> option WsEnvelope :=
  read_struct ["type"] (fun _ v e => mkWsEnvelope <$> read_str v (Env_Type e)).

Record WsCommandMessage := mkWsCommandMessage { CmdMsg_Type : string; CmdMsg_Command : option Command }.
Definition write_WsCommandMessage (m : WsCommandMessage) : jval :=
  VObj (always "type" (VStr (CmdMsg_Type m)) ++ always "command" (write_ptr write_Command (CmdMsg_Command m))).
Definition set_WsCommandMessage (n : string) (v : jval) (m : WsCommandMessage) : option WsCommandMessage :=
  let '(mkWsCommandMessage ty cmd) := m in
  if n =s "type" then (fun x => mkWsCommandMessage x cmd) <$> read_str v ty
  else (fun x => mkWsCommandMessage ty x) <$> read_ptr read_Command zero_Command v cmd.
Definition read_WsCommandMessage : jval -> WsCommandMessage -> option WsCommandMessage :=
  read_struct ["type"; "command"] set_WsCommandMessage.
Definition zero_WsCommandMessage : WsCommandMessage := mkWsCommandMessage "" None.

Record WsReportMessage := mkWsReportMessage { RepMsg_Type : string; RepMsg_Report : option Report }.
Definition write_WsReportMessage (m : WsReportMessage) : jval :=
  VObj (always "type" (VStr (RepMsg_Type m)) ++ always "report" (write_ptr write_Report (RepMsg_Report m))).
Definition set_WsReportMessage (n : string) (v : jval) (m : WsReportMessage) : option WsReportMessage :=
  let '(mkWsReportMessage ty rep) := m in
  if n =s "type" then (fun x => mkWsReportMessage x rep) <$> read_str v ty
  else (fun x => mkWsReportMessage ty x) <$> read_ptr read_Report zero_Report v rep.
Definition read_WsReportMessage : jval -> WsReportMessage -> option WsReportMessage :=
  read_struct ["type"; "report"] set_WsReportMessage.
Definition zero_WsReportMessage : WsReportMessage := mkWsReportMessage "" None.

Record WsErrorMessage := mkWsErrorMessage { ErrMsg_Type : string; ErrMsg_Message : string }.
Definition set_WsErrorMessage (n : string) (v : jval) (m : WsErrorMessage) : option WsErrorMessage :=
  let '(mkWsErrorMessage ty msg) := m in
  if n =s "type" then (fun x => mkWsErrorMessage x msg) <$> read_str v ty
  else (fun x => mkWsErrorMessage ty x) <$> read_str v msg.
Definition read_WsErrorMessage : jval -> WsErrorMessage -> option WsErrorMessage :=
  read_struct ["type"; "message"] set_WsErrorMessage.

(** ** Texts *)

(** json.Marshal(x), and json.Unmarshal(data, &x) on a zero [x]. *)
Definition marshal {A} (write : A -> jval) (a : A) : string := print (write a).
Definition unmarshal {A} (read : jval -> A -> option A) (zero : A) (data : string) : option A :=
  v ← Unmarshal_value data; read v zero.

Example command_text :
  unmarshal read_Command zero_Command
    ("{" ^^ quoted "ID" ^^ ":" ^^ quoted "c1" ^^ "," ^^ quoted "payload" ^^ ":[104,105]," ^^ quoted "x" ^^ ":{},"
     ^^ quoted "timestamp" ^^ ":7," ^^ quoted "timestamp" ^^ ":null}")
  = Some (mkCommand "c1" "" 7 "" zero_ResourceRef "hi" "" None "" false "").
Proof. vm_compute. reflexivity. Qed.

(** ** Values the wire carries faithfully *)

Definition int64_ok (n : Z) : bool := (int64_min <=? n)%Z && (n <=? int64_max)%Z.
Definition int32_ok (n : Z) : bool := (int32_min <=? n)%Z && (n <=? int32_max)%Z.

Definition ref_ok (r : ResourceRef) : bool :=
  valid_utf8 (Ref_Group r) && valid_utf8 (Ref_Version r) && valid_utf8 (Ref_Resource r)
  && valid_utf8 (Ref_Namespace r) && valid_utf8 (Ref_Name r).
Definition event_ok (e : InventoryEvent) : bool :=
  valid_utf8 (Ev_Op e) && ref_ok (Ev_Ref e) && int64_ok (Ev_Timestamp e).
Definition batch_ok (b : InventoryBatch) : bool :=
  valid_utf8 (Batch_ClusterID b) && int64_ok (Batch_Seq b) && forallb event_ok (Batch_Events b).
Definition ack_ok (a : InventoryAck) : bool := int64_ok (Ack_LastSeq a) && valid_utf8 (Ack_Error a).
Definition helm_ok (h : HelmSpec) : bool :=
  valid_utf8 (Helm_ReleaseName h) && valid_utf8 (Helm_Namespace h) && valid_utf8 (Helm_ChartRef h)
  && valid_utf8 (Helm_Version h).
Definition ptr_ok {A} (ok : A -> bool) (p : option A) : bool :=
  match p with Some a => ok a | None => true end.
Definition command_ok (c : Command) : bool :=
  valid_utf8 (Cmd_ID c) && valid_utf8 (Cmd_Nonce c) && int64_ok (Cmd_Timestamp c) && valid_utf8 (Cmd_Verb c)
  && ref_ok (Cmd_Target c) && valid_utf8 (Cmd_PatchType c)
  && ptr_ok helm_ok (Cmd_Helm c)
  && valid_utf8 (Cmd_ExpectedHash c) && valid_utf8 (Cmd_Signature c).
Definition report_ok (r : Report) : bool :=
  valid_utf8 (Rep_ClusterID r) && valid_utf8 (Rep_CommandID r) && valid_utf8 (Rep_Status r)
  && valid_utf8 (Rep_Message r) && valid_utf8 (Rep_Diff r) && int32_ok (Rep_Progress r)
  && int64_ok (Rep_Timestamp r).

(** ** Reading back trees *)

Lemma read_write_int64 n cur : int64_ok n = true -> read_int64 (write_int n) cur = Some n.
Proof.
  intros Hn. unfold read_int64, read_int, write_int. pose proof Hn as Hn'. unfold int64_ok in Hn'. bool_to_prop.
  rewrite ParseInt_FormatInt by (split; lia). by unfold int64_ok in Hn; rewrite Hn.
Qed.

Lemma read_write_int32 n cur : int32_ok n = true -> read_int32 (write_int n) cur = Some n.
Proof.
  intros Hn. unfold read_int32, read_int, write_int. pose proof Hn as Hn'. unfold int32_ok, int32_min, int32_max in Hn'.
  bool_to_prop. rewrite ParseInt_FormatInt by (unfold in_int64, int64_min, int64_max; lia).
  by unfold int32_ok in Hn; rewrite Hn.
Qed.

Lemma read_write_bytes s cur : read_bytes (write_bytes s) cur = Some s.
Proof. apply b64_decode_encode. Qed.

Lemma read_write_elems {A} (read : jval -> A -> option A) (write : A -> jval) zero l :
  Forall (fun a => read (write a) zero = Some a) l -> read_elems read zero (map write l) [] = Some l.
Proof. induction 1 as [|a l Ha _ IH]; [done|]. cbn. rewrite Ha. cbn. by rewrite IH. Qed.

Lemma read_write_ptr {A} (read : jval -> A -> option A) (write : A -> jval) zero p :
  (forall a, write a <> VNull) -> (forall a, p = Some a -> read (write a) zero = Some a) ->
  read_ptr read zero (write_ptr write p) None = Some p.
Proof.
  intros Hn Hr. destruct p as [a|]; [|done]. cbn [write_ptr].
  transitivity (Some <$> read (write a) zero); [|by rewrite (Hr a eq_refl)].
  specialize (Hn a). by destruct (write a).
Qed.

(** Walks through the fields of a structure. *)
Ltac read_back :=
  repeat (progress (cbn -[read_int64 read_int32 write_int read_bytes write_bytes read_ResourceRef write_ResourceRef
      read_HelmSpec write_HelmSpec read_ptr write_ptr read_elems read_slice map];
    rewrite ?read_write_int64, ?read_write_int32, ?read_write_bytes by assumption)); try reflexivity.

Lemma read_write_ResourceRef r : read_ResourceRef (write_ResourceRef r) zero_ResourceRef = Some r.
Proof. destruct r as [g v res [|a ns] nm]; reflexivity. Qed.

Lemma read_write_InventoryEvent e :
  event_ok e = true -> read_InventoryEvent (write_InventoryEvent e) zero_InventoryEvent = Some e.
Proof.
  intros He. unfold event_ok in He. destruct e as [op ref [|a obj] ts]; cbn [Ev_Timestamp] in He; bool_to_prop;
    unfold read_InventoryEvent, write_InventoryEvent, read_struct; read_back;
    rewrite read_write_ResourceRef; read_back.
Qed.

Lemma read_write_InventoryAck a :
  ack_ok a = true -> read_InventoryAck (write_InventoryAck a) zero_InventoryAck = Some a.
Proof.
  intros Ha. unfold ack_ok in Ha. destruct a as [ok seq [|c err]]; cbn [Ack_LastSeq] in Ha; bool_to_prop;
    unfold read_InventoryAck, write_InventoryAck, read_struct; read_back.
Qed.

Lemma read_write_HelmSpec h : read_HelmSpec (write_HelmSpec h) zero_HelmSpec = Some h.
Proof.
  destruct h as [rel ns chart [|a ver] [|b vals]]; unfold read_HelmSpec, write_HelmSpec, read_struct; read_back.
Qed.

Lemma read_write_Command c : command_ok c = true -> read_Command (write_Command c) zero_Command = Some c.
Proof.
  intros Hc. unfold command_ok in Hc. destruct c as [id nonce ts verb tgt pay pt helm hash ov sig].
  cbn [Cmd_Timestamp] in Hc. bool_to_prop.
  assert (read_ptr read_HelmSpec zero_HelmSpec (write_ptr write_HelmSpec helm) None = Some helm) as Hh
    by (apply read_write_ptr; [done|intros; apply read_write_HelmSpec]).
  unfold read_Command, write_Command, read_struct.
  destruct pay as [|a pay], pt as [|b pt], helm as [h|], hash as [|d hash], ov; read_back;
    rewrite read_write_ResourceRef; read_back; rewrite Hh; read_back.
Qed.

Lemma read_write_Report r : report_ok r = true -> read_Report (write_Report r) zero_Report = Some r.
Proof.
  intros Hr. unfold report_ok in Hr. destruct r as [cl cmd st msg diff prog ts].
  cbn [Rep_Timestamp Rep_Progress] in Hr. bool_to_prop. unfold read_Report, write_Report, read_struct.
  destruct (Z.eqb_spec prog 0) as [->|Hp]; [|apply Z.eqb_neq in Hp];
    destruct cl as [|a cl], msg as [|b msg], diff as [|d diff]; read_back; rewrite ?Hp; read_back.
Qed.

Lemma write_Command_obj c : write_Command c <> VNull.
Proof. done. Qed.

Lemma read_write_PollResponse p :
  forallb (ptr_ok command_ok) (Resp_Commands p) = true ->
  read_PollResponse (write_PollResponse p) zero_PollResponse = Some p.
Proof.
  destruct p as [ok cmds]. cbn [Resp_Commands]. intros Hok.
  assert (read_elems (read_ptr read_Command zero_Command) None (map (write_ptr write_Command) cmds) [] = Some cmds) as Hl.
  { apply read_write_elems, Forall_forall. intros p Hp. rewrite forallb_forall in Hok.
    specialize (Hok p (proj1 (list_elem_of_In _ _) Hp)). apply read_write_ptr; [done|].
    intros c ->. by apply read_write_Command. }
  unfold read_PollResponse, write_PollResponse, read_struct. destruct cmds as [|c cmds]; read_back.
  unfold read_slice. rewrite Hl. reflexivity.
Qed.

(** The batch and the poll request, as the server reads them. *)
Definition sent_batch (b : InventoryBatch) : BatchRead :=
  mkBatchRead (Batch_ClusterID b) (Batch_Seq b) (Batch_Full b) (Some <$> Batch_Events b).
Definition sent_poll (p : PollRequest) : PollRead :=
  mkPollRead (Poll_ClusterID p) (Poll_Version p) (Some <$> Poll_Reports p).

Lemma map_write_ptr {A} (write : A -> jval) l : map write l = map (write_ptr write) (Some <$> l).
Proof. change (map ?f ?l) with (f <$> l). by rewrite <- list_fmap_compose. Qed.

Lemma read_slice_ptr {A} (read : jval -> A -> option A) (write : A -> jval) zero l :
  (forall a, write a <> VNull) -> Forall (fun a => read (write a) zero = Some a) l ->
  read_slice (read_ptr read zero) None (VArr (map write l)) [] = Some (Some <$> l).
Proof.
  intros Hn Hl. cbn [read_slice]. rewrite map_write_ptr. apply read_write_elems, Forall_fmap.
  eapply Forall_impl; [exact Hl|]. intros a Ha. apply read_write_ptr; [done|]. by intros b [= <-].
Qed.

Lemma read_write_InventoryBatch b :
  batch_ok b = true -> read_InventoryBatch (write_InventoryBatch b) zero_BatchRead = Some (sent_batch b).
Proof.
  destruct b as [cl seq full evs]. unfold batch_ok. cbn [Batch_ClusterID Batch_Seq Batch_Events]. intros Hb. bool_to_prop.
  assert (read_slice (read_ptr read_InventoryEvent zero_InventoryEvent) None (VArr (map write_InventoryEvent evs)) []
    = Some (Some <$> evs)) as Hl.
  { apply read_slice_ptr; [done|]. apply Forall_forall. intros e He. apply read_write_InventoryEvent.
    match goal with H : forallb _ _ = true |- _ => rewrite forallb_forall in H; apply H end. by apply list_elem_of_In. }
  unfold read_InventoryBatch, write_InventoryBatch, read_struct.
  destruct cl as [|a cl], full; read_back; rewrite Hl; reflexivity.
Qed.

Lemma read_write_PollRequest p :
  forallb report_ok (Poll_Reports p) = true ->
  read_PollRequest (write_PollRequest p) zero_PollRead = Some (sent_poll p).
Proof.
  destruct p as [cl ver reps]. cbn [Poll_Reports]. intros Hok.
  assert (read_slice (read_ptr read_Report zero_Report) None (VArr (map write_Report reps)) [] = Some (Some <$> reps)) as Hl.
  { apply read_slice_ptr; [done|]. apply Forall_forall. intros r Hr. apply read_write_Report.
    rewrite forallb_forall in Hok. apply Hok. by apply list_elem_of_In. }
  unfold read_PollRequest, write_PollRequest, read_struct.
  destruct cl as [|a cl], ver as [|b ver], reps as [|r reps]; read_back; rewrite Hl; reflexivity.
Qed.

Lemma read_write_WsHello h : read_WsHello (write_WsHello h) zero_WsHello = Some h.
Proof. destruct h as [ty tok [|a cl] [|b ver]]; unfold read_WsHello, write_WsHello, read_struct; read_back. Qed.

Lemma read_write_WsHelloAck a : read_WsHelloAck (write_WsHelloAck a) zero_WsHelloAck = Some a.
Proof. destruct a as [ty acc [|c msg]]; unfold read_WsHelloAck, write_WsHelloAck, read_struct; read_back. Qed.

Definition command_frame_ok (m : WsCommandMessage) : bool :=
  valid_utf8 (CmdMsg_Type m) && ptr_ok command_ok (CmdMsg_Command m).
Definition report_frame_ok (m : WsReportMessage) : bool :=
  valid_utf8 (RepMsg_Type m) && ptr_ok report_ok (RepMsg_Report m).

Lemma read_write_WsCommandMessage m :
  command_frame_ok m = true -> read_WsCommandMessage (write_WsCommandMessage m) zero_WsCommandMessage = Some m.
Proof.
  destruct m as [ty cmd]. unfold command_frame_ok. cbn [CmdMsg_Type CmdMsg_Command]. intros Hm. bool_to_prop.
  unfold read_WsCommandMessage, write_WsCommandMessage, zero_WsCommandMessage. cbn -[read_ptr write_ptr read_Command write_Command].
  rewrite read_write_ptr; [done|apply write_Command_obj|]. intros d ->. by apply read_write_Command.
Qed.

Lemma read_write_WsReportMessage m :
  report_frame_ok m = true -> read_WsReportMessage (write_WsReportMessage m) zero_WsReportMessage = Some m.
Proof.
  destruct m as [ty rep]. unfold report_frame_ok. cbn [RepMsg_Type RepMsg_Report]. intros Hm. bool_to_prop.
  unfold read_WsReportMessage, write_WsReportMessage, zero_WsReportMessage. cbn -[read_ptr write_ptr read_Report write_Report].
  rewrite read_write_ptr; [done|done|]. intros d ->. by apply read_write_Report.
Qed.

(** ** Texts read back *)

Lemma unmarshal_marshal {A B} (write : A -> jval) (read : jval -> B -> option B) zero a b :
  jval_ok (write a) = true -> (jdepth (write a) <= 10)%nat -> read (write a) zero = Some b ->
  unmarshal read zero (marshal write a) = Some b.
Proof.
  intros Hok Hd Hr. unfold unmarshal, marshal. rewrite Unmarshal_print; [exact Hr|done|].
  by apply nesting_enough.
Qed.

(** A tree that prints and nests at most [n] levels. *)
Definition printable (n : nat) (v : jval) : Prop := jval_ok v = true /\ (jdepth v <= n)%nat.

Lemma printable_str n s : valid_utf8 s = true -> printable n (VStr s).
Proof. split; [done|cbn; lia]. Qed.
Lemma printable_bool n b : printable n (VBool b).
Proof. split; [done|cbn; lia]. Qed.
Lemma printable_int n z : printable n (write_int z).
Proof. split; [apply valid_FormatInt|cbn; lia]. Qed.
Lemma printable_bytes n s : printable n (write_bytes s).
Proof. split; [apply valid_b64|cbn; lia]. Qed.

Lemma printable_arr n l : Forall (printable n) l -> printable (S n) (VArr l).
Proof.
  intros Hl. split; cbn [jval_ok jdepth].
  - apply forallb_forall. intros v Hv. rewrite Forall_forall in Hl. apply Hl. by apply list_elem_of_In.
  - apply le_n_S, list_max_Forall, Forall_fmap. eapply Forall_impl; [exact Hl|]. by intros v [_ ?].
Qed.

(** The fields of an object. *)
Definition fields_ok (n : nat) (fs : list (string * jval)) : Prop :=
  Forall (fun f => valid_utf8 f.1 = true /\ printable n f.2) fs.

Lemma printable_obj n fs : fields_ok n fs -> printable (S n) (VObj fs).
Proof.
  intros Hl. split; cbn [jval_ok jdepth].
  - apply forallb_forall. intros f Hf. apply list_elem_of_In in Hf. unfold fields_ok in Hl. rewrite Forall_forall in Hl.
    destruct (Hl f Hf) as [Hk [Hv _]]. by rewrite Hk, Hv.
  - apply le_n_S, list_max_Forall, Forall_fmap. eapply Forall_impl; [exact Hl|]. by intros f (_ & _ & ?).
Qed.

Lemma fields_ok_app n a b : fields_ok n a -> fields_ok n b -> fields_ok n (a ++ b).
Proof. intros Ha Hb. by apply Forall_app. Qed.
Lemma fields_ok_always n k v : valid_utf8 k = true -> printable n v -> fields_ok n (always k v).
Proof. intros Hk Hv. by apply Forall_singleton. Qed.
Lemma fields_ok_omitempty n e k v : valid_utf8 k = true -> printable n v -> fields_ok n (omitempty e k v).
Proof. intros Hk Hv. destruct e; [constructor|]. by apply Forall_singleton. Qed.

Lemma printable_mono n m v : (n <= m)%nat -> printable n v -> printable m v.
Proof. intros Hnm [Hok Hd]. split; [done|lia]. Qed.

(** Splits an [ok] test and checks every field of the structure. *)
Ltac wire_fields :=
  bool_to_prop; repeat lazymatch goal with
  | |- printable _ (VObj _) => apply printable_obj
  | |- fields_ok _ (_ ++ _) => apply fields_ok_app
  | |- fields_ok _ (always _ _) => apply fields_ok_always; [reflexivity|]
  | |- fields_ok _ (omitempty _ _ _) => apply fields_ok_omitempty; [reflexivity|]
  | |- printable _ (VStr _) => by apply printable_str
  | |- printable _ (VBool _) => apply printable_bool
  | |- printable _ (write_int _) => apply printable_int
  | |- printable _ (write_bytes _) => apply printable_bytes
  end.

Lemma write_ResourceRef_ok r : ref_ok r = true -> printable 1 (write_ResourceRef r).
Proof. unfold ref_ok. intros H. unfold write_ResourceRef. wire_fields. Qed.

Lemma write_InventoryEvent_ok e : event_ok e = true -> printable 2 (write_InventoryEvent e).
Proof.
  unfold event_ok. intros H. unfold write_InventoryEvent. wire_fields. by apply write_ResourceRef_ok.
Qed.

Lemma Forall_forallb {A} (f : A -> bool) l : forallb f l = true <-> Forall (fun x => f x = true) l.
Proof. rewrite forallb_forall, Forall_forall. by setoid_rewrite list_elem_of_In. Qed.

Lemma write_InventoryBatch_ok b : batch_ok b = true -> printable 4 (write_InventoryBatch b).
Proof.
  unfold batch_ok. intros H. unfold write_InventoryBatch. wire_fields.
  apply printable_arr, Forall_fmap. rewrite Forall_forallb in *.
  eapply Forall_impl; [eassumption|]. intros e He. by apply write_InventoryEvent_ok.
Qed.

Lemma write_InventoryAck_ok a : ack_ok a = true -> printable 1 (write_InventoryAck a).
Proof. unfold ack_ok. intros H. unfold write_InventoryAck. wire_fields. Qed.

Lemma write_HelmSpec_ok h : helm_ok h = true -> printable 1 (write_HelmSpec h).
Proof. unfold helm_ok. intros H. unfold write_HelmSpec. wire_fields. Qed.

Lemma write_ptr_ok {A} (write : A -> jval) ok n p :
  (forall a, ok a = true -> printable n (write a)) -> ptr_ok ok p = true -> printable n (write_ptr write p).
Proof. intros Hw. destruct p as [a|]; cbn; [apply Hw|]. intros _. split; [done|cbn; lia]. Qed.

Lemma write_Command_ok c : command_ok c = true -> printable 2 (write_Command c).
Proof.
  unfold command_ok. intros H. unfold write_Command. wire_fields; [by apply write_ResourceRef_ok|].
  by eapply write_ptr_ok; [apply write_HelmSpec_ok|].
Qed.

Lemma write_Report_ok r : report_ok r = true -> printable 1 (write_Report r).
Proof. unfold report_ok. intros H. unfold write_Report. wire_fields. Qed.

Lemma write_PollResponse_ok p :
  forallb (ptr_ok command_ok) (Resp_Commands p) = true -> printable 4 (write_PollResponse p).
Proof.
  intros H. unfold write_PollResponse. wire_fields. apply printable_arr, Forall_fmap. rewrite Forall_forallb in H.
  eapply Forall_impl; [eassumption|]. intros c Hc. eapply write_ptr_ok; [|exact Hc]. intros. by apply write_Command_ok.
Qed.

Definition poll_ok (p : PollRequest) : bool :=
  valid_utf8 (Poll_ClusterID p) && valid_utf8 (Poll_Version p) && forallb report_ok (Poll_Reports p).

Lemma write_PollRequest_ok p : poll_ok p = true -> printable 3 (write_PollRequest p).
Proof.
  unfold poll_ok. intros H. unfold write_PollRequest. wire_fields. apply printable_arr, Forall_fmap.
  rewrite Forall_forallb in *. eapply Forall_impl; [eassumption|]. intros r Hr. by apply write_Report_ok.
Qed.

Definition hello_ok (h : WsHello) : bool :=
  valid_utf8 (Hello_Type h) && valid_utf8 (Hello_Token h) && valid_utf8 (Hello_ClusterID h) && valid_utf8 (Hello_Version h).
Lemma write_WsHello_ok h : hello_ok h = true -> printable 1 (write_WsHello h).
Proof. unfold hello_ok. intros H. unfold write_WsHello. wire_fields. Qed.

Definition hello_ack_ok (a : WsHelloAck) : bool := valid_utf8 (HelloAck_Type a) && valid_utf8 (HelloAck_Message a).
Lemma write_WsHelloAck_ok a : hello_ack_ok a = true -> printable 1 (write_WsHelloAck a).
Proof. unfold hello_ack_ok. intros H. unfold write_WsHelloAck. wire_fields. Qed.

Lemma write_WsCommandMessage_ok m : command_frame_ok m = true -> printable 3 (write_WsCommandMessage m).
Proof.
  unfold command_frame_ok. intros H. unfold write_WsCommandMessage. wire_fields.
  eapply write_ptr_ok; [|eassumption]. intros. by apply write_Command_ok.
Qed.

Lemma write_WsReportMessage_ok m : report_frame_ok m = true -> printable 2 (write_WsReportMessage m).
Proof.
  unfold report_frame_ok. intros H. unfold write_WsReportMessage. wire_fields.
  eapply write_ptr_ok; [|eassumption]. intros. by apply write_Report_ok.
Qed.

(** Writers followed by readers. *)
Lemma unmarshal_text {A B} (write : A -> jval) (read : jval -> B -> option B) zero a b n :
  printable n (write a) -> (n <= 10)%nat -> read (write a) zero = Some b ->
  unmarshal read zero (marshal write a) = Some b.
Proof. intros [Hok Hd] Hn. apply unmarshal_marshal; [done|lia]. Qed.

Create HintDb wire.
#[export] Hint Resolve write_InventoryBatch_ok write_InventoryAck_ok write_PollRequest_ok write_PollResponse_ok
  write_InventoryEvent_ok write_Command_ok write_Report_ok write_WsHello_ok write_WsHelloAck_ok
  read_write_InventoryBatch read_write_InventoryAck read_write_PollRequest read_write_PollResponse
  read_write_InventoryEvent read_write_Command read_write_Report read_write_WsHello read_write_WsHelloAck
  write_WsCommandMessage_ok write_WsReportMessage_ok read_write_WsCommandMessage read_write_WsReportMessage : wire.

Lemma poll_ok_reports p : poll_ok p = true -> forallb report_ok (Poll_Reports p) = true.
Proof. unfold poll_ok. intros H. by bool_to_prop. Qed.
#[export] Hint Resolve poll_ok_reports : wire.

(** ** What is read is in range *)

Section StructInv.
Context {A : Type} (names : list string) (set : string -> jval -> A -> option A) (P : A -> Prop).
Hypothesis set_keeps : forall n v a a', jval_ok v = true -> P a -> set n v a = Some a' -> P a'.

Lemma read_struct_inv v a a' : jval_ok v = true -> P a -> read_struct names set v a = Some a' -> P a'.
Proof using set_keeps.
  intros Hv Ha Hr. destruct v as [| | | | |fs]; cbn [read_struct] in Hr; simplify_eq; try done.
  cbn [jval_ok] in Hv. revert a Ha Hr. induction fs as [|[k v] fs IH]; intros a Ha Hr; cbn [read_fields] in Hr.
  { by simplify_eq. }
  cbn [forallb fst snd] in Hv. apply andb_true_iff in Hv as [Hkv Hv]. apply andb_true_iff in Hkv as [_ Hv1].
  destruct (match_field names k) as [n|]; [|by eapply IH].
  destruct (set n v a) as [a1|] eqn:Hs; [|done]. cbn [mbind option_bind] in Hr. eauto.
Qed.
End StructInv.

Lemma read_str_valid v cur s :
  jval_ok v = true -> valid_utf8 cur = true -> read_str v cur = Some s -> valid_utf8 s = true.
Proof. destruct v; cbn; intros; by simplify_eq. Qed.

Lemma read_int_range lo hi v cur n :
  (lo <=? cur)%Z && (cur <=? hi)%Z = true -> read_int lo hi v cur = Some n -> (lo <=? n)%Z && (n <=? hi)%Z = true.
Proof. unfold read_int. intros Hc Hr. repeat case_match; by simplify_eq. Qed.

Lemma read_ptr_ok {A} (read : jval -> A -> option A) zero ok v (cur p : option A) :
  (forall a a', ok a = true -> read v a = Some a' -> ok a' = true) -> ok zero = true ->
  ptr_ok ok cur = true -> read_ptr read zero v cur = Some p -> ptr_ok ok p = true.
Proof.
  intros Hread Hz Hc Hr.
  assert (p = None \/ exists a, read v (default zero cur) = Some a /\ p = Some a) as [->|(a & Ha & ->)].
  { unfold read_ptr in Hr. destruct v; simplify_eq; [by left|..];
      apply fmap_Some in Hr as (a & -> & ->); right; by eauto. }
  { done. }
  cbn [ptr_ok]. eapply Hread; [|exact Ha]. by destruct cur.
Qed.

Lemma read_elems_ok {A} (read : jval -> A -> option A) zero (P : A -> Prop) l cur xs :
  (forall v a a', v ∈ l -> P a -> read v a = Some a' -> P a') -> P zero -> Forall P cur ->
  read_elems read zero l cur = Some xs -> Forall P xs.
Proof.
  revert cur xs. induction l as [|v l IH]; intros cur xs Hread Hz Hc Hr; cbn in Hr; simplify_eq; [done|].
  apply bind_Some in Hr as (x & Hx & Hr). apply bind_Some in Hr as (xs' & Hxs & [= <-]).
  constructor.
  - eapply Hread; [by left| |exact Hx]. by destruct Hc.
  - eapply IH; [|done| |exact Hxs]; [|by destruct Hc]. intros v' a a' Hin. apply Hread. by right.
Qed.

(** Inverts one assignment of a setter. *)
Ltac set_inv :=
  repeat case_match; match goal with H : _ <$> _ = Some _ |- _ => apply fmap_Some in H as (? & H & ->) end.

Lemma set_ResourceRef_ok n v r r' :
  jval_ok v = true -> ref_ok r = true -> set_ResourceRef n v r = Some r' -> ref_ok r' = true.
Proof.
  intros Hv Hr Hs. destruct r as [g ver res ns nm]. unfold ref_ok, set_ResourceRef in *. cbn in Hr. bool_to_prop.
  set_inv; match goal with H : read_str _ _ = Some _ |- _ => apply read_str_valid in H; [|done..] end; cbn;
    rewrite ?andb_true_iff; done.
Qed.

Lemma read_ResourceRef_ok v r r' :
  jval_ok v = true -> ref_ok r = true -> read_ResourceRef v r = Some r' -> ref_ok r' = true.
Proof. apply (read_struct_inv _ _ (fun r => ref_ok r = true)), set_ResourceRef_ok. Qed.

Lemma set_HelmSpec_ok n v h h' :
  jval_ok v = true -> helm_ok h = true -> set_HelmSpec n v h = Some h' -> helm_ok h' = true.
Proof.
  intros Hv Hr Hs. destruct h as [rel ns chart ver vals]. unfold helm_ok, set_HelmSpec in *. cbn in Hr. bool_to_prop.
  set_inv; try (match goal with H : read_str _ _ = Some _ |- _ => apply read_str_valid in H; [|done..] end); cbn;
    rewrite ?andb_true_iff; done.
Qed.

Lemma read_HelmSpec_ok v h h' :
  jval_ok v = true -> helm_ok h = true -> read_HelmSpec v h = Some h' -> helm_ok h' = true.
Proof. apply (read_struct_inv _ _ (fun h => helm_ok h = true)), set_HelmSpec_ok. Qed.

Lemma set_Command_ok n v c c' :
  jval_ok v = true -> command_ok c = true -> set_Command n v c = Some c' -> command_ok c' = true.
Proof.
  intros Hv Hc Hs. destruct c as [id nonce ts verb tgt pay pt helm hash ov sig].
  unfold command_ok, set_Command in *. cbn in Hc. bool_to_prop.
  set_inv; try (match goal with
    | H : read_str _ _ = Some _ |- _ => apply read_str_valid in H; [|done..]
    | H : read_int64 _ _ = Some _ |- _ => apply read_int_range in H; [|done]
    | H : read_ResourceRef _ _ = Some _ |- _ => apply read_ResourceRef_ok in H; [|done..]
    | H : read_ptr _ _ _ _ = Some _ |- _ =>
        apply (read_ptr_ok _ _ helm_ok) in H; [|by intros; eapply read_HelmSpec_ok|done|done]
    end); cbn; rewrite ?andb_true_iff; done.
Qed.

Lemma read_Command_ok v c c' :
  jval_ok v = true -> command_ok c = true -> read_Command v c = Some c' -> command_ok c' = true.
Proof. apply (read_struct_inv _ _ (fun c => command_ok c = true)), set_Command_ok. Qed.

Lemma read_commands_ok v cur cs :
  jval_ok v = true -> Forall (fun c => ptr_ok command_ok c = true) cur ->
  read_slice (read_ptr read_Command zero_Command) None v cur = Some cs ->
  Forall (fun c => ptr_ok command_ok c = true) cs.
Proof.
  intros Hv Hp Hr. destruct v as [| | | |l|]; cbn [read_slice] in *; simplify_eq; [constructor|].
  eapply (read_elems_ok _ None (fun c => ptr_ok command_ok c = true)); [|done|exact Hp|exact Hr].
  intros v c c' Hin Hc Hrv. cbn [jval_ok] in Hv. rewrite forallb_forall in Hv.
  specialize (Hv v (proj1 (list_elem_of_In _ _) Hin)).
  apply (read_ptr_ok read_Command zero_Command command_ok v c); [|done..]. intros a a'. by apply read_Command_ok.
Qed.

Lemma set_InventoryEvent_ok n v e e' :
  jval_ok v = true -> event_ok e = true -> set_InventoryEvent n v e = Some e' -> event_ok e' = true.
Proof.
  intros Hv He Hs. destruct e as [op ref obj ts]. unfold event_ok, set_InventoryEvent in *. cbn in He. bool_to_prop.
  set_inv; try (match goal with
    | H : read_str _ _ = Some _ |- _ => apply read_str_valid in H; [|done..]
    | H : read_int64 _ _ = Some _ |- _ => apply read_int_range in H; [|done]
    | H : read_ResourceRef _ _ = Some _ |- _ => apply read_ResourceRef_ok in H; [|done..]
    end); cbn; rewrite ?andb_true_iff; done.
Qed.

Lemma read_InventoryEvent_ok v e :
  jval_ok v = true -> read_InventoryEvent v zero_InventoryEvent = Some e -> event_ok e = true.
Proof. intros Hv. by apply (read_struct_inv _ _ (fun e => event_ok e = true) set_InventoryEvent_ok). Qed.

Lemma read_PollResponse_ok v p p' :
  jval_ok v = true -> Forall (fun c => ptr_ok command_ok c = true) (Resp_Commands p) ->
  read_PollResponse v p = Some p' -> Forall (fun c => ptr_ok command_ok c = true) (Resp_Commands p').
Proof.
  apply (read_struct_inv _ _ (fun p => Forall (fun c => ptr_ok command_ok c = true) (Resp_Commands p))).
  clear. intros n v [ok cmds] p' Hv Hp Hs. cbn [Resp_Commands set_PollResponse] in *. set_inv; cbn; [done|].
  by eapply read_commands_ok.
Qed.

(** C18. Messages survive the wire: each of the HTTP bodies and WebSocket frames
    that the agent and the mock control plane marshal with the types of
    internal/protocol (inventory batches, acks, poll requests and responses,
    events, commands, reports, hellos and their acks, command frames and report
    frames), with strings in UTF-8 and integers in range, is what the other side's
    json.Unmarshal reads; a command in particular arrives with every field, its
    signature and signed bytes included, unchanged. *)
Theorem wire_roundtrip :
  (forall b, batch_ok b = true ->
     unmarshal read_InventoryBatch zero_BatchRead (marshal write_InventoryBatch b) = Some (sent_batch b)) /\
  (forall a, ack_ok a = true ->
     unmarshal read_InventoryAck zero_InventoryAck (marshal write_InventoryAck a) = Some a) /\
  (forall p, poll_ok p = true ->
     unmarshal read_PollRequest zero_PollRead (marshal write_PollRequest p) = Some (sent_poll p)) /\
  (forall p, forallb (ptr_ok command_ok) (Resp_Commands p) = true ->
     unmarshal read_PollResponse zero_PollResponse (marshal write_PollResponse p) = Some p) /\
  (forall e, event_ok e = true ->
     unmarshal read_InventoryEvent zero_InventoryEvent (marshal write_InventoryEvent e) = Some e) /\
  (forall c, command_ok c = true -> unmarshal read_Command zero_Command (marshal write_Command c) = Some c) /\
  (forall r, report_ok r = true -> unmarshal read_Report zero_Report (marshal write_Report r) = Some r) /\
  (forall h, hello_ok h = true -> unmarshal read_WsHello zero_WsHello (marshal write_WsHello h) = Some h) /\
  (forall a, hello_ack_ok a = true ->
     unmarshal read_WsHelloAck zero_WsHelloAck (marshal write_WsHelloAck a) = Some a) /\
  (forall m, command_frame_ok m = true ->
     unmarshal read_WsCommandMessage zero_WsCommandMessage (marshal write_WsCommandMessage m) = Some m) /\
  (forall m, report_frame_ok m = true ->
     unmarshal read_WsReportMessage zero_WsReportMessage (marshal write_WsReportMessage m) = Some m).
Proof. split_and!; intros; (eapply unmarshal_text; [eauto with wire|lia|eauto with wire]). Qed.

(** C26. Commands are well-typed whatever arrives: every command json.Unmarshal
    reads from any response text has a timestamp in int64 and valid UTF-8 in
    each of its strings, so it can be written again and reads back the same. *)
Theorem decoded_commands_typed data p :
  unmarshal read_PollResponse zero_PollResponse data = Some p ->
  Forall (fun c => ptr_ok command_ok c = true) (Resp_Commands p) /\
  unmarshal read_PollResponse zero_PollResponse (marshal write_PollResponse p) = Some p.
Proof.
  intros Hu. unfold unmarshal in Hu. apply bind_Some in Hu as (v & Hv & Hr). apply Unmarshal_value_ok in Hv.
  apply read_PollResponse_ok in Hr; [|done|constructor]. split; [done|].
  rewrite <- Forall_forallb in Hr. eapply unmarshal_text; [eauto with wire|lia|eauto with wire].
Qed.

Definition sample_text : string :=
  "{" ^^ quoted "ok" ^^ ":true," ^^ quoted "Commands" ^^ ":[{" ^^ quoted "id" ^^ ":" ^^ quoted "c1" ^^ ","
  ^^ quoted "timestamp" ^^ ":1700000000},null]}".
Definition sample_response : PollResponse :=
  mkPollResponse true [Some (mkCommand "c1" "" 1700000000 "" zero_ResourceRef "" "" None "" false ""); None].

Lemma decoded_commands_typed_witness :
  Forall (fun c => ptr_ok command_ok c = true) (Resp_Commands sample_response) /\
  unmarshal read_PollResponse zero_PollResponse (marshal write_PollResponse sample_response) = Some sample_response.
Proof. apply (decoded_commands_typed sample_text sample_response). vm_compute. reflexivity. Defined.
