(* ===== verification/Config.v ===== *)
(** * internal/config: configuration from the environment

    [Load] reads every setting from an environment variable (a function from
    names to values, the empty string for an unset one, as [os.Getenv]
    returns), applies the defaults and validates the result.  Errors are the
    messages Go returns. *)

From Stdlib Require Import Ascii.
From S2P Require Import Prelude GoStrings GoTime.

(** Drift policies. *)
Definition DriftRefuse := "refuse".
Definition DriftOverwrite := "overwrite".
Definition DriftOverwriteWithApproval := "overwrite-with-approval".

Record Config := mkConfig {
  ServerEndpoint : string;
  ServerToken : string;
  ServerPublicKey : string;
  ClusterID : string;
  PollInterval : Z;
  WSEnabled : bool;
  ReaderTokenPath : string;
  WriterTokenPath : string;
  SpillDir : string;
  WriterEnabled : bool;
  DryRunFirst : bool;
  DriftPolicy : string;
  AllowDelete : bool;
  InformersEnabled : list string;
  ProtectedNamespaces : list string;
  MetricsAddr : string;
  LogLevel : string;
  DrainStallTimeout : Z;
}.

Definition DefaultInformers : list string :=
  ["deployments"; "statefulsets"; "daemonsets"; "replicasets";
   "pods"; "services"; "ingresses"; "configmaps"; "secrets"; "nodes";
   "namespaces"; "persistentvolumeclaims";
   "roles"; "rolebindings"; "clusterroles"; "clusterrolebindings";
   "serviceaccounts"; "networkpolicies"; "poddisruptionbudgets";
   "certificates"; "issuers"; "clusterissuers"].

(** ** Environment readers *)

Section Env.
Variable Getenv : string -> string.

Definition envOr (key def : string) : string :=
  let v := Getenv key in if negb (v =s "") then v else def.

Definition envBool (key : string) (def : bool) : bool :=
  let v := Getenv key in
  if v =s "" then def
  else match ParseBool v with None => def | Some b => b end.

Definition envList (key : string) (def : list string) : list string :=
  let v := Getenv key in
  if v =s "" then def
  else
    let parts := Split "," v in
    let out := filter (fun p => negb (p =s "")) (TrimSpace <$> parts) in
    if (length out =? 0)%nat then def else out.

Definition envDuration (key : string) (def : Z) : Z :=
  let v := Getenv key in
  if v =s "" then def
  else match ParseDuration v with None => def | Some d => d end.

End Env.

(** ** Methods *)

Definition PublicKeySize : nat := 32.

(** [PublicKey]: base64 first, then hex; only 32-byte results are accepted. *)
Definition PublicKey (c : Config) : string + string :=
  let hexed :=
    match hex_decode (ServerPublicKey c) with
    | Some raw =>
        if (String.length raw =? PublicKeySize)%nat then inr raw
        else inl ("expected a 32-byte Ed25519 public key as base64 or hex (got "
                    ^^ FormatInt (Z.of_nat (String.length (ServerPublicKey c))) ^^ " chars)")
    | None => inl ("expected a 32-byte Ed25519 public key as base64 or hex (got "
                     ^^ FormatInt (Z.of_nat (String.length (ServerPublicKey c))) ^^ " chars)")
    end in
  match b64_decode (ServerPublicKey c) with
  | Some raw => if (String.length raw =? PublicKeySize)%nat then inr raw else hexed
  | None => hexed
  end.

(** [Validate]: [None] is Go's nil error. *)
Definition Validate (c : Config) : option string :=
  if ServerEndpoint c =s "" then Some "SERVER_ENDPOINT is required"
  else if ServerToken c =s "" then Some "SERVER_TOKEN is required"
  else match PublicKey c with
  | inl e => Some ("SERVER_PUBLIC_KEY: " ^^ e)
  | inr _ =>
      if negb ((DriftPolicy c =s DriftRefuse) || (DriftPolicy c =s DriftOverwrite)
               || (DriftPolicy c =s DriftOverwriteWithApproval))
      then Some ("DRIFT_POLICY " ^^ quoted (DriftPolicy c) ^^ " must be one of " ^^
                 DriftRefuse ^^ ", " ^^ DriftOverwrite ^^ ", " ^^ DriftOverwriteWithApproval)
      else if negb ((LogLevel c =s "debug") || (LogLevel c =s "info")
                    || (LogLevel c =s "warn") || (LogLevel c =s "error"))
      then Some ("LOG_LEVEL " ^^ quoted (LogLevel c) ^^ " must be debug, info, warn or error")
      else None
  end.

Definition EndpointBase (c : Config) : string := TrimRightSlash (ServerEndpoint c).

(** [ProtectedNamespace]: membership by a linear scan. *)
Fixpoint scan_namespaces (ps : list string) (ns : string) : bool :=
  match ps with
  | [] => false
  | p :: ps' => if p =s ns then true else scan_namespaces ps' ns
  end.

Definition ProtectedNamespace (c : Config) (ns : string) : bool :=
  scan_namespaces (ProtectedNamespaces c) ns.

(** The configuration [Load] builds before validating it. *)
Definition read_env (Getenv : string -> string) : Config :=
  {| ServerEndpoint := Getenv "SERVER_ENDPOINT";
     ServerToken := Getenv "SERVER_TOKEN";
     ServerPublicKey := Getenv "SERVER_PUBLIC_KEY";
     ClusterID := Getenv "CLUSTER_ID";
     PollInterval := envDuration Getenv "POLL_INTERVAL" (30 * Second);
     WSEnabled := envBool Getenv "WS_ENABLED" true;
     ReaderTokenPath := envOr Getenv "READER_TOKEN_PATH" "/var/run/secrets/agent-reader/token";
     WriterTokenPath := envOr Getenv "WRITER_TOKEN_PATH" "/var/run/secrets/agent-writer/token";
     SpillDir := envOr Getenv "SPILL_DIR" "/var/lib/k8s-agent/spill";
     WriterEnabled := envBool Getenv "WRITER_ENABLED" true;
     DryRunFirst := envBool Getenv "DRY_RUN_FIRST" true;
     DriftPolicy := envOr Getenv "DRIFT_POLICY" DriftRefuse;
     AllowDelete := envBool Getenv "ALLOW_DELETE" true;
     InformersEnabled := envList Getenv "INFORMERS_ENABLED" DefaultInformers;
     ProtectedNamespaces := envList Getenv "PROTECTED_NAMESPACES" ["kube-system"; "k8s-agent-system"];
     MetricsAddr := envOr Getenv "METRICS_ADDR" ":9090";
     LogLevel := envOr Getenv "LOG_LEVEL" "info";
     DrainStallTimeout := envDuration Getenv "DRAIN_STALL_TIMEOUT" (15 * Minute) |}.

Definition Load (Getenv : string -> string) : string + Config :=
  let c := read_env Getenv in
  match Validate c with
  | Some e => inl e
  | None => inr c
  end.

(** ** Facts *)

Lemma ProtectedNamespace_spec c ns :
  ProtectedNamespace c ns = true <-> ns ∈ ProtectedNamespaces c.
Proof.
  unfold ProtectedNamespace. induction (ProtectedNamespaces c) as [|p ps IH]; simpl.
  - by rewrite elem_of_nil.
  - rewrite elem_of_cons, <- IH. destruct (p =s ns) eqn:E; bool_to_prop; naive_solver.
Qed.

Lemma PublicKey_size c raw : PublicKey c = inr raw -> String.length raw = PublicKeySize.
Proof.
  unfold PublicKey. intros H.
  repeat case_hyp H; repeat match goal with
  | E : (_ =? _)%nat = true |- _ => apply Nat.eqb_eq in E end; done.
Qed.

Lemma envList_nonempty g key def :
  def <> [] -> Forall (fun s => s <> "") def ->
  envList g key def <> [] /\ Forall (fun s => s <> "") (envList g key def).
Proof.
  intros Hd Hf. unfold envList. destruct (g key =s ""); [done|].
  set (out := filter _ _). destruct out as [|x out'] eqn:E; [done|]. simpl.
  split; [done|]. rewrite <- E. apply Forall_forall. intros y Hy. subst out.
  apply list_elem_of_filter in Hy as [Hy _]. apply Is_true_true in Hy. by bool_to_prop.
Qed.

(** What [Load] guarantees to the rest of the agent. *)
Record config_ok (c : Config) : Prop := {
  ok_endpoint : ServerEndpoint c <> "";
  ok_token : ServerToken c <> "";
  ok_key : exists raw, PublicKey c = inr raw /\ String.length raw = PublicKeySize;
  ok_drift : DriftPolicy c ∈ [DriftRefuse; DriftOverwrite; DriftOverwriteWithApproval];
  ok_level : LogLevel c ∈ ["debug"; "info"; "warn"; "error"];
  ok_protected : ProtectedNamespaces c <> [] /\ Forall (fun s => s <> "") (ProtectedNamespaces c);
  ok_informers : InformersEnabled c <> [] /\ Forall (fun s => s <> "") (InformersEnabled c);
}.

Lemma Validate_ok c :
  Validate c = None ->
  ServerEndpoint c <> "" /\ ServerToken c <> "" /\ (exists raw, PublicKey c = inr raw) /\
  DriftPolicy c ∈ [DriftRefuse; DriftOverwrite; DriftOverwriteWithApproval] /\
  LogLevel c ∈ ["debug"; "info"; "warn"; "error"].
Proof.
  unfold Validate. intros H. repeat case_hyp H; bool_to_prop.
  repeat match goal with
  | H : (_ || _)%bool = true |- _ => apply orb_true_iff in H as [H|H]; bool_to_prop
  end; split_and!; try done; eauto; set_solver.
Qed.

(** [Load] only returns configurations the agent can run with: a non-empty
    endpoint and token, a public key of exactly 32 bytes, a known drift policy
    and log level, and non-empty lists of informers and of protected
    namespaces with no blank entry; conversely it rejects nothing else. *)
Theorem load_configuration_ok g c :
  Load g = inr c <-> (c = read_env g /\ config_ok c).
Proof.
  unfold Load. split.
  - destruct (Validate (read_env g)) eqn:Hv; [done|]. intros [= <-]. split; [done|].
    apply Validate_ok in Hv as (H1 & H2 & (raw & Hk) & H4 & H5).
    split; auto; [by exists raw; split; eauto using PublicKey_size| |];
      apply envList_nonempty; try done; repeat constructor; done.
  - intros [-> Hok]. destruct Hok as [H1 H2 (raw & Hk & _) H4 H5 _ _].
    unfold Validate. apply string_eqb_false in H1, H2. rewrite H1, H2, Hk.
    repeat setoid_rewrite elem_of_cons in H4. repeat setoid_rewrite elem_of_cons in H5.
    destruct H4 as [->|[->|[->|[]%not_elem_of_nil]]];
    destruct H5 as [->|[->|[->|[->|[]%not_elem_of_nil]]]]; done.
Qed.

(** ** The two encodings of the server key *)

Definition with_key (c : Config) (k : string) : Config :=
  {| ServerEndpoint := ServerEndpoint c; ServerToken := ServerToken c; ServerPublicKey := k;
     ClusterID := ClusterID c; PollInterval := PollInterval c; WSEnabled := WSEnabled c;
     ReaderTokenPath := ReaderTokenPath c; WriterTokenPath := WriterTokenPath c;
     SpillDir := SpillDir c; WriterEnabled := WriterEnabled c; DryRunFirst := DryRunFirst c;
     DriftPolicy := DriftPolicy c; AllowDelete := AllowDelete c;
     InformersEnabled := InformersEnabled c; ProtectedNamespaces := ProtectedNamespaces c;
     MetricsAddr := MetricsAddr c; LogLevel := LogLevel c;
     DrainStallTimeout := DrainStallTimeout c |}.

(** 64 hex digits are also valid base64 text, but of a 48-byte value. *)
Lemma b64_decode_hex_not_key raw r :
  String.length raw = PublicKeySize -> b64_decode (hex_encode raw) = Some r ->
  (String.length r =? PublicKeySize)%nat = false.
Proof.
  intros Hl Hd. unfold b64_decode in Hd. destruct (hex_encode_plain raw) as [Hp Hc].
  rewrite Hp in Hd. apply (b64_quanta_length_fuel _ _ _ (le_n _) Hc) in Hd.
  rewrite hex_encode_length, Hl in Hd. unfold PublicKeySize in *.
  apply Nat.eqb_neq. lia.
Qed.

(** The server key round-trips through both encodings the documentation
    promises: the base64 and the hex text of any 32-byte key decode to that
    key, although the hex text is itself well-formed base64. *)
Theorem public_key_roundtrip c raw :
  String.length raw = PublicKeySize ->
  PublicKey (with_key c (b64_encode raw)) = inr raw /\
  PublicKey (with_key c (hex_encode raw)) = inr raw.
Proof.
  intros Hl. unfold PublicKey. cbn [ServerPublicKey with_key]. split.
  - by rewrite b64_decode_encode, Hl.
  - rewrite hex_decode_encode, Hl.
    destruct (b64_decode (hex_encode raw)) eqn:E; [|done].
    by rewrite (b64_decode_hex_not_key raw).
Qed.

(** ** Concrete environments *)

Definition sample_key : string := "0123456789abcdef0123456789abcdef".

Definition sample_env (key : string) : string :=
  if key =s "SERVER_ENDPOINT" then "https://server/audit_ready"
  else if key =s "SERVER_TOKEN" then "tok"
  else if key =s "SERVER_PUBLIC_KEY" then hex_encode sample_key
  else "".

Definition sample_config : Config := Eval vm_compute in read_env sample_env.

Lemma public_key_roundtrip_witness :
  PublicKey (with_key sample_config (hex_encode sample_key)) = inr sample_key.
Proof. exact (proj2 (public_key_roundtrip sample_config sample_key eq_refl)). Defined.
