(* ===== verification/Validator.v ===== *)
(** * internal/validator: the local safety policy

    [Validate] re-evaluates the operator's policy on a command.  A Go error is
    [Some refusal]; nil is [None]; a nil command is [None] of the argument. *)

From S2P Require Import Prelude GoStrings Protocol Config.

Record Refusal := mkRefusal { Reason : string }.

Definition Refusal_Error (r : Refusal) : string := "refused: " ^^ Reason r.

Definition is_helm_verb (v : string) : bool :=
  (v =s VerbHelmInstall) || (v =s VerbHelmUpgrade) || (v =s VerbHelmUninstall).

Definition is_known_patch (p : string) : bool :=
  (p =s PatchStrategic) || (p =s PatchMerge) || (p =s PatchJSON).

Definition validateHelm (cmd : Command) : option Refusal :=
  let refusal := mkRefusal "helm command requires a complete helm spec (release name, namespace, chart ref)" in
  match Cmd_Helm cmd with
  | None => Some refusal
  | Some h =>
      if (Helm_ReleaseName h =s "") || (Helm_Namespace h =s "") || (Helm_ChartRef h =s "")
      then Some refusal else None
  end.

Definition targetNamespace (cmd : Command) : string :=
  if is_helm_verb (Cmd_Verb cmd) then
    match Cmd_Helm cmd with
    | Some h => Helm_Namespace h
    | None => ""
    end
  else Ref_Namespace (Cmd_Target cmd).

(** The verb switch of [Validate]: [Some r] is an early return of [r]. *)
Definition validate_verb (cmd : Command) : option Refusal :=
  let v := Cmd_Verb cmd in
  if (v =s VerbApply) || (v =s VerbPatch) then
    if (String.length (Cmd_Payload cmd) =? 0)%nat
    then Some (mkRefusal (v ^^ " requires a non-empty payload")) else None
  else if v =s VerbClusterUpgrade then
    Some (mkRefusal "cluster-upgrade is not supported by this agent version")
  else if (v =s VerbDelete) || (v =s VerbDrainNode) || (v =s VerbUncordonNode) || (v =s VerbCertRotate)
  then None
  else if is_helm_verb v then validateHelm cmd
  else Some (mkRefusal ("unknown verb " ^^ quoted v)).

Definition Validate (cfg : Config) (cmd : option Command) : option Refusal :=
  match cmd with
  | None => Some (mkRefusal "nil command")
  | Some cmd =>
      match validate_verb cmd with
      | Some r => Some r
      | None =>
          if (Cmd_Verb cmd =s VerbPatch) && negb (is_known_patch (Cmd_PatchType cmd))
          then Some (mkRefusal ("unsupported patch type " ^^ quoted (Cmd_PatchType cmd)))
          else if (Cmd_Verb cmd =s VerbDelete) && negb (AllowDelete cfg)
          then Some (mkRefusal "delete is disabled by policy (ALLOW_DELETE=false)")
          else
            let ns := targetNamespace cmd in
            if negb (ns =s "") && ProtectedNamespace cfg ns
            then Some (mkRefusal ("namespace " ^^ quoted ns ^^ " is protected"))
            else None
      end
  end.

(** ** The policy the validator implements *)

Definition supported_verbs : list string :=
  [VerbApply; VerbPatch; VerbDelete; VerbDrainNode; VerbUncordonNode; VerbHelmInstall;
   VerbHelmUpgrade; VerbHelmUninstall; VerbCertRotate].

(** What a command must satisfy to pass: the policy, without an order. *)
Record policy (cfg : Config) (cmd : Command) : Prop := {
  policy_verb : Cmd_Verb cmd ∈ supported_verbs;
  policy_payload : Cmd_Verb cmd ∈ [VerbApply; VerbPatch] -> Cmd_Payload cmd <> "";
  policy_patch : Cmd_Verb cmd = VerbPatch -> Cmd_PatchType cmd ∈ [PatchStrategic; PatchMerge; PatchJSON];
  policy_delete : Cmd_Verb cmd = VerbDelete -> AllowDelete cfg = true;
  policy_helm : Cmd_Verb cmd ∈ [VerbHelmInstall; VerbHelmUpgrade; VerbHelmUninstall] ->
    exists h, Cmd_Helm cmd = Some h /\ Helm_ReleaseName h <> "" /\ Helm_Namespace h <> "" /\ Helm_ChartRef h <> "";
  policy_namespace : targetNamespace cmd ∉ ProtectedNamespaces cfg \/ targetNamespace cmd = "";
}.

Lemma is_helm_verb_spec v :
  is_helm_verb v = true <-> v ∈ [VerbHelmInstall; VerbHelmUpgrade; VerbHelmUninstall].
Proof.
  unfold is_helm_verb. rewrite !orb_true_iff, !string_eqb_true, !elem_of_cons, elem_of_nil. tauto.
Qed.

Lemma is_known_patch_spec p :
  is_known_patch p = true <-> p ∈ [PatchStrategic; PatchMerge; PatchJSON].
Proof.
  unfold is_known_patch. rewrite !orb_true_iff, !string_eqb_true, !elem_of_cons, elem_of_nil. tauto.
Qed.

Lemma length_zero_string (s : string) : (String.length s =? 0)%nat = true <-> s = "".
Proof. by destruct s. Qed.

Lemma validateHelm_ok cmd :
  validateHelm cmd = None <->
  exists h, Cmd_Helm cmd = Some h /\ Helm_ReleaseName h <> "" /\ Helm_Namespace h <> "" /\ Helm_ChartRef h <> "".
Proof.
  unfold validateHelm. destruct (Cmd_Helm cmd) as [h|]; [|naive_solver].
  destruct (_ || _) eqn:E; split; try done.
  - intros (h' & [= <-] & H1 & H2 & H3). apply string_eqb_false in H1, H2, H3.
    by rewrite H1, H2, H3 in E.
  - intros _. bool_to_prop. eauto.
Qed.

(** The verb switch, as a condition. *)
Lemma validate_verb_ok cmd :
  validate_verb cmd = None <->
  (Cmd_Verb cmd ∈ supported_verbs /\
   (Cmd_Verb cmd ∈ [VerbApply; VerbPatch] -> Cmd_Payload cmd <> "") /\
   (Cmd_Verb cmd ∈ [VerbHelmInstall; VerbHelmUpgrade; VerbHelmUninstall] -> validateHelm cmd = None)).
Proof.
  unfold validate_verb, supported_verbs. rewrite <- is_helm_verb_spec.
  destruct (decide (Cmd_Verb cmd ∈ supported_verbs)) as [Hin|Hout].
  - unfold supported_verbs in Hin.
    assert (Cmd_Payload cmd <> "" <-> (String.length (Cmd_Payload cmd) =? 0)%nat = false) as Hp
      by (by destruct (Cmd_Payload cmd)).
    repeat (apply elem_of_cons in Hin as [Hv|Hin]; [rewrite Hv; simpl; rewrite ?Hp;
      destruct (String.length (Cmd_Payload cmd) =? 0)%nat; set_solver|]).
    by apply elem_of_nil in Hin.
  - split; [|naive_solver]. intros H. exfalso. apply Hout. unfold supported_verbs.
    unfold is_helm_verb in H.
    repeat case_hyp H; repeat match goal with
      | E : (_ || _)%bool = true |- _ => apply orb_true_iff in E as [E|E] end; bool_to_prop; set_solver.
Qed.

(** C35. [Validate] accepts a command exactly when the declarative policy holds:
    a supported verb, a payload where one is needed, a known patch type,
    deletion allowed, a complete Helm specification, and a target namespace
    that is not protected; a nil command is refused. *)
Theorem validate_iff_policy cfg cmd :
  Validate cfg cmd = None <-> exists c, cmd = Some c /\ policy cfg c.
Proof.
  destruct cmd as [c|]; [|naive_solver].
  transitivity (policy cfg c); [|naive_solver].
  unfold Validate. destruct (validate_verb c) as [r|] eqn:Hv.
  { split; [done|]. intros [H1 H2 _ _ H5 _].
    assert (validate_verb c = None) as Hn; [|congruence].
    apply validate_verb_ok. split_and!; auto. intros Hh. apply validateHelm_ok; auto. }
  apply validate_verb_ok in Hv as (Hverb & Hpay & Hhelm).
  assert ((Cmd_Verb c =s VerbPatch) && negb (is_known_patch (Cmd_PatchType c)) = false <->
    (Cmd_Verb c = VerbPatch -> Cmd_PatchType c ∈ [PatchStrategic; PatchMerge; PatchJSON])) as Hpatch.
  { rewrite <- is_known_patch_spec, andb_false_iff, negb_false_iff, string_eqb_false.
    destruct (decide (Cmd_Verb c = VerbPatch)); tauto. }
  assert ((Cmd_Verb c =s VerbDelete) && negb (AllowDelete cfg) = false <->
    (Cmd_Verb c = VerbDelete -> AllowDelete cfg = true)) as Hdel.
  { rewrite andb_false_iff, negb_false_iff, string_eqb_false.
    destruct (decide (Cmd_Verb c = VerbDelete)); tauto. }
  assert (negb (targetNamespace c =s "") && ProtectedNamespace cfg (targetNamespace c) = false <->
    (targetNamespace c ∉ ProtectedNamespaces cfg \/ targetNamespace c = "")) as Hns.
  { rewrite andb_false_iff, negb_false_iff, string_eqb_true, <- ProtectedNamespace_spec, not_true_iff_false. tauto. }
  split.
  - intros H. destruct (_ && negb (is_known_patch _)); [done|].
    destruct (_ && negb (AllowDelete _)); [done|].
    destruct (negb _ && ProtectedNamespace _ _); [done|].
    split; try tauto. intros Hh. apply validateHelm_ok; auto.
  - intros [_ _ H3 H4 _ H6].
    by rewrite (proj2 Hpatch H3), (proj2 Hdel H4), (proj2 Hns H6).
Qed.
