(* ===== verification/Metrics.v ===== *)
(** * internal/metrics: the operator's metrics

    The Prometheus registry is a set of named series.  The state below holds
    the series the agent writes; one operation per package-level helper.
    Gauge values written as [float64] are whole numbers in the code and kept
    as [Z] (the sync lag in nanoseconds). *)

From S2P Require Import Prelude.
Local Open Scope Z_scope.

Record Metrics := mkMetrics {
  cacheSyncLag : gmap string Z;
  commandsTotal : gmap (string * string) Z;
  tunnelConnected : Z;
  drainProgress : gmap string Z;
  uploadQueueDepth : Z;
  inventoryEventsSent : Z;
}.

Definition empty_metrics : Metrics := mkMetrics ∅ ∅ 0 ∅ 0 0.

Definition ObserveCacheSyncLag (resource : string) (lag : Z) (m : Metrics) : Metrics :=
  mkMetrics (<[resource := lag]> (cacheSyncLag m)) (commandsTotal m) (tunnelConnected m)
    (drainProgress m) (uploadQueueDepth m) (inventoryEventsSent m).

(** The value of a counter series; absent series count as zero. *)
Definition command_count (m : Metrics) (verb result : string) : Z :=
  default 0 (commandsTotal m !! (verb, result)).

Definition IncCommand (verb result : string) (m : Metrics) : Metrics :=
  mkMetrics (cacheSyncLag m)
    (<[(verb, result) := command_count m verb result + 1]> (commandsTotal m)) (tunnelConnected m)
    (drainProgress m) (uploadQueueDepth m) (inventoryEventsSent m).

Definition SetTunnelConnected (connected : bool) (m : Metrics) : Metrics :=
  mkMetrics (cacheSyncLag m) (commandsTotal m) (if connected then 1 else 0)
    (drainProgress m) (uploadQueueDepth m) (inventoryEventsSent m).

Definition SetDrainProgress (node : string) (pct : Z) (m : Metrics) : Metrics :=
  mkMetrics (cacheSyncLag m) (commandsTotal m) (tunnelConnected m)
    (<[node := pct]> (drainProgress m)) (uploadQueueDepth m) (inventoryEventsSent m).

Definition ClearDrainProgress (node : string) (m : Metrics) : Metrics :=
  mkMetrics (cacheSyncLag m) (commandsTotal m) (tunnelConnected m)
    (delete node (drainProgress m)) (uploadQueueDepth m) (inventoryEventsSent m).

Definition SetQueueDepth (n : Z) (m : Metrics) : Metrics :=
  mkMetrics (cacheSyncLag m) (commandsTotal m) (tunnelConnected m)
    (drainProgress m) n (inventoryEventsSent m).

Definition IncInventoryEvents (n : Z) (m : Metrics) : Metrics :=
  mkMetrics (cacheSyncLag m) (commandsTotal m) (tunnelConnected m)
    (drainProgress m) (uploadQueueDepth m) (inventoryEventsSent m + n).

Lemma command_count_IncCommand v r v' r' m :
  command_count (IncCommand v r m) v' r' =
  command_count m v' r' + (if decide ((v, r) = (v', r')) then 1 else 0).
Proof.
  unfold command_count at 1. cbn [IncCommand commandsTotal].
  rewrite lookup_insert. case_decide as H; simpl; [simplify_eq; lia|]. unfold command_count. lia.
Qed.
