(* ===== verification/Backoff.v ===== *)
(** * Retry delays

    The exponential backoff of [receiver.go] (and, text for text, of
    [wsclient.go]), and the jittered sleep of [uploader.go].  [rand.Float64()]
    is [k / 2^53] with [0 <= k < 2^53]; the products are evaluated exactly and
    truncated toward zero as the conversion to [time.Duration] does. *)

From S2P Require Import Prelude GoTime.
Local Open Scope Z_scope.

Definition backoffMin : Z := Second.
Definition backoffMax : Z := 30 * Second.

Record backoff := mkBackoff { bo_d : Z; bo_authLogged : bool }.

(** [new(backoff)]. *)
Definition new_backoff : backoff := mkBackoff 0 false.

(** A draw of [rand.Float64()], as its numerator over [2^53]. *)
Definition float64_draw (k : Z) : Prop := 0 <= k < 2 ^ 53.

(** [time.Duration((rand.Float64()*0.4-0.2)*float64(d))]. *)
Definition jitter (k d : Z) : Z := Z.quot ((2 * k - 2 ^ 53) * d) (5 * 2 ^ 53).

Definition next (k : Z) (b : backoff) : Z * backoff :=
  let d := if bo_d b <? backoffMin then backoffMin else bo_d b in
  let d2 := wrap64 (d * 2) in
  let d' := if backoffMax <? d2 then backoffMax else d2 in
  (d + jitter k d, mkBackoff d' (bo_authLogged b)).

Definition reset (b : backoff) : backoff := mkBackoff 0 false.

(** [float64(d) * (0.8 + 0.4*rand.Float64())] of the uploader's sleep. *)
Definition jittered (k d : Z) : Z := Z.quot ((4 * 2 ^ 53 + 2 * k) * d) (5 * 2 ^ 53).

(** Every delay the backoff can hold. *)
Definition backoff_ok (b : backoff) : Prop :=
  bo_d b = 0 \/ backoffMin <= bo_d b <= backoffMax.

Lemma jitter_bounds k d : float64_draw k -> 0 <= d -> - d <= 5 * jitter k d <= d.
Proof.
  unfold float64_draw, jitter. intros Hk Hd.
  set (n := (2 * k - 2 ^ 53) * d).
  assert (- (2 ^ 53 * d) <= n <= 2 ^ 53 * d) as Hn by (subst n; nia).
  pose proof (Z.quot_rem n (5 * 2 ^ 53) ltac:(lia)) as Hq.
  pose proof (Z.rem_bound_abs n (5 * 2 ^ 53) ltac:(lia)) as Hr.
  destruct (Z.le_ge_cases 0 n) as [Hs|Hs].
  - pose proof (Z.rem_nonneg n (5 * 2 ^ 53) ltac:(lia) Hs). lia.
  - pose proof (Z.rem_nonpos n (5 * 2 ^ 53) ltac:(lia) Hs). lia.
Qed.

Lemma next_state b k : backoff_ok b -> backoff_ok (next k b).2.
Proof.
  unfold backoff_ok, next. cbn [snd bo_d]. intros Hb.
  unfold backoffMin, backoffMax, Second in *.
  destruct (Z.ltb_spec (bo_d b) 1000000000);
    rewrite wrap64_id by (unfold in_int64, int64_min, int64_max; lia);
    match goal with |- context [?a <? ?b] => destruct (Z.ltb_spec a b) end; lia.
Qed.

(** Iterating [next] over a list of draws: the delays of a failure streak. *)
Fixpoint delays (ks : list Z) (b : backoff) : list Z :=
  match ks with
  | [] => []
  | k :: ks' => let '(d, b') := next k b in d :: delays ks' b'
  end.

(** The base delay of the [i]-th retry of a streak. *)
Definition base_delay (i : nat) : Z := Z.min (2 ^ Z.of_nat i * Second) backoffMax.

Lemma base_delay_double i : Z.min (base_delay i * 2) backoffMax = base_delay (S i).
Proof.
  unfold base_delay. rewrite Nat2Z.inj_succ, Z.pow_succ_r by lia. unfold backoffMax, Second. lia.
Qed.

Lemma base_delay_bounds i : backoffMin <= base_delay i <= backoffMax.
Proof.
  unfold base_delay. pose proof (Z.pow_pos_nonneg 2 (Z.of_nat i) ltac:(lia) ltac:(lia)).
  unfold backoffMin, backoffMax, Second. lia.
Qed.

(** From a held delay of [base_delay i], [next] waits that long, up to jitter,
    and doubles what it holds. *)
Lemma next_base k b i :
  (if bo_d b <? backoffMin then backoffMin else bo_d b) = base_delay i ->
  next k b = (base_delay i + jitter k (base_delay i), mkBackoff (base_delay (S i)) (bo_authLogged b)).
Proof.
  intros Hb. unfold next. rewrite Hb. pose proof (base_delay_bounds i) as Hi.
  rewrite wrap64_id by (unfold in_int64, int64_min, int64_max, backoffMin, backoffMax, Second in *; lia).
  rewrite <- base_delay_double. do 2 f_equal.
  destruct (Z.ltb_spec backoffMax (base_delay i * 2)); lia.
Qed.

Lemma delays_from ks b i j d :
  (if bo_d b <? backoffMin then backoffMin else bo_d b) = base_delay i ->
  Forall float64_draw ks -> delays ks b !! j = Some d ->
  - base_delay (i + j) <= 5 * (d - base_delay (i + j)) <= base_delay (i + j).
Proof.
  revert b i j. induction ks as [|k ks IH]; intros b i j Hb Hks Hd; [done|].
  inversion_clear Hks as [|?? Hk Hks']. cbn [delays] in Hd. rewrite (next_base k b i Hb) in Hd.
  pose proof (base_delay_bounds i).
  destruct j as [|j]; simpl in Hd.
  - simplify_eq. rewrite Nat.add_0_r.
    pose proof (jitter_bounds k (base_delay i) Hk ltac:(unfold backoffMin, Second in *; lia)). lia.
  - rewrite <- Nat.add_succ_comm. eapply IH; [|done..]. cbn [bo_d].
    pose proof (base_delay_bounds (S i)).
    destruct (Z.ltb_spec (base_delay (S i)) backoffMin); lia.
Qed.

(** The delay a backoff holds for the [j]-th retry of a streak. *)
Definition holds (bo : backoff) (j : nat) : Prop :=
  (if bo_d bo <? backoffMin then backoffMin else bo_d bo) = base_delay j.

Lemma holds_reset bo : holds (reset bo) 0.
Proof. reflexivity. Qed.

Lemma next_holds k bo j :
  float64_draw k -> holds bo j ->
  holds (next k bo).2 (S j) /\ 8 * base_delay j <= 10 * (next k bo).1 <= 12 * base_delay j.
Proof.
  intros Hk Hb. pose proof (base_delay_bounds j) as Hj. pose proof (base_delay_bounds (S j)) as Hj'.
  rewrite (next_base _ _ j) by exact Hb.
  cbn [fst snd]. pose proof (jitter_bounds k (base_delay j) Hk ltac:(unfold backoffMin, Second in *; lia)).
  unfold holds. cbn [bo_d]. destruct (Z.ltb_spec (base_delay (S j)) backoffMin); lia.
Qed.

(** In a streak of failures the [i]-th retry waits [min(2^i s, 30 s)] within
    20 percent, whatever the random draws: the delay grows exponentially and
    is never below 0.8 s nor above 36 s. *)
Theorem backoff_streak ks i d :
  Forall float64_draw ks -> delays ks new_backoff !! i = Some d ->
  8 * base_delay i <= 10 * d <= 12 * base_delay i /\ 800000000 <= d <= 36 * Second.
Proof.
  intros Hks Hd. assert (base_delay 0 = backoffMin) as H0 by reflexivity.
  pose proof (delays_from ks new_backoff 0 i d (eq_sym H0) Hks Hd) as H. simpl in H.
  pose proof (base_delay_bounds i). unfold backoffMin, backoffMax, Second in *. lia.
Qed.

Lemma backoff_streak_witness :
  8 * base_delay 1 <= 10 * 2000000000 <= 12 * base_delay 1 /\ 800000000 <= 2000000000 <= 36 * Second.
Proof.
  apply (backoff_streak [0; 2 ^ 52] 1 2000000000).
  - repeat constructor; discriminate.
  - vm_compute. reflexivity.
Defined.
