(* ===== verification/NonceCache.v ===== *)
(** * internal/receiver: the FIFO replay cache

    [nonceCache] remembers the most recent [cap] keys in insertion order
    ([ll], a doubly linked list) with a map [m] from keys to list elements for
    membership.  The map's values are only used to delete by key, so [m] is
    kept as the set of its keys.

    The abstract specification is the history of keys recorded so far: a key is
    "seen" when it is among the last [cap] of them.  [seen_refines] is the
    refinement; [SeenThreads] models the routine at the granularity of its
    unsynchronised memory accesses. *)

From S2P Require Import Prelude.
Local Open Scope Z_scope.

Record nonceCache := mkNonceCache {
  nc_cap : Z;
  nc_ll : list string;
  nc_m : gset string;
}.

Definition newNonceCache (cap : Z) : nonceCache := mkNonceCache cap [] ∅.

(** Removal of the oldest entry once the list is longer than [cap]. *)
Definition evict (c : nonceCache) : nonceCache :=
  if nc_cap c <? Z.of_nat (length (nc_ll c)) then
    match nc_ll c with
    | front :: rest => mkNonceCache (nc_cap c) rest (nc_m c ∖ {[front]})
    | [] => c
    end
  else c.

(** [seen] records [nonce] and reports whether it was already present. *)
Definition seen (nonce : string) (c : nonceCache) : bool * nonceCache :=
  if decide (nonce ∈ nc_m c) then (true, c)
  else (false, evict (mkNonceCache (nc_cap c) (nc_ll c ++ [nonce]) ({[nonce]} ∪ nc_m c))).

(** ** Invariant and refinement *)

Record nc_inv (c : nonceCache) : Prop := {
  nc_cap_pos : 0 < nc_cap c;
  nc_nodup : NoDup (nc_ll c);
  nc_dom : forall x, x ∈ nc_m c <-> x ∈ nc_ll c;
  nc_bounded : Z.of_nat (length (nc_ll c)) <= nc_cap c;
}.

(** The cache holds exactly the last [cap] recorded keys. *)
Definition nc_rel (c : nonceCache) (hist : list string) : Prop :=
  nc_inv c /\ nc_ll c = last_n (Z.to_nat (nc_cap c)) hist.

(** Abstract specification of [seen] over the history. *)
Definition seen_spec (cap : Z) (nonce : string) (hist : list string) : bool * list string :=
  if decide (nonce ∈ last_n (Z.to_nat cap) hist) then (true, hist) else (false, hist ++ [nonce]).

Lemma new_rel cap : 0 < cap -> nc_rel (newNonceCache cap) [].
Proof.
  intros Hc. split; [|done]. split; simpl; [done|constructor|set_solver|lia].
Qed.

Lemma insert_inv c nonce :
  nc_inv c -> nonce ∉ nc_m c ->
  let ll' := nc_ll c ++ [nonce] in
  NoDup ll' /\ (forall x, x ∈ {[nonce]} ∪ nc_m c <-> x ∈ ll').
Proof.
  intros [Hcap Hnd Hdom Hb] Hn. simpl. split.
  - apply NoDup_app. split_and!; [done|set_solver|apply NoDup_singleton].
  - intros x. rewrite elem_of_app, elem_of_union, elem_of_singleton, list_elem_of_singleton, Hdom. tauto.
Qed.

Lemma seen_cap nonce c : nc_cap (seen nonce c).2 = nc_cap c.
Proof.
  unfold seen, evict. case_decide; [done|]. simpl.
  destruct (_ <? _); [|done]. by destruct (nc_ll c).
Qed.

(** The element [evict] removes is the front of the extended list. *)
Lemma evict_inv c :
  0 < nc_cap c -> NoDup (nc_ll c) -> (forall x, x ∈ nc_m c <-> x ∈ nc_ll c) ->
  Z.of_nat (length (nc_ll c)) <= nc_cap c + 1 -> nc_inv (evict c).
Proof.
  intros Hc Hnd Hd Hl. unfold evict.
  destruct (Z.ltb_spec (nc_cap c) (Z.of_nat (length (nc_ll c)))) as [Hlt|Hge]; [|by split].
  destruct c as [cap ll m]. destruct ll as [|front rest]; simpl in *; [lia|].
  apply NoDup_cons in Hnd as [Hf Hnd]. split; simpl; [done|done| |lia].
  intros x. rewrite elem_of_difference, elem_of_singleton, Hd, elem_of_cons.
  split; [tauto|]. intros Hx. split; [tauto|]. intros ->. done.
Qed.

Lemma evict_ll c :
  nc_ll (evict c) =
  if nc_cap c <? Z.of_nat (length (nc_ll c)) then drop 1 (nc_ll c) else nc_ll c.
Proof. unfold evict. destruct (_ <? _); [|done]. destruct (nc_ll c) eqn:E; [by rewrite E|done]. Qed.

(** One lookup: from a state that holds the last [cap] recorded keys, [seen]
    answers whether the key is among them, records it exactly when it is not,
    evicts the oldest key beyond [cap], and keeps list and map in agreement. *)
Lemma seen_rel c hist nonce :
  nc_rel c hist ->
  let '(b, c') := seen nonce c in
  let '(b', hist') := seen_spec (nc_cap c) nonce hist in
  b = b' /\ nc_cap c' = nc_cap c /\ nc_rel c' hist'.
Proof.
  intros [Hinv Hll]. pose proof (seen_cap nonce c) as Hcap.
  unfold seen, seen_spec in *. pose proof Hinv as [Hpos Hnd Hdom Hb].
  assert (nonce ∈ nc_m c <-> nonce ∈ last_n (Z.to_nat (nc_cap c)) hist) as Hiff
    by (rewrite <- Hll; apply Hdom).
  destruct (decide (nonce ∈ nc_m c)) as [Hin|Hout]; rewrite Hiff in *.
  { rewrite decide_True by done. by split_and!. }
  rewrite decide_False by done. simpl in Hcap. split_and!; [done|done|].
  destruct (insert_inv c nonce Hinv) as [Hnd' Hd']; [by rewrite Hiff|].
  split.
  - apply evict_inv; simpl; [done|done|done|]. rewrite length_app. simpl. lia.
  - rewrite Hcap, evict_ll. cbn [nc_ll nc_cap]. rewrite Hll, last_n_snoc by lia.
    rewrite length_app, last_n_length. simpl.
    destruct (Nat.leb_spec (Z.to_nat (nc_cap c)) (min (Z.to_nat (nc_cap c)) (length hist))) as [H1|H1];
    destruct (Z.ltb_spec (nc_cap c) (Z.of_nat (min (Z.to_nat (nc_cap c)) (length hist) + 1))) as [H2|H2];
      try lia; [|done].
    destruct (last_n (Z.to_nat (nc_cap c)) hist) as [|x l] eqn:E; [|done].
    apply (f_equal length) in E. rewrite last_n_length in E. simpl in E. lia.
Qed.

(** The answers to a sequence of lookups. *)
Fixpoint lookups {S} (f : string -> S -> bool * S) (keys : list string) (s : S) : list bool * S :=
  match keys with
  | [] => ([], s)
  | k :: keys => let '(b, s) := f k s in let '(bs, s) := lookups f keys s in (b :: bs, s)
  end.

Lemma lookups_rel keys c hist :
  nc_rel c hist ->
  (lookups seen keys c).1 = (lookups (seen_spec (nc_cap c)) keys hist).1 /\
  nc_rel (lookups seen keys c).2 (lookups (seen_spec (nc_cap c)) keys hist).2.
Proof.
  revert c hist. induction keys as [|k keys IH]; intros c hist Hrel; cbn [lookups]; [done|].
  pose proof (seen_rel c hist k Hrel) as Hk.
  destruct (seen k c) as [b c'], (seen_spec (nc_cap c) k hist) as [b' hist']. destruct Hk as (-> & Hcap & Hrel').
  destruct (IH c' hist' Hrel') as [Ha Hr]. rewrite Hcap in Ha, Hr.
  destruct (lookups seen keys c'), (lookups (seen_spec (nc_cap c)) keys hist'). cbn in *. by subst.
Qed.

(** C28. The replay cache refines its specification: whatever keys are looked up
    in a new cache, its answers are those of "was this key among the last [cap]
    recorded ones", and afterwards it holds exactly the last [cap] of them. *)
Theorem seen_refines cap keys :
  0 < cap ->
  (lookups seen keys (newNonceCache cap)).1 = (lookups (seen_spec cap) keys []).1 /\
  nc_ll (lookups seen keys (newNonceCache cap)).2 = last_n (Z.to_nat cap) (lookups (seen_spec cap) keys []).2.
Proof.
  intros Hc. destruct (lookups_rel keys _ [] (new_rel cap Hc)) as [Ha [_ Hr]]. split; [exact Ha|].
  rewrite Hr. f_equal. f_equal. clear Ha Hr. cbn [nc_cap newNonceCache].
  assert (forall c, nc_cap (lookups seen keys c).2 = nc_cap c) as ->; [|done].
  induction keys as [|k keys IH]; intros c; [done|]. cbn [lookups].
  pose proof (seen_cap k c) as Hk. destruct (seen k c) as [b c']. cbn in Hk. specialize (IH c').
  destruct (lookups seen keys c'). cbn in *. congruence.
Qed.

Lemma seen_refines_witness :
  (lookups seen ["a"; "b"; "a"; "c"; "a"] (newNonceCache 2)).1 = [false; false; true; false; false] /\
  nc_ll (lookups seen ["a"; "b"; "a"; "c"; "a"] (newNonceCache 2)).2 = ["c"; "a"].
Proof.
  destruct (seen_refines 2 ["a"; "b"; "a"; "c"; "a"] ltac:(lia)) as [-> ->]. vm_compute. split; reflexivity.
Defined.

(** ** Consequences for a history of recorded keys *)

(** Equal keys of the history are more than [cap] positions apart. *)
Definition window_distinct (cap : Z) (hist : list string) : Prop :=
  forall i j x, (i < j)%nat -> hist !! i = Some x -> hist !! j = Some x ->
    cap < Z.of_nat j - Z.of_nat i.

Lemma window_distinct_nil cap : window_distinct cap [].
Proof. intros i j x _ Hi. by rewrite lookup_nil in Hi. Qed.

Lemma last_n_lookup_elem {A} n (l : list A) i x :
  (length l - n <= i)%nat -> l !! i = Some x -> x ∈ last_n n l.
Proof.
  intros Hi Hx. unfold last_n. apply list_elem_of_lookup. exists (i - (length l - n))%nat.
  rewrite lookup_drop. rewrite <- Hx. f_equal. lia.
Qed.

(** Recording a key that is not among the last [cap] keeps the spacing. *)
Lemma window_distinct_snoc cap hist x :
  0 < cap -> window_distinct cap hist -> x ∉ last_n (Z.to_nat cap) hist ->
  window_distinct cap (hist ++ [x]).
Proof.
  intros Hc Hw Hx i j y Hij Hi Hj.
  apply lookup_snoc_Some in Hj as [[Hlj Hj]|[-> <-]].
  - apply lookup_snoc_Some in Hi as [[_ Hi]|[-> _]]; [by eapply Hw|lia].
  - apply lookup_snoc_Some in Hi as [[Hli Hi]|[-> _]]; [|lia].
    destruct (decide (length hist - Z.to_nat cap <= i)%nat) as [Hge|Hlt]; [|lia].
    exfalso. eapply Hx, last_n_lookup_elem; eauto.
Qed.

Lemma window_distinct_NoDup cap (l : list string) :
  window_distinct cap l -> Z.of_nat (length l) <= cap + 1 -> NoDup l.
Proof.
  intros Hw Hl. apply NoDup_alt. intros i j x Hi Hj.
  pose proof (lookup_lt_Some _ _ _ Hi). pose proof (lookup_lt_Some _ _ _ Hj).
  destruct (Nat.lt_trichotomy i j) as [Hij|[->|Hij]]; [|done|];
    [specialize (Hw i j x Hij Hi Hj)|specialize (Hw j i x Hij Hj Hi)]; lia.
Qed.

(** A history with no more than [cap] different keys has each of them once. *)
Lemma window_distinct_few cap (l ks : list string) :
  window_distinct cap l -> (forall x, x ∈ l -> x ∈ ks) -> Z.of_nat (length ks) <= cap -> NoDup l.
Proof.
  intros Hw Hks Hlen. apply (window_distinct_NoDup cap); [done|].
  destruct (Z.le_gt_cases (Z.of_nat (length l)) cap) as [|Hgt]; [lia|]. exfalso.
  set (n := S (Z.to_nat cap)).
  assert (NoDup (take n l)) as Hnd.
  { apply (window_distinct_NoDup cap); [|rewrite length_take; lia]. intros i j x Hij Hi Hj.
    apply lookup_take_Some in Hi as [Hi _]. apply lookup_take_Some in Hj as [Hj _]. by eapply Hw. }
  apply NoDup_submseteq with (k := ks) in Hnd; [|intros x Hx; by eapply Hks, subseteq_take].
  apply submseteq_length in Hnd. rewrite length_take in Hnd. lia.
Qed.

(** ** Unsynchronised callers

    [seen] is called from the poll loop and from the WebSocket read loop, two
    goroutines, without a lock: each thread first looks the key up, then
    inserts it, then evicts. *)
Module SeenThreads.

Inductive pc := AtLookup | AtInsert | AtEvict | Returned (b : bool).

(** One memory access of a thread running [seen nonce]. *)
Definition thread_step (nonce : string) (s : pc * nonceCache) : pc * nonceCache :=
  let '(p, c) := s in
  match p with
  | AtLookup => (if decide (nonce ∈ nc_m c) then Returned true else AtInsert, c)
  | AtInsert => (AtEvict, mkNonceCache (nc_cap c) (nc_ll c ++ [nonce]) ({[nonce]} ∪ nc_m c))
  | AtEvict => (Returned false, evict c)
  | Returned b => (Returned b, c)
  end.

(** Run without interference, the three accesses are [seen]. *)
Lemma thread_alone nonce c :
  Nat.iter 3 (thread_step nonce) (AtLookup, c) = (Returned (seen nonce c).1, (seen nonce c).2).
Proof.
  unfold seen. simpl. destruct (decide (nonce ∈ nc_m c)); done.
Qed.

(** Two threads handling the same key on the shared cache. *)
Record system := mkSystem { pc1 : pc; pc2 : pc; shared : nonceCache }.

Inductive step (nonce : string) : system -> system -> Prop :=
| step1 p q c p' c' : thread_step nonce (p, c) = (p', c') ->
    step nonce (mkSystem p q c) (mkSystem p' q c')
| step2 p q c q' c' : thread_step nonce (q, c) = (q', c') ->
    step nonce (mkSystem p q c) (mkSystem p q' c').

(** Scheduling the second thread only after the first has returned. *)
Lemma sequential_dedupes nonce c :
  0 < nc_cap c -> nc_inv c -> nonce ∉ nc_m c ->
  (seen nonce c).1 = false /\ (seen nonce (seen nonce c).2).1 = true.
Proof.
  intros Hc Hinv Hn. split; [unfold seen; by rewrite decide_False|].
  assert (nc_rel c (nc_ll c)) as Hrel.
  { split; [done|]. destruct Hinv as [? ? ? Hb]. rewrite last_n_all by lia. done. }
  pose proof (seen_rel c (nc_ll c) nonce Hrel) as H.
  unfold seen_spec in H. rewrite decide_False in H.
  2:{ rewrite last_n_all; [by rewrite <- (nc_dom _ Hinv)|destruct Hinv; lia]. }
  destruct (seen nonce c) as [b c'] eqn:E. destruct H as (-> & Hcap & Hrel'). simpl.
  destruct Hrel' as [Hinv' Hll']. unfold seen. rewrite decide_True; [done|].
  apply (nc_dom _ Hinv'). rewrite Hll', Hcap, last_n_snoc by lia. set_solver.
Qed.

(** The cache is not safe for its two callers: starting from an empty cache
    there is an interleaving of two [seen] calls with the same key in which
    both report "not seen" (so the same command is accepted twice), and the
    cache is left violating its invariant; run one after the other, the second
    call reports the key as seen. *)
Theorem seen_race nonce cap :
  1 < cap ->
  (exists c', rtc (step nonce) (mkSystem AtLookup AtLookup (newNonceCache cap))
                  (mkSystem (Returned false) (Returned false) c') /\ ~ nc_inv c') /\
  (let c1 := (seen nonce (newNonceCache cap)).2 in (seen nonce c1).1 = true).
Proof.
  intros Hc. split.
  - set (c1 := mkNonceCache cap [nonce] ({[nonce]} ∪ ∅)).
    set (c2 := mkNonceCache cap [nonce; nonce] ({[nonce]} ∪ ({[nonce]} ∪ ∅))).
    assert (evict c2 = c2) as He2.
    { unfold evict. rewrite (proj2 (Z.ltb_ge _ _)); [done|]. cbn. lia. }
    exists c2. split.
    + eapply rtc_l; [by apply (step1 nonce AtLookup)|]. simpl.
      eapply rtc_l; [by apply (step2 nonce _ AtLookup)|]. simpl.
      eapply rtc_l; [by apply (step1 nonce AtInsert)|]. simpl.
      eapply rtc_l; [by apply (step2 nonce _ AtInsert)|]. simpl.
      eapply rtc_l; [apply (step1 nonce AtEvict _ c2 (Returned false) c2); cbn; by rewrite He2|].
      eapply rtc_l; [apply (step2 nonce _ AtEvict c2 (Returned false) c2); cbn; by rewrite He2|].
      constructor.
    + intros [_ Hnd _ _]. apply NoDup_cons in Hnd as [Hn _]. set_solver.
  - apply (sequential_dedupes nonce (newNonceCache cap)); simpl; [lia| |set_solver].
    apply new_rel. lia.
Qed.

Lemma seen_race_witness :
  (seen "n-1" (seen "n-1" (newNonceCache 10000)).2).1 = true.
Proof. apply (seen_race "n-1" 10000). lia. Defined.

End SeenThreads.
