(* ===== verification/ReportQueue.v ===== *)
(** * internal/receiver: the bounded queue of undelivered reports

    [reportQueue] holds pointers to reports; [clearSent] compares pointers, not
    contents, so an element is a report together with the address it was
    allocated at.  Every operation runs under the queue's mutex and is one
    atomic step; [QueueSystem] interleaves them as the poll loop and the
    command goroutines do. *)

From S2P Require Import Prelude Protocol.
Local Open Scope Z_scope.

Record ReportPtr := mkReportPtr { rp_addr : nat; rp_val : Report }.

#[export] Instance ReportPtr_eq_dec : EqDecision ReportPtr.
Proof. solve_decision. Defined.

Record reportQueue := mkReportQueue { q_cap : Z; q_ll : list ReportPtr }.

Definition newReportQueue (cap : Z) : reportQueue := mkReportQueue cap [].

(** [enqueue] appends, dropping the oldest report when full (the removal of the
    front of an empty list cannot happen: the capacity is positive). *)
Definition enqueue (rep : ReportPtr) (q : reportQueue) : reportQueue :=
  let ll := if q_cap q <=? Z.of_nat (length (q_ll q)) then drop 1 (q_ll q) else q_ll q in
  mkReportQueue (q_cap q) (ll ++ [rep]).

(** [snapshot] returns the queued reports without clearing them. *)
Definition snapshot (q : reportQueue) : list ReportPtr := q_ll q.

(** The loop of [clearSent]: drop the front while it is one of the sent ones. *)
Fixpoint drop_sent (sent : list nat) (ll : list ReportPtr) : list ReportPtr :=
  match ll with
  | [] => []
  | rep :: ll' => if decide (rp_addr rep ∈ sent) then drop_sent sent ll' else ll
  end.

Definition clearSent (sent : list ReportPtr) (q : reportQueue) : reportQueue :=
  mkReportQueue (q_cap q) (drop_sent (rp_addr <$> sent) (q_ll q)).

Definition q_len (q : reportQueue) : Z := Z.of_nat (length (q_ll q)).

(** ** Local behaviour *)

Lemma drop_sent_app sent l1 l2 :
  Forall (fun r => rp_addr r ∈ sent) l1 ->
  Forall (fun r => rp_addr r ∉ sent) l2 ->
  drop_sent sent (l1 ++ l2) = l2.
Proof.
  intros H1 H2. induction H1 as [|r l1 Hr _ IH]; simpl; [|by rewrite decide_True].
  destruct l2 as [|r l2]; [done|]. inversion_clear H2. simpl. by rewrite decide_False.
Qed.

Lemma enqueue_bounded rep q : 0 < q_cap q -> q_len q <= q_cap q -> q_len (enqueue rep q) <= q_cap q.
Proof.
  unfold q_len, enqueue. simpl. intros Hc Hl.
  rewrite length_app. destruct (Z.leb_spec (q_cap q) (Z.of_nat (length (q_ll q))));
    rewrite ?length_drop; simpl; lia.
Qed.

(** A queue fed with [reps] from empty holds the last [cap] of them. *)
Definition enqueue_all (reps : list ReportPtr) (q : reportQueue) : reportQueue :=
  foldl (fun q r => enqueue r q) q reps.

Lemma enqueue_last_n rep q hist :
  0 < q_cap q -> q_ll q = last_n (Z.to_nat (q_cap q)) hist ->
  q_ll (enqueue rep q) = last_n (Z.to_nat (q_cap q)) (hist ++ [rep]).
Proof.
  intros Hc Hq. unfold enqueue. cbn [q_ll]. rewrite last_n_snoc, <- Hq by lia. f_equal.
  destruct (Z.leb_spec (q_cap q) (Z.of_nat (length (q_ll q))));
    destruct (Nat.leb_spec (Z.to_nat (q_cap q)) (length (q_ll q))); lia || done.
Qed.

(** ** The queue shared by the poll loop and the command goroutines *)
Module QueueSystem.

(** Besides the queue, the system records: the snapshot of a poll in flight,
    every report ever enqueued (in order), the reports acknowledged by a
    successful poll, and those pushed out by an overflow. *)
Record system := mkSystem {
  s_queue : reportQueue;
  s_inflight : option (list ReportPtr);
  s_enqueued : list ReportPtr;
  s_acked : list ReportPtr;
  s_dropped : list ReportPtr;
}.

Definition init (cap : Z) : system := mkSystem (newReportQueue cap) None [] [] [].

(** The report an [enqueue] pushes out, if any. *)
Definition overflow (q : reportQueue) : list ReportPtr :=
  if q_cap q <=? Z.of_nat (length (q_ll q)) then take 1 (q_ll q) else [].

Inductive step : system -> system -> Prop :=
(** Any goroutine delivers a freshly allocated report to the queue. *)
| step_enqueue q fl e a d rep :
    rp_addr rep ∉ rp_addr <$> e ->
    step (mkSystem q fl e a d) (mkSystem (enqueue rep q) fl (e ++ [rep]) a (d ++ overflow q))
(** The poll loop takes its snapshot. *)
| step_poll q e a d :
    step (mkSystem q None e a d) (mkSystem q (Some (snapshot q)) e a d)
(** The poll succeeds with ok:true. *)
| step_ack q sent e a d :
    step (mkSystem q (Some sent) e a d) (mkSystem (clearSent sent q) None e (a ++ sent) d)
(** The poll fails, or answers ok:false. *)
| step_fail q sent e a d :
    step (mkSystem q (Some sent) e a d) (mkSystem q None e a d).

(** What left the queue was acknowledged or dropped, in order, and an
    acknowledged report is never queued again. *)
Definition accounted (s : system) : Prop :=
  exists gone, s_enqueued s = gone ++ q_ll (s_queue s) /\
    (forall r, r ∈ gone -> r ∈ s_acked s \/ r ∈ s_dropped s) /\
    (forall r, r ∈ s_acked s -> r ∈ gone).

(** The most recent reports a queue can hold. *)
Definition newest (q : reportQueue) (l : list ReportPtr) : list ReportPtr :=
  last_n (Z.to_nat (q_cap q)) l.

(** A snapshot in flight is a segment of the history, and the queue holds the
    newest of it and of everything enqueued since. *)
Definition flight_ok (s : system) : Prop :=
  forall sent, s_inflight s = Some sent ->
    exists before after, s_enqueued s = before ++ sent ++ after /\
      q_ll (s_queue s) = newest (s_queue s) (sent ++ after).

Record inv (s : system) : Prop := {
  inv_cap : 0 < q_cap (s_queue s);
  inv_len : q_len (s_queue s) <= q_cap (s_queue s);
  inv_nodup : NoDup (rp_addr <$> s_enqueued s);
  inv_accounted : accounted s;
  inv_flight : flight_ok s;
}.

Lemma NoDup_addr_app (l1 l2 : list ReportPtr) :
  NoDup (rp_addr <$> l1 ++ l2) -> Forall (fun r => rp_addr r ∉ rp_addr <$> l1) l2.
Proof.
  rewrite fmap_app. intros (_ & Hd & _)%NoDup_app. apply Forall_forall. intros r Hr Hin.
  apply (Hd _ Hin). by apply list_elem_of_fmap_2.
Qed.

Lemma enqueue_split rep q :
  0 < q_cap q ->
  exists out, out = overflow q /\ q_ll q = out ++ drop (length out) (q_ll q) /\
    q_ll (enqueue rep q) = drop (length out) (q_ll q) ++ [rep].
Proof.
  intros Hc. exists (overflow q). unfold overflow, enqueue. cbn [q_ll].
  destruct (Z.leb_spec (q_cap q) (Z.of_nat (length (q_ll q)))); [|done].
  split; [done|]. destruct (q_ll q) as [|r l]; simpl in *; [lia|done].
Qed.

Lemma enqueue_inv q fl e a d rep :
  inv (mkSystem q fl e a d) -> rp_addr rep ∉ rp_addr <$> e ->
  inv (mkSystem (enqueue rep q) fl (e ++ [rep]) a (d ++ overflow q)).
Proof.
  intros [Hc Hl Hnd (gone & He & Hg & Ha) Hf] Hfresh. cbn [s_queue s_enqueued s_acked s_dropped s_inflight] in *.
  destruct (enqueue_split rep q Hc) as (out & Hout & Hsplit & Henq).
  split; cbn [s_queue s_enqueued s_acked s_dropped s_inflight].
  - done.
  - change (q_cap (enqueue rep q)) with (q_cap q). by apply enqueue_bounded.
  - rewrite fmap_app. apply NoDup_app. split_and!; [done| |apply NoDup_singleton].
    intros x Hx ->%list_elem_of_singleton. done.
  - exists (gone ++ out). cbn [s_queue s_enqueued s_acked s_dropped]. rewrite Henq, He, Hsplit at 1.
    split_and!; [by rewrite <- !app_assoc| |set_solver].
    intros r [Hr|Hr]%elem_of_app; [destruct (Hg r Hr); set_solver|]. rewrite <- Hout. set_solver.
  - intros sent Hs. destruct (Hf sent Hs) as (before & after & He' & Hq).
    cbn [s_queue s_enqueued] in *. exists before, (after ++ [rep]).
    split; [by rewrite He', <- !app_assoc|]. unfold newest in *.
    change (q_cap (enqueue rep q)) with (q_cap q).
    rewrite app_assoc. by apply enqueue_last_n.
Qed.

(** Clearing an acknowledged snapshot keeps the newest of the reports enqueued
    after it was taken. *)
Lemma clearSent_after q before sent after :
  NoDup (rp_addr <$> before ++ sent ++ after) -> q_ll q = newest q (sent ++ after) ->
  q_ll (clearSent sent q) = newest q after.
Proof.
  intros Hnd Hq. unfold clearSent. cbn [q_ll]. unfold newest, last_n in *.
  rewrite Hq, drop_app, length_app.
  replace (length sent + length after - Z.to_nat (q_cap q) - length sent)%nat
    with (length after - Z.to_nat (q_cap q))%nat by lia.
  apply drop_sent_app.
  - apply Forall_forall. intros r Hr. apply list_elem_of_fmap_2.
    eapply subseteq_drop; eauto.
  - rewrite fmap_app in Hnd. apply NoDup_app in Hnd as (_ & _ & Hnd).
    apply NoDup_addr_app in Hnd. by apply Forall_drop.
Qed.

Lemma ack_inv q sent e a d :
  inv (mkSystem q (Some sent) e a d) -> inv (mkSystem (clearSent sent q) None e (a ++ sent) d).
Proof.
  intros [Hc Hl Hnd (gone & He & Hg & Ha) Hf]. cbn [s_queue s_enqueued s_acked s_dropped s_inflight] in *.
  destruct (Hf sent eq_refl) as (before & after & He' & Hq). cbn [s_queue s_enqueued] in *.
  assert (q_ll (clearSent sent q) = newest q after) as Hcl.
  { eapply clearSent_after; [|done]. by rewrite <- He'. }
  set (k := (length (sent ++ after) - Z.to_nat (q_cap q))%nat).
  assert (gone = before ++ take k (sent ++ after)) as Hgone.
  { apply (app_inv_tail (q_ll q)). rewrite <- He, Hq, <- app_assoc. unfold newest, last_n.
    by rewrite take_drop. }
  assert (q_ll q = drop k sent ++ newest q after) as Hq'.
  { rewrite Hq. unfold newest, last_n. rewrite drop_app. do 2 f_equal. rewrite length_app. lia. }
  split; cbn [s_queue s_enqueued s_acked s_dropped s_inflight].
  - done.
  - change (q_cap (clearSent sent q)) with (q_cap q).
    unfold q_len in *. rewrite Hcl. rewrite Hq', length_app in Hl. lia.
  - done.
  - exists (gone ++ drop k sent). cbn [s_queue s_enqueued s_acked s_dropped]. rewrite Hcl. split_and!.
    + by rewrite He, Hq', <- app_assoc.
    + intros r [Hr|Hr]%elem_of_app; [destruct (Hg r Hr); set_solver|].
      left. apply elem_of_app. right. eapply subseteq_drop; eauto.
    + intros r [Hr|Hr]%elem_of_app; [set_solver|]. subst gone.
      rewrite <- (take_drop k sent) in Hr. rewrite take_app. set_solver.
  - intros s' Hs'. done.
Qed.

Lemma step_inv s s' : step s s' -> inv s -> inv s'.
Proof.
  intros Hstep Hinv. destruct Hstep as [q fl e a d rep Hfresh|q e a d|q sent e a d|q sent e a d].
  - by apply enqueue_inv.
  - destruct Hinv as [Hc Hl Hnd Hacc Hf]. split; try done.
    intros sent [= <-]. destruct Hacc as (gone & He & _). cbn in *.
    exists gone, []. rewrite app_nil_r. split; [done|].
    unfold newest. rewrite last_n_all; [done|]. unfold snapshot, q_len in *. cbn in *. lia.
  - by apply ack_inv.
  - destruct Hinv as [Hc Hl Hnd Hacc Hf]. split; try done.
Qed.

Lemma init_inv cap : 0 < cap -> inv (init cap).
Proof.
  intros Hc. split; cbn; [done|unfold q_len; simpl; lia|constructor| |done].
  exists []. split_and!; set_solver.
Qed.

Lemma reachable_inv cap s : 0 < cap -> rtc step (init cap) s -> inv s.
Proof.
  intros Hc Hs. assert (forall a b, rtc step a b -> inv a -> inv b) as H
    by (induction 1; eauto using step_inv).
  eapply H; eauto using init_inv.
Qed.

Lemma reachable_cap cap s : rtc step (init cap) s -> q_cap (s_queue s) = cap.
Proof.
  intros Hs. refine (rtc_ind_r (fun s => q_cap (s_queue s) = cap) (init cap) eq_refl _ s Hs).
  clear s Hs. intros s s' _ Hstep. by destruct Hstep.
Qed.

(** However polls (acknowledged, failed or answered ok:false) and report
    deliveries interleave, the queue never exceeds its capacity, holds a
    suffix of the enqueued reports in order, and every report that left it was
    either sent in an acknowledged poll or pushed out by an overflow;
    acknowledged reports never come back. *)
Theorem queue_no_silent_loss cap s :
  0 < cap -> rtc step (init cap) s ->
  q_len (s_queue s) <= q_cap (s_queue s) /\ accounted s.
Proof. intros Hc Hs. by destruct (reachable_inv cap s Hc Hs). Qed.

(** A successful poll removes exactly the reports it carried: after the
    acknowledgement the queue holds the reports enqueued since the snapshot
    (the newest ones the capacity allows), none of the sent ones. *)
Theorem ack_keeps_new_reports cap s sent :
  0 < cap -> rtc step (init cap) s -> s_inflight s = Some sent ->
  exists before after,
    s_enqueued s = before ++ sent ++ after /\
    q_ll (clearSent sent (s_queue s)) = newest (s_queue s) after.
Proof.
  intros Hc Hs Hfl. destruct (reachable_inv cap s Hc Hs) as [Hcap Hl Hnd Hacc Hf].
  destruct (Hf sent Hfl) as (before & after & He & Hq).
  exists before, after. split; [done|]. eapply clearSent_after; [|done]. by rewrite <- He.
Qed.

(** A poll overtaken by an overflow: three reports through a queue of two. *)
Definition rep (n : nat) (status : string) : ReportPtr :=
  mkReportPtr n (mkReport "" "cmd" status "" "" 0 0).

Definition overtaken : system :=
  mkSystem (mkReportQueue 2 [rep 1 "b"; rep 2 "c"]) (Some [rep 0 "a"; rep 1 "b"])
    [rep 0 "a"; rep 1 "b"; rep 2 "c"] [] [rep 0 "a"].

Lemma overtaken_reachable : rtc step (init 2) overtaken.
Proof.
  eapply rtc_l; [apply (step_enqueue _ _ _ _ _ (rep 0 "a")); set_solver|]. cbn.
  eapply rtc_l; [apply (step_enqueue _ _ _ _ _ (rep 1 "b")); set_solver|]. cbn.
  eapply rtc_l; [apply step_poll|]. cbn.
  eapply rtc_l; [apply (step_enqueue _ _ _ _ _ (rep 2 "c")); set_solver|]. apply rtc_refl.
Defined.

Lemma queue_no_silent_loss_witness : q_len (s_queue overtaken) <= 2 /\ accounted overtaken.
Proof. exact (queue_no_silent_loss 2 overtaken eq_refl overtaken_reachable). Defined.

Lemma ack_keeps_new_reports_witness :
  exists before after, s_enqueued overtaken = before ++ [rep 0 "a"; rep 1 "b"] ++ after /\
    q_ll (clearSent [rep 0 "a"; rep 1 "b"] (s_queue overtaken)) = newest (s_queue overtaken) after.
Proof. exact (ack_keeps_new_reports 2 overtaken _ eq_refl overtaken_reachable eq_refl). Defined.
End QueueSystem.
