(* ===== verification/Receiver.v ===== *)
(** * internal/receiver: command intake and report delivery

    The receiver takes commands from poll responses and from the WebSocket fast
    path, deduplicates and validates them, dispatches the accepted ones to the
    handler (a goroutine each), and delivers reports over the fast path, the
    poll queue, or both.

    Its state is the record [Receiver]: the two replay caches, the report
    queue, the push channel with its own state, the metrics, and the goroutines
    started so far.  Calls to [time.Now] are arguments; a report is allocated
    at a fresh address.  The fast path is any type with a [PushChannel]
    instance, the interface of the same name in the code. *)

From S2P Require Import Prelude GoStrings GoTime Protocol Config Metrics Backoff NonceCache ReportQueue.
Local Open Scope Z_scope.

Definition maxNonces : Z := 10000.
Definition maxIDs : Z := 10000.
Definition maxClockSkew : Z := 5 * Minute.
Definition maxQueuedReports : Z := 1000.
Definition agentVersion : string := "dev".

(** The fast path: whether it is connected, and a send that may fail. *)
Class PushChannel (P : Type) := {
  Connected : P -> bool;
  SendReport : Report -> P -> option string * P;
}.

(** The context a command goroutine runs under. *)
Inductive cmd_ctx := RunCtx | Background.

Record Receiver (P : Type) := mkReceiver {
  r_cfg : Config;
  r_push : option P;
  r_pub : string + string;      (* pubErr on the left, pub on the right *)
  r_nonces : nonceCache;
  r_ids : nonceCache;
  r_queue : reportQueue;
  r_running : bool;             (* runCtx has been stored by Run *)
  r_fresh : nat;                (* next report address *)
  r_metrics : Metrics;
  r_spawned : list (Command * cmd_ctx);  (* go HandleCommand(...) *)
}.
Arguments mkReceiver {P}.
Arguments r_cfg {P} _.
Arguments r_push {P} _.
Arguments r_pub {P} _.
Arguments r_nonces {P} _.
Arguments r_ids {P} _.
Arguments r_queue {P} _.
Arguments r_running {P} _.
Arguments r_fresh {P} _.
Arguments r_metrics {P} _.
Arguments r_spawned {P} _.

Section Receiver.
Context `{Ed25519} {P : Type} `{!PushChannel P}.

Implicit Types r : Receiver P.

Definition New (cfg : Config) (push : option P) : Receiver P :=
  {| r_cfg := cfg; r_push := push; r_pub := PublicKey cfg;
     r_nonces := newNonceCache maxNonces; r_ids := newNonceCache maxIDs;
     r_queue := newReportQueue maxQueuedReports; r_running := false; r_fresh := 0;
     r_metrics := empty_metrics; r_spawned := [] |}.

(** Field updates. *)
Definition set_push r (p : option P) : Receiver P :=
  mkReceiver (r_cfg r) p (r_pub r) (r_nonces r) (r_ids r) (r_queue r) (r_running r) (r_fresh r)
    (r_metrics r) (r_spawned r).
Definition set_nonces r (c : nonceCache) : Receiver P :=
  mkReceiver (r_cfg r) (r_push r) (r_pub r) c (r_ids r) (r_queue r) (r_running r) (r_fresh r)
    (r_metrics r) (r_spawned r).
Definition set_ids r (c : nonceCache) : Receiver P :=
  mkReceiver (r_cfg r) (r_push r) (r_pub r) (r_nonces r) c (r_queue r) (r_running r) (r_fresh r)
    (r_metrics r) (r_spawned r).
Definition set_queue r (q : reportQueue) : Receiver P :=
  mkReceiver (r_cfg r) (r_push r) (r_pub r) (r_nonces r) (r_ids r) q (r_running r) (r_fresh r)
    (r_metrics r) (r_spawned r).
Definition set_running r (b : bool) : Receiver P :=
  mkReceiver (r_cfg r) (r_push r) (r_pub r) (r_nonces r) (r_ids r) (r_queue r) b (r_fresh r)
    (r_metrics r) (r_spawned r).
Definition set_fresh r (n : nat) : Receiver P :=
  mkReceiver (r_cfg r) (r_push r) (r_pub r) (r_nonces r) (r_ids r) (r_queue r) (r_running r) n
    (r_metrics r) (r_spawned r).
Definition set_metrics r (m : Metrics) : Receiver P :=
  mkReceiver (r_cfg r) (r_push r) (r_pub r) (r_nonces r) (r_ids r) (r_queue r) (r_running r)
    (r_fresh r) m (r_spawned r).
Definition set_spawned r (l : list (Command * cmd_ctx)) : Receiver P :=
  mkReceiver (r_cfg r) (r_push r) (r_pub r) (r_nonces r) (r_ids r) (r_queue r) (r_running r)
    (r_fresh r) (r_metrics r) l.

(** [isTerminal]. *)
Definition isTerminal (status : string) : bool :=
  (status =s StatusSucceeded) || (status =s StatusFailed) || (status =s StatusRefused).

(** [commandCtx]. *)
Definition commandCtx r : cmd_ctx := if r_running r then RunCtx else Background.

Definition newReport r (cmd : Command) (status msg : string) (now : Time) : Report :=
  {| Rep_ClusterID := ClusterID (r_cfg r); Rep_CommandID := Cmd_ID cmd; Rep_Status := status;
     Rep_Message := msg; Rep_Diff := ""; Rep_Progress := 0; Rep_Timestamp := ToUnix now |}.

(** [deliverReport]: fast path first; queue when it failed or when the report
    is terminal. *)
Definition deliverReport r (rep : Report) : Receiver P :=
  let ptr := mkReportPtr (r_fresh r) rep in
  let r := set_fresh r (S (r_fresh r)) in
  let '(sent, r) :=
    match r_push r with
    | Some p =>
        if Connected p then
          let '(err, p') := SendReport rep p in
          (match err with None => true | Some _ => false end, set_push r (Some p'))
        else (false, r)
    | None => (false, r)
    end in
  if negb sent || isTerminal (Rep_Status rep) then set_queue r (enqueue ptr (r_queue r)) else r.

(** [validate]: the refusal reason, "" when accepted.  Only an accepted or
    replayed command reaches the nonce cache. *)
Definition validate r (cmd : Command) (now : Time) : string * Receiver P :=
  if negb (WriterEnabled (r_cfg r)) then ("writer disabled (read-only mode)", r)
  else match r_pub r with
  | inl e => ("server public key misconfigured: " ^^ e, r)
  | inr pub =>
      match VerifySignature cmd pub with
      | Some e => (SignatureError_text e, r)
      | None =>
          let skew := Sub now (Unix (Cmd_Timestamp cmd)) in
          if (maxClockSkew <? skew) || (skew <? - maxClockSkew) then
            ("timestamp skew " ^^ Duration_String (RoundSecond skew) ^^ " exceeds "
               ^^ Duration_String maxClockSkew, r)
          else
            let '(dup, nonces) := seen (Cmd_Nonce cmd) (r_nonces r) in
            (if dup : bool then "replayed nonce" else "", set_nonces r nonces)
      end
  end.

(** [process] of one command; [now] is the clock of the skew check and [now']
    that of the report it sends.  A nil command panics on its first field
    access. *)
Definition process r (now now' : Time) (cmd : option Command) : outcome (Receiver P) :=
  match cmd with
  | None => Panic
  | Some cmd =>
      let '(dup, ids) := seen (Cmd_ID cmd) (r_ids r) in
      let r := set_ids r ids in
      if dup : bool then Done r
      else
        let '(reason, r) := validate r cmd now in
        if negb (reason =s "") then
          let r := set_metrics r (IncCommand (Cmd_Verb cmd) "refused" (r_metrics r)) in
          Done (deliverReport r (newReport r cmd StatusRefused reason now'))
        else
          let r := deliverReport r (newReport r cmd StatusReceived "" now') in
          Done (set_spawned r (r_spawned r ++ [(cmd, commandCtx r)]))
  end.

(** The [report] callback [process] hands to the handler: it stamps the report
    and delivers it. *)
Definition stamp_report r (cmd : Command) (now : Time) (rep : Report) : Report :=
  {| Rep_ClusterID := ClusterID (r_cfg r); Rep_CommandID := Cmd_ID cmd;
     Rep_Status := Rep_Status rep; Rep_Message := Rep_Message rep; Rep_Diff := Rep_Diff rep;
     Rep_Progress := Rep_Progress rep; Rep_Timestamp := ToUnix now |}.

Definition report_callback r (cmd : Command) (now : Time) (rep : Report) : Receiver P :=
  deliverReport r (stamp_report r cmd now rep).

(** ** The poll loop *)

(** The outcome of the HTTP poll. *)
Inductive poll_result :=
| PollError (auth : bool)          (* auth: errors.As(err, *AuthError) *)
| PollReply (resp : PollResponse).

(** What [Run] does with one poll: the next sleep, or its end. *)
Inductive run_next := Sleep (d : Z) | Stop.

Fixpoint process_all r (now now' : Time) (cmds : list (option Command)) : outcome (Receiver P) :=
  match cmds with
  | [] => Done r
  | c :: cs => outcome_bind (process r now now' c) (fun r => process_all r now now' cs)
  end.

(** The request of an iteration: the reports queued at that moment. *)
Definition poll_request r : list ReportPtr := snapshot (r_queue r).

(** The part of an iteration after the poll returned: [cancelled] is
    [ctx.Err() != nil], [k] the jitter draw; [sent] are the reports of the
    request. *)
Definition run_after_poll r (bo : backoff) (sent : list ReportPtr) (res : poll_result)
    (cancelled : bool) (k : Z) (now now' : Time) : outcome (Receiver P * backoff * run_next) :=
  match res with
  | PollError auth =>
      if cancelled then Done (r, bo, Stop)
      else
        let bo := if auth then mkBackoff (bo_d bo) true else bo in
        let '(d, bo) := next k bo in
        Done (r, bo, Sleep d)
  | PollReply resp =>
      let bo := reset bo in
      let r := if Resp_OK resp then set_queue r (clearSent sent (r_queue r)) else r in
      outcome_bind (process_all r now now' (Resp_Commands resp))
        (fun r => Done (r, bo, Sleep (PollInterval (r_cfg r))))
  end.

(** ** Validation and dispatch *)

(** The conditions [validate] checks, in the order of the code. *)
Record validated r (cmd : Command) (now : Time) : Prop := {
  v_writer : WriterEnabled (r_cfg r) = true;
  v_signed : exists pub, r_pub r = inr pub /\ VerifySignature cmd pub = None;
  v_skew : - maxClockSkew <= Sub now (Unix (Cmd_Timestamp cmd)) <= maxClockSkew;
  v_nonce : Cmd_Nonce cmd ∉ nc_m (r_nonces r);
}.

Lemma skew_test s :
  ((maxClockSkew <? s) || (s <? - maxClockSkew) = false) <-> - maxClockSkew <= s <= maxClockSkew.
Proof. rewrite orb_false_iff, !Z.ltb_ge. lia. Qed.

Lemma seen_false nonce c : (seen nonce c).1 = false <-> nonce ∉ nc_m c.
Proof. unfold seen. case_decide; split; intros; try done. Qed.

(** [validate] accepts exactly the validated commands, and touches nothing but
    the nonce cache, which records the nonce of an accepted command. *)
Lemma validate_spec r cmd now :
  ((validate r cmd now).1 = "" <-> validated r cmd now) /\
  (validate r cmd now).2 = set_nonces r
     (if decide ((validate r cmd now).1 = "") then (seen (Cmd_Nonce cmd) (r_nonces r)).2 else r_nonces r).
Proof.
  assert (set_nonces r (r_nonces r) = r) as Hid by (by destruct r).
  assert (forall reason : string, (reason =s "") = false -> ~ validated r cmd now ->
    (reason = "" <-> validated r cmd now) /\
    r = set_nonces r (if decide (reason = "") then (seen (Cmd_Nonce cmd) (r_nonces r)).2 else r_nonces r)) as Hrefuse.
  { intros reason Hne Hnv. apply string_eqb_false in Hne. rewrite decide_False by done. split; [tauto|done]. }
  unfold validate. destruct (WriterEnabled (r_cfg r)) eqn:Hw; cbn [negb];
    [|apply Hrefuse; [done|intros []; congruence]].
  destruct (r_pub r) as [e|pub] eqn:Hp;
    [apply Hrefuse; [done|intros [_ (? & ? & ?) _ _]; congruence]|].
  destruct (VerifySignature cmd pub) as [e|] eqn:Hv;
    [apply Hrefuse; [by destruct e|intros [_ (? & ? & ?) _ _]; congruence]|].
  destruct (_ || _) eqn:Hs;
    [apply Hrefuse; [done|intros [_ _ Hsk _]; apply skew_test in Hsk; congruence]|].
  apply skew_test in Hs. pose proof (seen_false (Cmd_Nonce cmd) (r_nonces r)) as Hn.
  destruct (seen (Cmd_Nonce cmd) (r_nonces r)) as [[] nonces] eqn:Hseen; cbn [fst snd] in *.
  - rewrite decide_False by done. split; [split; [done|intros [_ _ _ Hno]]|].
    + by apply Hn in Hno.
    + f_equal. unfold seen in Hseen. case_decide; by simplify_eq.
  - rewrite decide_True by done. split; [|done]. split; [|done]. intros _.
    split; [done|by eauto|done|by apply Hn].
Qed.

(** The ID cache has no part in it. *)
Lemma validate_reason_ids r ids cmd now : (validate r cmd now).1 = (validate (set_ids r ids) cmd now).1.
Proof.
  unfold validate. cbn [set_ids r_cfg r_pub r_nonces]. repeat (case_match; try done).
Qed.

Lemma accepted_fresh r cmd now r' : validate r cmd now = ("", r') -> Cmd_Nonce cmd ∉ nc_m (r_nonces r).
Proof. intros Hv. destruct (validate_spec r cmd now) as [Hiff _]. rewrite Hv in Hiff. by destruct Hiff as [[] _]. Qed.

(** What a dispatch, a refusal and a duplicate leave unchanged. *)
Lemma deliverReport_frame r rep :
  r_cfg (deliverReport r rep) = r_cfg r /\ r_pub (deliverReport r rep) = r_pub r /\
  r_nonces (deliverReport r rep) = r_nonces r /\ r_ids (deliverReport r rep) = r_ids r /\
  r_spawned (deliverReport r rep) = r_spawned r /\ r_metrics (deliverReport r rep) = r_metrics r /\
  r_running (deliverReport r rep) = r_running r.
Proof.
  unfold deliverReport. cbn [set_fresh r_push].
  destruct (r_push r) as [p|]; [destruct (Connected p); [destruct (SendReport rep p) as [[]]|]|];
    cbn [negb orb]; try destruct (isTerminal _); done.
Qed.

(** What the fast path makes of a report offered to it: whether it took it, and
    its state afterwards.  It is offered only when it is connected. *)
Definition offer (rep : Report) (push : option P) : bool * option P :=
  match push with
  | None => (false, None)
  | Some p => if Connected p then (bool_decide ((SendReport rep p).1 = None), Some (SendReport rep p).2) else (false, Some p)
  end.

(** A report has left the receiver once: the fast path was offered it, and it is
    the newest entry of the queue unless it was taken and is not terminal; the rest
    of the queue is as before, less the oldest reports when it was full. *)
Definition delivered r r' (rep : Report) : Prop :=
  let taken := (offer rep (r_push r)).1 in
  r_push r' = (offer rep (r_push r)).2 /\
  (taken = true /\ isTerminal (Rep_Status rep) = false -> r_queue r' = r_queue r) /\
  (taken = false \/ isTerminal (Rep_Status rep) = true ->
     exists out kept, q_ll (r_queue r) = out ++ kept /\ q_ll (r_queue r') = kept ++ [mkReportPtr (r_fresh r) rep] /\
       (out <> [] -> q_cap (r_queue r) <= q_len (r_queue r))).

Lemma deliverReport_delivered r rep : delivered r (deliverReport r rep) rep.
Proof.
  assert (exists out kept, q_ll (r_queue r) = out ++ kept /\
    q_ll (enqueue (mkReportPtr (r_fresh r) rep) (r_queue r)) = kept ++ [mkReportPtr (r_fresh r) rep] /\
    (out <> [] -> q_cap (r_queue r) <= q_len (r_queue r))) as Henq.
  { unfold enqueue, q_len. cbn [q_ll]. destruct (Z.leb_spec (q_cap (r_queue r)) (Z.of_nat (length (q_ll (r_queue r))))).
    - exists (take 1 (q_ll (r_queue r))), (drop 1 (q_ll (r_queue r))). by rewrite take_drop.
    - by exists [], (q_ll (r_queue r)). }
  unfold delivered, deliverReport, offer. cbn [set_fresh r_push r_queue].
  destruct (r_push r) as [p|] eqn:Hp; [destruct (Connected p); [destruct (SendReport rep p) as [[e|] p']|]|];
    cbn [fst snd]; rewrite ?bool_decide_true, ?bool_decide_false by done; cbn [negb orb];
    try destruct (isTerminal (Rep_Status rep)); cbn [set_queue set_push set_fresh r_push r_queue];
    (split; [done|split; [naive_solver|intros; done || naive_solver]]).
Qed.

(** C32. [process] dispatches a command exactly when its ID is new to the dedupe
    cache, the writer is enabled, the server key is usable, the signature
    verifies, the timestamp is within five minutes of the clock and the nonce
    is new, and reports it received; a duplicate ID is dropped without report or
    metric; anything else starts nothing, increments the refused counter and
    reports the refusal with the reason [validate] gives.  Each report carries the
    command's ID and the cluster and is delivered once: offered to a connected fast
    path, and queued unless that took a receipt. *)
Theorem process_dispatches_iff_validated r now now' cmd :
  exists r', process r now now' (Some cmd) = Done r' /\
    let fresh := Cmd_ID cmd ∉ nc_m (r_ids r) in
    (fresh /\ validated r cmd now -> r_spawned r' = r_spawned r ++ [(cmd, commandCtx r)] /\
       r_metrics r' = r_metrics r /\
       delivered r r' (mkReport (ClusterID (r_cfg r)) (Cmd_ID cmd) StatusReceived "" "" 0 (ToUnix now'))) /\
    (fresh /\ ~ validated r cmd now -> r_spawned r' = r_spawned r /\
       r_metrics r' = IncCommand (Cmd_Verb cmd) "refused" (r_metrics r) /\
       let reason := (validate r cmd now).1 in
       reason <> "" /\
       delivered r r' (mkReport (ClusterID (r_cfg r)) (Cmd_ID cmd) StatusRefused reason "" 0 (ToUnix now'))) /\
    (~ fresh -> r_spawned r' = r_spawned r /\ r_metrics r' = r_metrics r /\ r_queue r' = r_queue r /\ r_push r' = r_push r).
Proof.
  unfold process. pose proof (seen_false (Cmd_ID cmd) (r_ids r)) as Hid.
  destruct (seen (Cmd_ID cmd) (r_ids r)) as [[] ids]; cbn [fst] in Hid.
  { eexists. split; [done|]. cbn. split_and!; [intros [Hf%Hid _]; done..|done]. }
  assert (validated (set_ids r ids) cmd now <-> validated r cmd now) as Hval
    by (split; intros []; by split).
  assert ((validate r cmd now).1 = (validate (set_ids r ids) cmd now).1) as -> by apply validate_reason_ids.
  destruct (validate_spec (set_ids r ids) cmd now) as [Hiff Hst].
  destruct (validate (set_ids r ids) cmd now) as [reason r2]. cbn [fst snd] in *.
  rewrite Hval in Hiff.
  destruct (reason =s "") eqn:Hr; cbn [negb]; bool_to_prop.
  - eexists. split; [done|]. cbn [set_spawned r_spawned r_metrics r_queue].
    pose proof (deliverReport_delivered r2 (newReport r2 cmd StatusReceived "" now')) as Hdel.
    destruct (deliverReport_frame r2 (newReport r2 cmd StatusReceived "" now')) as (_&_&_&_&->&->&Hrun).
    unfold commandCtx. rewrite Hrun. subst r2. split_and!; [intros _; split_and!; [done..|exact Hdel]|tauto|tauto].
  - eexists. split; [done|].
    set (r3 := set_metrics r2 (IncCommand (Cmd_Verb cmd) "refused" (r_metrics r2))).
    pose proof (deliverReport_delivered r3 (newReport r3 cmd StatusRefused reason now')) as Hdel.
    destruct (deliverReport_frame r3 (newReport r3 cmd StatusRefused reason now')) as (_&_&_&_&->&->&_).
    subst r3 r2. split_and!; [tauto|intros _; split_and!; [done..|exact Hdel]|tauto].
Qed.

(** [process] never fails on a command that is not nil. *)
Lemma process_total r now now' cmd : exists r', process r now now' (Some cmd) = Done r'.
Proof.
  unfold process. destruct (seen _ _) as [[] ?]; [by eexists|].
  destruct (validate _ _ _) as [reason r2]. destruct (negb _); by eexists.
Qed.

(** A fresh and validated command is dispatched, and recorded in both caches. *)
Lemma process_fresh r now now' cmd :
  Cmd_ID cmd ∉ nc_m (r_ids r) -> validated r cmd now ->
  exists r', process r now now' (Some cmd) = Done r' /\
    r_spawned r' = r_spawned r ++ [(cmd, commandCtx r)] /\ r_cfg r' = r_cfg r /\ r_pub r' = r_pub r /\
    r_running r' = r_running r /\ r_metrics r' = r_metrics r /\
    r_nonces r' = (seen (Cmd_Nonce cmd) (r_nonces r)).2 /\ r_ids r' = (seen (Cmd_ID cmd) (r_ids r)).2.
Proof.
  intros Hid Hval. unfold process. apply seen_false in Hid.
  destruct (seen (Cmd_ID cmd) (r_ids r)) as [dup ids]. cbn [fst snd] in *. subst dup.
  assert (validated (set_ids r ids) cmd now) as Hval' by (destruct Hval; by split).
  destruct (validate_spec (set_ids r ids) cmd now) as [Hiff Hst].
  destruct (validate (set_ids r ids) cmd now) as [reason r2]. cbn [fst snd] in Hiff, Hst.
  apply Hiff in Hval'. subst reason. rewrite decide_True in Hst by done. cbn [String.eqb negb].
  eexists. split; [done|].
  destruct (deliverReport_frame r2 (newReport r2 cmd StatusReceived "" now')) as (E1&E2&E3&E4&E5&E6&E7).
  unfold commandCtx. cbn [set_spawned r_spawned r_cfg r_pub r_running r_metrics r_nonces r_ids].
  rewrite E1, E2, E3, E4, E5, E6, E7, Hst. by split_and!.
Qed.

(** A cache only learns the key it was asked about. *)
Lemma seen_grows k x c : x ∈ nc_m (seen k c).2 -> x = k \/ x ∈ nc_m c.
Proof. unfold seen, evict. repeat (case_decide || case_match); cbn; set_solver. Qed.

(** What [validate] checks of a command, apart from the nonce. *)
Definition acceptable r (now : Time) (cmd : Command) : Prop :=
  WriterEnabled (r_cfg r) = true /\ (exists pub, r_pub r = inr pub /\ VerifySignature cmd pub = None) /\
  - maxClockSkew <= Sub now (Unix (Cmd_Timestamp cmd)) <= maxClockSkew.

(** Fresh commands with different IDs and nonces are all dispatched, in order. *)
Lemma process_all_fresh now now' cmds r :
  NoDup (Cmd_ID <$> cmds) -> NoDup (Cmd_Nonce <$> cmds) ->
  Forall (fun c => acceptable r now c /\ (Cmd_ID c ∉ nc_m (r_ids r)) /\ (Cmd_Nonce c ∉ nc_m (r_nonces r))) cmds ->
  exists r', process_all r now now' (Some <$> cmds) = Done r' /\
    r_spawned r' = r_spawned r ++ ((fun c => (c, commandCtx r)) <$> cmds) /\
    r_cfg r' = r_cfg r /\ r_metrics r' = r_metrics r.
Proof.
  revert r. induction cmds as [|c cmds IH]; intros r Hids Hnon Hall.
  { exists r. cbn. by rewrite app_nil_r. }
  cbn in Hids, Hnon. apply NoDup_cons in Hids as [Hid Hids]. apply NoDup_cons in Hnon as [Hno Hnon].
  apply Forall_cons in Hall as [((Hw & Hsig & Hsk) & Hfi & Hfn) Hall].
  destruct (process_fresh r now now' c) as (r1 & Hp & Hsp & Hcfg & Hpub & Hrun & Hm & Hn1 & Hi1); [done|by split|].
  destruct (IH r1) as (r' & Hpa & Hsp' & Hcfg' & Hm'); [done|done| |].
  - apply Forall_forall. intros d Hd. rewrite Forall_forall in Hall.
    destruct (Hall d Hd) as ((Hdw & Hds & Hdk) & Hdi & Hdn). unfold acceptable. rewrite Hcfg, Hpub, Hn1, Hi1.
    split; [exact (conj Hdw (conj Hds Hdk))|split].
    + intros [Heq|Hin]%seen_grows; [|done]. apply Hid, list_elem_of_fmap. by exists d.
    + intros [Heq|Hin]%seen_grows; [|done]. apply Hno, list_elem_of_fmap. by exists d.
  - exists r'. cbn [fmap list_fmap process_all]. rewrite Hp. cbn [outcome_bind].
    split; [done|]. rewrite Hsp', Hsp, <- app_assoc, Hcfg', Hm'. unfold commandCtx. rewrite Hrun. by split_and!.
Qed.

(** The timestamp window is exact: for any [int64] timestamp and any sane
    clock the skew test of [validate] passes exactly when the true difference
    between clock and timestamp is at most five minutes either way, in spite
    of the wrap-around in [time.Unix] and the saturation of [Sub]. *)
Theorem timestamp_window_exact now cmd :
  sane now -> in_int64 (Cmd_Timestamp cmd) ->
  (- maxClockSkew <= Sub now (Unix (Cmd_Timestamp cmd)) <= maxClockSkew <->
   - maxClockSkew <= instant now - (Cmd_Timestamp cmd + unixToInternal) * Second <= maxClockSkew).
Proof. intros Hs Ht. apply Since_Unix_window; [done..|]. unfold maxClockSkew, Hour, Minute, Second. lia. Qed.

(** No report is lost on delivery: a terminal report is always the newest
    entry of the poll queue, and any other report is either queued the same
    way or was accepted by a connected fast path. *)
Theorem deliver_report_reaches_a_path r rep :
  (exists ll, q_ll (r_queue (deliverReport r rep)) = ll ++ [mkReportPtr (r_fresh r) rep]) \/
  (isTerminal (Rep_Status rep) = false /\ r_queue (deliverReport r rep) = r_queue r /\
   exists p, r_push r = Some p /\ Connected p = true /\ (SendReport rep p).1 = None).
Proof.
  unfold deliverReport. cbn [set_fresh r_push r_queue].
  destruct (r_push r) as [p|]; [|left; by eexists].
  destruct (Connected p) eqn:Hc; [|left; by eexists].
  destruct (SendReport rep p) as [[e|] p'] eqn:Hs; cbn [negb orb]; [left; by eexists|].
  destruct (isTerminal (Rep_Status rep)) eqn:Ht; [left; by eexists|].
  right. split_and!; [done|done|]. exists p. by rewrite Hs.
Qed.

(** ** Every run of the receiver *)

(** The steps that change the receiver: [Run] starting, a command processed
    (from a poll reply or the fast path), a report of a dispatched command, and
    an acknowledged poll. *)
Inductive rstep : Receiver P -> Receiver P -> Prop :=
| rs_run r : rstep r (set_running r true)
| rs_process r now now' cmd r' : process r now now' cmd = Done r' -> rstep r r'
| rs_report r cmd ctx now rep : (cmd, ctx) ∈ r_spawned r -> rstep r (report_callback r cmd now rep)
| rs_ack r sent : rstep r (set_queue r (clearSent sent (r_queue r))).

Definition reachable (cfg : Config) (push : option P) : Receiver P -> Prop :=
  rtc rstep (New cfg push).

(** The nonces of the dispatched commands, oldest first. *)
Definition dispatched_nonces r : list string := (Cmd_Nonce ∘ fst) <$> r_spawned r.

Record recv_inv (cfg : Config) r : Prop := {
  ri_cfg : r_cfg r = cfg;
  ri_pub : r_pub r = PublicKey cfg;
  ri_cap : nc_cap (r_nonces r) = maxNonces;
  ri_nonces : nc_rel (r_nonces r) (dispatched_nonces r);
  ri_window : window_distinct maxNonces (dispatched_nonces r);
  ri_signed : Forall (fun s => WriterEnabled cfg = true /\
    exists pub, PublicKey cfg = inr pub /\ VerifySignature s.1 pub = None) (r_spawned r);
}.

(** A state that differs only in queue, push channel, metrics, addresses, ID
    cache or the running flag. *)
Lemma recv_inv_frame cfg r r' :
  r_cfg r' = r_cfg r -> r_pub r' = r_pub r -> r_nonces r' = r_nonces r ->
  r_spawned r' = r_spawned r -> recv_inv cfg r -> recv_inv cfg r'.
Proof.
  intros Hc Hp Hn Hs [H1 H2 H3 H4 H5 H6]. unfold dispatched_nonces in *.
  split; unfold dispatched_nonces; rewrite ?Hc, ?Hp, ?Hn, ?Hs; done.
Qed.

Lemma recv_inv_deliver cfg r rep : recv_inv cfg r -> recv_inv cfg (deliverReport r rep).
Proof. destruct (deliverReport_frame r rep) as (?&?&?&?&?&?&?). intros. by apply (recv_inv_frame cfg r). Qed.

(** Accepting a validated command extends the dispatch history by its nonce. *)
Lemma recv_inv_spawn cfg r cmd now ctx :
  recv_inv cfg r -> validated r cmd now ->
  recv_inv cfg (set_spawned (set_nonces r (seen (Cmd_Nonce cmd) (r_nonces r)).2)
                  (r_spawned r ++ [(cmd, ctx)])).
Proof.
  intros [Hcfg Hpub Hcap Hrel Hwin Hsig] [Hw (pub & Hp & Hv) _ Hnonce].
  pose proof (seen_rel _ _ (Cmd_Nonce cmd) Hrel) as Href.
  destruct Hrel as [Hinv Hll]. apply (seen_false (Cmd_Nonce cmd)) in Hnonce as Hfalse.
  rewrite (nc_dom _ Hinv), Hll in Hnonce.
  unfold seen_spec in Href. rewrite decide_False in Href by done.
  destruct (seen (Cmd_Nonce cmd) (r_nonces r)) as [b nonces]. destruct Href as (_ & Hcap' & Hrel').
  split; unfold dispatched_nonces; cbn [set_spawned set_nonces r_cfg r_pub r_nonces r_spawned snd].
  - done.
  - done.
  - by rewrite Hcap'.
  - rewrite fmap_app. done.
  - rewrite fmap_app. apply window_distinct_snoc; [done..|]. by rewrite <- Hcap.
  - apply Forall_app. split; [done|]. constructor; [|done]. rewrite <- Hcfg at 1.
    split; [done|]. exists pub. by rewrite <- Hpub.
Qed.

Lemma recv_inv_process cfg r now now' cmd r' :
  recv_inv cfg r -> process r now now' cmd = Done r' -> recv_inv cfg r'.
Proof.
  intros Hinv. unfold process. destruct cmd as [cmd|]; [|done].
  destruct (seen (Cmd_ID cmd) (r_ids r)) as [dup ids].
  assert (recv_inv cfg (set_ids r ids)) as Hi by (by apply (recv_inv_frame cfg r)).
  destruct dup; [by intros [= <-]|].
  destruct (validate_spec (set_ids r ids) cmd now) as [Hiff Hst].
  destruct (validate (set_ids r ids) cmd now) as [reason r2]. cbn [fst snd] in Hiff, Hst.
  destruct (reason =s "") eqn:Hr; cbn [negb]; bool_to_prop; intros [= <-].
  - subst reason. rewrite decide_True in Hst by done.
    pose proof (recv_inv_spawn cfg _ cmd now
      (commandCtx (deliverReport r2 (newReport r2 cmd StatusReceived "" now'))) Hi
      (proj1 Hiff eq_refl)) as Hsp.
    destruct (deliverReport_frame r2 (newReport r2 cmd StatusReceived "" now')) as (E1&E2&E3&_&E5&_&_).
    eapply recv_inv_frame, Hsp; cbn [set_spawned set_nonces r_cfg r_pub r_nonces r_spawned];
      rewrite ?E1, ?E2, ?E3, ?E5, ?Hst; done.
  - rewrite decide_False in Hst by done. apply recv_inv_deliver.
    eapply recv_inv_frame, Hi; rewrite Hst; done.
Qed.

Lemma reachable_recv_inv cfg push r : reachable cfg push r -> recv_inv cfg r.
Proof.
  assert (forall a b, rtc rstep a b -> recv_inv cfg a -> recv_inv cfg b) as Hstep.
  { induction 1 as [|a b c Hab _ IH]; [done|]. intros Ha. apply IH.
    destruct Hab as [r0|r0 now now' cmd r' Hp|r0 cmd ctx now rep _|r0 sent];
      [by apply (recv_inv_frame cfg r0)|by eapply recv_inv_process|by apply recv_inv_deliver
      |by apply (recv_inv_frame cfg r0)]. }
  intros Hr. eapply Hstep; [done|].
  split; cbn; [done|done|done|by apply new_rel|apply window_distinct_nil|constructor].
Qed.

(** Nothing unsigned ever runs: in every reachable state of the receiver,
    every command handed to the handler carries a signature that verifies
    under the configured server key, and the writer is enabled; in read-only
    mode, or with an undecodable key, nothing has been dispatched at all. *)
Theorem only_signed_commands_run cfg push r cmd ctx :
  reachable cfg push r -> (cmd, ctx) ∈ r_spawned r ->
  WriterEnabled cfg = true /\ exists pub, PublicKey cfg = inr pub /\ VerifySignature cmd pub = None.
Proof.
  intros Hr Hin. destruct (reachable_recv_inv _ _ _ Hr) as [_ _ _ _ _ Hs].
  rewrite Forall_forall in Hs. apply (Hs _ Hin).
Qed.

(** Replay protection: in every reachable state, two commands dispatched
    within a window of [maxNonces] = 10000 dispatches have different nonces. *)
Theorem no_replay_within_window cfg push r i j c1 c2 k1 k2 :
  reachable cfg push r -> (i < j)%nat -> Z.of_nat j - Z.of_nat i <= maxNonces ->
  r_spawned r !! i = Some (c1, k1) -> r_spawned r !! j = Some (c2, k2) ->
  Cmd_Nonce c1 <> Cmd_Nonce c2.
Proof.
  intros Hr Hij Hd Hi Hj Heq. destruct (reachable_recv_inv _ _ _ Hr) as [_ _ _ _ Hwin _].
  assert (maxNonces < Z.of_nat j - Z.of_nat i); [|lia].
  apply (Hwin i j (Cmd_Nonce c1) Hij); unfold dispatched_nonces; rewrite list_lookup_fmap.
  - by rewrite Hi.
  - by rewrite Hj, Heq.
Qed.

End Receiver.

(** ** A concrete receiver

    No fast path ([Empty_set] has no channel), the toy signature scheme, and a
    clock in November 2023. *)
Module ReceiverExample.

#[local] Instance no_push : PushChannel Empty_set := {
  Connected p := match p with end;
  SendReport _ p := match p with end;
}.

(** A push channel over which commands come but no report goes. *)
#[local] Instance half_open : PushChannel unit := {
  Connected _ := true;
  SendReport _ p := (Some "write report: broken pipe", p);
}.

#[local] Existing Instance ToyEd25519.toy.

Definition clock (sec : Z) : Time := mkTime (sec + unixToInternal) 0.

(** A signed command with the given ID and nonce. *)
Definition command (id nonce : string) : Command :=
  Sign {| Cmd_ID := id; Cmd_Nonce := nonce; Cmd_Timestamp := 1700000000; Cmd_Verb := VerbDelete;
          Cmd_Target := mkResourceRef "apps" "v1" "deployments" "kube-system" "coredns";
          Cmd_Payload := ""; Cmd_PatchType := ""; Cmd_Helm := None; Cmd_ExpectedHash := "";
          Cmd_Override := false; Cmd_Signature := "" |} sample_key.

Definition start : Receiver Empty_set := New sample_config None.

Definition deliver (r : Receiver Empty_set) (cmd : Command) : Receiver Empty_set :=
  match process r (clock 1700000100) (clock 1700000100) (Some cmd) with Done r' => r' | Panic => r end.

Definition after_two : Receiver Empty_set :=
  deliver (deliver start (command "cmd-1" "n-1")) (command "cmd-2" "n-2").

Lemma deliver_step r cmd : rstep r (deliver r cmd).
Proof.
  unfold deliver.
  destruct (process_total r (clock 1700000100) (clock 1700000100) cmd) as [r' Hr'].
  rewrite Hr'. by eapply rs_process.
Qed.

Lemma after_two_reachable : reachable sample_config None after_two.
Proof. eapply rtc_l; [apply deliver_step|]. eapply rtc_l; [apply deliver_step|]. apply rtc_refl. Qed.

(** Both commands run; a second delivery of the first does nothing, the same
    nonce under a new ID is refused, and so is an old timestamp. *)
Example after_two_dispatched :
  fst <$> r_spawned after_two = [command "cmd-1" "n-1"; command "cmd-2" "n-2"].
Proof. vm_compute. reflexivity. Qed.

Example replay_refused :
  match process_all after_two (clock 1700000100) (clock 1700000100)
          [Some (command "cmd-1" "n-1"); Some (command "cmd-3" "n-1")] with
  | Done r => (fst <$> r_spawned r, (Rep_Message ∘ rp_val) <$> q_ll (r_queue r))
  | Panic => ([], [])
  end = ([command "cmd-1" "n-1"; command "cmd-2" "n-2"], [""; ""; "replayed nonce"]).
Proof. vm_compute. reflexivity. Qed.

Example old_command_refused :
  match process start (clock 1700000301) (clock 1700000301) (Some (command "cmd-1" "n-1")) with
  | Done r => (Rep_Message ∘ rp_val) <$> q_ll (r_queue r)
  | Panic => []
  end = ["timestamp skew 5m1s exceeds 5m0s"].
Proof. vm_compute. reflexivity. Qed.

Lemma timestamp_window_exact_witness :
  - maxClockSkew <= Sub (clock 1700000300) (Unix (Cmd_Timestamp (command "a" "b"))) <= maxClockSkew.
Proof.
  apply (timestamp_window_exact (clock 1700000300) (command "a" "b"));
    [split; split; vm_compute; (discriminate || reflexivity) | split; discriminate | vm_compute; split; discriminate].
Defined.

Lemma only_signed_commands_run_witness :
  WriterEnabled sample_config = true /\
  exists pub, PublicKey sample_config = inr pub /\ VerifySignature (command "cmd-2" "n-2") pub = None.
Proof.
  apply (only_signed_commands_run sample_config None after_two (command "cmd-2" "n-2") Background
    after_two_reachable).
  apply list_elem_of_In. vm_compute. right. left. reflexivity.
Defined.

Lemma no_replay_within_window_witness :
  Cmd_Nonce (command "cmd-1" "n-1") <> Cmd_Nonce (command "cmd-2" "n-2").
Proof.
  apply (no_replay_within_window sample_config None after_two 0 1 (command "cmd-1" "n-1")
    (command "cmd-2" "n-2") Background Background after_two_reachable);
    [lia|vm_compute; discriminate|vm_compute; reflexivity|vm_compute; reflexivity].
Defined.
End ReceiverExample.
