(* ===== verification/Goroutines.v ===== *)
(** * internal/receiver: its goroutines

    [Receiver] has one definition per method; here the methods run as goroutines.
    A goroutine is the list of critical sections it has still to pass: the lookup
    in the ID cache, the validation with its nonce lookup, the allocation of a
    report, the fast path, the report queue, and the start of the handler.  Poll
    loop, WebSocket read loop and command goroutines take such steps in any order.
    A lookup in a replay cache is one step; the code does not hold a lock there, so
    this is a restriction of the scheduler when both loops take commands.  [Races]
    takes the lookups apart. *)

From S2P Require Import Prelude GoStrings GoTime Protocol Config Metrics Backoff NonceCache ReportQueue Receiver.
Local Open Scope Z_scope.

Section Goroutines.
Context `{Ed25519} {P : Type} `{!PushChannel P}.
Implicit Types r : Receiver P.

(** ** Critical sections *)

Inductive op :=
| OpSeenID (cmd : Command)
| OpValidate (cmd : Command)
| OpReport (cmd : Command) (status msg : string)
| OpSend (ptr : ReportPtr)
| OpEnqueue (ptr : ReportPtr)
| OpSpawn (cmd : Command).

(** A report gets an address. *)
Definition allocate r (rep : Report) : ReportPtr * Receiver P :=
  (mkReportPtr (r_fresh r) rep, set_fresh r (S (r_fresh r))).

(** The fast path takes a report, or does not. *)
Definition try_push (ptr : ReportPtr) r : bool * Receiver P :=
  match r_push r with
  | Some p =>
      if Connected p then
        let '(err, p') := SendReport (rp_val ptr) p in
        (match err with None => true | Some _ => false end, set_push r (Some p'))
      else (false, r)
  | None => (false, r)
  end.

(** One critical section: what the goroutine does next, and the shared state. *)
Definition exec_op (o : op) (now : Time) r : list op * Receiver P :=
  match o with
  | OpSeenID cmd =>
      let '(dup, ids) := seen (Cmd_ID cmd) (r_ids r) in
      (if dup : bool then [] else [OpValidate cmd], set_ids r ids)
  | OpValidate cmd =>
      let '(reason, r) := validate r cmd now in
      if negb (reason =s "") then
        ([OpReport cmd StatusRefused reason], set_metrics r (IncCommand (Cmd_Verb cmd) "refused" (r_metrics r)))
      else ([OpReport cmd StatusReceived ""; OpSpawn cmd], r)
  | OpReport cmd status msg =>
      let '(ptr, r) := allocate r (newReport r cmd status msg now) in ([OpSend ptr], r)
  | OpSend ptr =>
      let '(sent, r) := try_push ptr r in
      (if negb sent || isTerminal (Rep_Status (rp_val ptr)) then [OpEnqueue ptr] else [], r)
  | OpEnqueue ptr => ([], set_queue r (enqueue ptr (r_queue r)))
  | OpSpawn cmd => ([], set_spawned r (r_spawned r ++ [(cmd, commandCtx r)]))
  end.

Lemma try_push_frame ptr r : exists p, (try_push ptr r).2 = set_push r p.
Proof.
  unfold try_push. assert (set_push r (r_push r) = r) as Hid by (by destruct r).
  destruct (r_push r) as [p|] eqn:Hp; [destruct (Connected p); [destruct (SendReport (rp_val ptr) p) as [e p']|]|];
    cbn; by eexists.
Qed.

(** A goroutine that is never interrupted. *)
Fixpoint run_ops (fuel : nat) (clk : op -> Time) (ops : list op) r : option (Receiver P) :=
  match ops, fuel with
  | [], _ => Some r
  | _, O => None
  | o :: ops, S f => let '(new, r) := exec_op o (clk o) r in run_ops f clk (new ++ ops) r
  end.

Lemma run_ops_cons f clk o ops r :
  run_ops (S f) clk (o :: ops) r = let '(new, r) := exec_op o (clk o) r in run_ops f clk (new ++ ops) r.
Proof. done. Qed.

(** The clocks of [process]: one for the validation, one for the report. *)
Definition process_clock (now now' : Time) (o : op) : Time :=
  match o with OpValidate _ => now | _ => now' end.

(** Delivering a report is its last two sections, or one when it went out over the
    fast path. *)
Lemma deliver_ops f clk r rep ops :
  exists f', (f <= f')%nat /\
    run_ops (S (S f)) clk (OpSend (allocate r rep).1 :: ops) (allocate r rep).2
    = run_ops f' clk ops (deliverReport r rep).
Proof.
  unfold deliverReport, allocate. cbn [fst snd run_ops exec_op]. unfold try_push. cbn [rp_val set_fresh r_push].
  destruct (match r_push r with Some p => _ | None => _ end) as [sent r1].
  destruct (negb sent || isTerminal (Rep_Status rep)); [exists f|exists (S f)]; (split; [lia|done]).
Qed.

(** The critical sections are the methods: an uninterrupted goroutine that
    starts at the ID lookup of a command ends, after at most seven sections, in
    exactly the state of the method [process]. *)
Theorem process_is_its_sections r now now' cmd r' :
  process r now now' (Some cmd) = Done r' ->
  run_ops 7 (process_clock now now') [OpSeenID cmd] r = Some r'.
Proof.
  unfold process. intros Hp. rewrite run_ops_cons. cbn [exec_op].
  destruct (seen (Cmd_ID cmd) (r_ids r)) as [[] ids]; [by simplify_eq|].
  cbn [app]. rewrite run_ops_cons. cbn [exec_op process_clock].
  destruct (validate (set_ids r ids) cmd now) as [reason r2].
  destruct (negb (reason =s "")); cbn [app]; rewrite run_ops_cons; cbn [exec_op process_clock]; simplify_eq.
  - set (r3 := set_metrics r2 _). set (rep := newReport _ _ _ _ _).
    destruct (deliver_ops 2 (process_clock now now') r3 rep []) as (f' & Hf & Hd).
    unfold allocate in *. cbn [fst snd app] in *. rewrite Hd. by destruct f'.
  - set (rep := newReport _ _ _ _ _).
    destruct (deliver_ops 2 (process_clock now now') r2 rep [OpSpawn cmd]) as (f' & Hf & Hd).
    unfold allocate in *. cbn [fst snd app] in *. rewrite Hd. destruct f' as [|f']; [lia|].
    rewrite run_ops_cons. cbn [exec_op app]. by destruct f'.
Qed.

(** ** What is recorded about a run *)

(** Commands the loops took, those of them whose ID was new, and those that
    passed validation, in order; reports allocated, accepted by the fast path, enqueued, pushed out by an
    overflow, and acknowledged. *)
Record hist := mkHist {
  h_taken : list Command;
  h_ids : list Command;
  h_val : list Command;
  h_made : list ReportPtr;
  h_fast : list ReportPtr;
  h_enq : list ReportPtr;
  h_drop : list ReportPtr;
  h_ack : list ReportPtr;
}.

Definition empty_hist : hist := mkHist [] [] [] [] [] [] [] [].

Definition note_made (ptr : ReportPtr) (h : hist) : hist :=
  mkHist (h_taken h) (h_ids h) (h_val h) (h_made h ++ [ptr]) (h_fast h) (h_enq h) (h_drop h) (h_ack h).
Definition note_taken (cmds : list Command) (h : hist) : hist :=
  mkHist (h_taken h ++ cmds) (h_ids h) (h_val h) (h_made h) (h_fast h) (h_enq h) (h_drop h) (h_ack h).
Definition note_ack (sent : list ReportPtr) (h : hist) : hist :=
  mkHist (h_taken h) (h_ids h) (h_val h) (h_made h) (h_fast h) (h_enq h) (h_drop h) (h_ack h ++ sent).

Definition note (o : op) (now : Time) r (h : hist) : hist :=
  match o with
  | OpSeenID cmd =>
      if (seen (Cmd_ID cmd) (r_ids r)).1 then h
      else mkHist (h_taken h) (h_ids h ++ [cmd]) (h_val h) (h_made h) (h_fast h) (h_enq h) (h_drop h) (h_ack h)
  | OpValidate cmd =>
      if (validate r cmd now).1 =s ""
      then mkHist (h_taken h) (h_ids h) (h_val h ++ [cmd]) (h_made h) (h_fast h) (h_enq h) (h_drop h) (h_ack h) else h
  | OpReport cmd status msg => note_made (allocate r (newReport r cmd status msg now)).1 h
  | OpSend ptr =>
      if (try_push ptr r).1
      then mkHist (h_taken h) (h_ids h) (h_val h) (h_made h) (h_fast h ++ [ptr]) (h_enq h) (h_drop h) (h_ack h) else h
  | OpEnqueue ptr =>
      mkHist (h_taken h) (h_ids h) (h_val h) (h_made h) (h_fast h) (h_enq h ++ [ptr])
        (h_drop h ++ QueueSystem.overflow (r_queue r)) (h_ack h)
  | OpSpawn _ => h
  end.

(** ** The goroutines together *)

Inductive kind := KPoll | KWs | KCommand (cmd : Command).

Record sys := mkSys {
  y_r : Receiver P;
  y_threads : list (kind * list op);
  y_flight : option (list ReportPtr);   (* the reports of the poll under way *)
  y_hist : hist;
}.

(** The two loops.  The second is the read loop of the push channel: it takes
    commands only where [New] was given one and set [process] as its handler
    ([ss_push]); with a nil channel it stands idle ([no_push_idle]). *)
Definition sys_start (cfg : Config) (push : option P) : sys :=
  mkSys (New cfg push) [(KPoll, []); (KWs, [])] None empty_hist.

(** A goroutine started by a section. *)
Definition started_by (o : op) : list (kind * list op) :=
  match o with OpSpawn cmd => [(KCommand cmd, [])] | _ => [] end.

(** [Run] starts, a handler reports, the fast path changes. *)
Inductive idle_step : sys -> sys -> Prop :=
| is_run r ts fl h : idle_step (mkSys r ts fl h) (mkSys (set_running r true) ts fl h)
| is_report r ts fl h i cmd rep now ptr r' :
    ts !! i = Some (KCommand cmd, []) -> allocate r (stamp_report r cmd now rep) = (ptr, r') ->
    idle_step (mkSys r ts fl h) (mkSys r' (<[i := (KCommand cmd, [OpSend ptr])]> ts) fl (note_made ptr h))
| is_channel r ts fl h p p' :
    r_push r = Some p -> idle_step (mkSys r ts fl h) (mkSys (set_push r (Some p')) ts fl h).

(** The steps inside the agent: any goroutine passes its next section, or one of
    these. *)
Inductive lstep : sys -> sys -> Prop :=
| ls_op r ts fl h i k o ops now new r' :
    ts !! i = Some (k, o :: ops) -> exec_op o now r = (new, r') ->
    lstep (mkSys r ts fl h) (mkSys r' (<[i := (k, new ++ ops)]> ts ++ started_by o) fl (note o now r h))
| ls_idle s s' : idle_step s s' -> lstep s s'.

(** The poll loop builds a request and gets an error or a reply; the read loop
    takes a command. *)
Inductive net_step : sys -> sys -> Prop :=
| ss_poll r ts h i :
    ts !! i = Some (KPoll, []) ->
    net_step (mkSys r ts None h) (mkSys r ts (Some (poll_request r)) h)
| ss_fail r ts sent h : net_step (mkSys r ts (Some sent) h) (mkSys r ts None h)
| ss_reply r ts sent h i cmds :
    ts !! i = Some (KPoll, []) ->
    net_step (mkSys r ts (Some sent) h)
      (mkSys (set_queue r (clearSent sent (r_queue r))) (<[i := (KPoll, OpSeenID <$> cmds)]> ts) None
         (note_taken cmds (note_ack sent h)))
| ss_not_ok r ts sent h i cmds :
    ts !! i = Some (KPoll, []) ->
    net_step (mkSys r ts (Some sent) h) (mkSys r (<[i := (KPoll, OpSeenID <$> cmds)]> ts) None (note_taken cmds h))
| ss_push r ts fl h i cmd :
    ts !! i = Some (KWs, []) -> is_Some (r_push r) ->
    net_step (mkSys r ts fl h) (mkSys r (<[i := (KWs, [OpSeenID cmd])]> ts) fl (note_taken [cmd] h)).

(** All steps. *)
Inductive sstep : sys -> sys -> Prop :=
| ss_local s s' : lstep s s' -> sstep s s'
| ss_net s s' : net_step s s' -> sstep s s'.

(** ** Sections still to pass *)

Definition pending (ts : list (kind * list op)) : list op := ts ≫= snd.

Lemma pending_insert ts i k ops k' ops' :
  ts !! i = Some (k, ops) -> exists rest, pending ts ≡ₚ ops ++ rest /\ pending (<[i := (k', ops')]> ts) ≡ₚ ops' ++ rest.
Proof.
  intros Hi. exists (pending (delete i ts)). unfold pending. split.
  - by rewrite (delete_Permutation ts i _ Hi) at 1.
  - assert (<[i := (k', ops')]> ts !! i = Some (k', ops')) as Hi'
      by (apply list_lookup_insert_eq; by eapply lookup_lt_Some).
    rewrite (delete_Permutation _ i _ Hi') at 1. rewrite !delete_take_drop.
    by rewrite take_insert_ge, drop_insert_lt by lia.
Qed.

Lemma pending_started ts o : pending (ts ++ started_by o) = pending ts.
Proof. unfold pending. rewrite bind_app. destruct o; cbn; by rewrite ?app_nil_r. Qed.

(** Commands about to be looked up, validated and started, reports about to be queued. *)
Definition validating (o : op) : option Command := match o with OpValidate c => Some c | _ => None end.
Definition looking (o : op) : option Command := match o with OpSeenID c => Some c | _ => None end.
Definition spawning (o : op) : option Command := match o with OpSpawn c => Some c | _ => None end.
Definition carrying (o : op) : option ReportPtr := match o with OpSend p | OpEnqueue p => Some p | _ => None end.

(** ** Every interleaving *)

(** What an invariant over receiver, history and sections still to pass has to
    promise to hold in every interleaving: each section keeps it, and so do the
    steps that are not sections. *)
Class SectionInv (J : Receiver P -> hist -> list op -> Prop) := {
  si_proper r h :: Proper ((≡ₚ) ==> iff) (J r h);
  si_exec r h o todo now new r' : exec_op o now r = (new, r') -> J r h (o :: todo) -> J r' (note o now r h) (new ++ todo);
  si_running r h todo : J r h todo -> J (set_running r true) h todo;
  si_push r h todo p : J r h todo -> J (set_push r p) h todo;
  si_ack r h todo sent : J r h todo -> J (set_queue r (clearSent sent (r_queue r))) (note_ack sent h) todo;
  si_commands r h todo cmds : J r h todo -> J r (note_taken cmds h) ((OpSeenID <$> cmds) ++ todo);
  si_allocate r h todo rep ptr r' : allocate r rep = (ptr, r') -> J r h todo -> J r' (note_made ptr h) (OpSend ptr :: todo);
}.

Section lifting.
Context (J : Receiver P -> hist -> list op -> Prop) `{!SectionInv J}.

Definition everywhere (s : sys) : Prop := J (y_r s) (y_hist s) (pending (y_threads s)).

(** A waiting goroutine that takes commands. *)
Lemma lift_commands r h ts i k cmds :
  ts !! i = Some (k, []) -> J r h (pending ts) ->
  J r (note_taken cmds h) (pending (<[i := (k, OpSeenID <$> cmds)]> ts)).
Proof.
  intros Hi Hinv. destruct (pending_insert ts i k [] k (OpSeenID <$> cmds) Hi) as (rest & Hp & Hp').
  rewrite Hp'. apply si_commands. by rewrite Hp in Hinv.
Qed.

Lemma lift_local s s' : lstep s s' -> everywhere s -> everywhere s'.
Proof.
  unfold everywhere.
  destruct 1 as [r ts fl h i k o ops now new r' Hi He|s s' [r ts fl h|r ts fl h i cmd rep now ptr r' Hi He|r ts fl h p p' Hp]];
    cbn [y_r y_hist y_threads]; intros Hinv.
  - rewrite pending_started. destruct (pending_insert ts i k (o :: ops) k (new ++ ops) Hi) as (rest & Hp & Hp').
    rewrite Hp in Hinv. rewrite Hp', <- (assoc_L (++)). by eapply si_exec.
  - by apply si_running.
  - destruct (pending_insert ts i _ [] (KCommand cmd) [OpSend ptr] Hi) as (rest & Hp & Hp').
    rewrite Hp in Hinv. rewrite Hp'. by eapply si_allocate.
  - by apply si_push.
Qed.

Lemma lift_step s s' : sstep s s' -> everywhere s -> everywhere s'.
Proof.
  destruct 1 as [s s' Hl|s s' [r ts h i Hi|r ts sent h|r ts sent h i cmds Hi|r ts sent h i cmds Hi|r ts fl h i cmd Hi _]];
    [by apply lift_local|unfold everywhere; cbn [y_r y_hist y_threads]; intros Hinv..]; try done.
  - apply lift_commands; [done|]. by apply si_ack.
  - by apply lift_commands.
  - by apply (lift_commands _ _ _ _ KWs [cmd]).
Qed.

Lemma lift_rtc s s' : rtc sstep s s' -> everywhere s -> everywhere s'.
Proof. induction 1; eauto using lift_step. Qed.

End lifting.

(** Without a push channel the read loop never takes a command. *)
Lemma exec_no_push o now r new r' : exec_op o now r = (new, r') -> r_push r = None -> r_push r' = None.
Proof.
  destruct o as [cmd|cmd|cmd st msg|ptr|ptr|cmd]; cbn [exec_op]; intros He Hp; try (by simplify_eq/=).
  - destruct (seen _ _) as [[] ids]; by simplify_eq/=.
  - destruct (validate_spec r cmd now) as [_ Hst]. destruct (validate r cmd now) as [reason r2].
    cbn [fst snd] in *. destruct (reason =s ""); injection He as <- <-; by rewrite Hst.
  - unfold try_push in He. rewrite Hp in He. by simplify_eq/=.
Qed.

Definition read_loop_idle (s : sys) : Prop :=
  r_push (y_r s) = None /\ forall i ops, y_threads s !! i = Some (KWs, ops) -> ops = [].

Lemma read_loop_idle_step s s' : sstep s s' -> read_loop_idle s -> read_loop_idle s'.
Proof.
  assert (forall (ts : list (kind * list op)) i k ops new j ops', (forall j ops, ts !! j = Some (KWs, ops) -> ops = []) ->
    k <> KWs \/ ops = [] -> Forall (fun t => t.1 <> KWs) new -> (<[i := (k, ops)]> ts ++ new) !! j = Some (KWs, ops') -> ops' = []) as Hins.
  { intros ts i k ops new j ops' Hall Hk Hnew [Hj|[_ Hj]]%lookup_app_Some.
    - apply list_lookup_insert_Some in Hj as [(-> & [= -> ->] & _)|[_ Hj]]; [naive_solver|by eapply Hall].
    - rewrite Forall_lookup in Hnew. by destruct (Hnew _ _ Hj). }
  intros Hstep [Hp Hall]. unfold read_loop_idle.
  destruct Hstep as [y1 y2 [r ts fl h i k o ops now new r' Hi He|y3 y4 [r ts fl h|r ts fl h i cmd rep now ptr r' Hi He|r ts fl h p p' Hp']]
    |y1 y2 [r ts h i Hi|r ts sent h|r ts sent h i cmds Hi|r ts sent h i cmds Hi|r ts fl h i cmd Hi [p' Hp']]];
    cbn [y_r y_threads] in *; (split; [try done|intros j ops' Hj; try (by eapply Hall)]); try congruence.
  - by eapply exec_no_push.
  - eapply Hins; [exact Hall| | |exact Hj]; [|destruct o; try constructor; [done|constructor]].
    left. intros ->. by specialize (Hall _ _ Hi).
  - unfold allocate in He. by simplify_eq/=.
  - rewrite <- (app_nil_r (<[i := _]> ts)) in Hj. eapply Hins; [exact Hall| |constructor|exact Hj]. by left.
  - rewrite <- (app_nil_r (<[i := _]> ts)) in Hj. eapply Hins; [exact Hall| |constructor|exact Hj]. by left.
  - rewrite <- (app_nil_r (<[i := _]> ts)) in Hj. eapply Hins; [exact Hall| |constructor|exact Hj]. by left.
Qed.

Lemma no_push_idle cfg s i ops :
  rtc sstep (sys_start cfg None) s -> y_threads s !! i = Some (KWs, ops) -> ops = [].
Proof.
  intros Hs. assert (read_loop_idle s) as [_ Hall]; [|apply Hall].
  assert (read_loop_idle (sys_start cfg None)) as Hi by (split; [done|]; intros [|[|j]] ops'; cbn; naive_solver).
  induction Hs; eauto using read_loop_idle_step.
Qed.

Lemma omap_seen {A} (f : op -> option A) cmds todo :
  (forall c, f (OpSeenID c) = None) -> omap f ((OpSeenID <$> cmds) ++ todo) = omap f todo.
Proof. intros Hf. induction cmds as [|c cmds IH]; [done|]. cbn. by rewrite Hf. Qed.

Lemma omap_looking (cmds : list Command) : omap looking (OpSeenID <$> cmds) = cmds.
Proof. induction cmds as [|c cmds IH]; [done|]. cbn. by f_equal. Qed.

(** ** The commands *)

Definition signed (cfg : Config) (cmd : Command) : Prop :=
  WriterEnabled cfg = true /\ exists pub, PublicKey cfg = inr pub /\ VerifySignature cmd pub = None.

(** Over the receiver, the history and the sections still to pass. *)
Record intake_inv (cfg : Config) r (h : hist) (todo : list op) : Prop := {
  in_cfg : r_cfg r = cfg;
  in_pub : r_pub r = PublicKey cfg;
  in_nonces : nc_cap (r_nonces r) = maxNonces /\ nc_rel (r_nonces r) (Cmd_Nonce <$> h_val h);
  in_nonce_window : window_distinct maxNonces (Cmd_Nonce <$> h_val h);
  in_ids : nc_cap (r_ids r) = maxIDs /\ nc_rel (r_ids r) (Cmd_ID <$> h_ids h);
  in_id_window : window_distinct maxIDs (Cmd_ID <$> h_ids h);
  in_signed : Forall (signed cfg) (h_val h);
  in_spawned : h_val h ≡ₚ (r_spawned r).*1 ++ omap spawning todo;
  in_new_ids : h_val h ++ omap validating todo ⊆+ h_ids h;
  in_taken : h_ids h ++ omap looking todo ⊆+ h_taken h;
}.

#[global] Instance intake_inv_proper cfg r h : Proper ((≡ₚ) ==> iff) (intake_inv cfg r h).
Proof.
  assert (forall t t', t ≡ₚ t' -> intake_inv cfg r h t -> intake_inv cfg r h t') as Himp.
  { intros t t' Ht []; split; try done; by rewrite <- Ht. }
  intros t t' Ht. split; by apply Himp.
Qed.

(** Recording a key in a cache. *)
Lemma seen_records cap key c (ks : list string) c' :
  nc_cap c = cap -> nc_rel c ks -> window_distinct cap ks -> seen key c = (false, c') ->
  nc_cap c' = cap /\ nc_rel c' (ks ++ [key]) /\ window_distinct cap (ks ++ [key]).
Proof.
  intros Hcap Hrel Hwin Hseen. pose proof (seen_rel c ks key Hrel) as Href. pose proof (seen_false key c) as Hf.
  pose proof Hrel as [Hinv Hll]. rewrite Hseen in Href, Hf. cbn [fst] in Hf.
  pose proof (proj1 Hf eq_refl) as Hnot. rewrite (nc_dom _ Hinv), Hll, Hcap in Hnot.
  unfold seen_spec in Href. rewrite Hcap, decide_False in Href by done. destruct Href as (_ & Hc & Hr).
  split_and!; [congruence|done|]. apply window_distinct_snoc; [|done..]. rewrite <- Hcap. apply Hinv.
Qed.

Lemma intake_frame cfg r r' h h' t t' :
  (r_cfg r', r_pub r', r_nonces r', r_ids r', r_spawned r') = (r_cfg r, r_pub r, r_nonces r, r_ids r, r_spawned r) ->
  (h_taken h', h_ids h', h_val h') = (h_taken h, h_ids h, h_val h) ->
  omap looking t' = omap looking t -> omap spawning t' = omap spawning t ->
  omap validating t' = omap validating t -> intake_inv cfg r h t -> intake_inv cfg r' h' t'.
Proof. intros [= Ec Ep En Ei Es] [= Eht Ehi Ehv] El Et Ev [].
  split; by rewrite ?Ec, ?Ep, ?En, ?Ei, ?Es, ?Eht, ?Ehi, ?Ehv, ?El, ?Et, ?Ev. Qed.

Lemma submseteq_without {A} (l k m : list A) x : l ++ x :: k ⊆+ m -> l ++ k ⊆+ m.
Proof. intros Hm. etrans; [|exact Hm]. apply submseteq_app; [done|]. by apply submseteq_cons. Qed.

Lemma intake_seen cfg r h todo cmd now new r' :
  exec_op (OpSeenID cmd) now r = (new, r') -> intake_inv cfg r h (OpSeenID cmd :: todo) ->
  intake_inv cfg r' (note (OpSeenID cmd) now r h) (new ++ todo).
Proof.
  cbn [exec_op note]. destruct (seen (Cmd_ID cmd) (r_ids r)) as [dup ids] eqn:Hs. cbn [fst].
  intros [= <- <-] [Hc Hp Hn Hnw [Hcap Hrel] Hiw Hsg Hsp Hnew Htk]. cbn in Htk. destruct dup.
  { assert (ids = r_ids r) as -> by (unfold seen in Hs; case_decide; by simplify_eq).
    split; cbn [set_ids r_cfg r_pub r_nonces r_ids r_spawned app]; try done. by eapply submseteq_without. }
  destruct (seen_records _ _ _ _ _ Hcap Hrel Hiw Hs) as (Hcap' & Hrel' & Hiw').
  split; cbn [set_ids r_cfg r_pub r_nonces r_ids r_spawned h_ids h_val]; rewrite ?fmap_app; try done.
  - cbn in Hnew |- *. rewrite (cons_middle _ (h_val h)). rewrite (assoc_L (++)).
    rewrite (Permutation_app_comm (h_val h) [cmd]), (Permutation_app_comm (h_ids h) [cmd]). cbn.
    by apply submseteq_skip.
  - cbn. by rewrite <- (assoc_L (++)).
Qed.

Lemma intake_validate cfg r h todo cmd now new r' :
  exec_op (OpValidate cmd) now r = (new, r') -> intake_inv cfg r h (OpValidate cmd :: todo) ->
  intake_inv cfg r' (note (OpValidate cmd) now r h) (new ++ todo).
Proof.
  cbn [exec_op note]. destruct (validate_spec r cmd now) as [Hiff Hst].
  destruct (validate r cmd now) as [reason r2]. cbn [fst snd] in *.
  intros He [Hc Hp [Hcap Hrel] Hnw Hi Hiw Hsg Hsp Hnew Htk]. cbn in Hsp, Hnew.
  destruct (reason =s "") eqn:Hr; cbn [negb] in He; bool_to_prop; injection He as <- <-.
  - rewrite decide_True in Hst by done. destruct Hiff as [[Hw (pub & Hpub & Hv) _ Hno] _]; [done|].
    apply seen_false in Hno. destruct (seen (Cmd_Nonce cmd) (r_nonces r)) as [b nonces] eqn:Hs.
    cbn [fst snd] in *. subst b r2. destruct (seen_records _ _ _ _ _ Hcap Hrel Hnw Hs) as (Hcap' & Hrel' & Hnw').
    split; cbn [set_nonces r_cfg r_pub r_nonces r_ids r_spawned h_ids h_val]; rewrite ?fmap_app; try done.
    + apply Forall_app. split; [done|]. constructor; [|done]. split; [congruence|]. exists pub. by rewrite <- Hp.
    + cbn. rewrite Hsp. solve_Permutation.
    + cbn. by rewrite <- (assoc_L (++)).
  - rewrite decide_False in Hst by done. subst r2.
    apply (intake_frame _ r _ h _ todo); [by destruct r|done..|].
    split; try done. by eapply submseteq_without.
Qed.

(** Any section keeps the invariant. *)
Lemma intake_exec cfg r h o todo now new r' :
  exec_op o now r = (new, r') -> intake_inv cfg r h (o :: todo) -> intake_inv cfg r' (note o now r h) (new ++ todo).
Proof.
  destruct o as [cmd|cmd|cmd st msg|ptr|ptr|cmd]; [apply intake_seen|apply intake_validate|..];
    cbn [exec_op note allocate]; intros He Hinv.
  - simplify_eq/=. by eapply intake_frame, Hinv.
  - destruct (try_push_frame ptr r) as [p Hf]. destruct (try_push ptr r) as [sent r1]. simplify_eq.
    eapply intake_frame, Hinv; [cbn in Hf; by subst|by destruct sent|by destruct (_ || _)..].
  - simplify_eq. by eapply intake_frame, Hinv.
  - simplify_eq. destruct Hinv as [? ? ? ? ? ? ? Hsp ? ?]. split; try done.
    cbn in Hsp |- *. rewrite Hsp, fmap_app. cbn. by rewrite <- (assoc_L (++)).
Qed.

#[global] Instance intake_section_inv cfg : SectionInv (intake_inv cfg).
Proof.
  split; try apply _; intros.
  1: by apply intake_exec.
  1-3: by (eapply intake_frame; [..|eassumption]).
  - destruct select (intake_inv cfg _ _ _) as [? ? ? ? ? ? ? Hsp Hnew Htk].
    split; rewrite ?omap_seen by done; try done. rewrite omap_app, omap_looking.
    cbn. rewrite (Permutation_app_comm cmds), (assoc_L (++)). by apply submseteq_app.
  - unfold allocate in *. simplify_eq/=. by (eapply intake_frame; [..|eassumption]).
Qed.

Lemma reachable_intake cfg push s :
  rtc sstep (sys_start cfg push) s -> intake_inv cfg (y_r s) (y_hist s) (pending (y_threads s)).
Proof.
  intros Hs. eapply (lift_rtc (intake_inv cfg)); [done|].
  split; cbn; try done; try (split; [done|by apply new_rel]); try apply window_distinct_nil; by constructor.
Qed.

(** What has been accepted and started. *)
Definition intake_safe (cfg : Config) (h : hist) (started : list Command) : Prop :=
  started ⊆+ h_val h /\ h_val h ⊆+ h_ids h /\ h_ids h ⊆+ h_taken h /\ Forall (signed cfg) (h_val h) /\
  window_distinct maxNonces (Cmd_Nonce <$> h_val h) /\ window_distinct maxIDs (Cmd_ID <$> h_ids h) /\
  (Z.of_nat (length (h_ids h)) <= maxIDs -> NoDup (Cmd_ID <$> started)).

Lemma reachable_intake_safe cfg push s :
  rtc sstep (sys_start cfg push) s -> intake_safe cfg (y_hist s) (r_spawned (y_r s)).*1.
Proof.
  intros Hs. set (h := y_hist s). set (started := (r_spawned (y_r s)).*1).
  destruct (reachable_intake cfg push s Hs) as [_ _ _ Hnw _ Hiw Hsg Hsp Hnew Htk].
  assert (started ⊆+ h_val h) as Hst by (unfold h, started; rewrite Hsp; by apply submseteq_inserts_r).
  assert (h_val h ⊆+ h_ids h) as Hv by (etrans; [|exact Hnew]; by apply submseteq_inserts_r).
  assert (h_ids h ⊆+ h_taken h) by (etrans; [|exact Htk]; by apply submseteq_inserts_r).
  unfold intake_safe. split_and!; try done. intros Hlen.
  assert (Cmd_ID <$> started ⊆+ Cmd_ID <$> h_ids h) as Hsub by (by rewrite Hst, Hv).
  apply (submseteq_NoDup _ _ Hsub), (window_distinct_NoDup maxIDs); [done|]. rewrite length_fmap. lia.
Qed.

(** C1. Signatures and replay protection survive every interleaving of the poll
    loop, the WebSocket loop and the command goroutines, in which a lookup in a
    replay cache is one step ([Races] is about lookups that overlap):
    whatever is started was
    accepted under a signature of the configured server with the writer enabled
    (each acceptance starts its command at most once); accepted commands have
    different nonces within any window of 10000 acceptances, and commands with a
    new ID different IDs within any window of 10000, out of those taken; so while no more than 10000
    IDs have come in, no command ID is started twice. *)
Theorem intake_interleaved_safe cfg push s :
  rtc sstep (sys_start cfg push) s ->
  let h := y_hist s in let started := (r_spawned (y_r s)).*1 in
  started ⊆+ h_val h /\ h_val h ⊆+ h_ids h /\ h_ids h ⊆+ h_taken h /\ Forall (signed cfg) (h_val h) /\
  window_distinct maxNonces (Cmd_Nonce <$> h_val h) /\ window_distinct maxIDs (Cmd_ID <$> h_ids h) /\
  (Z.of_nat (length (h_ids h)) <= maxIDs -> NoDup (Cmd_ID <$> started)).
Proof. apply reachable_intake_safe. Qed.

(** ** The reports *)

(** An allocated report is queued, carried, or was not terminal and went over the
    fast path. *)
Definition located (h : hist) (todo : list op) (ptr : ReportPtr) : Prop :=
  ptr ∈ h_enq h \/ ptr ∈ omap carrying todo \/ (ptr ∈ h_fast h /\ isTerminal (Rep_Status (rp_val ptr)) = false).

(** Its section moves it on. *)
Lemma located_exec r h o todo now new r' ptr :
  exec_op o now r = (new, r') -> located h (o :: todo) ptr -> located (note o now r h) (new ++ todo) ptr.
Proof.
  unfold located. destruct o as [cmd|cmd|cmd st msg|p|p|cmd]; cbn [exec_op note omap list_omap carrying]; intros He Hl.
  - destruct (seen _ _) as [[] ids]; by simplify_eq/=.
  - destruct (validate _ _ _) as [reason r2]. cbn [fst].
    destruct (reason =s ""); cbn [negb] in He; injection He as <- <-; exact Hl.
  - simplify_eq/=. destruct Hl as [Hl|[Hl|Hl]]; [by left|by right; left; right|by right; right].
  - destruct (try_push p r) as [sent r1]. injection He as <- <-. cbn [fst].
    destruct Hl as [Hl|[[-> |Hl]%elem_of_cons|[Hl Ht]]].
    + left. by destruct sent.
    + destruct sent, (isTerminal (Rep_Status (rp_val p))) eqn:Ht; cbn; set_solver.
    + right; left. destruct (_ || _); cbn; set_solver.
    + right; right. split; [|done]. destruct sent; cbn; set_solver.
  - simplify_eq/=. destruct Hl as [Hl|[[-> |Hl]%elem_of_cons|Hl]]; set_solver.
  - by simplify_eq/=.
Qed.

Lemma located_mono h h' todo ptr : h_enq h ⊆ h_enq h' -> h_fast h ⊆ h_fast h' -> located h todo ptr -> located h' todo ptr.
Proof. unfold located. set_solver. Qed.

(** The reports a goroutine carries are among the allocated ones. *)
Record report_inv r (h : hist) (todo : list op) : Prop := {
  rp_fresh : Forall (fun p => (rp_addr p < r_fresh r)%nat) (h_made h);
  rp_nodup : NoDup (rp_addr <$> h_made h);
  rp_made : h_enq h ++ omap carrying todo ⊆+ h_made h;
  rp_fast : h_fast h ⊆ h_made h;
  rp_kept : forall p, p ∈ h_made h -> located h todo p;
}.

#[global] Instance report_inv_proper r h : Proper ((≡ₚ) ==> iff) (report_inv r h).
Proof.
  assert (forall t t', t ≡ₚ t' -> report_inv r h t -> report_inv r h t') as Himp.
  { intros t t' Ht []; split; unfold located in *; try done; setoid_rewrite <- Ht; done. }
  intros t t' Ht. split; by apply Himp.
Qed.

Lemma report_frame r r' h h' t t' :
  r_fresh r' = r_fresh r -> (h_made h', h_fast h', h_enq h') = (h_made h, h_fast h, h_enq h) ->
  omap carrying t' = omap carrying t -> report_inv r h t -> report_inv r' h' t'.
Proof. intros Ef [= Em Efa Ee] Et []. split; unfold located in *; rewrite ?Ef, ?Em, ?Efa, ?Ee, ?Et; done. Qed.

(** A new report. *)
Lemma report_allocate r h todo rep ptr r' :
  allocate r rep = (ptr, r') -> report_inv r h todo -> report_inv r' (note_made ptr h) (OpSend ptr :: todo).
Proof.
  unfold allocate. intros [= <- <-] [Hf Hn Hm Hfa Hk].
  split; cbn [note_made h_made h_fast h_enq set_fresh r_fresh omap list_omap carrying].
  - apply Forall_app. split; [|by repeat constructor]. eapply Forall_impl; [exact Hf|]. cbn. lia.
  - rewrite fmap_app. apply NoDup_app. split_and!; [done| |apply NoDup_singleton].
    intros x (p & -> & Hp)%list_elem_of_fmap Heq%list_elem_of_singleton. cbn in Heq.
    rewrite Forall_forall in Hf. specialize (Hf _ Hp). cbn in Hf. lia.
  - rewrite (cons_middle _ (h_enq h)), (assoc_L (++)). rewrite (Permutation_app_comm (h_enq h)).
    rewrite (Permutation_app_comm (h_made h)). cbn. by apply submseteq_skip.
  - set_solver.
  - unfold located in *. cbn [note_made h_enq h_fast omap list_omap carrying].
    intros p [Hp| ->%list_elem_of_singleton]%elem_of_app; [destruct (Hk p Hp); set_solver|set_solver].
Qed.

Lemma report_exec r h o todo now new r' :
  exec_op o now r = (new, r') -> report_inv r h (o :: todo) -> report_inv r' (note o now r h) (new ++ todo).
Proof.
  intros He Hinv. assert (forall p, p ∈ h_made h -> located (note o now r h) (new ++ todo) p) as Hk'
    by (intros p Hp; eapply located_exec; [exact He|]; by apply Hinv).
  destruct o as [cmd|cmd|cmd st msg|ptr|ptr|cmd]; cbn [exec_op note] in *.
  - destruct (seen _ _) as [[] ids]; simplify_eq/=; by eapply report_frame, Hinv.
  - destruct (validate_spec r cmd now) as [_ Hst]. destruct (validate r cmd now) as [reason r2].
    cbn [fst snd] in *. destruct (reason =s ""); cbn [negb] in He; injection He as <- <-;
      (eapply report_frame, Hinv; [by subst r2|done..]).
  - destruct (allocate _ _) as [ptr r1] eqn:Ha. simplify_eq/=. eapply report_allocate; [done|].
    by eapply report_frame, Hinv.
  - destruct (try_push_frame ptr r) as [p Hf]. destruct (try_push ptr r) as [sent r1]. cbn in Hf. subst r1.
    injection He as <- <-. destruct Hinv as [Hf Hn Hm Hfa _]. cbn [omap list_omap carrying fst] in *.
    assert (ptr ∈ h_made h) as Hptr by (eapply elem_of_submseteq; [|exact Hm]; set_solver).
    split; [by destruct sent|by destruct sent| |destruct sent; cbn; set_solver|by destruct sent].
    assert (forall t, t ⊆+ ptr :: omap carrying todo -> h_enq h ++ t ⊆+ h_made h) as Hsub
      by (intros t Ht; etrans; [|exact Hm]; by apply submseteq_app).
    destruct sent, (isTerminal (Rep_Status (rp_val ptr))); cbn; apply Hsub; done || by apply submseteq_cons.
  - simplify_eq/=. destruct Hinv as [Hf Hn Hm Hfa _]. split; cbn; try done. by rewrite <- (assoc_L (++)).
  - simplify_eq/=. by eapply report_frame, Hinv.
Qed.

#[global] Instance report_section_inv : SectionInv report_inv.
Proof.
  split; try apply _; intros.
  1: by apply report_exec.
  1-3: by (eapply report_frame; [..|eassumption]).
  - eapply report_frame; [..|eassumption]; try done; by apply omap_seen.
  - by eapply report_allocate.
Qed.

Lemma reachable_reports cfg push s :
  rtc sstep (sys_start cfg push) s -> report_inv (y_r s) (y_hist s) (pending (y_threads s)).
Proof. intros Hs. eapply (lift_rtc report_inv); [done|]. split; unfold located; cbn; try done; [constructor|set_solver]. Qed.

(** ** The report queue under the goroutines

    [QueueSystem] is the queue as its two clients see it; what the goroutines do
    to it is a run of that system. *)

Definition queue_of (s : sys) : QueueSystem.system :=
  QueueSystem.mkSystem (r_queue (y_r s)) (y_flight s) (h_enq (y_hist s)) (h_ack (y_hist s)) (h_drop (y_hist s)).

(** Only [OpEnqueue] touches the queue. *)
Lemma exec_queue o now r new r' h :
  exec_op o now r = (new, r') ->
  (exists ptr, o = OpEnqueue ptr /\ r_queue r' = enqueue ptr (r_queue r)) \/
  (r_queue r' = r_queue r /\ h_enq (note o now r h) = h_enq h /\ h_ack (note o now r h) = h_ack h /\
     h_drop (note o now r h) = h_drop h).
Proof.
  destruct o as [cmd|cmd|cmd st msg|ptr|ptr|cmd]; cbn [exec_op note]; intros He.
  - right. destruct (seen _ _) as [[] ids]; by simplify_eq/=.
  - right. destruct (validate_spec r cmd now) as [_ Hst]. destruct (validate r cmd now) as [reason r2].
    cbn [fst snd] in *. destruct (reason =s ""); injection He as <- <-; by rewrite Hst.
  - right. by simplify_eq/=.
  - right. destruct (try_push_frame ptr r) as [p Hf]. destruct (try_push ptr r) as [sent r1]. cbn in Hf. subst r1.
    injection He as <- <-. by destruct sent.
  - left. exists ptr. by simplify_eq/=.
  - right. by simplify_eq/=.
Qed.

Lemma queue_step s s' :
  everywhere report_inv s -> sstep s s' -> rtc QueueSystem.step (queue_of s) (queue_of s').
Proof.
  intros [_ Hn Hm _ _] Hstep.
  destruct Hstep as [y1 y2 [r ts fl h i k o ops now new r' Hi He|y3 y4 [r ts fl h|r ts fl h i cmd rep now ptr r' Hi He|r ts fl h p p' Hp]]
    |y1 y2 [r ts h i Hi|r ts sent h|r ts sent h i cmds Hi|r ts sent h i cmds Hi|r ts fl h i cmd Hi Hp]];
    unfold queue_of; cbn [y_r y_hist y_threads y_flight] in *; try apply rtc_refl; try (by apply rtc_once; constructor).
  - destruct (exec_queue o now r new r' h He) as [(ptr & -> & Hq)|(-> & -> & -> & ->)]; [|apply rtc_refl].
    rewrite Hq. apply rtc_once, QueueSystem.step_enqueue. intros Hin.
    destruct (pending_insert ts i k (OpEnqueue ptr :: ops) k ops Hi) as (rest & Hp & _).
    rewrite Hp in Hm. cbn in Hm. rewrite <- Permutation_middle in Hm.
    apply (fmap_submseteq rp_addr) in Hm. apply submseteq_NoDup in Hm; [|done]. cbn in Hm.
    rewrite fmap_app in Hm. apply NoDup_cons in Hm as [Hno _]. set_solver.
  - unfold allocate in He. simplify_eq/=. apply rtc_refl.
Qed.

(** What the goroutines do to the queue is a run of [QueueSystem], whose
    deliveries all carry fresh addresses. *)
Lemma reachable_queue cfg push s :
  rtc sstep (sys_start cfg push) s -> rtc QueueSystem.step (QueueSystem.init maxQueuedReports) (queue_of s).
Proof.
  intros Hs. refine (rtc_ind_r (fun s => rtc QueueSystem.step _ (queue_of s)) _ (rtc_refl _ _) _ s Hs).
  intros s1 s2 Hs1 Hstep IH. etrans; [exact IH|]. eapply queue_step; [|exact Hstep]. by eapply reachable_reports.
Qed.

Lemma reachable_queue_inv cfg push s :
  rtc sstep (sys_start cfg push) s -> QueueSystem.inv (queue_of s) /\ q_cap (r_queue (y_r s)) = maxQueuedReports.
Proof.
  intros Hs. pose proof (reachable_queue cfg push s Hs) as Hq. split.
  - by apply QueueSystem.reachable_inv in Hq.
  - by apply QueueSystem.reachable_cap in Hq.
Qed.

(** Where a report the agent has made can be. *)
Definition placed (s : sys) (ptr : ReportPtr) : Prop :=
  ptr ∈ omap carrying (pending (y_threads s)) \/ ptr ∈ q_ll (r_queue (y_r s)) \/ ptr ∈ h_ack (y_hist s) \/
  ptr ∈ h_drop (y_hist s) \/ (ptr ∈ h_fast (y_hist s) /\ isTerminal (Rep_Status (rp_val ptr)) = false).

Lemma reachable_placed cfg push s ptr :
  rtc sstep (sys_start cfg push) s -> ptr ∈ h_made (y_hist s) -> placed s ptr.
Proof.
  intros Hs Hp. destruct (reachable_reports cfg push s Hs) as [_ _ _ _ Hk].
  destruct (reachable_queue_inv cfg push s Hs) as [[_ _ _ (gone & He & Hg & _) _] _].
  cbn [queue_of QueueSystem.s_queue QueueSystem.s_enqueued QueueSystem.s_acked QueueSystem.s_dropped] in *.
  unfold placed. destruct (Hk ptr Hp) as [Hq|[Hq|Hq]]; [|tauto..]. rewrite He in Hq.
  apply elem_of_app in Hq as [Hq|Hq]; [|tauto]. destruct (Hg _ Hq); tauto.
Qed.

(** C13. No report is lost, in any interleaving: the queue never holds more than
    1000 reports, and every report the agent has made is still carried by its
    goroutine, is queued, was carried by an acknowledged poll, was pushed out by
    an overflow, or is not terminal and was accepted by the fast path.  No report
    is queued twice, and the queue holds reports in the order they came. *)
Theorem reports_never_lost cfg push s :
  rtc sstep (sys_start cfg push) s ->
  q_len (r_queue (y_r s)) <= maxQueuedReports /\ Forall (placed s) (h_made (y_hist s)) /\
  NoDup (h_enq (y_hist s)) /\ q_ll (r_queue (y_r s)) `suffix_of` h_enq (y_hist s).
Proof.
  intros Hs. destruct (reachable_queue_inv cfg push s Hs) as [[_ Hlen Hnd (gone & He & _) _] Hc].
  cbn [queue_of QueueSystem.s_queue QueueSystem.s_enqueued] in *. split_and!.
  - by rewrite <- Hc.
  - apply Forall_forall. intros ptr. by eapply reachable_placed.
  - by apply NoDup_fmap_1 in Hnd.
  - by exists gone.
Qed.

(** ** Schedules

    A schedule names the steps one by one; a step that cannot be taken is
    skipped. *)

Inductive event :=
| EvSection (i : nat) (now : Time)
| EvRun
| EvPoll
| EvReply (i : nat) (cmds : list Command)
| EvPush (i : nat) (cmd : Command)
| EvReport (i : nat) (rep : Report) (now : Time).

Definition fire (e : event) (s : sys) : sys :=
  let '(mkSys r ts fl h) := s in
  match e with
  | EvSection i now =>
      match ts !! i with
      | Some (k, o :: ops) =>
          let '(new, r') := exec_op o now r in
          mkSys r' (<[i := (k, new ++ ops)]> ts ++ started_by o) fl (note o now r h)
      | _ => s
      end
  | EvRun => mkSys (set_running r true) ts fl h
  | EvPoll =>
      match fl, ts !! 0%nat with
      | None, Some (KPoll, []) => mkSys r ts (Some (poll_request r)) h
      | _, _ => s
      end
  | EvReply i cmds =>
      match fl, ts !! i with
      | Some sent, Some (KPoll, []) =>
          mkSys (set_queue r (clearSent sent (r_queue r))) (<[i := (KPoll, OpSeenID <$> cmds)]> ts) None
            (note_taken cmds (note_ack sent h))
      | _, _ => s
      end
  | EvPush i cmd =>
      match ts !! i, r_push r with
      | Some (KWs, []), Some _ => mkSys r (<[i := (KWs, [OpSeenID cmd])]> ts) fl (note_taken [cmd] h)
      | _, _ => s
      end
  | EvReport i rep now =>
      match ts !! i with
      | Some (KCommand cmd, []) =>
          let '(ptr, r') := allocate r (stamp_report r cmd now rep) in
          mkSys r' (<[i := (KCommand cmd, [OpSend ptr])]> ts) fl (note_made ptr h)
      | _ => s
      end
  end.

Lemma fire_reach e s : rtc sstep s (fire e s).
Proof.
  destruct s as [r ts fl h]. destruct e as [i now| | |i cmds|i cmd|i rep now]; cbn [fire].
  - destruct (ts !! i) as [[k [|o ops]]|] eqn:Hi; try apply rtc_refl.
    destruct (exec_op o now r) as [new r'] eqn:He. apply rtc_once, ss_local. by eapply ls_op.
  - apply rtc_once, ss_local, ls_idle, is_run.
  - destruct fl as [sent|], (ts !! 0%nat) as [[[] [|o ops]]|] eqn:Hi; try apply rtc_refl. apply rtc_once, ss_net. by eapply ss_poll.
  - destruct fl as [sent|], (ts !! i) as [[[] [|o ops]]|] eqn:Hi; try apply rtc_refl. apply rtc_once, ss_net. by eapply ss_reply.
  - destruct (ts !! i) as [[[] [|o ops]]|] eqn:Hi, (r_push r) as [p|] eqn:Hp; try apply rtc_refl.
    apply rtc_once, ss_net. eapply ss_push; [done|]. by rewrite Hp.
  - destruct (ts !! i) as [[[] [|o ops]]|] eqn:Hi; try apply rtc_refl.
    destruct (allocate _ _) as [ptr r'] eqn:Ha. apply rtc_once, ss_local, ls_idle. by eapply is_report.
Qed.

Definition run_schedule (es : list event) (s : sys) : sys := foldl (fun s e => fire e s) s es.

Lemma schedule_reach es s : rtc sstep s (run_schedule es s).
Proof.
  revert s. induction es as [|e es IH]; intros s; [apply rtc_refl|]. cbn. etrans; [apply fire_reach|apply IH].
Qed.

(** [n] sections of one goroutine. *)
Definition run_sections (n i : nat) (now : Time) (s : sys) : sys := Nat.iter n (fire (EvSection i now)) s.

Lemma sections_run n i now s : rtc lstep s (run_sections n i now s).
Proof.
  revert s. induction n as [|n IH]; intros s; [apply rtc_refl|]. unfold run_sections. rewrite Nat.iter_succ.
  etrans; [apply IH|]. fold (run_sections n i now s). destruct (run_sections n i now s) as [r ts fl h]. cbn [fire].
  destruct (ts !! i) as [[k [|o ops]]|] eqn:Hi; try apply rtc_refl.
  destruct (exec_op o now r) as [new r'] eqn:He. apply rtc_once. by eapply ls_op.
Qed.

End Goroutines.

(** ** A command over both channels

    The same command arrives in a poll reply and over the WebSocket, and the two
    loops take turns; a report of the handler is made while a poll is under way. *)
Module GoroutinesExample.
Import ReceiverExample.
#[local] Existing Instance half_open.
#[local] Existing Instance ToyEd25519.toy.

Definition t0 : Time := clock 1700000100.
Definition progress : Report := mkReport "" "" StatusSucceeded "done" "" 100 0.

Definition both_channels : sys :=
  run_schedule
    [EvRun; EvPoll; EvReply 0 [command "cmd-1" "n-1"]; EvPush 1 (command "cmd-1" "n-1");
     EvSection 0 t0; EvSection 1 t0; EvSection 0 t0; EvSection 0 t0; EvSection 0 t0; EvSection 0 t0;
     EvSection 0 t0; EvPoll; EvReport 2 progress t0; EvSection 2 t0; EvSection 2 t0; EvReply 0 []]
    (sys_start sample_config (Some tt)).

Lemma both_channels_reachable : rtc sstep (sys_start sample_config (Some tt)) both_channels.
Proof. apply schedule_reach. Qed.

(** One start; the receipt was carried by the poll, the result is queued. *)
Example both_channels_run :
  (fst <$> r_spawned (y_r both_channels), Rep_Status ∘ rp_val <$> h_ack (y_hist both_channels),
   Rep_Status ∘ rp_val <$> q_ll (r_queue (y_r both_channels)), pending (y_threads both_channels))
  = ([command "cmd-1" "n-1"], [StatusReceived], [StatusSucceeded], []).
Proof. vm_compute. reflexivity. Qed.

Lemma intake_interleaved_safe_witness : NoDup (Cmd_ID <$> (r_spawned (y_r both_channels)).*1).
Proof.
  apply (intake_interleaved_safe sample_config (Some tt) both_channels both_channels_reachable).
  vm_compute. discriminate.
Defined.

Lemma reports_never_lost_witness : q_len (r_queue (y_r both_channels)) <= maxQueuedReports.
Proof. apply (reports_never_lost sample_config (Some tt) both_channels both_channels_reachable). Defined.

Lemma process_is_its_sections_witness :
  run_ops (PushChannel0 := no_push) 7 (process_clock t0 t0) [OpSeenID (command "cmd-1" "n-1")] start
  = Some (deliver start (command "cmd-1" "n-1")).
Proof. apply (process_is_its_sections start t0 t0 (command "cmd-1" "n-1")). vm_compute. reflexivity. Defined.

End GoroutinesExample.
