(* ===== verification/Races.v ===== *)
(** * internal/receiver: the replay caches without a lock

    In [Goroutines] a lookup in a replay cache is one step.  [seen] takes no lock:
    it looks the key up, inserts it, and evicts, three accesses that the poll loop
    and the WebSocket loop can take in turns.  Here the accesses of a lookup are
    steps of their own ([SeenThreads.thread_step]); everything else is as in
    [Goroutines].  Runs in which no lookup begins while another is under way are
    runs of [Goroutines] ([exclusive_refines]), so its theorems hold with the fast
    path off, or with a lock; with both loops at work they do not
    ([race_runs_twice]). *)

From S2P Require Import Prelude GoStrings GoTime Protocol Config Metrics NonceCache ReportQueue Receiver Goroutines.
Local Open Scope Z_scope.

Section Races.
Context `{Ed25519} {P : Type} `{!PushChannel P}.
Implicit Types r : Receiver P.

(** ** Lookups in accesses *)

Inductive cache := IDs | Nonces.

Definition get_cache (c : cache) r : nonceCache := match c with IDs => r_ids r | Nonces => r_nonces r end.
Definition put_cache (c : cache) (x : nonceCache) r : Receiver P :=
  match c with IDs => set_ids r x | Nonces => set_nonces r x end.

(** A lookup under way: the cache, the key and the next access. *)
Record access := mkAccess { ac_cache : cache; ac_key : string; ac_pc : SeenThreads.pc }.

Definition access_step (a : access) r : option access * Receiver P :=
  let '(p, c) := SeenThreads.thread_step (ac_key a) (ac_pc a, get_cache (ac_cache a) r) in
  (match p with SeenThreads.Returned _ => None | _ => Some (mkAccess (ac_cache a) (ac_key a) p) end,
   put_cache (ac_cache a) c r).

(** The sections that look a key up. *)
Definition is_lookup (o : op) : bool := match o with OpSeenID _ | OpValidate _ => true | _ => false end.

(** A section up to the first access of its lookup: what the goroutine does next,
    and what is left of the lookup. *)
Definition exec_lookup (o : op) (now : Time) r : list op * Receiver P * option access :=
  match o with
  | OpSeenID cmd =>
      match (SeenThreads.thread_step (Cmd_ID cmd) (SeenThreads.AtLookup, r_ids r)).1 with
      | SeenThreads.Returned _ => ([], r, None)
      | p => ([OpValidate cmd], r, Some (mkAccess IDs (Cmd_ID cmd) p))
      end
  | OpValidate cmd =>
      let reason := (validate r cmd now).1 in
      if negb (reason =s "") then
        ([OpReport cmd StatusRefused reason], set_metrics r (IncCommand (Cmd_Verb cmd) "refused" (r_metrics r)), None)
      else ([OpReport cmd StatusReceived ""; OpSpawn cmd], r, Some (mkAccess Nonces (Cmd_Nonce cmd) SeenThreads.AtInsert))
  | _ => let '(new, r) := exec_op o now r in (new, r, None)
  end.

(** The agent, and the lookup each goroutine has under way. *)
Record fine := mkFine { f_sys : sys (P := P); f_acc : gmap nat access }.

Definition fine_start (cfg : Config) (push : option P) : fine := mkFine (sys_start cfg push) ∅.

(** The label says whether the step begins a lookup. *)
Inductive fstep : bool -> fine -> fine -> Prop :=
| fs_op r ts fl h acc i k o ops now new r' a :
    ts !! i = Some (k, o :: ops) -> acc !! i = None -> exec_lookup o now r = (new, r', a) ->
    fstep (is_lookup o) (mkFine (mkSys r ts fl h) acc)
      (mkFine (mkSys r' (<[i := (k, new ++ ops)]> ts ++ started_by o) fl (note o now r h)) (partial_alter (fun _ => a) i acc))
| fs_access r ts fl h acc i a a' r' :
    acc !! i = Some a -> access_step a r = (a', r') ->
    fstep false (mkFine (mkSys r ts fl h) acc) (mkFine (mkSys r' ts fl h) (partial_alter (fun _ => a') i acc))
| fs_idle y y' acc : idle_step y y' -> fstep false (mkFine y acc) (mkFine y' acc)
| fs_net y y' acc : net_step y y' -> fstep false (mkFine y acc) (mkFine y' acc).

(** A step of a run in which lookups do not overlap. *)
Definition exclusive_step (f f' : fine) : Prop := exists l, fstep l f f' /\ (l = true -> f_acc f = ∅).

Definition any_step (f f' : fine) : Prop := exists l, fstep l f f'.

(** ** Finishing a lookup *)

Definition finish_cache (a : access) (x : nonceCache) : nonceCache :=
  match ac_pc a with
  | SeenThreads.AtInsert => evict (SeenThreads.thread_step (ac_key a) (SeenThreads.AtInsert, x)).2
  | SeenThreads.AtEvict => evict x
  | _ => x
  end.

Definition finish (a : access) r : Receiver P :=
  put_cache (ac_cache a) (finish_cache a (get_cache (ac_cache a) r)) r.

(** Inserting and evicting are still to come. *)
Definition under_way (a : access) : Prop := ac_pc a = SeenThreads.AtInsert \/ ac_pc a = SeenThreads.AtEvict.

Lemma put_put c x y r : put_cache c x (put_cache c y r) = put_cache c x r.
Proof. by destruct c. Qed.
Lemma get_put c x r : get_cache c (put_cache c x r) = x.
Proof. by destruct c. Qed.

(** An access leaves the outcome as it is. *)
Lemma access_step_finish a r a' r' :
  under_way a -> access_step a r = (a', r') ->
  match a' with Some a' => under_way a' /\ ac_cache a' = ac_cache a /\ finish a' r' = finish a r | None => r' = finish a r end.
Proof.
  destruct a as [c key p]. unfold under_way, access_step, finish, finish_cache. cbn [ac_cache ac_key ac_pc].
  intros [-> | ->]; cbn; intros [= <- <-]; cbn [ac_cache ac_key ac_pc]; [|done].
  rewrite get_put, put_put. split; [by right|done].
Qed.

(** A section with its lookup finished is the section of [Goroutines]. *)
Lemma exec_lookup_finish o now r new r' a :
  exec_lookup o now r = (new, r', a) ->
  match a with Some a => under_way a /\ exec_op o now r = (new, finish a r') | None => exec_op o now r = (new, r') end.
Proof.
  destruct o as [cmd|cmd|cmd st msg|ptr|ptr|cmd]; cbn [exec_lookup].
  - assert (set_ids r (r_ids r) = r) as Hid by (by destruct r).
    cbn. unfold seen. case_decide; cbn; intros [= <- <- <-]; [by rewrite Hid|].
    split; [by left|]. done.
  - destruct (validate_spec r cmd now) as [_ Hst]. cbn [exec_op].
    assert (set_nonces r (r_nonces r) = r) as Hid by (by destruct r).
    destruct (validate r cmd now) as [reason r2] eqn:Hv. cbn [fst snd] in *.
    destruct (reason =s "") eqn:Hr; cbn [negb]; bool_to_prop; intros [= <- <- <-].
    + rewrite decide_True in Hst by done. split; [by left|]. subst reason r2.
      unfold finish, finish_cache. cbn. unfold seen. rewrite decide_False; [done|].
      by eapply accepted_fresh.
    + by rewrite decide_False, Hid in Hst by done; subst r2.
  - destruct (exec_op _ _ _). by intros [= -> -> <-].
  - destruct (exec_op _ _ _). by intros [= -> -> <-].
  - destruct (exec_op _ _ _). by intros [= -> -> <-].
  - destruct (exec_op _ _ _). by intros [= -> -> <-].
Qed.

Lemma exec_lookup_other o now r new r' a : is_lookup o = false -> exec_lookup o now r = (new, r', a) -> a = None.
Proof. destruct o; try done; intros _; cbn [exec_lookup]; destruct (exec_op _ _ _); by intros [= _ _ <-]. Qed.

(** ** Steps that leave the caches alone *)

(** They do the same on a receiver with another cache. *)
Lemma exec_op_put c x o now r new r' h :
  is_lookup o = false -> exec_op o now r = (new, r') ->
  get_cache c r' = get_cache c r /\ exec_op o now (put_cache c x r) = (new, put_cache c x r') /\
  note o now (put_cache c x r) h = note o now r h.
Proof.
  destruct o as [cmd|cmd|cmd st msg|ptr|ptr|cmd]; try done; intros _ He.
  - cbn in He. simplify_eq. by destruct c.
  - assert (try_push ptr (put_cache c x r) = ((try_push ptr r).1, put_cache c x (try_push ptr r).2)) as Htp.
    { unfold try_push. destruct c; cbn [put_cache set_ids set_nonces r_push];
        (destruct (r_push r) as [p|]; [destruct (Connected p); [destruct (SendReport (rp_val ptr) p) as [[]]|]|]); done. }
    destruct (try_push_frame ptr r) as [p Hf]. cbn [exec_op note] in *. rewrite Htp.
    destruct (try_push ptr r) as [sent r1]. cbn [fst snd] in *. subst r1. simplify_eq. by destruct c.
  - cbn in He. simplify_eq. by destruct c.
  - cbn in He. simplify_eq. by destruct c.
Qed.

Definition put_sys (c : cache) (x : nonceCache) (y : sys (P := P)) : sys :=
  mkSys (put_cache c x (y_r y)) (y_threads y) (y_flight y) (y_hist y).

Lemma idle_step_put c x y y' :
  idle_step y y' -> get_cache c (y_r y') = get_cache c (y_r y) /\ idle_step (put_sys c x y) (put_sys c x y').
Proof.
  destruct 1 as [r ts fl h|r ts fl h i cmd rep now ptr r' Hi Ha|r ts fl h p p' Hp]; unfold put_sys; cbn [y_r y_threads y_flight y_hist].
  - destruct c; (split; [done|]); exact (is_run _ ts fl h).
  - unfold allocate in Ha. injection Ha as <- <-.
    destruct c; (split; [done|]); exact (is_report (put_cache _ x r) ts fl h i cmd rep now _ _ Hi eq_refl).
  - split; [by destruct c|].
    assert (put_cache c x (set_push r (Some p')) = set_push (put_cache c x r) (Some p')) as -> by (by destruct c).
    apply (is_channel _ ts fl h p p'). by destruct c.
Qed.

Lemma net_step_put c x y y' :
  net_step y y' -> get_cache c (y_r y') = get_cache c (y_r y) /\ net_step (put_sys c x y) (put_sys c x y').
Proof.
  destruct 1 as [r ts h i Hi|r ts sent h|r ts sent h i cmds Hi|r ts sent h i cmds Hi|r ts fl h i cmd Hi Hp];
    unfold put_sys; cbn [y_r y_threads y_flight y_hist]; (split; [by destruct c|]).
  - destruct c; exact (ss_poll (put_cache _ x r) ts h i Hi).
  - apply ss_fail.
  - destruct c; exact (ss_reply (put_cache _ x r) ts sent h i cmds Hi).
  - by apply ss_not_ok.
  - apply ss_push; [done|by destruct c].
Qed.

(** ** Lookups that do not overlap *)

(** The agent with the lookup under way, if any, finished. *)
Inductive sim : fine -> sys -> Prop :=
| sim_none y : sim (mkFine y ∅) y
| sim_one y i a :
    under_way a ->
    sim (mkFine y {[i := a]}) (put_sys (ac_cache a) (finish_cache a (get_cache (ac_cache a) (y_r y))) y).

Lemma alter_other (acc : gmap nat access) i : acc !! i = None -> partial_alter (fun _ => None) i acc = acc.
Proof. intros Hi. rewrite <- (partial_alter_self acc i) at 2. by rewrite Hi. Qed.

Lemma alter_empty i (a : access) : partial_alter (fun _ => Some a) i (∅ : gmap nat access) = {[i := a]}.
Proof. done. Qed.

Lemma alter_singleton i (a : access) a' :
  partial_alter (fun _ => a') i ({[i := a]} : gmap nat access) = match a' with Some a' => {[i := a']} | None => ∅ end.
Proof.
  apply map_eq. intros j. rewrite lookup_partial_alter. case_decide as Hj; subst; destruct a' as [a'|]; by simplify_map_eq.
Qed.

Lemma sim_step f f' y : exclusive_step f f' -> sim f y -> exists y', sim f' y' /\ rtc sstep y y'.
Proof.
  intros (l & Hstep & Hex) Hsim.
  destruct Hstep as [r ts fl h acc j k o ops now new r' a' Hj Hacc He|r ts fl h acc j a0 a' r' Hacc Ha|y1 y2 acc Hi|y1 y2 acc Hn].
  - inversion Hsim as [|? i a Hu]; subst.
    + apply exec_lookup_finish in He. destruct a' as [a|].
      * destruct He as [Hu He]. rewrite alter_empty. eexists. split; [by apply sim_one|].
        apply rtc_once, ss_local. by eapply (ls_op r).
      * rewrite alter_other by done. eexists. split; [apply sim_none|]. apply rtc_once, ss_local. by eapply ls_op.
    + destruct (is_lookup o) eqn:Ho; [by destruct (map_non_empty_singleton (M := gmap nat) i a); apply Hex|].
      pose proof (exec_lookup_other _ _ _ _ _ _ Ho He) as ->. rewrite alter_other by done.
      apply exec_lookup_finish in He.
      destruct (exec_op_put (ac_cache a) (finish_cache a (get_cache (ac_cache a) r)) o now r new r' h Ho He) as (Hg & He' & Hno).
      eexists. split; [by apply sim_one|]. apply rtc_once, ss_local. unfold put_sys. cbn [y_r y_threads y_flight y_hist].
      rewrite Hg, <- Hno. by eapply ls_op.
  - inversion Hsim as [|? i a Hu]; subst; [done|].
    apply lookup_singleton_Some in Hacc as [<- <-]. pose proof (access_step_finish _ _ _ _ Hu Ha) as Hf.
    destruct a' as [a'|].
    + destruct Hf as (Hu' & Hc & Hf). rewrite alter_singleton.
      exists (put_sys (ac_cache a') (finish_cache a' (get_cache (ac_cache a') r')) (mkSys r' ts fl h)).
      split; [by apply sim_one|]. unfold put_sys, finish in *. cbn [y_r y_threads y_flight y_hist]. rewrite Hf. apply rtc_refl.
    + subst r'. rewrite alter_singleton. eexists. split; [apply sim_none|]. apply rtc_refl.
  - inversion Hsim as [|? i a Hu]; subst; [eexists; split; [apply sim_none|by apply rtc_once, ss_local, ls_idle]|].
    destruct (idle_step_put (ac_cache a) (finish_cache a (get_cache (ac_cache a) (y_r y1))) _ _ Hi) as [Hg Hs].
    eexists. split; [by apply sim_one|]. rewrite Hg. by apply rtc_once, ss_local, ls_idle.
  - inversion Hsim as [|? i a Hu]; subst; [eexists; split; [apply sim_none|by apply rtc_once, ss_net]|].
    destruct (net_step_put (ac_cache a) (finish_cache a (get_cache (ac_cache a) (y_r y1))) _ _ Hn) as [Hg Hs].
    eexists. split; [by apply sim_one|]. rewrite Hg. by apply rtc_once, ss_net.
Qed.

Lemma exclusive_run cfg push f :
  rtc exclusive_step (fine_start cfg push) f -> exists y, sim f y /\ rtc sstep (sys_start cfg push) y.
Proof.
  intros Hf. refine (rtc_ind_r (fun f => exists y, sim f y /\ rtc sstep (sys_start cfg push) y) _ _ _ f Hf).
  - exists (sys_start cfg push). split; [apply sim_none|apply rtc_refl].
  - intros f1 f2 _ Hstep (y & Hsim & Hy). destruct (sim_step _ _ _ Hstep Hsim) as (y' & Hsim' & Hy').
    exists y'. split; [done|]. by etrans.
Qed.

(** What the simulation keeps. *)
Lemma sim_same f y :
  sim f y -> y_threads y = y_threads (f_sys f) /\ y_hist y = y_hist (f_sys f) /\ y_flight y = y_flight (f_sys f) /\
  r_spawned (y_r y) = r_spawned (y_r (f_sys f)) /\ r_queue (y_r y) = r_queue (y_r (f_sys f)).
Proof. destruct 1 as [y|y i a Hu]; [done|]. cbn. by destruct (ac_cache a). Qed.

(** C15. A lookup is one step as long as lookups do not overlap: every run of the
    unsynchronised agent in which no lookup begins while another is under way ends
    in a state that a run of [Goroutines] reaches too, but for the lookup still
    under way: the same goroutines, history, poll, commands started and queue, and
    the same receiver when no lookup is under way. *)
Theorem exclusive_refines cfg push f :
  rtc exclusive_step (fine_start cfg push) f ->
  exists y, rtc sstep (sys_start cfg push) y /\
    y_threads y = y_threads (f_sys f) /\ y_hist y = y_hist (f_sys f) /\ y_flight y = y_flight (f_sys f) /\
    r_spawned (y_r y) = r_spawned (y_r (f_sys f)) /\ r_queue (y_r y) = r_queue (y_r (f_sys f)) /\
    (f_acc f = ∅ -> y_r y = y_r (f_sys f)).
Proof.
  intros Hf. destruct (exclusive_run _ _ _ Hf) as (y & Hsim & Hy). exists y. split; [done|].
  destruct (sim_same _ _ Hsim) as (? & ? & ? & ? & ?). split_and!; try done.
  destruct Hsim as [y|y i a Hu]; [done|]. cbn [f_acc]. intros Hacc. by destruct (map_non_empty_singleton (M := gmap nat) i a).
Qed.

(** ** With the fast path off *)

(** The read loop takes no command. *)
Definition poll_step (f f' : fine) : Prop := any_step f f' /\ y_threads (f_sys f') !! 1%nat = Some (KWs, []).

(** The poll loop is the only goroutine that looks keys up. *)
Definition post_op (o : op) : Prop := is_lookup o = false /\ started_by o = [].
Definition thread_ok (i : nat) (t : kind * list op) : Prop :=
  match i with
  | O => t.1 = KPoll
  | S O => t = (KWs, [])
  | _ => (exists cmd, t.1 = KCommand cmd) /\ Forall post_op t.2
  end.

Record poll_only (f : fine) : Prop := {
  po_loops : (2 <= length (y_threads (f_sys f)))%nat;
  po_threads : forall i t, y_threads (f_sys f) !! i = Some t -> thread_ok i t;
  po_access : forall i, is_Some (f_acc f !! i) -> i = 0%nat;
}.

Lemma threads_update (ts : list (kind * list op)) i t' new :
  (2 <= length ts)%nat -> (forall j t, ts !! j = Some t -> thread_ok j t) -> thread_ok i t' ->
  Forall (fun t => (exists cmd, t.1 = KCommand cmd) /\ Forall post_op t.2) new ->
  forall j t, (<[i := t']> ts ++ new) !! j = Some t -> thread_ok j t.
Proof.
  intros Hlen Hts Ht Hnew j t Hj. apply lookup_app_Some in Hj as [Hj|[Hge Hj]].
  - apply list_lookup_insert_Some in Hj as [(-> & <- & _)|[_ Hj]]; [done|by apply Hts].
  - rewrite length_insert in Hge. rewrite Forall_lookup in Hnew. specialize (Hnew _ _ Hj).
    destruct j as [|[|j]]; [lia..|done].
Qed.

Lemma post_op_exec o now r new r' a : post_op o -> exec_lookup o now r = (new, r', a) -> Forall post_op new.
Proof.
  destruct o as [cmd|cmd|cmd st msg|ptr|ptr|cmd]; intros [Hl Hs]; try done; cbn [exec_lookup exec_op].
  - intros [= <- <- <-]. by repeat constructor.
  - destruct (try_push ptr r) as [sent r1]. intros [= <- _ _]. destruct (_ || _); by repeat constructor.
  - intros [= <- <- <-]. constructor.
Qed.

Lemma poll_only_step f f' : poll_step f f' -> poll_only f -> poll_only f' /\ exclusive_step f f'.
Proof.
  intros [(l & Hstep) Hws] [Hlen Hts Hacc].
  destruct Hstep as [r ts fl h acc i k o ops now new r' a Hi Hn He|r ts fl h acc i a a' r' Hi Ha|y1 y2 acc Hi|y1 y2 acc Hn];
    cbn [f_sys f_acc y_threads] in *.
  - assert (thread_ok i (k, o :: ops)) as Hok by (by apply Hts).
    assert (i = 0%nat \/ post_op o) as Hcase by (destruct i as [|[|i]]; [by left|done|right; by inversion_clear Hok as [_ Hf]; inversion_clear Hf]).
    split.
    + split; cbn [f_sys f_acc y_threads]; [rewrite length_app, length_insert; lia| |].
      * apply threads_update; [done..| |destruct o; repeat constructor; by eexists].
        destruct i as [|[|i]]; [done|done|]. destruct Hok as [Hk Hf]. inversion_clear Hf as [|?? Ho Hf'].
        split; [done|]. apply Forall_app. split; [by eapply post_op_exec|done].
      * intros j [x Hj]. destruct (decide (j = i)) as [->|Hne].
        -- rewrite lookup_partial_alter, decide_True in Hj by done. subst a.
           destruct Hcase as [->|[Ho _]]; [done|]. by apply exec_lookup_other in He.
        -- rewrite lookup_partial_alter, decide_False in Hj by done. apply Hacc. by eexists.
    + exists (is_lookup o). split; [by econstructor|]. cbn [f_acc]. intros Hl. destruct Hcase as [->|[Ho _]]; [|congruence].
      apply map_eq. intros j. rewrite lookup_empty. destruct (acc !! j) as [x|] eqn:Hj; [|done].
      rewrite (Hacc j) in Hj by (by eexists). congruence.
  - split; [|by exists false; split; [econstructor|done]].
    split; cbn [f_sys f_acc y_threads]; [done|done|]. intros j [x Hj]. destruct (decide (j = i)) as [->|Hne].
    + apply Hacc. by eexists.
    + rewrite lookup_partial_alter, decide_False in Hj by done. apply Hacc. by eexists.
  - split; [|by exists false; split; [constructor|done]].
    destruct Hi as [r ts fl h|r ts fl h i cmd rep now ptr r' Hi Ha|r ts fl h p p' Hp]; cbn [y_threads] in *; split; cbn [f_sys f_acc y_threads]; try done.
    + by rewrite length_insert.
    + rewrite <- (app_nil_r (<[i := _]> ts)). apply threads_update; [done..| |constructor].
      specialize (Hts _ _ Hi). destruct i as [|[|i]]; [done|done|]. split; [by eexists|by repeat constructor].
  - split; [|by exists false; split; [constructor|done]].
    destruct Hn as [r ts h i Hi|r ts sent h|r ts sent h i cmds Hi|r ts sent h i cmds Hi|r ts fl h i cmd Hi Hp];
      cbn [y_threads] in *; split; cbn [f_sys f_acc y_threads]; rewrite ?length_insert; try done;
      pose proof (Hts _ _ Hi) as Hok; rewrite <- (app_nil_r (<[i := _]> ts)); (apply threads_update; [done..| |constructor]).
    + destruct i as [|[|i]]; [done|done|]. by destruct Hok as [[? ?] _].
    + destruct i as [|[|i]]; [done|done|]. by destruct Hok as [[? ?] _].
    + destruct i as [|[|i]]; [done| |by destruct Hok as [[? ?] _]].
      rewrite list_lookup_insert_eq in Hws by lia. done.
Qed.

Lemma poll_only_run cfg push f : rtc poll_step (fine_start cfg push) f -> rtc exclusive_step (fine_start cfg push) f.
Proof.
  intros Hf.
  refine (proj1 (rtc_ind_r (R := poll_step) (fun f => rtc exclusive_step (fine_start cfg push) f /\ poll_only f) (fine_start cfg push) _ _ f Hf)).
  - split; [apply rtc_refl|]. split; cbn; [lia| |].
    + intros i t Hi. destruct i as [|[|i]]; cbn in Hi; by simplify_eq.
    + intros i [x Hi]. by rewrite lookup_empty in Hi.
  - intros f1 f2 _ Hs [Hr Hp]. destruct (poll_only_step _ _ Hs Hp) as [Hp' Hx]. split; [|done]. by eapply rtc_r.
Qed.

(** C2. With the fast path off the missing lock does no harm: whatever the
    goroutines interleave, down to the single accesses of the replay caches, as
    long as the WebSocket loop takes no command only signed commands are started,
    no nonce and no ID twice within a window of 10000. *)
Theorem poll_only_safe cfg push f :
  rtc poll_step (fine_start cfg push) f -> intake_safe cfg (y_hist (f_sys f)) (r_spawned (y_r (f_sys f))).*1.
Proof.
  intros Hf%poll_only_run. destruct (exclusive_run _ _ _ Hf) as (y & Hsim & Hy).
  destruct (sim_same _ _ Hsim) as (_ & <- & _ & <- & _). by eapply reachable_intake_safe.
Qed.

(** ** With both loops at work *)

Lemma fine_section r ts fl h acc i k o ops now new r' :
  ts !! i = Some (k, o :: ops) -> acc !! i = None -> is_lookup o = false -> exec_op o now r = (new, r') ->
  any_step (mkFine (mkSys r ts fl h) acc)
    (mkFine (mkSys r' (<[i := (k, new ++ ops)]> ts ++ started_by o) fl (note o now r h)) acc).
Proof.
  intros Hi Hacc Ho He. exists (is_lookup o).
  assert (exec_lookup o now r = (new, r', None)) as He' by (destruct o; try done; cbn [exec_lookup]; by rewrite He).
  pose proof (fs_op r ts fl h acc i k o ops now new r' None Hi Hacc He') as Hs. by rewrite alter_other in Hs.
Qed.

(** A lookup under way is finished. *)
Lemma fine_finish r ts fl h acc i a :
  acc !! i = Some a -> under_way a ->
  rtc any_step (mkFine (mkSys r ts fl h) acc) (mkFine (mkSys (finish a r) ts fl h) (delete i acc)).
Proof.
  assert (forall r acc a, acc !! i = Some a -> ac_pc a = SeenThreads.AtEvict ->
    any_step (mkFine (mkSys r ts fl h) acc) (mkFine (mkSys (finish a r) ts fl h) (delete i acc))) as Hev.
  { clear. intros r acc [c key p] Hi Hp. cbn in Hp. subst p. exists false. by eapply fs_access. }
  intros Hi [Hp|Hp]; [|by apply rtc_once, Hev].
  destruct a as [c key p]. cbn in Hp. subst p. set (a' := mkAccess c key SeenThreads.AtEvict).
  destruct (access_step (mkAccess c key SeenThreads.AtInsert) r) as [a'' r'] eqn:Ha.
  assert (a'' = Some a') as -> by (cbn in Ha; by simplify_eq).
  assert (under_way (mkAccess c key SeenThreads.AtInsert)) as Hu by (by left).
  destruct (access_step_finish _ _ _ _ Hu Ha) as (_ & _ & <-).
  eapply rtc_l; [exists false; by eapply fs_access|]. apply rtc_once.
  assert (delete i acc = delete i (partial_alter (fun _ => Some a') i acc)) as ->.
  { apply map_eq. intros j. destruct (decide (j = i)) as [->|Hne]; simplify_map_eq; [done|].
    by rewrite lookup_partial_alter, decide_False by done. }
  apply Hev; [|done]. by rewrite lookup_partial_alter, decide_True.
Qed.

(** What the fast path answers does not touch the commands started. *)
Lemma try_push_started ptr r : exists sent p', try_push ptr r = (sent, set_push r p').
Proof.
  destruct (try_push_frame ptr r) as [p' Hf]. exists (try_push ptr r).1, p'. rewrite <- Hf. by destruct (try_push ptr r).
Qed.

(** A goroutine past its lookups: the receipt goes out over the fast path, or into
    the queue, and the handler is started. *)
Lemma fine_start_command r ts fl h acc i k cmd (now : Time) :
  ts !! i = Some (k, [OpReport cmd StatusReceived ""; OpSpawn cmd]) -> acc !! i = None ->
  exists r' h', rtc any_step (mkFine (mkSys r ts fl h) acc)
      (mkFine (mkSys r' (<[i := (k, [])]> ts ++ [(KCommand cmd, [])]) fl h') acc) /\
    (r_spawned r').*1 = (r_spawned r).*1 ++ [cmd].
Proof.
  intros Hi Hacc. pose proof (lookup_lt_Some _ _ _ Hi) as Hlt.
  set (ptr := (allocate r (newReport r cmd StatusReceived "" now)).1).
  set (r1 := (allocate r (newReport r cmd StatusReceived "" now)).2).
  destruct (try_push_started ptr r1) as (sent & p' & Htp).
  assert (exec_op (OpSend ptr) now r1 = (if sent then [] else [OpEnqueue ptr], set_push r1 p')) as Hse
    by (cbn [exec_op]; rewrite Htp; by destruct sent).
  destruct sent; eexists _, _; split.
  1,3: eapply rtc_l; [exact (fine_section r ts fl h acc i k _ _ now _ _ Hi Hacc eq_refl eq_refl)|]; fold ptr;
    cbn [started_by app]; rewrite app_nil_r;
    (eapply rtc_l; [eapply (fine_section _ _ _ _ _ i _ _ _ now); [by apply list_lookup_insert_eq|done..|exact Hse]|]);
    cbn [started_by app]; rewrite app_nil_r, list_insert_insert_eq;
    repeat (eapply rtc_l; [eapply (fine_section _ _ _ _ _ i _ _ _ now); [by apply list_lookup_insert_eq|done..]|];
      cbn [started_by app]; rewrite ?app_nil_r, list_insert_insert_eq); apply rtc_refl.
  all: cbn; by rewrite fmap_app.
Qed.

(** C14. With both loops at work the missing lock lets one command be executed
    twice: whatever the configuration of a running writer and the push channel it
    was given, a signed command within the clock window that the control plane
    sends over the poll and over the WebSocket, as it does in a failover, can pass
    both replay caches in both loops, so that two goroutines are started for it. *)
Theorem race_runs_twice cfg push cmd now :
  signed cfg cmd -> - maxClockSkew <= Sub now (Unix (Cmd_Timestamp cmd)) <= maxClockSkew ->
  exists f, rtc any_step (fine_start cfg (Some push)) f /\ (r_spawned (y_r (f_sys f))).*1 = [cmd; cmd].
Proof.
  intros [Hw (pub & Hpub & Hsig)] Hskew.
  set (r0 := New cfg (Some push)). set (ida := mkAccess IDs (Cmd_ID cmd) SeenThreads.AtInsert).
  set (noa := mkAccess Nonces (Cmd_Nonce cmd) SeenThreads.AtInsert).
  (* both loops look the ID up, then both record it *)
  set (r1 := finish ida (finish ida (set_queue r0 (clearSent [] (r_queue r0))))).
  assert (exists h, rtc any_step (fine_start cfg (Some push))
    (mkFine (mkSys r1 [(KPoll, [OpValidate cmd]); (KWs, [OpValidate cmd])] None h) ∅)) as (h1 & Hids).
  { eexists. unfold fine_start, sys_start. fold r0.
    eapply rtc_l; [exists false; by apply fs_net, (ss_poll _ _ _ 0)|].
    eapply rtc_l; [exists false; by apply fs_net, (ss_reply _ _ _ _ 0 [cmd])|].
    eapply rtc_l; [exists false; by apply fs_net, (ss_push _ _ _ _ 1 cmd); [|eexists]|]. cbn [fmap list_fmap insert list_insert].
    eapply rtc_l; [eexists; by eapply (fs_op _ _ _ _ _ 0 _ (OpSeenID cmd) [] now)|]. cbn [insert list_insert app started_by].
    eapply rtc_l; [eexists; by eapply (fs_op _ _ _ _ _ 1 _ (OpSeenID cmd) [] now)|]. cbn [insert list_insert app started_by].
    etrans; [apply (fine_finish _ _ _ _ _ 0 ida); [done|by left]|].
    etrans; [apply (fine_finish _ _ _ _ _ 1 ida); [done|by left]|]. apply rtc_refl. }
  (* both look the nonce up, then both record it *)
  assert ((validate r1 cmd now).1 = "") as Hval.
  { apply validate_spec. split; [exact Hw|by exists pub|exact Hskew|apply not_elem_of_empty]. }
  set (r2 := finish noa (finish noa r1)).
  set (todo := [OpReport cmd StatusReceived ""; OpSpawn cmd]).
  assert (exists h, rtc any_step (mkFine (mkSys r1 [(KPoll, [OpValidate cmd]); (KWs, [OpValidate cmd])] None h1) ∅)
    (mkFine (mkSys r2 [(KPoll, todo); (KWs, todo)] None h) ∅)) as (h2 & Hnonces).
  { assert (exec_lookup (OpValidate cmd) now r1 = (todo, r1, Some noa)) as He by (cbn [exec_lookup]; by rewrite Hval).
    eexists. eapply rtc_l; [eexists; by eapply (fs_op _ _ _ _ _ 0 _ (OpValidate cmd) [] now)|].
    eapply rtc_l; [eexists; by eapply (fs_op _ _ _ _ _ 1 _ (OpValidate cmd) [] now)|].
    cbn [insert list_insert app started_by]. unfold todo. rewrite !app_nil_r. fold todo.
    etrans; [apply (fine_finish _ _ _ _ _ 0 noa); [done|by left]|].
    etrans; [apply (fine_finish _ _ _ _ _ 1 noa); [done|by left]|]. apply rtc_refl. }
  (* and both start it *)
  destruct (fine_start_command r2 [(KPoll, todo); (KWs, todo)] None h2 ∅ 0 KPoll cmd now) as (r3 & h3 & Hs3 & Hsp3); [done..|].
  destruct (fine_start_command r3 [(KPoll, []); (KWs, todo); (KCommand cmd, [])] None h3 ∅ 1 KWs cmd now)
    as (r4 & h4 & Hs4 & Hsp4); [done..|].
  eexists. split; [etrans; [exact Hids|]; etrans; [exact Hnonces|]; etrans; [exact Hs3|exact Hs4]|].
  cbn [f_sys y_r]. by rewrite Hsp4, Hsp3.
Qed.

(** ** Schedules with the fast path off *)

Inductive fevent := FSection (i : nat) (now : Time) | FAccess (i : nat) | FPoll | FReply (cmds : list Command).

Definition ffire (e : fevent) (f : fine) : fine :=
  let '(mkFine (mkSys r ts fl h) acc) := f in
  match e with
  | FSection i now =>
      match ts !! i, acc !! i with
      | Some (k, o :: ops), None =>
          let '(new, r', a) := exec_lookup o now r in
          mkFine (mkSys r' (<[i := (k, new ++ ops)]> ts ++ started_by o) fl (note o now r h)) (partial_alter (fun _ => a) i acc)
      | _, _ => f
      end
  | FAccess i =>
      match acc !! i with
      | Some a => let '(a', r') := access_step a r in mkFine (mkSys r' ts fl h) (partial_alter (fun _ => a') i acc)
      | None => f
      end
  | FPoll =>
      match fl, ts !! 0%nat with
      | None, Some (KPoll, []) => mkFine (mkSys r ts (Some (poll_request r)) h) acc
      | _, _ => f
      end
  | FReply cmds =>
      match fl, ts !! 0%nat with
      | Some sent, Some (KPoll, []) =>
          mkFine (mkSys (set_queue r (clearSent sent (r_queue r))) (<[0%nat := (KPoll, OpSeenID <$> cmds)]> ts) None
            (note_taken cmds (note_ack sent h))) acc
      | _, _ => f
      end
  end.

Lemma ffire_step e f : ffire e f = f \/ any_step f (ffire e f).
Proof.
  destruct f as [[r ts fl h] acc]. destruct e as [i now|i| |cmds]; cbn [ffire].
  - destruct (ts !! i) as [[k [|o ops]]|] eqn:Hi, (acc !! i) as [a|] eqn:Ha; try by left.
    destruct (exec_lookup o now r) as [[new r'] a'] eqn:He. right. eexists. by eapply fs_op.
  - destruct (acc !! i) as [a|] eqn:Ha; [|by left]. destruct (access_step a r) as [a' r'] eqn:Hs.
    right. eexists. by eapply fs_access.
  - destruct fl as [sent|], (ts !! 0%nat) as [[[] [|o ops]]|] eqn:Hi; try by left.
    right. eexists. by eapply fs_net, ss_poll.
  - destruct fl as [sent|], (ts !! 0%nat) as [[[] [|o ops]]|] eqn:Hi; try by left.
    right. eexists. by eapply fs_net, ss_reply.
Qed.

(** The steps of a schedule in which the read loop stays where it is. *)
Definition poll_fire (f : fine) (e : fevent) : fine :=
  match y_threads (f_sys (ffire e f)) !! 1%nat with Some (KWs, []) => ffire e f | _ => f end.

Lemma poll_schedule_reach es f : rtc poll_step f (foldl poll_fire f es).
Proof.
  revert f. induction es as [|e es IH]; intros f; [apply rtc_refl|]. cbn. etrans; [|apply IH].
  unfold poll_fire. destruct (y_threads (f_sys (ffire e f)) !! 1%nat) as [[[] []]|] eqn:H1; try apply rtc_refl.
  destruct (ffire_step e f) as [->|Hs]; [apply rtc_refl|]. by apply rtc_once.
Qed.

End Races.

(** ** The concrete receiver *)
Module RacesExample.
Import ReceiverExample GoroutinesExample.
#[local] Existing Instance half_open.
#[local] Existing Instance ToyEd25519.toy.

Lemma race_runs_twice_witness :
  exists f, rtc any_step (fine_start sample_config (Some tt)) f /\
    (r_spawned (y_r (f_sys f))).*1 = [command "cmd-1" "n-1"; command "cmd-1" "n-1"].
Proof.
  apply (race_runs_twice sample_config tt (command "cmd-1" "n-1") t0).
  - split; [vm_compute; reflexivity|]. eexists. split; [vm_compute; reflexivity|vm_compute; reflexivity].
  - vm_compute. split; discriminate.
Defined.

(** The poll loop takes two commands with one ID; the second is caught by the ID
    the first has recorded. *)
Definition polled_twice : fine :=
  foldl poll_fire (fine_start sample_config (Some tt))
    ([FPoll; FReply [command "cmd-1" "n-1"; command "cmd-1" "n-2"]; FSection 0 t0; FAccess 0; FAccess 0; FSection 0 t0;
      FAccess 0; FAccess 0] ++ replicate 5 (FSection 0 t0)).

Lemma polled_twice_reachable : rtc poll_step (fine_start sample_config (Some tt)) polled_twice.
Proof. exact (poll_schedule_reach _ _). Qed.

Example polled_twice_started :
  ((r_spawned (y_r (f_sys polled_twice))).*1, y_threads (f_sys polled_twice) !! 0%nat)
  = ([command "cmd-1" "n-1"], Some (KPoll, [])).
Proof. vm_compute. reflexivity. Qed.

Lemma poll_only_safe_witness :
  intake_safe sample_config (y_hist (f_sys polled_twice)) (r_spawned (y_r (f_sys polled_twice))).*1.
Proof. exact (poll_only_safe sample_config (Some tt) polled_twice polled_twice_reachable). Defined.

Lemma exclusive_refines_witness :
  exists y, rtc sstep (sys_start sample_config (Some tt)) y /\ r_spawned (y_r y) = r_spawned (y_r (f_sys polled_twice)).
Proof.
  destruct (exclusive_refines sample_config (Some tt) polled_twice (poll_only_run _ _ _ polled_twice_reachable))
    as (y & Hy & _ & _ & _ & Hsp & _).
  exact (ex_intro _ y (conj Hy Hsp)).
Defined.
End RacesExample.
