(* ===== verification/PollLoop.v ===== *)
(** * internal/receiver: the poll loop

    [Run], which polls until its context is done: iterations of
    [Receiver.run_after_poll] with the sleeps between them.  The control plane is
    the class [Poller]; what happens around an iteration (the context, the random
    draw, the clocks, and what the other goroutines do to the receiver during the
    request and the sleep) is an argument. *)

From S2P Require Import Prelude GoTime Protocol Config Metrics Backoff NonceCache ReportQueue Receiver.
Local Open Scope Z_scope.

(** The [poll] function of [New]: a request, and its outcome. *)
Class Poller (W : Type) := { op_poll : PollRequest -> W -> poll_result * W }.

Section PollLoop.
Context `{Ed25519} {P : Type} `{!PushChannel P} {W : Type} `{!Poller W}.
Implicit Types r : Receiver P.

(** Around an iteration: what other goroutines do to the receiver until the reply
    and until the next request, whether the context is done when the request
    fails, and whether the sleep runs to its end. *)
Record around := mkAround {
  ar_during : Receiver P -> Receiver P;
  ar_cancelled : bool;
  ar_draw : Z;
  ar_now : Time;
  ar_now' : Time;
  ar_asleep : Receiver P -> Receiver P;
  ar_slept : bool;
}.

(** [sleep] of a duration: the timer against the context, and the other goroutines
    meanwhile. *)
Definition sleep (e : around) (r : Receiver P) : Receiver P * bool := (ar_asleep e r, ar_slept e).

(** An iteration as an observer sees it: the request, whether it failed and for
    the token, whether a rejected token was logged as an error, and the sleep, if
    there was one. *)
Record iteration := mkIteration {
  it_request : PollRequest;
  it_failed : bool;
  it_auth : bool;
  it_shouted : bool;
  it_sleep : run_next;
}.

Definition request r : PollRequest := mkPollRequest (ClusterID (r_cfg r)) agentVersion (rp_val <$> poll_request r).

(** The condition of the error log of a rejected token. *)
Definition shouts (res : poll_result) (cancelled : bool) (bo : backoff) : bool :=
  match res with PollError auth => negb cancelled && auth && negb (bo_authLogged bo) | PollReply _ => false end.

(** The loop of [Run], at most [fuel] iterations; the last component says whether
    it has returned. *)
Fixpoint loop (fuel : nat) (env : nat -> around) (i : nat) r (bo : backoff) (w : W)
    : outcome (list iteration * Receiver P * backoff * W * bool) :=
  match fuel with
  | O => Done ([], r, bo, w, false)
  | S f =>
      let e := env i in
      let sent := poll_request r in
      let '(res, w') := op_poll (request r) w in
      outcome_bind (run_after_poll (ar_during e r) bo sent res (ar_cancelled e) (ar_draw e) (ar_now e) (ar_now' e))
        (fun '(r', bo', next) =>
          let it := mkIteration (request r) (match res with PollError _ => true | PollReply _ => false end)
                      (match res with PollError auth => auth | PollReply _ => false end) (shouts res (ar_cancelled e) bo) next in
          match next with
          | Stop => Done ([it], r', bo', w', true)
          | Sleep d =>
              let '(r', slept) := sleep e r' in
              if negb slept then Done ([it], r', bo', w', true)
              else outcome_bind (loop f env (S i) r' bo' w') (fun '(its, r, bo, w, stopped) => Done (it :: its, r, bo, w, stopped))
          end)
  end.

Definition Run (fuel : nat) (env : nat -> around) r (w : W) : outcome (list iteration * Receiver P * backoff * W * bool) :=
  loop fuel env 0 (set_running r true) new_backoff w.

(** ** Delays and error logs *)

(** The iterations of a run from the [i]-th on: [j] polls have failed since the
    last success, [shouted] is whether a rejected token has been logged since
    then, and [stopped] whether [Run] returned after them.  It returns at a failed
    poll with the context done, which is neither logged nor slept on, and at a
    sleep that the context cut short. *)
Fixpoint paced (env : nat -> around) (interval : Z) (i j : nat) (shouted : bool) (its : list iteration) (stopped : bool) : Prop :=
  match its with
  | [] => stopped = false
  | it :: its =>
      match it_sleep it with
      | Stop =>
          it_failed it = true /\ ar_cancelled (env i) = true /\ it_shouted it = false /\ its = [] /\ stopped = true
      | Sleep d =>
          (if it_failed it then
             ar_cancelled (env i) = false /\ 8 * base_delay j <= 10 * d <= 12 * base_delay j /\
             it_shouted it = it_auth it && negb shouted
           else d = interval /\ it_shouted it = false) /\
          (if ar_slept (env i) then
             if it_failed it then paced env interval (S i) (S j) (shouted || it_auth it) its stopped
             else paced env interval (S i) 0 false its stopped
           else its = [] /\ stopped = true)
      end
  end.

Lemma process_cfg r now now' cmd r' : process r now now' cmd = Done r' -> r_cfg r' = r_cfg r.
Proof.
  unfold process. destruct cmd as [cmd|]; [|done]. destruct (seen _ _) as [[] ids]; [by intros [= <-]|].
  destruct (validate_spec (set_ids r ids) cmd now) as [_ Hst].
  destruct (validate (set_ids r ids) cmd now) as [reason r2]. cbn [fst snd] in Hst.
  destruct (negb _); intros [= <-]; cbn [set_spawned r_cfg].
  - match goal with |- r_cfg (deliverReport ?a ?b) = _ => destruct (deliverReport_frame a b) as (-> & _) end. by rewrite Hst.
  - match goal with |- r_cfg (deliverReport ?a ?b) = _ => destruct (deliverReport_frame a b) as (-> & _) end. by rewrite Hst.
Qed.

Lemma process_all_cfg now now' cmds r r' : process_all r now now' cmds = Done r' -> r_cfg r' = r_cfg r.
Proof.
  revert r. induction cmds as [|c cmds IH]; intros r; cbn [process_all]; [by intros [= <-]|].
  destruct (process r now now' c) as [r1|] eqn:Hp; [|done]. cbn [outcome_bind]. intros ->%IH. by eapply process_cfg.
Qed.

(** Other goroutines do not touch the configuration. *)
Definition keeps_cfg (e : around) : Prop :=
  (forall r, r_cfg (ar_during e r) = r_cfg r) /\ (forall r, r_cfg (ar_asleep e r) = r_cfg r).

(** One iteration. *)
Lemma iteration_paced r bo sent res cancelled k now now' j r' bo' next :
  float64_draw k -> holds bo j -> run_after_poll r bo sent res cancelled k now now' = Done (r', bo', next) ->
  r_cfg r' = r_cfg r /\
  match res, next with
  | PollError auth, Stop => cancelled = true
  | PollError auth, Sleep d =>
      cancelled = false /\ 8 * base_delay j <= 10 * d <= 12 * base_delay j /\ holds bo' (S j) /\
      bo_authLogged bo' = bo_authLogged bo || auth
  | PollReply _, Stop => False
  | PollReply _, Sleep d => d = PollInterval (r_cfg r) /\ bo' = reset bo
  end.
Proof.
  intros Hk Hb. unfold run_after_poll. destruct res as [auth|resp].
  - destruct cancelled; [by intros [= <- <- <-]|]. set (bo1 := if auth then _ else bo).
    assert (holds bo1 j) as Hb1 by (by destruct auth). destruct (next_holds k bo1 j Hk Hb1) as [Hh Hd].
    assert (bo_authLogged (Backoff.next k bo1).2 = bo_authLogged bo || auth) as Hl
      by (destruct auth; cbn; by rewrite ?orb_true_r, ?orb_false_r).
    destruct (Backoff.next k bo1) as [d bo2]. cbn [fst snd] in *. by intros [= <- <- <-].
  - destruct (process_all _ _ _ _) as [r1|] eqn:Hp; [|done]. cbn [outcome_bind]. intros [= <- <- <-].
    apply process_all_cfg in Hp. rewrite Hp. by destruct (Resp_OK resp).
Qed.

Lemma loop_paced fuel env i r bo w its r' bo' w' stopped j :
  (forall i, float64_draw (ar_draw (env i)) /\ keeps_cfg (env i)) -> holds bo j ->
  loop fuel env i r bo w = Done (its, r', bo', w', stopped) ->
  paced env (PollInterval (r_cfg r)) i j (bo_authLogged bo) its stopped /\ (stopped = false -> length its = fuel).
Proof.
  intros Henv. revert i r bo w its j r' bo' w' stopped.
  induction fuel as [|f IH]; intros i r bo w its j r' bo' w' stopped Hb; cbn [loop]; [by intros [= <- _ _ _ <-]|].
  destruct (Henv i) as [Hk [Hdur Hsl]]. destruct (op_poll (request r) w) as [res w1].
  destruct (run_after_poll _ _ _ _ _ _ _ _) as [[[r1 bo1] nx]|] eqn:Ha; [|done]. cbn [outcome_bind].
  destruct (iteration_paced _ _ _ _ _ _ _ _ _ _ _ _ Hk Hb Ha) as [Hcfg Hres]. rewrite Hdur in Hcfg, Hres.
  destruct nx as [d|].
  - unfold sleep. destruct (ar_slept (env i)) eqn:Hslept; cbn [negb].
    + destruct (loop f env (S i) (ar_asleep (env i) r1) bo1 w1) as [[[[[its1 r2] bo2] w2] st]|] eqn:Hl; [|done].
      cbn [outcome_bind]. intros [= <- _ _ _ <-]. cbn [paced it_sleep it_failed it_auth it_shouted length]. rewrite Hslept.
      destruct res as [auth|resp].
      * destruct Hres as (Hc & Hd & Hh & Hlog). eapply IH in Hl as [Hl Hn]; [|exact Hh].
        rewrite Hsl, Hcfg, Hlog in Hl. cbn. rewrite Hc. split; [split; [exact (conj eq_refl (conj Hd eq_refl))|exact Hl]|]. intros ?. by rewrite Hn.
      * destruct Hres as [-> ->]. eapply IH in Hl as [Hl Hn]; [|apply holds_reset]. rewrite Hsl, Hcfg in Hl.
        split; [split; [done|exact Hl]|]. intros ?. by rewrite Hn.
    + intros [= <- _ _ _ <-]. cbn [paced it_sleep it_failed it_auth it_shouted]. rewrite Hslept. split; [|done].
      destruct res as [auth|resp]; [|by destruct Hres as [-> _]].
      destruct Hres as (Hc & Hd & _). cbn. rewrite Hc. exact (conj (conj eq_refl (conj Hd eq_refl)) (conj eq_refl eq_refl)).
  - intros [= <- _ _ _ <-]. destruct res as [auth|resp]; [|done]. cbn. rewrite Hres. by split_and!.
Qed.

(** C38. The poll loop is paced and complains once: whatever the control plane
    answers and the other goroutines do, after a poll that succeeded [Run] sleeps
    exactly the poll interval, after the [j]-th failure in a row [min(2^j s, 30 s)]
    within 20 percent, and in a row of failures a rejected token is logged as an
    error at its first rejection only.  [Run] returns in two cases only, at a poll
    that failed when its context was done and at a sleep its context cut short;
    otherwise it goes on. *)
Theorem poll_loop_paced fuel env r w its r' bo w' stopped :
  (forall i, float64_draw (ar_draw (env i)) /\ keeps_cfg (env i)) ->
  Run fuel env r w = Done (its, r', bo, w', stopped) ->
  paced env (PollInterval (r_cfg r)) 0 0 false its stopped /\ (stopped = false -> length its = fuel).
Proof. intros Henv Hr. by eapply (loop_paced _ _ _ _ new_backoff) in Hr. Qed.

End PollLoop.

(** ** A token that is rejected for a while *)
Module PollLoopExample.
Import ReceiverExample.
#[local] Existing Instance no_push.
#[local] Existing Instance ToyEd25519.toy.

(** The control plane answers from a list. *)
#[local] Instance scripted : Poller (list poll_result) := {
  op_poll _ w := match w with [] => (PollError false, []) | res :: w => (res, w) end;
}.

Definition quiet_around (i : nat) : around (P := Empty_set) :=
  mkAround (fun r => r) false (2 ^ 52) (clock 1700000100) (clock 1700000100) (fun r => r) (bool_decide (i <> 4%nat)).

Definition answers : list poll_result :=
  [PollError false; PollError true; PollError true; PollReply (mkPollResponse true []); PollError true].

Definition iterations : list iteration :=
  match Run 9 quiet_around start answers with Done (its, _, _, _, _) => its | Panic => [] end.

Example iterations_seen :
  (fun it => (it_failed it, it_shouted it, it_sleep it)) <$> iterations =
  [(true, false, Sleep Second); (true, true, Sleep (2 * Second)); (true, false, Sleep (4 * Second));
   (false, false, Sleep (PollInterval sample_config)); (true, true, Sleep Second)].
Proof. vm_compute. reflexivity. Qed.

Lemma poll_loop_paced_witness :
  paced quiet_around (PollInterval sample_config) 0 0 false iterations true /\ (true = false -> length iterations = 9%nat).
Proof.
  assert (exists r bo w, Run 9 quiet_around start answers = Done (iterations, r, bo, w, true)) as (r & bo & w & Hr)
    by (do 3 eexists; vm_compute; reflexivity).
  assert (forall i, float64_draw (ar_draw (quiet_around i)) /\ keeps_cfg (quiet_around i)) as Henv
    by (intros i; split; [split; [discriminate|reflexivity]|done]).
  exact (poll_loop_paced 9 quiet_around start answers iterations r bo w true Henv Hr).
Defined.
End PollLoopExample.
