(* ===== verification/Uploader.v ===== *)
(** * internal/uploader: buffering and upload of inventory events

    Events are buffered in memory, spilled to a JSON-lines file when the buffer
    is full, batched, and sent until acknowledged.  The state is the record
    [Uploader] together with the two files it owns ([disk]); the control plane
    is any type with a [BatchSender] instance, and every file-system call that
    can fail takes its outcome from an argument.

    [encoding/json] on one event is the class [EventCodec]: its laws are that
    the encoding is one line and that decoding inverts it. *)

From Stdlib Require Import Ascii.
From S2P Require Import Prelude GoStrings Protocol Config Metrics GoTime Backoff.
Local Open Scope Z_scope.

Definition defaultCapacity : Z := 10000.
Definition batchSize : Z := 200.
Definition defaultMaxBatchBytes : Z := 524288.
Definition eventOverhead : Z := 256.
Definition flushInterval : Z := Second.
Definition initialBackoff : Z := Second.
Definition maxBackoff : Z := 30 * Second.
Definition maxSpillLineSize : Z := 10485760.

(** json.Marshal and json.Unmarshal on an inventory event. *)
Class EventCodec := {
  Marshal : InventoryEvent -> string;
  Unmarshal : string -> option InventoryEvent;
}.

(** [codable ev]: an event whose strings JSON can represent (valid UTF-8). *)
Class EventCodecLaws `{EventCodec} (codable : InventoryEvent -> Prop) : Prop := {
  marshal_one_line ev : has_char newline (Marshal ev) = false /\ has_char (chr 13) (Marshal ev) = false;
  marshal_nonempty ev : Marshal ev <> "";
  unmarshal_marshal ev : codable ev -> Unmarshal (Marshal ev) = Some ev;
}.

(** The control plane's answer to one batch: an error, or an ack that may be
    nil; [true] in the error marks an [AuthError]. *)
Class BatchSender (W : Type) := {
  send : InventoryBatch -> W -> (bool + option InventoryAck) * W;
}.

(** The files of the spill directory. *)
Record disk := mkDisk { d_spill : option string; d_seq : option string }.

Record Uploader := mkUploader {
  u_capacity : Z;
  u_maxBatchBytes : Z;
  u_buf : list InventoryEvent;
  u_spillOpen : bool;          (* u.spill != nil *)
  u_notify : bool;             (* the one-slot channel holds a signal *)
  u_seq : Z;
  u_needSnapshot : bool;
  u_disk : disk;
  u_metrics : Metrics;
}.

Definition set_buf (u : Uploader) (b : list InventoryEvent) : Uploader :=
  mkUploader (u_capacity u) (u_maxBatchBytes u) b (u_spillOpen u) (u_notify u) (u_seq u)
    (u_needSnapshot u) (u_disk u) (u_metrics u).
Definition set_spill (u : Uploader) (opened : bool) (d : option string) : Uploader :=
  mkUploader (u_capacity u) (u_maxBatchBytes u) (u_buf u) opened (u_notify u) (u_seq u)
    (u_needSnapshot u) (mkDisk d (d_seq (u_disk u))) (u_metrics u).
Definition set_seq (u : Uploader) (n : Z) : Uploader :=
  mkUploader (u_capacity u) (u_maxBatchBytes u) (u_buf u) (u_spillOpen u) (u_notify u) n
    (u_needSnapshot u) (u_disk u) (u_metrics u).
Definition set_seqFile (u : Uploader) (s : string) : Uploader :=
  mkUploader (u_capacity u) (u_maxBatchBytes u) (u_buf u) (u_spillOpen u) (u_notify u) (u_seq u)
    (u_needSnapshot u) (mkDisk (d_spill (u_disk u)) (Some s)) (u_metrics u).
Definition set_needSnapshot (u : Uploader) (b : bool) : Uploader :=
  mkUploader (u_capacity u) (u_maxBatchBytes u) (u_buf u) (u_spillOpen u) (u_notify u) (u_seq u)
    b (u_disk u) (u_metrics u).
Definition set_umetrics (u : Uploader) (m : Metrics) : Uploader :=
  mkUploader (u_capacity u) (u_maxBatchBytes u) (u_buf u) (u_spillOpen u) (u_notify u) (u_seq u)
    (u_needSnapshot u) (u_disk u) m.

(** [SetQueueDepth(len(u.buf))]. *)
Definition set_depth (u : Uploader) : Uploader :=
  set_umetrics u (SetQueueDepth (Z.of_nat (length (u_buf u))) (u_metrics u)).

(** [signal]: a non-blocking send on the one-slot channel. *)
Definition signal (u : Uploader) : Uploader :=
  mkUploader (u_capacity u) (u_maxBatchBytes u) (u_buf u) (u_spillOpen u) true (u_seq u)
    (u_needSnapshot u) (u_disk u) (u_metrics u).

(** ** Sequence number file *)

(** [readSeq]: 0 when the file is absent, corrupt or negative. *)
Definition readSeq (file : option string) : Z :=
  match file with
  | None => 0
  | Some data =>
      match ParseInt (TrimSpace data) with
      | None => 0
      | Some n => if n <? 0 then 0 else n
      end
  end.

(** Outcomes of the calls of [persistSeq]: os.WriteFile truncates the file it
    opens, so a write that fails leaves a prefix of the number. *)
Inductive write_io := Written | NotOpened | Partial (n : nat).
Record seq_io := mkSeqIO { sq_mkdir : bool; sq_write : write_io }.
Definition seq_ok : seq_io := mkSeqIO true Written.

Definition persistSeq (io : seq_io) (u : Uploader) : Uploader :=
  if negb (sq_mkdir io) then u
  else match sq_write io with
       | NotOpened => u
       | Written => set_seqFile u (FormatInt (u_seq u))
       | Partial n => set_seqFile u (take_bytes n (FormatInt (u_seq u)))
       end.

(** [NewWithCapacity] on the files a previous run left. *)
Definition NewWithCapacity (capacity : Z) (d : disk) : Uploader :=
  {| u_capacity := capacity; u_maxBatchBytes := defaultMaxBatchBytes; u_buf := [];
     u_spillOpen := false; u_notify := false; u_seq := readSeq (d_seq d); u_needSnapshot := true;
     u_disk := d; u_metrics := empty_metrics |}.

Definition New (d : disk) : Uploader := NewWithCapacity defaultCapacity d.

(** ** Batching *)

Definition eventSize (ev : InventoryEvent) : Z :=
  Z.of_nat (String.length (Ev_ObjectJSON ev)) + eventOverhead.

(** The loop of [batchLen]: [i] events taken so far, of [bytes] bytes. *)
Fixpoint batch_loop (rest : list InventoryEvent) (i n bytes maxBytes : Z) : Z :=
  match rest with
  | [] => i
  | ev :: rest' =>
      if (i <? n) && (bytes + eventSize ev <=? maxBytes)
      then batch_loop rest' (i + 1) n (bytes + eventSize ev) maxBytes
      else i
  end.

(** [batchLen]: reading [events[0]] of an empty slice panics. *)
Definition batchLen (events : list InventoryEvent) (maxEvents maxBytes : Z) : outcome Z :=
  let n := Z.min maxEvents (Z.of_nat (length events)) in
  match events with
  | [] => Panic
  | ev :: rest => Done (batch_loop rest 1 n (eventSize ev) maxBytes)
  end.

Section Uploader.
Context `{EventCodec}.

(** ** Spill file *)

(** Outcomes of the calls of [spillLocked]: a failed write may leave a prefix
    of the line behind. *)
Record spill_io := mkSpillIO { io_mkdir : bool; io_open : bool; io_write : option nat }.
Definition spill_ok : spill_io := mkSpillIO true true None.

Definition spillLocked (io : spill_io) (ev : InventoryEvent) (u : Uploader) : Uploader :=
  let file := default "" (d_spill (u_disk u)) in
  let write (u : Uploader) :=
    let line := Marshal ev ^^ nl in
    let written := match io_write io with None => line | Some n => take_bytes n line end in
    set_spill u true (Some (default "" (d_spill (u_disk u)) ^^ written)) in
  if u_spillOpen u then write u
  else if negb (io_mkdir io) then u
  else if negb (io_open io) then u
  else write (set_spill u true (Some file)).

(** The lines of a bufio.Scanner: a trailing carriage return is dropped, an
    empty last piece is no line, and a line that does not fit the buffer ends
    the scan. *)
Definition drop_cr (s : string) : string :=
  match rev_string s "" with
  | String c s' => if Ascii.eqb c (chr 13) then rev_string s' "" else s
  | EmptyString => ""
  end.

Fixpoint scan_pieces (pieces : list string) : list string :=
  match pieces with
  | [] => []
  | [p] => if (p =s "") || (maxSpillLineSize <=? Z.of_nat (String.length p)) then [] else [drop_cr p]
  | p :: ps =>
      if maxSpillLineSize <=? Z.of_nat (String.length p) then [] else drop_cr p :: scan_pieces ps
  end.

Definition scan_lines (content : string) : list string := scan_pieces (Split newline content).

(** Empty and undecodable lines are skipped. *)
Fixpoint decode_lines (lines : list string) : list InventoryEvent :=
  match lines with
  | [] => []
  | l :: ls =>
      if (String.length l =? 0)%nat then decode_lines ls
      else match Unmarshal l with
           | None => decode_lines ls
           | Some ev => ev :: decode_lines ls
           end
  end.

(** [replaySpillLocked]; [opened] and [removed] are the outcomes of os.Open on
    an existing file and of os.Remove. *)
Definition replaySpillLocked (opened removed : bool) (u : Uploader) : Uploader :=
  let u := set_spill u false (d_spill (u_disk u)) in
  match d_spill (u_disk u) with
  | None => u
  | Some content =>
      if negb opened then u
      else
        let events := decode_lines (scan_lines content) in
        if (length events =? 0)%nat then u
        else
          let u := set_buf u (u_buf u ++ events) in
          let u := if removed then set_spill u false None else u in
          set_depth u
  end.

(** ** Producers and the taker *)

Definition Enqueue (io : spill_io) (ev : InventoryEvent) (u : Uploader) : Uploader :=
  let u :=
    if Z.of_nat (length (u_buf u)) <? u_capacity u
    then set_depth (set_buf u (u_buf u ++ [ev]))
    else spillLocked io ev u in
  signal u.

Definition take_batch (opened removed : bool) (n : Z) (u : Uploader) : outcome (list InventoryEvent * Uploader) :=
  let u := if (length (u_buf u) =? 0)%nat then replaySpillLocked opened removed u else u in
  if (length (u_buf u) =? 0)%nat then Done ([], u)
  else
    outcome_bind (batchLen (u_buf u) n (u_maxBatchBytes u)) (fun k =>
      let out := take (Z.to_nat k) (u_buf u) in
      let u := set_buf u (drop (Z.to_nat k) (u_buf u)) in
      Done (out, set_depth u)).

Definition requeueFront (events : list InventoryEvent) (u : Uploader) : Uploader :=
  signal (set_depth (set_buf u (events ++ u_buf u))).

(** ** Sending *)

Context {W : Type} `{!BatchSender W}.

(** [sendBatch]: [true] is success.  The sequence number only advances, and is
    persisted, after an acknowledgement; [io] gives the outcome of persisting each
    number. *)
Definition sendBatch (cfg : Config) (io : Z -> seq_io) (events : list InventoryEvent) (full : bool)
    (u : Uploader) (w : W) : bool * Uploader * W :=
  let b := {| Batch_ClusterID := ClusterID cfg; Batch_Seq := wrap64 (u_seq u + 1);
              Batch_Full := full; Batch_Events := events |} in
  match send b w with
  | (inl _, w') => (false, u, w')
  | (inr _, w') =>
      let u := persistSeq (io (Batch_Seq b)) (set_seq u (Batch_Seq b)) in
      (true, set_umetrics u (IncInventoryEvents (Z.of_nat (length events)) (u_metrics u)), w')
  end.

(** The loop of [sendSnapshot]; the fuel is the number of events, as every
    round sends at least one. *)
Fixpoint snapshot_loop (fuel : nat) (cfg : Config) (io : Z -> seq_io) (events : list InventoryEvent)
    (u : Uploader) (w : W) : outcome (bool * Uploader * W) :=
  match events, fuel with
  | [], _ => Done (true, u, w)
  | _, O => Panic
  | _, S f =>
      outcome_bind (batchLen events batchSize (u_maxBatchBytes u)) (fun n =>
        match sendBatch cfg io (take (Z.to_nat n) events) true u w with
        | (false, u', w') => Done (false, u', w')
        | (true, u', w') => snapshot_loop f cfg io (drop (Z.to_nat n) events) u' w'
        end)
  end.

(** [sendSnapshot] on the events of [u.snap.Snapshot()]. *)
Definition sendSnapshot (cfg : Config) (io : Z -> seq_io) (events : list InventoryEvent)
    (u : Uploader) (w : W) : outcome (bool * Uploader * W) :=
  snapshot_loop (length events) cfg io events u w.

(** One iteration of [Run] (after its test of [ctx.Err]): the snapshot when one
    is due, then one batch of deltas.  [snap] is the snapshot the informers
    would return; the result says what the loop does next. *)
Inductive run_wait := WaitEvents | RetryAfter (backoff : Z) | Again.

Definition double_backoff (b : Z) : Z := Z.min (b * 2) maxBackoff.

Definition run_once (cfg : Config) (io : Z -> seq_io) (opened removed : bool) (snap : list InventoryEvent)
    (backoff : Z) (u : Uploader) (w : W) : outcome (run_wait * Z * Uploader * W) :=
  outcome_bind
    (if u_needSnapshot u then
       outcome_bind (sendSnapshot cfg io snap u w) (fun '(ok, u, w) =>
         if ok : bool then Done (true, initialBackoff, set_needSnapshot u false, w)
         else Done (false, backoff, u, w))
     else Done (true, backoff, u, w))
    (fun '(go_on, backoff, u, w) =>
       if negb go_on then Done (RetryAfter backoff, double_backoff backoff, u, w)
       else
         outcome_bind (take_batch opened removed batchSize u) (fun '(batch, u) =>
           if (length batch =? 0)%nat then Done (WaitEvents, backoff, u, w)
           else
             match sendBatch cfg io batch false u w with
             | (true, u, w) => Done (Again, initialBackoff, u, w)
             | (false, u, w) =>
                 Done (RetryAfter backoff, double_backoff backoff,
                       set_needSnapshot (requeueFront batch u) true, w)
             end)).

End Uploader.

(** ** Batches *)

(** The estimated wire size of a list of events. *)
Definition total_size (l : list InventoryEvent) : Z := foldr (fun e a => eventSize e + a) 0 l.

Lemma total_size_app l1 l2 : total_size (l1 ++ l2) = total_size l1 + total_size l2.
Proof. induction l1 as [|e l1 IH]; simpl; [done|]. rewrite IH. lia. Qed.

Lemma eventSize_pos ev : 0 < eventSize ev.
Proof. unfold eventSize, eventOverhead. lia. Qed.

(** The loop stops at the first event that does not fit. *)
Lemma batch_loop_spec rest i n bytes maxBytes :
  0 <= i <= n -> n <= i + Z.of_nat (length rest) ->
  let k := batch_loop rest i n bytes maxBytes in
  i <= k <= n /\
  (k = i \/ bytes + total_size (take (Z.to_nat (k - i)) rest) <= maxBytes) /\
  (k = n \/ maxBytes < bytes + total_size (take (S (Z.to_nat (k - i))) rest)).
Proof.
  revert i bytes. induction rest as [|ev rest IH]; intros i bytes Hi Hn; cbn [batch_loop]; cbv zeta.
  { simpl in Hn. split_and!; [lia|lia|by left|left; lia]. }
  destruct (Z.ltb_spec i n) as [Hlt|Hge]; cbn [andb].
  2:{ split_and!; [lia|lia|by left|left; lia]. }
  destruct (Z.leb_spec (bytes + eventSize ev) maxBytes) as [Hfit|Hbig].
  2:{ split_and!; [lia|lia|by left|]. right. rewrite Z.sub_diag. simpl. lia. }
  destruct (IH (i + 1) (bytes + eventSize ev)) as (Hk & Hsz & Hmax); [lia|simpl in Hn; lia|].
  generalize dependent (batch_loop rest (i + 1) n (bytes + eventSize ev) maxBytes). intros k Hk Hsz Hmax.
  split_and!; [lia|lia| |].
  - right. replace (Z.to_nat (k - i)) with (S (Z.to_nat (k - (i + 1)))) by lia.
    cbn [take total_size foldr]. fold (total_size (take (Z.to_nat (k - (i + 1))) rest)).
    destruct Hsz as [Heq|Hsz]; [|lia]. rewrite Heq, Z.sub_diag. simpl. lia.
  - destruct Hmax as [Heq|Hmax]; [by left|right].
    replace (S (Z.to_nat (k - i))) with (S (S (Z.to_nat (k - (i + 1))))) by lia.
    change (take (S (S (Z.to_nat (k - (i + 1))))) (ev :: rest))
      with (ev :: take (S (Z.to_nat (k - (i + 1)))) rest).
    cbn [total_size foldr]. fold (total_size (take (S (Z.to_nat (k - (i + 1)))) rest)). lia.
Qed.

(** [batchLen] on a non-empty buffer returns the length of the longest
    admissible prefix: at least one and at most [maxEvents] events, within the
    byte budget unless it is a single oversized event, and no longer prefix
    within both limits exists. *)
Theorem batch_len_longest_prefix events maxEvents maxBytes :
  events <> [] -> 1 <= maxEvents ->
  exists n, batchLen events maxEvents maxBytes = Done n /\
    1 <= n <= Z.min maxEvents (Z.of_nat (length events)) /\
    (n = 1 \/ total_size (take (Z.to_nat n) events) <= maxBytes) /\
    (n = Z.min maxEvents (Z.of_nat (length events)) \/
     maxBytes < total_size (take (S (Z.to_nat n)) events)).
Proof.
  intros Hne Hmax. destruct events as [|ev rest]; [done|]. unfold batchLen.
  eexists. split; [done|]. set (m := Z.min _ _).
  destruct (batch_loop_spec rest 1 m (eventSize ev) maxBytes) as (Hk & Hsz & Hmx);
    [subst m; simpl; lia|subst m; simpl; lia|].
  generalize dependent (batch_loop rest 1 m (eventSize ev) maxBytes). intros k Hk Hsz Hmx.
  split_and!; [lia|lia| |].
  - destruct Hsz as [Heq|Hsz]; [by left|right].
    replace (Z.to_nat k) with (S (Z.to_nat (k - 1))) by lia. simpl. lia.
  - destruct Hmx as [Heq|Hmx]; [by left|right].
    replace (S (Z.to_nat k)) with (S (S (Z.to_nat (k - 1)))) by lia.
    change (take (S (S (Z.to_nat (k - 1)))) (ev :: rest)) with (ev :: take (S (Z.to_nat (k - 1))) rest).
    cbn [total_size foldr]. fold (total_size (take (S (Z.to_nat (k - 1))) rest)). lia.
Qed.

Lemma batchLen_total events maxEvents maxBytes :
  events <> [] -> 1 <= maxEvents ->
  exists n, batchLen events maxEvents maxBytes = Done n /\ 1 <= n <= Z.of_nat (length events) /\ n <= maxEvents.
Proof.
  intros Hne Hm. destruct events as [|ev rest]; [done|]. unfold batchLen. eexists. split; [done|].
  set (m := Z.min _ _).
  destruct (batch_loop_spec rest 1 m (eventSize ev) maxBytes) as (Hk & _ & _);
    subst m; simpl in *; lia.
Qed.

(** ** The spill file *)

Section SpillFacts.
Context `{EventCodec} {codable : InventoryEvent -> Prop} `{!EventCodecLaws codable}.

(** An event the spill file can carry: representable, on a line that fits the
    scanner's buffer. *)
Definition spillable (ev : InventoryEvent) : Prop :=
  codable ev /\ Z.of_nat (String.length (Marshal ev)) < maxSpillLineSize.

(** The content of a spill file holding [evs]. *)
Fixpoint encode_spill (evs : list InventoryEvent) : string :=
  match evs with
  | [] => ""
  | ev :: evs' => Marshal ev ^^ nl ^^ encode_spill evs'
  end.

Lemma encode_spill_snoc evs ev : encode_spill (evs ++ [ev]) = encode_spill evs ^^ Marshal ev ^^ nl.
Proof.
  induction evs as [|e evs IH]; simpl; [by rewrite string_app_nil_l|].
  by rewrite IH, !string_app_assoc.
Qed.

Lemma drop_cr_Marshal ev : drop_cr (Marshal ev) = Marshal ev.
Proof.
  unfold drop_cr. destruct (rev_string (Marshal ev) "") as [|c s'] eqn:E.
  - apply (f_equal (fun s => rev_string s "")) in E. rewrite rev_string_involutive in E. done.
  - apply rev_string_head in E as Hc. destruct (marshal_one_line ev) as [_ Hr].
    destruct (Ascii.eqb_spec c (chr 13)) as [->|]; [congruence|done].
Qed.

Lemma scan_pieces_cons p q ps :
  scan_pieces (p :: q :: ps) =
  if maxSpillLineSize <=? Z.of_nat (String.length p) then [] else drop_cr p :: scan_pieces (q :: ps).
Proof. done. Qed.

(** Scanning and decoding an encoded file gives the events back, in order. *)
Lemma decode_encode_spill evs :
  Forall spillable evs -> decode_lines (scan_lines (encode_spill evs)) = evs.
Proof.
  unfold scan_lines. induction 1 as [|ev evs [Hc Hl] _ IH]; [done|].
  cbn [encode_spill]. unfold nl at 1. rewrite string_app_cons, string_app_nil_l.
  destruct (marshal_one_line ev) as [Hn _]. rewrite Split_sep by done.
  pose proof (Split_nonempty newline (encode_spill evs)) as Hne.
  destruct (Split newline (encode_spill evs)) as [|p ps] eqn:E; [done|].
  rewrite scan_pieces_cons, (proj2 (Z.leb_gt _ _)) by done.
  cbn [decode_lines]. rewrite drop_cr_Marshal.
  pose proof (marshal_nonempty ev) as Hm. destruct (Marshal ev) eqn:Em; [done|].
  cbn [String.length Nat.eqb]. rewrite <- Em, unmarshal_marshal by done. by rewrite IH.
Qed.

End SpillFacts.
