(* ===== verification/UploadSystem.v ===== *)
(** * The uploader at work: producers, spill file and control plane

    [step] interleaves [Enqueue] (informer goroutines) with the pieces of the
    [Run] loop: the snapshot, taking a batch, and sending it.  The control
    plane is an arbitrary policy that decides, from everything it received so
    far, whether a batch is acknowledged.  The calls to the file system succeed or
    fail as the predicate [may] of the steps allows: any way at all
    ([any_files]), or with a healthy spill file ([spill_healthy]).  The
    state keeps the log of transmissions, the events handed in, and the events
    acknowledged.  [run_once_steps] shows that an iteration of [Run] is a
    sequence of these steps. *)

From S2P Require Import Prelude GoStrings Protocol Config Metrics GoTime Backoff Uploader.
From Stdlib Require Import Permutation Ascii.
Local Open Scope Z_scope.

(** The log of transmissions: each batch with whether it was acknowledged. *)
Abbreviation log := (list (InventoryBatch * bool)).

Section UploadSystem.
Context `{EventCodec} {codable : InventoryEvent -> Prop} `{!EventCodecLaws codable}.
Context (policy : log -> InventoryBatch -> bool) (cfg : Config).

(** The control plane: the policy answers, the log grows. *)
#[local] Instance logged_sender : BatchSender log := {
  send b w :=
    (if policy w b then inr (Some (mkInventoryAck true (Batch_Seq b) "")) else inl false,
     w ++ [(b, policy w b)]);
}.

Record system := mkSystem {
  y_u : Uploader;
  y_flight : list InventoryEvent;   (* the batch taken and not yet answered *)
  y_log : log;
  y_in : list InventoryEvent;       (* everything to upload, in order of arrival *)
  y_acked : list InventoryEvent;    (* deltas acknowledged, in order *)
  y_spilled : bool;                 (* the spill file has been used *)
}.

(** [Enqueue] will spill. *)
Definition full (u : Uploader) : bool := negb (Z.of_nat (length (u_buf u)) <? u_capacity u).

(** What the file system does to the calls of a step: persisting each number,
    spilling, opening the spill file for a replay and removing it afterwards. *)
Record files := mkFiles { fs_seq : Z -> seq_io; fs_spill : spill_io; fs_opened : bool; fs_removed : bool }.

(** The spill file never fails; the file of the sequence number may. *)
Definition spill_healthy (fs : files) : Prop := fs_spill fs = spill_ok /\ fs_opened fs = true /\ fs_removed fs = true.

(** No call fails. *)
Definition all_healthy (fs : files) : Prop := spill_healthy fs /\ forall n, fs_seq fs n = seq_ok.

(** Spilling works; opening the file again and removing it may fail. *)
Definition spills_written (fs : files) : Prop := fs_spill fs = spill_ok.

Definition any_files (fs : files) : Prop := True.

Definition all_ok : files := mkFiles (fun _ => seq_ok) spill_ok true true.

Lemma all_ok_healthy : all_healthy all_ok.
Proof. done. Qed.

(** A piece of the [Run] loop, whose snapshot holds [snap], on a file system that
    does what [may] allows. *)
Inductive loop_step (may : files -> Prop) (snap : list InventoryEvent) : system -> system -> Prop :=
| sl_snapshot fs u w i a sp ok u' w' :
    may fs -> u_needSnapshot u = true -> sendSnapshot cfg (fs_seq fs) snap u w = Done (ok, u', w') ->
    loop_step may snap (mkSystem u [] w i a sp)
      (mkSystem (if ok then set_needSnapshot u' false else u') [] w' i a sp)
| sl_take fs u w i a sp b u' :
    may fs -> u_needSnapshot u = false -> take_batch (fs_opened fs) (fs_removed fs) batchSize u = Done (b, u') ->
    loop_step may snap (mkSystem u [] w i a sp) (mkSystem u' b w i a sp)
| sl_sent fs u fl w i a sp u' w' :
    may fs -> fl <> [] -> sendBatch cfg (fs_seq fs) fl false u w = (true, u', w') ->
    loop_step may snap (mkSystem u fl w i a sp) (mkSystem u' [] w' i (a ++ fl) sp)
| sl_failed fs u fl w i a sp u' w' :
    may fs -> fl <> [] -> sendBatch cfg (fs_seq fs) fl false u w = (false, u', w') ->
    loop_step may snap (mkSystem u fl w i a sp) (mkSystem (set_needSnapshot (requeueFront fl u') true) [] w' i a sp).

(** [Enqueue] in an informer goroutine. *)
Definition enqueue (io : spill_io) (ev : InventoryEvent) (s : system) : system :=
  mkSystem (Enqueue io ev (y_u s)) (y_flight s) (y_log s) (y_in s ++ [ev]) (y_acked s) (y_spilled s || full (y_u s)).

Inductive step (may : files -> Prop) : system -> system -> Prop :=
| sy_enqueue fs s ev : may fs -> spillable (codable:=codable) ev -> step may s (enqueue (fs_spill fs) ev s)
| sy_loop snap s s' : loop_step may snap s s' -> step may s s'.

(** A fresh process over the files a previous one left: a readable spill file
    counts as events to upload. *)
Definition initial (capacity : Z) (left : list InventoryEvent) (seqfile : option string) : system :=
  mkSystem (NewWithCapacity capacity
              (mkDisk (if (length left =? 0)%nat then None else Some (encode_spill left)) seqfile))
    [] [] left [] (negb (length left =? 0)%nat).

(** ** What sending leaves alone *)

(** Buffer, spill file and limits. *)
Definition same_events (u u' : Uploader) : Prop :=
  u_buf u' = u_buf u /\ u_spillOpen u' = u_spillOpen u /\ d_spill (u_disk u') = d_spill (u_disk u) /\
  u_capacity u' = u_capacity u /\ u_maxBatchBytes u' = u_maxBatchBytes u.

Lemma sendBatch_same io evs f u w ok u' w' :
  sendBatch cfg io evs f u w = (ok, u', w') -> same_events u u'.
Proof.
  unfold sendBatch, persistSeq. destruct (send _ _) as [[|] ?]; intros ?; simplify_eq; try done.
  by destruct (io _) as [[] []].
Qed.

Lemma same_events_trans a b c : same_events a b -> same_events b c -> same_events a c.
Proof. unfold same_events. intuition congruence. Qed.

Lemma send_snapshot_same io snap u w :
  exists ok u' w', sendSnapshot cfg io snap u w = Done (ok, u', w') /\ same_events u u'.
Proof.
  unfold sendSnapshot.
  assert (forall fuel evs u w, (length evs <= fuel)%nat ->
    exists ok u' w', snapshot_loop fuel cfg io evs u w = Done (ok, u', w') /\ same_events u u') as Hgen;
    [|by apply Hgen].
  clear. induction fuel as [|fuel IH]; intros evs u w Hl.
  { destruct evs; [|simpl in Hl; lia]. simpl. by eexists _, _, _. }
  destruct evs as [|ev evs]; [simpl; by eexists _, _, _|]. cbn [snapshot_loop].
  destruct (batchLen_total (ev :: evs) batchSize (u_maxBatchBytes u)) as (n & -> & Hn & _); [done|done|].
  cbn [outcome_bind].
  destruct (sendBatch _ _ _ _ _ _) as [[ok u'] w'] eqn:Hs. apply sendBatch_same in Hs as Hsame.
  destruct ok; [|by eexists _, _, _].
  destruct (IH (drop (Z.to_nat n) (ev :: evs)) u' w') as (ok & u2 & w2 & -> & Hs2).
  { rewrite length_drop. simpl in *. lia. }
  eexists _, _, _. split; [done|]. by eapply same_events_trans.
Qed.

(** Sending a snapshot always terminates without panic: every round sends at
    least one event, so a snapshot of [n] events needs at most [n] rounds,
    whatever the control plane answers; and it never touches the buffered
    events. *)
Theorem send_snapshot_total io snap u w :
  exists ok u' w', sendSnapshot cfg io snap u w = Done (ok, u', w') /\ same_events u u'.
Proof. apply send_snapshot_same. Qed.

(** ** No event is lost *)

(** The spill file holds exactly [sp]. *)
Definition spill_holds (u : Uploader) (sp : list InventoryEvent) : Prop :=
  Forall (spillable (codable:=codable)) sp /\
  ((d_spill (u_disk u) = None /\ sp = []) \/
   (d_spill (u_disk u) = Some (encode_spill sp) /\ sp <> [])).

Record conserved (s : system) (sp : list InventoryEvent) : Prop := {
  co_spill : spill_holds (y_u s) sp;
  co_events : Permutation (y_in s) (y_acked s ++ y_flight s ++ u_buf (y_u s) ++ sp);
  co_order : y_spilled s = false ->
    sp = [] /\ y_in s = y_acked s ++ y_flight s ++ u_buf (y_u s);
}.

Lemma spill_holds_same u u' sp : same_events u u' -> spill_holds u sp -> spill_holds u' sp.
Proof. intros (_ & _ & Hd & _ & _). unfold spill_holds. by rewrite Hd. Qed.

(** Spilling appends a line to the file, whether or not it was open. *)
Lemma spillLocked_holds ev u sp :
  spillable (codable:=codable) ev -> spill_holds u sp ->
  spill_holds (spillLocked spill_ok ev u) (sp ++ [ev]) /\ u_buf (spillLocked spill_ok ev u) = u_buf u.
Proof.
  intros Hev [Hall Hfile].
  assert (d_spill (u_disk (spillLocked spill_ok ev u)) = Some (encode_spill (sp ++ [ev])) /\
    u_buf (spillLocked spill_ok ev u) = u_buf u) as [Hd Hb].
  { rewrite encode_spill_snoc.
    destruct Hfile as [[Hd ->]|[Hd _]]; unfold spillLocked;
      destruct (u_spillOpen u); cbn; rewrite Hd; done. }
  split; [|done]. split; [apply Forall_app; by auto|].
  right. split; [done|]. by destruct sp.
Qed.

Lemma Enqueue_conserved u fl w i a spf ev sp :
  spillable (codable:=codable) ev -> conserved (mkSystem u fl w i a spf) sp ->
  exists sp', conserved (mkSystem (Enqueue spill_ok ev u) fl w (i ++ [ev]) a (spf || full u)) sp'.
Proof.
  intros Hev [Hsp Hperm Hord]. cbn [y_u y_flight y_in y_acked y_spilled] in *.
  unfold Enqueue, full. destruct (Z.of_nat (length (u_buf u)) <? u_capacity u); cbn [negb].
  - exists sp. split; cbn [y_u y_flight y_in y_acked y_spilled signal set_depth set_buf set_umetrics u_buf].
    + done.
    + rewrite Hperm. rewrite <- !app_assoc. do 3 apply Permutation_app_head. apply Permutation_app_comm.
    + rewrite orb_false_r. intros Hf. destruct (Hord Hf) as [-> ->]. split; [done|]. by rewrite <- !app_assoc.
  - destruct (spillLocked_holds ev u sp Hev Hsp) as [Hsp' Hb].
    exists (sp ++ [ev]). split; cbn [y_u y_flight y_in y_acked y_spilled signal u_buf].
    + done.
    + rewrite Hb, Hperm. by rewrite <- !app_assoc.
    + by rewrite orb_true_r.
Qed.

(** Replay moves the whole spill file to the empty buffer and removes it. *)
Lemma replay_holds u sp :
  u_buf u = [] -> spill_holds u sp ->
  u_buf (replaySpillLocked true true u) = sp /\ spill_holds (replaySpillLocked true true u) [].
Proof.
  intros Hb [Hall Hfile]. unfold replaySpillLocked. cbn [set_spill u_disk d_spill u_buf].
  destruct Hfile as [[Hd ->]|[Hd Hne]]; rewrite Hd; cbn [negb].
  - split; [done|]. split; [done|]. left. done.
  - rewrite decode_encode_spill by done. destruct (length sp =? 0)%nat eqn:El.
    { apply Nat.eqb_eq, nil_length_inv in El. done. }
    cbn. rewrite Hb. split; [done|]. split; [done|]. by left.
Qed.

Lemma take_conserved u w i a spf b u' sp :
  take_batch true true batchSize u = Done (b, u') -> conserved (mkSystem u [] w i a spf) sp ->
  exists sp', conserved (mkSystem u' b w i a spf) sp'.
Proof.
  intros Ht [Hsp Hperm Hord]. cbn [y_u y_flight y_in y_acked y_spilled] in *. simpl in Hperm, Hord.
  unfold take_batch in Ht.
  set (u1 := if (length (u_buf u) =? 0)%nat then replaySpillLocked true true u else u) in Ht.
  assert (exists sp1, spill_holds u1 sp1 /\ u_buf u ++ sp = u_buf u1 ++ sp1 /\
    (spf = false -> sp1 = [] /\ u_buf u1 = u_buf u)) as (sp1 & Hsp1 & Hbs & Hord1).
  { subst u1. destruct (length (u_buf u) =? 0)%nat eqn:El.
    - apply Nat.eqb_eq, nil_length_inv in El. destruct (replay_holds u sp El Hsp) as [Hb Hh].
      exists []. rewrite Hb, El, app_nil_r. split_and!; [done..|]. intros Hf. by destruct (Hord Hf) as [-> _].
    - exists sp. split_and!; [done..|]. intros Hf. by destruct (Hord Hf). }
  clearbody u1. rewrite Hbs in Hperm.
  destruct (length (u_buf u1) =? 0)%nat eqn:El.
  { apply Nat.eqb_eq, nil_length_inv in El. simplify_eq. exists sp1. split; cbn.
    - done.
    - done.
    - intros Hf. destruct (Hord1 Hf) as [-> Hb], (Hord Hf) as [_ ->]. by rewrite Hb. }
  destruct (batchLen (u_buf u1) batchSize (u_maxBatchBytes u1)) as [k|]; [|done].
  cbn [outcome_bind] in Ht. simplify_eq. exists sp1. split; cbn.
  - done.
  - rewrite Hperm. rewrite (app_assoc (take _ _)), take_drop. done.
  - intros Hf. destruct (Hord1 Hf) as [-> Hb], (Hord Hf) as [_ ->]. split; [done|].
    by rewrite take_drop, Hb.
Qed.

Lemma step_conserved s s' sp : step spill_healthy s s' -> conserved s sp -> exists sp', conserved s' sp'.
Proof.
  intros Hstep Hc. destruct Hstep as [fs [u fl w i a spf] ev (Hio & _) Hev|snap s s' Hl].
  { rewrite Hio. by eapply Enqueue_conserved. }
  destruct Hl as [fs u w i a spf ok u' w' _ _ Hs|fs u w i a spf b u' (_ & Ho & Hrm) _ Ht
    |fs u fl w i a spf u' w' _ Hfl Hs|fs u fl w i a spf u' w' _ Hfl Hs].
  - destruct (send_snapshot_same (fs_seq fs) snap u w) as (ok2 & u2 & w2 & Hs2 & Hsame).
    rewrite Hs2 in Hs. simplify_eq.
    exists sp. destruct Hc as [Hsp Hperm Hord]. apply (spill_holds_same _ _ _ Hsame) in Hsp.
    destruct Hsame as (Hb & _). cbn in *.
    destruct ok; (split; cbn; rewrite ?Hb; [exact Hsp|exact Hperm|exact Hord]).
  - rewrite Ho, Hrm in Ht. by eapply take_conserved.
  - exists sp. apply sendBatch_same in Hs. destruct Hc as [Hsp Hperm Hord].
    apply (spill_holds_same _ _ _ Hs) in Hsp. destruct Hs as (Hb & _). cbn in *.
    split; cbn; rewrite ?Hb, <- ?app_assoc; done.
  - exists sp. apply sendBatch_same in Hs. destruct Hc as [Hsp Hperm Hord].
    apply (spill_holds_same _ _ _ Hs) in Hsp. destruct Hs as (Hb & _). cbn in *.
    split; cbn; rewrite ?Hb, <- ?app_assoc; done.
Qed.

Lemma initial_conserved capacity left seqfile :
  Forall (spillable (codable:=codable)) left -> conserved (initial capacity left seqfile) left.
Proof.
  intros Hl. split; cbn.
  - split; [done|]. destruct left; [by left|right; done].
  - done.
  - intros Hn. apply negb_false_iff, Nat.eqb_eq, nil_length_inv in Hn. by subst.
Qed.

Lemma reachable_conserved capacity left seqfile s :
  Forall (spillable (codable:=codable)) left -> rtc (step spill_healthy) (initial capacity left seqfile) s ->
  exists sp, conserved s sp.
Proof.
  intros Hl Hr. pose proof (initial_conserved capacity left seqfile Hl) as Hc.
  revert Hc. generalize left at 2. induction Hr as [|s1 s2 s3 H12 _ IH]; intros sp Hc; [by eauto|].
  destruct (step_conserved _ _ _ H12 Hc) as [sp' Hc']. by eapply IH.
Qed.

(** C10. No event is lost: whatever the control plane answers and however
    producers interleave with the upload loop, on a healthy file system every
    event handed in (including those a previous process left in the spill
    file) is acknowledged, in the batch in flight, in the buffer, or in the
    spill file, exactly as often as it was handed in; and as long as the spill
    file was never needed, the acknowledged events followed by those in flight
    and in the buffer are the events handed in, in order. *)
Theorem no_event_lost capacity left seqfile s :
  Forall (spillable (codable:=codable)) left -> rtc (step spill_healthy) (initial capacity left seqfile) s ->
  exists sp, spill_holds (y_u s) sp /\
    Permutation (y_in s) (y_acked s ++ y_flight s ++ u_buf (y_u s) ++ sp) /\
    (y_spilled s = false -> y_in s = y_acked s ++ y_flight s ++ u_buf (y_u s)).
Proof.
  intros Hl Hr. destruct (reachable_conserved _ _ _ _ Hl Hr) as [sp [H1 H2 H3]].
  exists sp. split_and!; [done..|]. intros Hf. by destruct (H3 Hf).
Qed.

(** A batch is the front of the buffer, or of the spill file when that is empty. *)
Lemma take_order u sp :
  spill_holds u sp ->
  exists b u' sp', take_batch true true batchSize u = Done (b, u') /\ spill_holds u' sp' /\
    u_buf u ++ sp = b ++ u_buf u' ++ sp' /\ u_needSnapshot u' = u_needSnapshot u /\ (b = [] -> u_buf u' = [] /\ sp' = []).
Proof.
  intros Hsp. unfold take_batch. set (u1 := if (length (u_buf u) =? 0)%nat then replaySpillLocked true true u else u).
  assert (exists sp1, spill_holds u1 sp1 /\ u_buf u ++ sp = u_buf u1 ++ sp1 /\ u_needSnapshot u1 = u_needSnapshot u /\
    (u_buf u1 = [] -> sp1 = [])) as (sp1 & Hsp1 & Hbs & Hn & He).
  { subst u1. destruct (length (u_buf u) =? 0)%nat eqn:El.
    - apply Nat.eqb_eq, nil_length_inv in El. destruct (replay_holds u sp El Hsp) as [Hb Hh].
      exists []. rewrite Hb, El, app_nil_r. split_and!; [done|done| |done].
      unfold replaySpillLocked. cbn. destruct (d_spill _); [|done]. by destruct (length (decode_lines _) =? 0)%nat.
    - exists sp. split_and!; [done..|]. intros Hb. by rewrite Hb in El. }
  clearbody u1. destruct (length (u_buf u1) =? 0)%nat eqn:El.
  { apply Nat.eqb_eq, nil_length_inv in El. exists [], u1, sp1. split_and!; try done. intros _. by rewrite El, He. }
  destruct (batchLen_total (u_buf u1) batchSize (u_maxBatchBytes u1)) as (n & -> & Hn1 & _);
    [intros E; by rewrite E in El|done|].
  cbn [outcome_bind]. eexists _, _, sp1. split; [done|]. split; [exact Hsp1|]. split; [|split; [exact Hn|]].
  - cbn. by rewrite Hbs, (app_assoc (take _ _)), take_drop.
  - intros Hb. apply (f_equal length) in Hb. rewrite length_take in Hb. cbn [length] in Hb.
    destruct (u_buf u1); [done|]. cbn [length] in Hb. lia.
Qed.

(** More faults, more steps. *)
Lemma step_mono (may may' : files -> Prop) s s' : (forall fs, may fs -> may' fs) -> step may s s' -> step may' s s'.
Proof.
  intros Hm [fs s0 ev Hfs Hev|snap s0 s1 Hl]; [by apply sy_enqueue; [apply Hm|]|].
  apply (sy_loop may' snap). destruct Hl; [eapply sl_snapshot|eapply sl_take|eapply sl_sent|eapply sl_failed]; eauto.
Qed.

(** Faults have no effect as long as the spill file is not used. *)
Lemma unspilled_order may capacity seqfile s :
  rtc (step may) (initial capacity [] seqfile) s -> y_spilled s = false ->
  d_spill (u_disk (y_u s)) = None /\ y_in s = y_acked s ++ y_flight s ++ u_buf (y_u s).
Proof.
  intros Hr. refine (rtc_ind_r (fun s => y_spilled s = false -> d_spill (u_disk (y_u s)) = None /\
    y_in s = y_acked s ++ y_flight s ++ u_buf (y_u s)) (initial capacity [] seqfile) _ _ s Hr); [done|].
  clear s Hr. intros s s' _ Hstep IH. destruct Hstep as [fs [u fl w i a spf] ev _ _|snap s s' Hl].
  - unfold enqueue. cbn [y_u y_flight y_in y_acked y_spilled] in *. intros [Hs Hf]%orb_false_iff. unfold full in Hf.
    apply negb_false_iff in Hf. unfold Enqueue. rewrite Hf. destruct (IH Hs) as [Hd ->].
    split; [exact Hd|]. cbn. by rewrite <- !app_assoc.
  - destruct Hl as [fs u w i a spf ok u' w' _ _ Hs|fs u w i a spf b u' _ _ Ht
      |fs u fl w i a spf u' w' _ Hfl Hs|fs u fl w i a spf u' w' _ Hfl Hs];
      cbn [y_u y_flight y_in y_acked y_spilled] in *; intros Hsp; destruct (IH Hsp) as [Hd ->].
    + destruct (send_snapshot_same (fs_seq fs) snap u w) as (ok2 & u2 & w2 & Hs2 & Hb & _ & Hd2 & _). rewrite Hs2 in Hs.
      simplify_eq. destruct ok; cbn; by rewrite Hb, Hd2.
    + assert (replaySpillLocked (fs_opened fs) (fs_removed fs) u = set_spill u false (d_spill (u_disk u))) as Hrep
        by (unfold replaySpillLocked; cbn [set_spill u_disk d_spill]; by rewrite Hd).
      unfold take_batch in Ht. rewrite Hrep in Ht.
      destruct (length (u_buf u) =? 0)%nat eqn:El; cbn [set_spill u_buf] in Ht; rewrite El in Ht.
      { simplify_eq. by split. }
      destruct (batchLen _ _ _) as [k|]; [|done]. cbn [outcome_bind] in Ht. simplify_eq.
      split; [exact Hd|]. cbn. by rewrite take_drop.
    + apply sendBatch_same in Hs as (Hb & _ & Hd2 & _). rewrite Hb, Hd2, <- app_assoc. done.
    + apply sendBatch_same in Hs as (Hb & _ & Hd2 & _). cbn. rewrite Hb, Hd2. done.
Qed.

(** ** When replays fail

    A spill file that cannot be opened is left for later; one that cannot be
    removed is replayed again. *)

Definition held (s : system) (sp : list InventoryEvent) : Prop :=
  spill_holds (y_u s) sp /\
  forall ev, ev ∈ y_in s <-> ev ∈ y_acked s ++ y_flight s ++ u_buf (y_u s) ++ sp.

Lemma replay_held opened removed u sp :
  u_buf u = [] -> spill_holds u sp ->
  exists sp', spill_holds (replaySpillLocked opened removed u) sp' /\
    forall ev, ev ∈ sp <-> ev ∈ u_buf (replaySpillLocked opened removed u) ++ sp'.
Proof.
  intros Hb [Hall Hfile]. unfold replaySpillLocked. cbn [set_spill u_disk d_spill u_buf].
  destruct Hfile as [[Hd ->]|[Hd Hne]]; rewrite Hd.
  { exists []. split; [split; [done|by left]|]. cbn [set_spill u_buf]. rewrite Hb. set_solver. }
  assert (spill_holds (set_spill u false (Some (encode_spill sp))) sp) as Hkept by (split; [done|by right]).
  destruct opened; cbn [negb]; [|exists sp; split; [done|]; cbn [set_spill u_buf]; rewrite Hb; set_solver].
  rewrite decode_encode_spill by done. destruct (length sp =? 0)%nat eqn:El.
  { apply Nat.eqb_eq, nil_length_inv in El. done. }
  destruct removed.
  - exists []. split; [split; [done|by left]|]. cbn. rewrite Hb. set_solver.
  - exists sp. split; [exact Hkept|]. cbn. rewrite Hb. set_solver.
Qed.

Lemma take_held opened removed u w i a spf b u' sp :
  take_batch opened removed batchSize u = Done (b, u') -> held (mkSystem u [] w i a spf) sp ->
  exists sp', held (mkSystem u' b w i a spf) sp'.
Proof.
  intros Ht [Hsp Hin]. unfold held. cbn [y_u y_flight y_in y_acked] in *. unfold take_batch in Ht.
  set (u1 := if (length (u_buf u) =? 0)%nat then replaySpillLocked opened removed u else u) in Ht.
  assert (exists sp1, spill_holds u1 sp1 /\ forall ev, ev ∈ u_buf u ++ sp <-> ev ∈ u_buf u1 ++ sp1) as (sp1 & Hsp1 & Hbs).
  { subst u1. destruct (length (u_buf u) =? 0)%nat eqn:El; [|by exists sp].
    apply Nat.eqb_eq, nil_length_inv in El. rewrite El. by apply replay_held. }
  clearbody u1. exists sp1. destruct (length (u_buf u1) =? 0)%nat eqn:El.
  { apply Nat.eqb_eq, nil_length_inv in El. simplify_eq. split; [done|]. set_solver. }
  destruct (batchLen (u_buf u1) batchSize (u_maxBatchBytes u1)) as [k|]; [|done].
  cbn [outcome_bind] in Ht. simplify_eq. split; [done|]. intros ev. rewrite Hin.
  cbn [set_depth set_buf set_umetrics u_buf]. specialize (Hbs ev).
  rewrite <- (take_drop (Z.to_nat k) (u_buf u1)), <- app_assoc in Hbs. set_solver.
Qed.

Lemma step_held s s' sp : step spills_written s s' -> held s sp -> exists sp', held s' sp'.
Proof.
  intros Hstep Hh. destruct Hstep as [fs [u fl w i a spf] ev Hio Hev|snap s s' Hl].
  - destruct Hh as [Hsp Hin]. rewrite Hio. unfold enqueue, held, Enqueue. cbn [y_u y_flight y_in y_acked] in *.
    destruct (_ <? _).
    + exists sp. split; [exact Hsp|]. cbn [signal set_depth set_buf set_umetrics u_buf]. set_solver.
    + destruct (spillLocked_holds ev u sp Hev Hsp) as [Hsp' Hb]. exists (sp ++ [ev]). split; [exact Hsp'|].
      cbn [signal u_buf]. rewrite Hb. set_solver.
  - destruct Hl as [fs u w i a spf ok u' w' _ _ Hs|fs u w i a spf b u' _ _ Ht
      |fs u fl w i a spf u' w' _ Hfl Hs|fs u fl w i a spf u' w' _ Hfl Hs].
    + destruct (send_snapshot_same (fs_seq fs) snap u w) as (ok2 & u2 & w2 & Hs2 & Hsame). rewrite Hs2 in Hs. simplify_eq.
      exists sp. destruct Hh as [Hsp Hin]. apply (spill_holds_same _ _ _ Hsame) in Hsp. destruct Hsame as (Hb & _).
      unfold held. cbn in *. by destruct ok; cbn; rewrite Hb.
    + by eapply take_held.
    + apply sendBatch_same in Hs. destruct Hh as [Hsp Hin]. apply (spill_holds_same _ _ _ Hs) in Hsp.
      destruct Hs as (Hb & _). exists sp. split; [exact Hsp|]. cbn in *. rewrite Hb, <- app_assoc. exact Hin.
    + apply sendBatch_same in Hs. destruct Hh as [Hsp Hin]. apply (spill_holds_same _ _ _ Hs) in Hsp.
      destruct Hs as (Hb & _). exists sp. split; [exact Hsp|]. cbn in *. rewrite Hb, <- app_assoc. exact Hin.
Qed.

(** Replays that fail lose nothing: as long as what overflows the buffer gets
    written, then however often the spill file cannot be opened or removed, the
    number cannot be saved and the control plane refuses, the events handed in
    (including those a previous process left in the spill file) and no others are
    acknowledged, in flight, in the buffer or in the spill file; an event can be in
    several of these places, as a file that was not removed is replayed again. *)
Theorem replay_faults_lose_nothing capacity left seqfile s :
  Forall (spillable (codable:=codable)) left -> rtc (step spills_written) (initial capacity left seqfile) s ->
  exists sp, spill_holds (y_u s) sp /\
    forall ev, ev ∈ y_in s <-> ev ∈ y_acked s ++ y_flight s ++ u_buf (y_u s) ++ sp.
Proof.
  intros Hl Hr. assert (held (initial capacity left seqfile) left) as Hh
    by (split; [by apply initial_conserved|]; cbn; set_solver).
  revert Hh. generalize left at 2. induction Hr as [|s1 s2 s3 H12 _ IH]; intros sp Hh; [by exists sp|].
  destruct (step_held _ _ _ H12 Hh) as [sp' Hh']. by eapply IH.
Qed.

(** ** Sequence numbers *)

(** The number of acknowledged batches. *)
Fixpoint acks (l : log) : Z :=
  match l with
  | [] => 0
  | (_, ok) :: l' => (if ok : bool then 1 else 0) + acks l'
  end.

(** Every batch carries the number after the last acknowledged one. *)
Fixpoint numbered (s : Z) (l : log) : Prop :=
  match l with
  | [] => True
  | (b, ok) :: l' => Batch_Seq b = s + 1 /\ numbered (if ok : bool then s + 1 else s) l'
  end.

Lemma acks_app l1 l2 : acks (l1 ++ l2) = acks l1 + acks l2.
Proof. induction l1 as [|[b ok] l1 IH]; cbn [acks app]; [done|]. rewrite IH. lia. Qed.

Lemma acks_bound l : 0 <= acks l <= Z.of_nat (length l).
Proof. induction l as [|[b ok] l IH]; cbn [acks length]; [|destruct ok]; lia. Qed.

Lemma numbered_snoc s l b ok :
  numbered s (l ++ [(b, ok)]) <-> numbered s l /\ Batch_Seq b = s + acks l + 1.
Proof.
  revert s. induction l as [|[b' ok'] l IH]; intros s; cbn [numbered acks app].
  - rewrite Z.add_0_r. tauto.
  - rewrite IH. destruct ok'; intuition lia.
Qed.

Lemma readSeq_range file : 0 <= readSeq file <= int64_max.
Proof.
  unfold readSeq, ParseInt. destruct file as [data|]; [|unfold int64_max; lia].
  destruct (match TrimSpace data with EmptyString => _ | _ => _ end) as [n|]; [|unfold int64_max; lia].
  destruct (_ && _) eqn:E; [|unfold int64_max; lia].
  bool_to_prop. destruct (Z.ltb_spec n 0); unfold int64_max in *; lia.
Qed.

Lemma readSeq_FormatInt n : 0 <= n <= int64_max -> readSeq (Some (FormatInt n)) = n.
Proof.
  intros Hn. unfold readSeq.
  rewrite TrimSpace_FormatInt, ParseInt_FormatInt by (unfold in_int64, int64_min; lia).
  by rewrite (proj2 (Z.ltb_ge _ _)) by lia.
Qed.

Section Sequence.
(** What the file system may do. *)
Context (may : files -> Prop).

(** It always saves the number. *)
Definition saves : Prop := forall fs n, may fs -> fs_seq fs n = seq_ok.

(** The counter agrees with the log and the file is never ahead of it, and equal
    when every save succeeds; valid while the counter has not run past the [int64]
    range. *)
Definition seq_inv (s0 : Z) (u : Uploader) (w : log) : Prop :=
  s0 + Z.of_nat (length w) <= int64_max ->
  numbered s0 w /\ u_seq u = s0 + acks w /\ readSeq (d_seq (u_disk u)) <= u_seq u /\
  (saves -> readSeq (d_seq (u_disk u)) = u_seq u).

(** Persisting a number leaves it, or less, in the file. *)
Lemma persistSeq_file io u :
  0 <= u_seq u <= int64_max -> readSeq (d_seq (u_disk u)) <= u_seq u ->
  u_seq (persistSeq io u) = u_seq u /\ readSeq (d_seq (u_disk (persistSeq io u))) <= u_seq u /\
  (io = seq_ok -> readSeq (d_seq (u_disk (persistSeq io u))) = u_seq u).
Proof.
  intros Hr Hf. unfold persistSeq. destruct io as [[] [| |n]]; cbn [sq_mkdir sq_write negb]; try done.
  - cbn [set_seqFile u_seq u_disk d_seq]. rewrite readSeq_FormatInt by done. done.
  - cbn [set_seqFile u_seq u_disk d_seq]. split; [done|]. split; [|done].
    pose proof (ParseInt_cut n (u_seq u) (proj1 Hr)) as Hc. unfold readSeq.
    destruct (ParseInt _) as [k|]; [|lia]. destruct (Z.ltb_spec k 0); lia.
Qed.

Lemma sendBatch_seq io s0 evs f u w ok u' w' :
  (saves -> forall n, io n = seq_ok) -> 0 <= s0 -> sendBatch cfg io evs f u w = (ok, u', w') ->
  seq_inv s0 u w -> seq_inv s0 u' w'.
Proof.
  intros Hio Hs0. unfold sendBatch. cbn [send logged_sender]. set (b := mkInventoryBatch _ _ _ _).
  intros Hsend Hinv Hlen.
  assert (w' = w ++ [(b, policy w b)]) as -> by (destruct (policy w b); by simplify_eq).
  rewrite length_app in Hlen. cbn [length] in Hlen.
  destruct Hinv as (Hnum & Hseq & Hfile & Hsaved); [lia|]. pose proof (acks_bound w) as Hb.
  assert (Batch_Seq b = s0 + acks w + 1) as Hbs.
  { cbn. rewrite Hseq. apply wrap64_id. unfold in_int64, int64_min. lia. }
  rewrite numbered_snoc, acks_app. cbn [acks].
  destruct (policy w b); simplify_eq.
  - split; [by split|]. cbn [u_seq u_disk set_umetrics].
    destruct (persistSeq_file (io (Batch_Seq b)) (set_seq u (Batch_Seq b))) as (-> & Hle & Heq);
      cbn [set_seq u_seq u_disk]; [lia|lia|]. cbn [set_seq u_seq] in Hle, Heq.
    rewrite Hbs in *. split; [lia|]. split; [done|]. intros Hs. by apply Heq, Hio.
  - split; [by split|]. split; [lia|done].
Qed.

Lemma snapshot_loop_seq io s0 fuel evs u w ok u' w' :
  (saves -> forall n, io n = seq_ok) -> 0 <= s0 -> snapshot_loop fuel cfg io evs u w = Done (ok, u', w') ->
  seq_inv s0 u w -> seq_inv s0 u' w'.
Proof.
  intros Hio Hs0. revert evs u w. induction fuel as [|fuel IH]; intros evs u w; (destruct evs as [|ev evs];
    cbn [snapshot_loop]; [by intros ?; simplify_eq|]); [done|].
  destruct (batchLen _ _ _) as [n|]; [|done]. cbn [outcome_bind].
  destruct (sendBatch _ _ _ _ _ _) as [[[|] u1] w1] eqn:Hs; intros Hloop Hinv;
    pose proof (sendBatch_seq _ _ _ _ _ _ _ _ _ Hio Hs0 Hs Hinv); simplify_eq; eauto.
Qed.

(** Neither spilling nor taking a batch touches the number. *)
Lemma spillLocked_seq io ev u :
  u_seq (spillLocked io ev u) = u_seq u /\ d_seq (u_disk (spillLocked io ev u)) = d_seq (u_disk u).
Proof. unfold spillLocked. destruct (u_spillOpen u), (io_mkdir io), (io_open io); by split. Qed.

Lemma take_batch_seq opened removed n u b u' :
  take_batch opened removed n u = Done (b, u') -> u_seq u' = u_seq u /\ d_seq (u_disk u') = d_seq (u_disk u).
Proof.
  assert (forall u, u_seq (replaySpillLocked opened removed u) = u_seq u /\
    d_seq (u_disk (replaySpillLocked opened removed u)) = d_seq (u_disk u)) as Hrep.
  { intros v. unfold replaySpillLocked. cbn. destruct (d_spill _); [|done]. destruct opened; [|done].
    cbn [negb]. destruct (length (decode_lines _) =? 0)%nat; destruct removed; by split. }
  unfold take_batch. intros Ht.
  destruct (length (u_buf u) =? 0)%nat; (destruct (_ =? 0)%nat; [by simplify_eq|]);
    (destruct (batchLen _ _ _); [|done]); cbn [outcome_bind] in Ht; simplify_eq; cbn; auto.
Qed.

Lemma step_seq s0 s s' :
  0 <= s0 -> step may s s' -> seq_inv s0 (y_u s) (y_log s) -> seq_inv s0 (y_u s') (y_log s').
Proof.
  intros Hs0 Hstep Hinv. destruct Hstep as [fs [u fl w i a spf] ev _ Hev|snap s s' Hst].
  { unfold enqueue. cbn [y_u y_log] in *. unfold Enqueue, seq_inv. destruct (_ <? _); [exact Hinv|].
    destruct (spillLocked_seq (fs_spill fs) ev u) as [Hq Hd]. cbn [signal u_seq u_disk]. by rewrite Hq, Hd. }
  destruct Hst as [fs u w i a spf ok u' w' Hfs _ Hs|fs u w i a spf b u' _ _ Ht
    |fs u fl w i a spf u' w' Hfs Hfl Hs|fs u fl w i a spf u' w' Hfs Hfl Hs]; cbn [y_u y_log] in *.
  - eapply snapshot_loop_seq in Hs; [|intros Hsv n; by apply Hsv|done..]. destruct ok; exact Hs.
  - unfold seq_inv. by destruct (take_batch_seq _ _ _ _ _ _ Ht) as [-> ->].
  - eapply sendBatch_seq; [|done..]. intros Hsv n. by apply Hsv.
  - eapply sendBatch_seq in Hs; [exact Hs| |done..]. intros Hsv n. by apply Hsv.
Qed.

(** C17. Sequence numbers are gap-free, and survive restarts as far as the file
    system lets them: whatever calls to it fail, every batch carries one more than
    the number of the last acknowledged batch (starting from the number on disk),
    the in-memory counter is that number, and a process restarted on the files
    starts from a number that is not larger; when every save succeeds it is the
    same number, so it continues where this one stopped.  Valid until 2^63 - 1
    transmissions. *)
Theorem sequence_numbers capacity left seqfile s :
  rtc (step may) (initial capacity left seqfile) s ->
  readSeq seqfile + Z.of_nat (length (y_log s)) <= int64_max ->
  numbered (readSeq seqfile) (y_log s) /\
  u_seq (y_u s) = readSeq seqfile + acks (y_log s) /\
  0 <= u_seq (New (u_disk (y_u s))) <= u_seq (y_u s) /\
  (saves -> u_seq (New (u_disk (y_u s))) = u_seq (y_u s)).
Proof.
  intros Hr. assert (seq_inv (readSeq seqfile) (y_u s) (y_log s)) as Hinv.
  { pose proof (proj1 (readSeq_range seqfile)) as Hp.
    assert (seq_inv (readSeq seqfile) (y_u (initial capacity left seqfile)) []) as Hinit.
    { intros _. cbn. by rewrite Z.add_0_r. }
    change (@nil (InventoryBatch * bool)) with (y_log (initial capacity left seqfile)) in Hinit.
    induction Hr as [|s1 s2 s3 H12 _ IH]; eauto using step_seq. }
  intros Hlen. destruct (Hinv Hlen) as (H1 & H2 & H3 & H4).
  split; [done|]. split; [done|]. split; [|exact H4]. split; [apply readSeq_range|exact H3].
Qed.

End Sequence.

(** ** The [Run] loop takes these steps *)

Lemma take_batch_total opened removed u : exists b u', take_batch opened removed batchSize u = Done (b, u').
Proof.
  unfold take_batch. set (u1 := if (length (u_buf u) =? 0)%nat then replaySpillLocked opened removed u else u).
  destruct (length (u_buf u1) =? 0)%nat eqn:El; [by eauto|].
  destruct (batchLen_total (u_buf u1) batchSize (u_maxBatchBytes u1)) as (n & -> & _); [|done|by cbn; eauto].
  intros E. by rewrite E in El.
Qed.

Section Refines.
Context (may : files -> Prop) (fs : files) (fs_may : may fs).

Lemma batch_steps bo u w i a sp :
  u_needSnapshot u = false ->
  exists r bo' u' w' a',
    outcome_bind (take_batch (fs_opened fs) (fs_removed fs) batchSize u) (fun '(batch, u) =>
           if (length batch =? 0)%nat then Done (WaitEvents, bo, u, w)
           else
             match sendBatch cfg (fs_seq fs) batch false u w with
             | (true, u, w) => Done (Again, initialBackoff, u, w)
             | (false, u, w) =>
                 Done (RetryAfter bo, double_backoff bo,
                       set_needSnapshot (requeueFront batch u) true, w)
             end) = Done (r, bo', u', w') /\
    rtc (step may) (mkSystem u [] w i a sp) (mkSystem u' [] w' i a' sp).
Proof using fs_may.
  intros Hn. destruct (take_batch_total (fs_opened fs) (fs_removed fs) u) as (b & u1 & Ht). rewrite Ht. cbn [outcome_bind].
  eapply (sl_take may []), (sy_loop may []) in Ht; [|done..]. destruct b as [|e b]; cbn [length Nat.eqb].
  { eexists _, _, _, _, a. split; [done|]. by apply rtc_once. }
  destruct (sendBatch cfg (fs_seq fs) (e :: b) false u1 w) as [[[|] u2] w2] eqn:Hs;
    eexists _, _, _, _, _; (split; [done|]); (eapply rtc_l; [exact Ht|]); apply rtc_once.
  - by eapply (sy_loop may []), sl_sent.
  - by eapply (sy_loop may []), sl_failed.
Qed.

(** One iteration of [Run] never panics and is a sequence of steps of the
    model, whatever the snapshot holds, the control plane answers and the file
    system does: what is shown of reachable states holds between any two
    iterations. *)
Theorem run_once_refines snap bo u w i a sp :
  exists r bo' u' w' a',
    run_once cfg (fs_seq fs) (fs_opened fs) (fs_removed fs) snap bo u w = Done (r, bo', u', w') /\
    rtc (step may) (mkSystem u [] w i a sp) (mkSystem u' [] w' i a' sp).
Proof using fs_may.
  unfold run_once. destruct (u_needSnapshot u) eqn:Hn.
  - destruct (send_snapshot_same (fs_seq fs) snap u w) as (ok & u1 & w1 & Hs & _). rewrite Hs. cbn [outcome_bind].
    eapply (sl_snapshot may), sy_loop in Hs; [|done..]. destruct ok; cbn [outcome_bind negb].
    + destruct (batch_steps initialBackoff (set_needSnapshot u1 false) w1 i a sp)
        as (r & bo' & u' & w' & a' & Hr & Hst); [done|].
      eexists _, _, _, _, _. split; [exact Hr|]. eapply rtc_l; [exact Hs|done].
    + eexists _, _, _, _, _. split; [done|]. apply rtc_once, Hs.
  - cbn [outcome_bind negb]. by apply batch_steps.
Qed.
End Refines.

(** ** What a failed batch turns into *)

Lemma sendBatch_log io evs f u w :
  exists ok u', sendBatch cfg io evs f u w =
    (ok, u', w ++ [(mkInventoryBatch (ClusterID cfg) (wrap64 (u_seq u + 1)) f evs, ok)]) /\
    (ok = false -> u' = u).
Proof.
  unfold sendBatch. cbn [send logged_sender].
  destruct (policy w _) eqn:Hp; eexists _, _; (split; [done|]); by intros.
Qed.

Lemma snapshot_rest io fuel evs u w :
  (length evs <= fuel)%nat ->
  exists ok u' l, snapshot_loop fuel cfg io evs u w = Done (ok, u', w ++ l).
Proof.
  revert evs u w. induction fuel as [|fuel IH]; intros [|ev evs] u w Hl; cbn [snapshot_loop length] in *.
  1,3: by exists true, u, []; rewrite app_nil_r.
  { lia. }
  destruct (batchLen_total (ev :: evs) batchSize (u_maxBatchBytes u)) as (n & -> & Hn & _); [done|done|].
  cbn [outcome_bind]. destruct (sendBatch_log io (take (Z.to_nat n) (ev :: evs)) true u w) as (ok & u' & -> & _).
  destruct ok; [|by eauto].
  edestruct (IH (drop (Z.to_nat n) (ev :: evs))) as (ok & u2 & l & ->).
  { rewrite length_drop. cbn [length] in *. lia. }
  rewrite <- app_assoc. by eauto.
Qed.

(** The batches of a snapshot hold events of it. *)
Lemma snapshot_loop_log io fuel evs u w ok u' w' :
  snapshot_loop fuel cfg io evs u w = Done (ok, u', w') ->
  exists l, w' = w ++ l /\ Forall (fun e => forall ev, ev ∈ Batch_Events e.1 -> ev ∈ evs) l.
Proof.
  revert evs u w. induction fuel as [|fuel IH]; intros [|e0 evs0] u w; cbn [snapshot_loop]; try done.
  1,2: intros [= <- <- <-]; exists []; by rewrite app_nil_r.
  set (evs := e0 :: evs0). destruct (batchLen _ _ _) as [n|]; [|done]. cbn [outcome_bind].
  destruct (sendBatch_log io (take (Z.to_nat n) evs) true u w) as (ok1 & u1 & -> & _).
  set (e := (mkInventoryBatch _ _ _ _, ok1)).
  assert (forall ev, ev ∈ Batch_Events e.1 -> ev ∈ evs) as He by (cbn; intros ev; by apply subseteq_take).
  destruct ok1; [|intros [= <- <- <-]; exists [e]; by rewrite Forall_singleton].
  intros (l & -> & Hl)%IH. exists (e :: l). rewrite <- app_assoc. split; [done|]. constructor; [done|].
  eapply Forall_impl; [exact Hl|]. intros e' He' ev Hev. by eapply subseteq_drop, He'.
Qed.

(** A delta batch and a snapshot batch under the same number. *)
Definition number_reused (b b2 : InventoryBatch) : Prop :=
  Batch_Full b = false /\ Batch_Full b2 = true /\ Batch_Seq b2 = Batch_Seq b.

(** A failed delta batch is not resent under its number: after the failure
    a snapshot is due, and whenever the snapshot is not empty the next
    transmission carries the same sequence number with other contents
    ([Full] set). *)
Theorem failed_number_goes_to_snapshot io opened removed snap1 snap2 bo bo1 u w u' w' :
  u_needSnapshot u = false -> snap2 <> [] ->
  run_once cfg io opened removed snap1 bo u w = Done (RetryAfter bo, bo1, u', w') ->
  exists b b2 ok rest ok2 u2,
    w' = w ++ [(b, false)] /\ u_needSnapshot u' = true /\
    sendSnapshot cfg io snap2 u' w' = Done (ok2, u2, w' ++ (b2, ok) :: rest) /\ number_reused b b2.
Proof.
  intros Hn Hne. unfold run_once. rewrite Hn. cbn [outcome_bind negb].
  destruct (take_batch_total opened removed u) as (b & u1 & ->). cbn [outcome_bind].
  destruct (length b =? 0)%nat; [done|].
  destruct (sendBatch_log io b false u1 w) as (ok & u2 & -> & Hok).
  destruct ok; [done|]. intros ?; simplify_eq. rewrite (Hok eq_refl). clear Hok u2.
  set (v := set_needSnapshot _ _). unfold sendSnapshot. destruct snap2 as [|e snap]; [done|].
  cbn [length snapshot_loop].
  destruct (batchLen_total (e :: snap) batchSize (u_maxBatchBytes v)) as (n & -> & Hl & _); [done|done|].
  cbn [outcome_bind]. set (w1 := w ++ _).
  destruct (sendBatch_log io (take (Z.to_nat n) (e :: snap)) true v w1) as (ok & v2 & -> & _).
  destruct ok.
  2:{ by eexists _, _, false, [], false, v2. }
  destruct (snapshot_rest io (length snap) (drop (Z.to_nat n) (e :: snap)) v2
    (w1 ++ [(mkInventoryBatch (ClusterID cfg) (wrap64 (u_seq v + 1)) true (take (Z.to_nat n) (e :: snap)), true)]))
    as (ok2 & u2 & l & Hrest).
  { rewrite length_drop. cbn [length] in *. lia. }
  rewrite Hrest, <- app_assoc. by eexists _, _, true, l, ok2, u2.
Qed.

End UploadSystem.

(** ** Events that overtake the spill file *)

Section Overtaking.
Context `{EventCodec} {codable : InventoryEvent -> Prop} `{!EventCodecLaws codable} (cfg : Config).
Let accept (_ : log) (_ : InventoryBatch) : bool := true.

(** Evaluation of one step of a concrete run, keeping the encoding symbolic. *)
Ltac norm_state :=
  match goal with
  | |- rtc _ ?s _ =>
      let s' := eval cbv -[Marshal String.append ClusterID] in s in change s with s'
  end.
Ltac norm_eq := cbv -[Marshal String.append ClusterID]; reflexivity.

(** The spill file breaks arrival order: after an overflow, an event handed
    in once the buffer has room again is uploaded and acknowledged before the
    older event that went to the file, although nothing failed. *)
Theorem spill_overtaken e1 e2 e3 :
  spillable (codable:=codable) e1 -> spillable (codable:=codable) e2 -> spillable (codable:=codable) e3 ->
  exists s, rtc (step (codable:=codable) accept cfg all_healthy) (initial 1 [] None) s /\
    y_in s = [e1; e2; e3] /\ y_acked s = [e1; e3] /\ y_flight s = [] /\ u_buf (y_u s) = [] /\
    spill_holds (codable:=codable) (y_u s) [e2].
Proof.
  intros H1 H2 H3. eexists. split.
  { norm_state. eapply rtc_l; [eapply (sy_loop accept cfg all_healthy []), (sl_snapshot accept cfg all_healthy [] all_ok _ _ _ _ _ true); [exact all_ok_healthy|norm_eq..]|]. norm_state.
    eapply rtc_l; [apply (sy_enqueue accept cfg all_healthy all_ok _ e1 all_ok_healthy H1)|]. norm_state.
    eapply rtc_l; [apply (sy_enqueue accept cfg all_healthy all_ok _ e2 all_ok_healthy H2)|]. norm_state.
    eapply rtc_l; [apply (sy_loop accept cfg all_healthy []), (sl_take _ _ _ _ all_ok); [exact all_ok_healthy|norm_eq..]|]. norm_state.
    eapply rtc_l; [apply (sy_enqueue accept cfg all_healthy all_ok _ e3 all_ok_healthy H3)|]. norm_state.
    eapply rtc_l; [apply (sy_loop accept cfg all_healthy []), (sl_sent _ _ _ _ all_ok); [exact all_ok_healthy|done|norm_eq]|]. norm_state.
    eapply rtc_l; [apply (sy_loop accept cfg all_healthy []), (sl_take _ _ _ _ all_ok); [exact all_ok_healthy|norm_eq..]|]. norm_state.
    eapply rtc_l; [apply (sy_loop accept cfg all_healthy []), (sl_sent _ _ _ _ all_ok); [exact all_ok_healthy|done|norm_eq]|]. norm_state.
    apply rtc_refl. }
  split_and!; [done..|]. split; [by apply Forall_singleton|]. right. split; [|done].
  cbn. by rewrite string_app_nil_l.
Qed.
End Overtaking.

(** ** An instance: events as hexadecimal fields *)

Module UploadExample.
Definition comma : ascii := ","%char.

Definition line (ev : InventoryEvent) : string :=
  hex_encode (Ev_Op ev) ^^ String comma (hex_encode (Ref_Group (Ev_Ref ev)) ^^ String comma
  (hex_encode (Ref_Version (Ev_Ref ev)) ^^ String comma (hex_encode (Ref_Resource (Ev_Ref ev)) ^^
  String comma (hex_encode (Ref_Namespace (Ev_Ref ev)) ^^ String comma (hex_encode (Ref_Name (Ev_Ref ev))
  ^^ String comma (hex_encode (Ev_ObjectJSON ev) ^^ String comma (FormatInt (Ev_Timestamp ev)))))))).

Definition parse_line (s : string) : option InventoryEvent :=
  match Split comma s with
  | [op; g; v; r; ns; n; obj; ts] =>
      op ← hex_decode op; g ← hex_decode g; v ← hex_decode v; r ← hex_decode r;
      ns ← hex_decode ns; n ← hex_decode n; obj ← hex_decode obj; ts ← ParseInt ts;
      Some (mkInventoryEvent op (mkResourceRef g v r ns n) obj ts)
  | _ => None
  end.

#[export] Instance hex_codec : EventCodec := { Marshal := line; Unmarshal := parse_line }.

Definition codable (ev : InventoryEvent) : Prop := in_int64 (Ev_Timestamp ev).

Lemma hex_encode_no_char c (s : string) :
  forallb (fun n => negb (Ascii.eqb (hex_digit n) c)) (seq 0 16) = true ->
  has_char c (hex_encode s) = false.
Proof.
  intros Hc. assert (forall n, (n < 16)%nat -> Ascii.eqb (hex_digit n) c = false) as Hd.
  { intros n Hn. apply negb_true_iff. rewrite forallb_forall in Hc. apply Hc, in_seq. lia. }
  induction s as [|b s IH]; [done|]. cbn [hex_encode has_char]. pose proof (byte_bound b).
  rewrite !Hd, IH; [done|apply Nat.mod_upper_bound; lia|].
  apply Nat.Div0.div_lt_upper_bound. lia.
Qed.

Lemma Split_none c (s : string) : has_char c s = false -> Split c s = [s].
Proof.
  induction s as [|x s IH]; [done|]. cbn [has_char Split]. intros [Hx Hs]%orb_false_iff.
  by rewrite Hx, IH.
Qed.

#[export] Instance hex_codec_laws : EventCodecLaws codable.
Proof.
  split.
  - intros ev. cbn [Marshal hex_codec]. unfold line.
    split; repeat (rewrite has_char_app; cbn [has_char]);
      rewrite !hex_encode_no_char, FormatInt_no_char by (vm_compute; done); done.
  - intros ev. cbn [Marshal hex_codec]. unfold line.
    destruct (hex_encode (Ev_Op ev)); rewrite ?string_app_nil_l, ?string_app_cons; done.
  - intros ev Hc. cbn [Marshal Unmarshal hex_codec]. unfold parse_line, line.
    rewrite !Split_sep by (apply hex_encode_no_char; vm_compute; done).
    rewrite Split_none by (by apply FormatInt_no_char).
    rewrite !hex_decode_encode. cbn. rewrite ParseInt_FormatInt by done. cbn. by destruct ev as [? [] ? ?].
Qed.
(** Three events, a control plane that rejects the first batch, and the run in
    which the batch fails and everything is sent again. *)
Definition event (name : string) : InventoryEvent :=
  mkInventoryEvent "upsert" (mkResourceRef "apps" "v1" "deployments" "default" name) "{}" 1700000000.
Definition reject_first (w : log) (_ : InventoryBatch) : bool := negb (length w =? 0)%nat.

Abbreviation system_step := (step (codable:=codable) reject_first sample_config spill_healthy).

Lemma event_spillable name :
  (String.length (hex_encode name) <=? 100)%nat = true -> spillable (codable:=codable) (event name).
Proof.
  intros Hn. apply Nat.leb_le in Hn. split.
  - unfold codable, in_int64, int64_min, int64_max, event. cbn. lia.
  - unfold maxSpillLineSize. cbn [Marshal hex_codec]. unfold line, event.
    repeat (rewrite string_length_app || cbn [String.length Ev_Op Ev_Ref Ref_Group Ref_Version Ref_Resource
      Ref_Namespace Ref_Name Ev_ObjectJSON Ev_Timestamp]).
    change (String.length (hex_encode "upsert")) with 12%nat.
    change (String.length (hex_encode "apps")) with 8%nat.
    change (String.length (hex_encode "v1")) with 4%nat.
    change (String.length (hex_encode "deployments")) with 22%nat.
    change (String.length (hex_encode "default")) with 14%nat.
    change (String.length (hex_encode "{}")) with 4%nat.
    change (String.length (FormatInt 1700000000)) with 10%nat. lia.
Qed.

Definition left_over : list InventoryEvent := [event "a"].

Lemma left_over_spillable : Forall (spillable (codable:=codable)) left_over.
Proof. apply Forall_singleton, event_spillable. reflexivity. Qed.

Definition after_enqueue : system :=
  let s := initial 10 left_over (Some "41") in
  mkSystem (Enqueue spill_ok (event "b") (y_u s)) [] [] (left_over ++ [event "b"]) [] true.

Lemma after_enqueue_reachable : rtc system_step (initial 10 left_over (Some "41")) after_enqueue.
Proof. apply rtc_once, (sy_enqueue reject_first sample_config _ all_ok); [done|]. apply event_spillable. reflexivity. Qed.

Lemma batch_len_longest_prefix_witness :
  exists n, batchLen [event "a"; event "b"; event "c"] 2 1000 = Done n /\
    1 <= n <= Z.min 2 (Z.of_nat (length [event "a"; event "b"; event "c"])) /\
    (n = 1 \/ total_size (take (Z.to_nat n) [event "a"; event "b"; event "c"]) <= 1000) /\
    (n = Z.min 2 (Z.of_nat (length [event "a"; event "b"; event "c"])) \/
     1000 < total_size (take (S (Z.to_nat n)) [event "a"; event "b"; event "c"])).
Proof. apply (batch_len_longest_prefix [event "a"; event "b"; event "c"] 2 1000); [discriminate|lia]. Defined.

Lemma no_event_lost_witness :
  exists sp, spill_holds (codable:=codable) (y_u after_enqueue) sp /\
    Permutation (y_in after_enqueue)
      (y_acked after_enqueue ++ y_flight after_enqueue ++ u_buf (y_u after_enqueue) ++ sp) /\
    (y_spilled after_enqueue = false ->
     y_in after_enqueue = y_acked after_enqueue ++ y_flight after_enqueue ++ u_buf (y_u after_enqueue)).
Proof.
  apply (no_event_lost (codable:=codable) reject_first sample_config 10 left_over (Some "41") after_enqueue
    left_over_spillable after_enqueue_reachable).
Defined.

(** The first batch of a snapshot is rejected and the second acknowledged, and
    the disk is full when the number is saved: the file keeps its first digit. *)
Definition disk_full : files := mkFiles (fun _ => mkSeqIO true (Partial 1)) spill_ok true true.

Definition after_snapshots : system :=
  let send s :=
    match sendSnapshot (BatchSender0 := logged_sender reject_first) sample_config (fs_seq disk_full) [event "a"] (y_u s) (y_log s) with
    | Done (ok, u, w) => mkSystem (if ok then set_needSnapshot u false else u) [] w (y_in s) (y_acked s) (y_spilled s)
    | Panic => s
    end in
  send (send (initial 10 [] (Some "41"))).

Lemma after_snapshots_reachable :
  rtc (step (codable:=codable) reject_first sample_config any_files) (initial 10 [] (Some "41")) after_snapshots.
Proof.
  eapply rtc_l; [eapply (sy_loop _ _ _ [event "a"]), (sl_snapshot _ _ _ _ disk_full); [exact I|reflexivity|vm_compute; reflexivity]|].
  apply rtc_once. eapply (sy_loop _ _ _ [event "a"]), (sl_snapshot _ _ _ _ disk_full _ _ _ _ _ true);
    [exact I|reflexivity|vm_compute; reflexivity].
Qed.

Example after_snapshots_numbers :
  (u_seq (y_u after_snapshots), d_seq (u_disk (y_u after_snapshots)), (fun e => Batch_Seq e.1) <$> y_log after_snapshots)
  = (42, Some "4", [42; 42]).
Proof. vm_compute. reflexivity. Qed.

(** The spill file of a previous process is replayed and cannot be removed. *)
Definition stuck : files := mkFiles (fun _ => seq_ok) spill_ok true false.

Definition ready : Uploader := set_needSnapshot (y_u (initial 10 left_over None)) false.
Definition replayed : system :=
  Eval vm_compute in
    match take_batch true false batchSize ready with
    | Done (b, u') => mkSystem u' b [] left_over [] true
    | Panic => mkSystem ready [] [] [] [] true
    end.

Lemma replayed_reachable :
  rtc (step (codable:=codable) reject_first sample_config spills_written) (initial 10 left_over None) replayed.
Proof.
  eapply rtc_l; [exact (sy_loop _ _ spills_written [] _ _ (sl_snapshot _ _ _ [] stuck (y_u (initial 10 left_over None)) []
    left_over [] true true _ [] eq_refl eq_refl eq_refl))|].
  apply rtc_once, (sy_loop _ _ _ []). apply (sl_take _ _ _ [] stuck ready); [done|reflexivity|vm_compute; reflexivity].
Qed.

(** The event is in flight and in the file. *)
Lemma replay_faults_lose_nothing_witness :
  exists sp, spill_holds (codable:=codable) (y_u replayed) sp /\
    forall ev, ev ∈ y_in replayed <-> ev ∈ y_acked replayed ++ y_flight replayed ++ u_buf (y_u replayed) ++ sp.
Proof.
  apply (replay_faults_lose_nothing (codable:=codable) reject_first sample_config 10 left_over None replayed
    left_over_spillable replayed_reachable).
Defined.

Lemma sequence_numbers_witness :
  numbered (readSeq (Some "41")) (y_log after_snapshots) /\
  u_seq (y_u after_snapshots) = readSeq (Some "41") + acks (y_log after_snapshots) /\
  0 <= u_seq (New (u_disk (y_u after_snapshots))) <= u_seq (y_u after_snapshots) /\
  (saves any_files -> u_seq (New (u_disk (y_u after_snapshots))) = u_seq (y_u after_snapshots)).
Proof.
  apply (sequence_numbers (codable:=codable) reject_first sample_config any_files 10 [] (Some "41") after_snapshots
    after_snapshots_reachable). vm_compute. discriminate.
Defined.

(** The uploader between two batches, one event buffered. *)
Definition one_buffered : Uploader :=
  set_needSnapshot (Enqueue spill_ok (event "b") (New (mkDisk None None))) false.
Definition after_failure : Uploader * log :=
  match run_once (BatchSender0 := logged_sender reject_first) sample_config (fun _ => seq_ok) true true []
          Second one_buffered [] with
  | Done (_, _, u, w) => (u, w)
  | Panic => (one_buffered, [])
  end.

Lemma failed_number_goes_to_snapshot_witness :
  exists b b2 ok rest ok2 u2,
    snd after_failure = [] ++ [(b, false)] /\ u_needSnapshot (fst after_failure) = true /\
    sendSnapshot (BatchSender0 := logged_sender reject_first) sample_config (fun _ => seq_ok) [event "a"]
      (fst after_failure) (snd after_failure) = Done (ok2, u2, snd after_failure ++ (b2, ok) :: rest) /\
    number_reused b b2.
Proof.
  apply (failed_number_goes_to_snapshot reject_first sample_config (fun _ => seq_ok) true true [] [event "a"] Second
    (double_backoff Second) one_buffered []); [reflexivity|discriminate|vm_compute; reflexivity].
Defined.

Lemma spill_overtaken_witness :
  exists s, rtc (step (codable:=codable) (fun _ _ => true) sample_config all_healthy) (initial 1 [] None) s /\
    y_in s = [event "a"; event "b"; event "c"] /\ y_acked s = [event "a"; event "c"] /\
    y_flight s = [] /\ u_buf (y_u s) = [] /\ spill_holds (codable:=codable) (y_u s) [event "b"].
Proof.
  apply (spill_overtaken (codable:=codable) sample_config (event "a") (event "b") (event "c"));
    apply event_spillable; reflexivity.
Defined.
End UploadExample.
