(* ===== verification/UploadDrain.v ===== *)
(** * internal/uploader: the backlog drains

    The loop of [Run] up to its first wait for events.  Against a control plane
    that acknowledges every batch it is given, the loop sends the snapshot and
    then everything buffered or spilled, in at most one round per event and one
    more, and comes to rest with an empty buffer and an empty spill file. *)

From S2P Require Import Prelude GoStrings Protocol Config Metrics Uploader.
Local Open Scope Z_scope.

Section Drain.
Context `{EventCodec} {W : Type} `{!BatchSender W}.

(** [Run]: rounds until the loop waits for events; [snap i] is what the informers
    would return in round [i].  The sleeps in between are left out; [None] is a
    loop still busy after [fuel] rounds. *)
Fixpoint run_until_idle (fuel : nat) (cfg : Config) (io : Z -> seq_io) (opened removed : bool)
    (snap : nat -> list InventoryEvent) (i : nat) (backoff : Z) (u : Uploader) (w : W)
    : outcome (option (Uploader * W)) :=
  match fuel with
  | O => Done None
  | S f =>
      outcome_bind (run_once cfg io opened removed (snap i) backoff u w) (fun '(wait, backoff, u, w) =>
        match wait with
        | WaitEvents => Done (Some (u, w))
        | RetryAfter _ | Again => run_until_idle f cfg io opened removed snap (S i) backoff u w
        end)
  end.

(** What is left to upload: the buffer and the readable lines of the spill file. *)
Definition spilled (u : Uploader) : list InventoryEvent :=
  match d_spill (u_disk u) with
  | None => []
  | Some content => decode_lines (scan_lines content)
  end.
Definition backlog (u : Uploader) : list InventoryEvent := u_buf u ++ spilled u.

Definition sent_count (u : Uploader) : Z := inventoryEventsSent (u_metrics u).

Section Acked.
Context (cfg : Config) (io : Z -> seq_io) (up : W -> Prop) (good : InventoryEvent -> Prop).
(** A control plane that is up acknowledges every batch of good events and stays
    up; what json.Unmarshal reads from a spill file is good. *)
Hypothesis acks : forall seq full evs w,
  up w -> Forall good evs -> in_int64 seq ->
  exists ack w', send (mkInventoryBatch (ClusterID cfg) seq full evs) w = (inr ack, w') /\ up w'.
Hypothesis decoded_good : forall line ev, Unmarshal line = Some ev -> good ev.

(** A send leaves buffer, files of events and snapshot flag alone. *)
Definition same_backlog (u u' : Uploader) : Prop :=
  u_buf u' = u_buf u /\ d_spill (u_disk u') = d_spill (u_disk u) /\ u_needSnapshot u' = u_needSnapshot u.

Lemma same_backlog_trans a b c : same_backlog a b -> same_backlog b c -> same_backlog a c.
Proof. unfold same_backlog. intuition congruence. Qed.

Lemma backlog_same u u' : same_backlog u u' -> backlog u' = backlog u.
Proof. intros (Hb & Hd & _). unfold backlog, spilled. by rewrite Hb, Hd. Qed.

Lemma sendBatch_acked evs full u w :
  up w -> Forall good evs ->
  exists u' w', sendBatch cfg io evs full u w = (true, u', w') /\ up w' /\ same_backlog u u' /\
    sent_count u' = sent_count u + Z.of_nat (length evs).
Proof using acks.
  intros Hw He. unfold sendBatch.
  destruct (acks (wrap64 (u_seq u + 1)) full evs w) as (ack & w' & -> & Hw'); [done..|apply wrap64_range|].
  eexists _, w'. split; [done|]. split; [done|]. unfold persistSeq, same_backlog, sent_count.
  by destruct (io _) as [[] []].
Qed.

Lemma snapshot_acked fuel evs u w :
  up w -> Forall good evs -> (length evs <= fuel)%nat ->
  exists u' w', snapshot_loop fuel cfg io evs u w = Done (true, u', w') /\ up w' /\ same_backlog u u' /\
    sent_count u' = sent_count u + Z.of_nat (length evs).
Proof using acks.
  revert evs u w. induction fuel as [|fuel IH]; intros evs u w Hw He Hl.
  { destruct evs; [|simpl in Hl; lia]. exists u, w. simpl. split_and!; done || lia. }
  destruct evs as [|ev evs]; [exists u, w; simpl; split_and!; done || lia|]. cbn [snapshot_loop].
  destruct (batchLen_total (ev :: evs) batchSize (u_maxBatchBytes u)) as (n & -> & Hn & _); [done|done|].
  cbn [outcome_bind].
  destruct (sendBatch_acked (take (Z.to_nat n) (ev :: evs)) true u w) as (u1 & w1 & -> & Hw1 & Hs1 & Hc1);
    [done|by apply Forall_take|].
  destruct (IH (drop (Z.to_nat n) (ev :: evs)) u1 w1) as (u2 & w2 & -> & Hw2 & Hs2 & Hc2);
    [done|by apply Forall_drop|rewrite length_drop; simpl in *; lia|].
  exists u2, w2. split_and!; [done|done|by eapply same_backlog_trans|].
  rewrite Hc2, Hc1, length_take, length_drop. lia.
Qed.

Lemma decode_lines_good lines : Forall good (decode_lines lines).
Proof using decoded_good.
  induction lines as [|l ls IH]; cbn [decode_lines]; [constructor|].
  destruct (_ =? 0)%nat; [done|]. destruct (Unmarshal l) as [ev|] eqn:Hu; [|done]. constructor; eauto.
Qed.

Lemma replay_backlog u :
  u_buf u = [] ->
  backlog (replaySpillLocked true true u) = backlog u /\
  (u_buf (replaySpillLocked true true u) = [] -> backlog u = []) /\
  u_needSnapshot (replaySpillLocked true true u) = u_needSnapshot u /\
  sent_count (replaySpillLocked true true u) = sent_count u.
Proof.
  destruct u as [cap mb buf so nt sq ns [[content|] ds] m]; cbn [u_buf]; intros ->; [|done].
  unfold replaySpillLocked, backlog, spilled. cbn [set_spill u_disk d_spill negb].
  destruct (decode_lines (scan_lines content)) as [|ev evs] eqn:He; cbn; [by rewrite He|].
  by rewrite app_nil_r.
Qed.

(** [take] takes the front of the backlog, and nothing only from an empty one. *)
Lemma take_backlog u :
  Forall good (u_buf u) ->
  exists b u', take_batch true true batchSize u = Done (b, u') /\ Forall good b /\ Forall good (u_buf u') /\
    backlog u = b ++ backlog u' /\ (b = [] -> backlog u' = []) /\ u_needSnapshot u' = u_needSnapshot u /\
    sent_count u' = sent_count u.
Proof using decoded_good.
  intros Hg. unfold take_batch.
  set (u1 := if (length (u_buf u) =? 0)%nat then replaySpillLocked true true u else u).
  assert (Forall good (u_buf u1) /\ backlog u1 = backlog u /\ (u_buf u1 = [] -> backlog u = []) /\
    u_needSnapshot u1 = u_needSnapshot u /\ sent_count u1 = sent_count u) as (Hg1 & Hb1 & He1 & Hn1 & Hc1).
  { subst u1. destruct (length (u_buf u) =? 0)%nat eqn:El.
    - apply Nat.eqb_eq, nil_length_inv in El. destruct (replay_backlog u El) as (Hb & He & Hn & Hc).
      split_and!; [|done..]. apply (Forall_app good (u_buf (replaySpillLocked true true u)) (spilled (replaySpillLocked true true u))).
      unfold backlog in Hb. rewrite Hb, El. unfold spilled. case_match; [apply decode_lines_good|constructor].
    - split_and!; try done. intros Hb. by rewrite Hb in El. }
  clearbody u1. destruct (length (u_buf u1) =? 0)%nat eqn:El.
  { apply Nat.eqb_eq, nil_length_inv in El. exists [], u1. split_and!; try done. intros _. rewrite Hb1. by apply He1. }
  destruct (batchLen_total (u_buf u1) batchSize (u_maxBatchBytes u1)) as (n & -> & Hn & _);
    [intros E; by rewrite E in El|done|].
  cbn [outcome_bind]. eexists _, _. split; [done|]. split_and!; [by apply Forall_take|by apply Forall_drop| | |done|done].
  - rewrite <- Hb1. unfold backlog, spilled. cbn. by rewrite app_assoc, take_drop.
  - intros Hnil. apply (f_equal length) in Hnil. rewrite length_take in Hnil. simpl in Hnil. lia.
Qed.

(** One round: never a retry; the loop waits only with nothing left. *)
Lemma run_once_acked bo snap u w :
  up w -> Forall good snap -> Forall good (u_buf u) ->
  exists wait bo' u' w', run_once cfg io true true snap bo u w = Done (wait, bo', u', w') /\ up w' /\
    Forall good (u_buf u') /\ u_needSnapshot u' = false /\
    sent_count u' + Z.of_nat (length (backlog u'))
      = sent_count u + Z.of_nat (length (if u_needSnapshot u then snap else []) + length (backlog u)) /\
    match wait with
    | WaitEvents => backlog u' = []
    | Again => (length (backlog u') < length (backlog u))%nat
    | RetryAfter _ => False
    end.
Proof using acks decoded_good.
  intros Hw Hsnap Hg. unfold run_once, sendSnapshot.
  assert (exists bo1 u1 w1,
    (if u_needSnapshot u then
       outcome_bind (snapshot_loop (length snap) cfg io snap u w) (fun '(ok, u, w) =>
         if ok : bool then Done (true, initialBackoff, set_needSnapshot u false, w)
         else Done (false, bo, u, w))
     else Done (true, bo, u, w)) = Done (true, bo1, u1, w1) /\ up w1 /\ Forall good (u_buf u1) /\
    backlog u1 = backlog u /\ u_needSnapshot u1 = false /\
    sent_count u1 = sent_count u + Z.of_nat (length (if u_needSnapshot u then snap else [])))
    as (bo1 & u1 & w1 & -> & Hw1 & Hg1 & Hb1 & Hn1 & Hc1).
  { destruct (u_needSnapshot u) eqn:Hn; [|exists bo, u, w; split_and!; simpl; done || lia].
    destruct (snapshot_acked (length snap) snap u w) as (u1 & w1 & -> & Hw1 & Hs1 & Hc1); [done..|].
    eexists _, _, _. split; [done|]. pose proof (backlog_same _ _ Hs1) as Hb. destruct Hs1 as (Hbuf & _ & _).
    split_and!; [done|cbn; by rewrite Hbuf|exact Hb|done|exact Hc1]. }
  cbn [outcome_bind negb].
  destruct (take_backlog u1 Hg1) as (b & u2 & -> & Hgb & Hg2 & Hb2 & He2 & Hn2 & Hc2). cbn [outcome_bind].
  rewrite Hb1 in Hb2. rewrite Hb2, length_app. destruct b as [|e b]; cbn [length Nat.eqb].
  { eexists _, _, _, _. split; [done|]. specialize (He2 eq_refl). rewrite He2. cbn [length].
    split_and!; done || congruence || lia. }
  destruct (sendBatch_acked (e :: b) false u2 w1) as (u3 & w3 & -> & Hw3 & Hs3 & Hc3); [done..|].
  rewrite <- (backlog_same _ _ Hs3). destruct Hs3 as (Hbuf & _ & Hns). cbn [length] in Hc3.
  eexists _, _, _, _. split; [done|]. split_and!; [done|by rewrite Hbuf|congruence|lia|lia].
Qed.

(** Uploads drain: against a control plane that acknowledges what it gets, [Run]
    never retries and after at most one round per event left over plus one it
    waits for events with nothing buffered or spilled, the snapshot sent, and the
    counter of sent events increased by exactly the snapshot (when one was due)
    and the backlog. *)
Lemma run_drains fuel snap i bo u w :
  up w -> (forall j, Forall good (snap j)) -> Forall good (u_buf u) -> (length (backlog u) < fuel)%nat ->
  exists u' w', run_until_idle fuel cfg io true true snap i bo u w = Done (Some (u', w')) /\ up w' /\
    backlog u' = [] /\ u_needSnapshot u' = false /\
    sent_count u' = sent_count u +
      Z.of_nat (length (if u_needSnapshot u then snap i else []) + length (backlog u)).
Proof using acks decoded_good.
  revert i bo u w. induction fuel as [|fuel IH]; intros i bo u w Hw Hsnap Hg Hf; [lia|]. cbn [run_until_idle].
  destruct (run_once_acked bo (snap i) u w) as (wait & bo1 & u1 & w1 & -> & Hw1 & Hg1 & Hn1 & Hc1 & Hwait); [done..|].
  cbn [outcome_bind]. destruct wait as [|b|]; [|done|].
  { exists u1, w1. rewrite Hwait in Hc1. simpl in Hc1. split_and!; done || lia. }
  destruct (IH (S i) bo1 u1 w1) as (u2 & w2 & -> & Hw2 & Hb2 & Hn2 & Hc2); [done..|lia|].
  exists u2, w2. rewrite Hn1 in Hc2. simpl in Hc2. split_and!; done || lia.
Qed.
End Acked.
End Drain.
