(* ===== verification/Unstructured.v ===== *)
(** * The interface to k8s.io/apimachinery's unstructured objects

    The accessors the agent calls on [*unstructured.Unstructured] belong to a
    third-party package: they are the operations of the class [Unstructured],
    with their documented behaviour as the laws of [UnstructuredLaws].  The
    laws are phrased with path look-up and path update on JSON values
    ([nested], [set_nested], [remove_nested]). *)

From S2P Require Import Prelude GoStrings Json.

(** ** Paths *)

(** What a path leads to: an intermediate null or a missing key is [Absent], an
    intermediate value of another type is an error. *)
Inductive field_result := Found (v : json) | Absent | NotAMap.

Fixpoint nested_value (v : json) (path : list string) : field_result :=
  match path with
  | [] => Found v
  | k :: rest =>
      match v with
      | JNull => Absent
      | JObj m => match m !! k with Some v' => nested_value v' rest | None => Absent end
      | _ => NotAMap
      end
  end.

Definition nested (m : obj) (path : list string) : field_result := nested_value (JObj m) path.

(** Writing at a path creates missing maps and fails on a value that is not a
    map. *)
Fixpoint set_nested (m : obj) (v : json) (path : list string) : option obj :=
  match path with
  | [] => None
  | [k] => Some (<[k := v]> m)
  | k :: rest =>
      match m !! k with
      | Some (JObj m') => (fun m'' => <[k := JObj m'']> m) <$> set_nested m' v rest
      | Some _ => None
      | None => (fun m'' => <[k := JObj m'']> m) <$> set_nested ∅ v rest
      end
  end.

Fixpoint remove_nested (m : obj) (path : list string) : obj :=
  match path with
  | [] => m
  | [k] => delete k m
  | k :: rest =>
      match m !! k with
      | Some (JObj m') => <[k := JObj (remove_nested m' rest)]> m
      | _ => m
      end
  end.

Definition found (r : field_result) : option json :=
  match r with Found v => Some v | _ => None end.

(** All values are strings. *)
Definition string_map (m : obj) : option (gmap string string) :=
  map_fold (fun k v acc =>
    match v, acc with
    | JStr s, Some r => Some (<[k := s]> r)
    | _, _ => None
    end) (Some ∅) m.

Fixpoint string_list (l : list json) : option (list string) :=
  match l with
  | [] => Some []
  | JStr s :: l' => cons s <$> string_list l'
  | _ :: _ => None
  end.

(** ** The operations *)

Record GroupVersionKind := mkGVK { Gvk_Group : string; Gvk_Version : string; Gvk_Kind : string }.

Class Unstructured := {
  GetKind : obj -> string;
  GetNamespace : obj -> string;
  GetName : obj -> string;
  GetResourceVersion : obj -> string;
  GetAnnotations : obj -> option (gmap string string);
  GetLabels : obj -> option (gmap string string);
  GetAPIVersion : obj -> string;
  (** the JSON form of GetCreationTimestamp *)
  GetCreationTimestamp : obj -> json;
  GetGVK : obj -> GroupVersionKind;
  (** schema.GroupVersion.String *)
  GroupVersionString : GroupVersionKind -> string;
  SetName : string -> obj -> obj;
  SetNamespace : string -> obj -> obj;
  SetResourceVersion : string -> obj -> obj;
  SetAnnotations : gmap string string -> obj -> obj;
  NestedString : obj -> list string -> option string;
  NestedStringMap : obj -> list string -> option (gmap string string);
  NestedMap : obj -> list string -> option obj;
  NestedStringSlice : obj -> list string -> option (list string);
  (** an error, or the slice if found *)
  NestedSlice : obj -> list string -> string + option (list json);
  SetNestedField : obj -> json -> list string -> option obj;
  SetNestedStringMap : obj -> gmap string string -> list string -> option obj;
}.

(** Setting a metadata field to the empty string removes it; a failed write is
    ignored. *)
Definition set_metadata (field value : string) (m : obj) : obj :=
  if value =s "" then remove_nested m ["metadata"; field]
  else default m (set_nested m (JStr value) ["metadata"; field]).

Class UnstructuredLaws `{Unstructured} : Prop := {
  nested_string m p : NestedString m p = as_str (found (nested m p));
  nested_string_map m p : NestedStringMap m p = as_obj (found (nested m p)) ≫= string_map;
  nested_map m p : NestedMap m p = as_obj (found (nested m p));
  nested_string_slice m p :
    NestedStringSlice m p = match nested m p with Found (JArr l) => string_list l | _ => None end;
  set_nested_field m v p : SetNestedField m v p = set_nested m v p;
  set_nested_string_map m sm p : SetNestedStringMap m sm p = set_nested m (JObj (JStr <$> sm)) p;
  get_kind m : GetKind m = default "" (NestedString m ["kind"]);
  get_namespace m : GetNamespace m = default "" (NestedString m ["metadata"; "namespace"]);
  get_name m : GetName m = default "" (NestedString m ["metadata"; "name"]);
  get_resource_version m :
    GetResourceVersion m = default "" (NestedString m ["metadata"; "resourceVersion"]);
  get_annotations m : GetAnnotations m = NestedStringMap m ["metadata"; "annotations"];
  get_labels m : GetLabels m = NestedStringMap m ["metadata"; "labels"];
  get_api_version m : GetAPIVersion m = default "" (NestedString m ["apiVersion"]);
  get_creation_timestamp m m' :
    m !! "metadata" = m' !! "metadata" -> GetCreationTimestamp m = GetCreationTimestamp m';
  set_name s m : SetName s m = set_metadata "name" s m;
  set_namespace s m : SetNamespace s m = set_metadata "namespace" s m;
  set_resource_version s m : SetResourceVersion s m = set_metadata "resourceVersion" s m;
  set_annotations a m :
    SetAnnotations a m = default m (set_nested m (JObj (JStr <$> a)) ["metadata"; "annotations"]);
}.

(** ** Facts about paths *)

Lemma nested_cons (m : obj) k rest :
  nested m (k :: rest) = match m !! k with Some v => nested_value v rest | None => Absent end.
Proof. done. Qed.

Lemma nested_insert_ne (m : obj) k k' v rest :
  k <> k' -> nested (<[k' := v]> m) (k :: rest) = nested m (k :: rest).
Proof. intros Hne. by rewrite !nested_cons, lookup_insert_ne. Qed.

Lemma set_nested_cons m v k k2 p :
  set_nested m v (k :: k2 :: p) =
  match m !! k with
  | Some (JObj m0) => (fun m'' => <[k := JObj m'']> m) <$> set_nested m0 v (k2 :: p)
  | Some _ => None
  | None => (fun m'' => <[k := JObj m'']> m) <$> set_nested ∅ v (k2 :: p)
  end.
Proof. done. Qed.

(** A successful write is read back. *)
Lemma nested_set_nested m v p m' : set_nested m v p = Some m' -> nested m' p = Found v.
Proof.
  revert m m'. induction p as [|k p IH]; intros m m' Hs; [done|].
  destruct p as [|k2 p].
  { cbn in Hs. simplify_eq. by rewrite nested_cons, lookup_insert_eq. }
  rewrite set_nested_cons in Hs.
  assert (exists m0 m1, set_nested m0 v (k2 :: p) = Some m1 /\ m' = <[k := JObj m1]> m) as (m0 & m1 & H1 & ->).
  { destruct (m !! k) as [[]|]; try done;
      apply fmap_Some in Hs as (m1 & H1 & ->); eauto. }
  rewrite nested_cons, lookup_insert_eq. exact (IH _ _ H1).
Qed.

(** A write changes no other top-level field. *)
Lemma set_nested_other m v k p m' k' :
  set_nested m v (k :: p) = Some m' -> k' <> k -> m' !! k' = m !! k'.
Proof.
  intros Hs Hne. destruct p as [|k2 p]; cbn [set_nested] in Hs.
  { simplify_eq. by rewrite lookup_insert_ne. }
  destruct (m !! k) as [[]|]; try done;
    apply fmap_Some in Hs as (m1 & _ & ->); by rewrite lookup_insert_ne.
Qed.

Lemma remove_nested_other m k p k' : k' <> k -> remove_nested m (k :: p) !! k' = m !! k'.
Proof.
  intros Hne. destruct p as [|k2 p]; cbn [remove_nested]; [by rewrite lookup_delete_ne|].
  destruct (m !! k) as [[]|]; try done. by rewrite lookup_insert_ne.
Qed.

Lemma set_metadata_other field value m k : k <> "metadata" -> set_metadata field value m !! k = m !! k.
Proof.
  intros Hne. unfold set_metadata. destruct (value =s ""); [by apply remove_nested_other|].
  destruct (set_nested _ _ _) eqn:E; [|done]. by eapply set_nested_other.
Qed.

(** The strings of a string map are read back. *)
Lemma string_map_fmap (a : gmap string string) : string_map (JStr <$> a) = Some a.
Proof.
  unfold string_map. induction a as [|k v a Hk IH] using map_ind.
  { by rewrite fmap_empty, map_fold_empty. }
  rewrite fmap_insert, map_fold_insert_L.
  - by rewrite IH.
  - intros j1 j2 z1 z2 y Hj _ _. destruct z1, z2, y; try done. f_equal. by rewrite insert_insert_ne.
  - by rewrite lookup_fmap, Hk.
Qed.

(** A map of strings is the image of its [string_map]. *)
Lemma string_map_inv (m : obj) (a : gmap string string) : string_map m = Some a -> m = JStr <$> a.
Proof.
  revert a. unfold string_map. induction m as [|k v m Hk IH] using map_ind; intros a.
  { rewrite map_fold_empty. intros ?. simplify_eq. by rewrite fmap_empty. }
  rewrite map_fold_insert_L; [|intros j1 j2 z1 z2 y Hj _ _;
    destruct z1, z2, y; try done; f_equal; by rewrite insert_insert_ne|done].
  destruct v; try done. destruct (map_fold _ _ m) as [r|] eqn:E; [|done].
  intros ?. simplify_eq. rewrite (IH r) by done. by rewrite fmap_insert.
Qed.

(** ** An implementation of the interface *)

Module ReferenceUnstructured.
Definition str (m : obj) (p : list string) : string := default "" (as_str (found (nested m p))).

(** "group/version", or a bare version. *)
Definition gvk (m : obj) : GroupVersionKind :=
  match Split (chr 47) (str m ["apiVersion"]) with
  | [v] => mkGVK "" v (str m ["kind"])
  | [g; v] => mkGVK g v (str m ["kind"])
  | _ => mkGVK "" "" (str m ["kind"])
  end.

#[export] Instance reference : Unstructured := {
  GetKind m := str m ["kind"];
  GetNamespace m := str m ["metadata"; "namespace"];
  GetName m := str m ["metadata"; "name"];
  GetResourceVersion m := str m ["metadata"; "resourceVersion"];
  GetAnnotations m := as_obj (found (nested m ["metadata"; "annotations"])) ≫= string_map;
  GetLabels m := as_obj (found (nested m ["metadata"; "labels"])) ≫= string_map;
  GetAPIVersion m := str m ["apiVersion"];
  GetCreationTimestamp m := default JNull (found (nested m ["metadata"; "creationTimestamp"]));
  GetGVK := gvk;
  GroupVersionString g := if Gvk_Group g =s "" then Gvk_Version g else Gvk_Group g ^^ "/" ^^ Gvk_Version g;
  SetName := set_metadata "name";
  SetNamespace := set_metadata "namespace";
  SetResourceVersion := set_metadata "resourceVersion";
  SetAnnotations a m := default m (set_nested m (JObj (JStr <$> a)) ["metadata"; "annotations"]);
  NestedString m p := as_str (found (nested m p));
  NestedStringMap m p := as_obj (found (nested m p)) ≫= string_map;
  NestedMap m p := as_obj (found (nested m p));
  NestedStringSlice m p := match nested m p with Found (JArr l) => string_list l | _ => None end;
  NestedSlice m p :=
    match nested m p with
    | Found (JArr l) => inr (Some l)
    | Absent => inr None
    | _ => inl "accessor error"
    end;
  SetNestedField := set_nested;
  SetNestedStringMap m sm p := set_nested m (JObj (JStr <$> sm)) p;
}.

#[export] Instance reference_laws : UnstructuredLaws.
Proof.
  split; try done. intros m m' Hm. cbn [GetCreationTimestamp reference].
  by rewrite !(nested_cons _ "metadata"), Hm.
Qed.
End ReferenceUnstructured.
