(* ===== verification/Drift.v ===== *)
(** * internal/drift: hashing the last applied state

    [HashObject] strips server-managed metadata and the hash annotation and
    hashes the JSON text; [Stamp] records the hash in an annotation and [Check]
    compares it with the live object. *)

From S2P Require Import Prelude GoStrings Sha256 Json JsonText Unstructured.

Definition HashAnnotation : string := "k8s-agent.io/last-applied-hash".

Definition volatileMetaKeys : list string :=
  ["resourceVersion"; "uid"; "generation"; "creationTimestamp"; "managedFields"].

(** The deletions of [HashObject] on the copied object's metadata. *)
Definition strip_meta (metadata : obj) : obj :=
  let metadata := foldl (fun m k => delete k m) metadata volatileMetaKeys in
  match metadata !! "annotations" with
  | Some (JObj ann) =>
      let ann := delete HashAnnotation ann in
      if (size ann =? 0)%nat then delete "annotations" metadata
      else <["annotations" := JObj ann]> metadata
  | _ => metadata
  end.

Definition strip (m : obj) : obj :=
  match m !! "metadata" with
  | Some (JObj metadata) => <["metadata" := JObj (strip_meta metadata)]> m
  | _ => m
  end.

Definition HashObject (m : obj) : string := sha256hex (marshal_obj (strip m)).

Definition shortHash (h : string) : string :=
  if (12 <? String.length h)%nat then take_bytes 12 h else h.

Section Drift.
Context `{Unstructured}.

(** [Check]: [None] is a match, [Some diff] the human summary. *)
Definition Check (live : obj) (expectedHash : string) : option string :=
  let liveHash := HashObject live in
  if liveHash =s expectedHash then None
  else Some ("drift detected on " ^^ GetKind live ^^ " " ^^ GetNamespace live ^^ "/" ^^ GetName live
    ^^ ": expected hash " ^^ shortHash expectedHash ^^ ", live hash " ^^ shortHash liveHash).

Definition Stamp (m : obj) : obj :=
  let ann := default ∅ (GetAnnotations m) in
  SetAnnotations (<[HashAnnotation := HashObject m]> ann) m.

Lemma Check_None live h : Check live h = None -> HashObject live = h.
Proof. unfold Check. destruct (String.eqb_spec (HashObject live) h); done. Qed.

End Drift.

(** ** What the hash depends on *)

Lemma foldl_delete_lookup (ks : list string) (m : obj) k :
  foldl (fun m k => delete k m) m ks !! k = if decide (k ∈ ks) then None else m !! k.
Proof.
  revert m. induction ks as [|k0 ks IH]; intros m; cbn [foldl]; [done|].
  rewrite IH. destruct (decide (k ∈ ks)) as [Hin|Hnin].
  - by rewrite decide_True by (by right).
  - destruct (decide (k = k0)) as [->|Hne].
    + rewrite lookup_delete_eq, decide_True by (by left). done.
    + rewrite lookup_delete_ne, decide_False by (done || by rewrite elem_of_cons; intros [|]). done.
Qed.

(** Volatile keys are gone before anything else is looked at. *)
Lemma strip_meta_volatile metadata k v :
  k ∈ volatileMetaKeys -> strip_meta (<[k := v]> metadata) = strip_meta metadata.
Proof.
  intros Hk. unfold strip_meta.
  replace (foldl (fun m k => delete k m) (<[k:=v]> metadata) volatileMetaKeys)
    with (foldl (fun m k => delete k m) metadata volatileMetaKeys); [done|].
  apply map_eq. intros j. rewrite !foldl_delete_lookup. destruct (decide (j ∈ _)) as [|Hj]; [done|].
  rewrite lookup_insert_ne; [done|]. by intros ->.
Qed.

(** The hash annotation, written or changed, does not count; nor does an
    annotation map that holds nothing else. *)
Lemma strip_meta_annotation metadata ann h :
  metadata !! "annotations" = Some (JObj ann) \/ (metadata !! "annotations" = None /\ ann = ∅) ->
  strip_meta (<["annotations" := JObj (<[HashAnnotation := h]> ann)]> metadata) = strip_meta metadata.
Proof.
  intros Ha. unfold strip_meta.
  set (md := foldl _ metadata _). set (md' := foldl _ (<["annotations" := _]> metadata) _).
  assert (md' = <["annotations" := JObj (<[HashAnnotation := h]> ann)]> md) as ->.
  { apply map_eq. intros j. subst md md'. rewrite foldl_delete_lookup.
    destruct (decide (j = "annotations")) as [->|Hj].
    - by rewrite !lookup_insert_eq.
    - rewrite !lookup_insert_ne, foldl_delete_lookup by done. done. }
  assert (md !! "annotations" = metadata !! "annotations") as Hmd.
  { subst md. by rewrite foldl_delete_lookup. }
  rewrite lookup_insert_eq, !delete_insert_eq, Hmd.
  destruct Ha as [Ha|[Ha ->]]; rewrite Ha.
  - destruct (size _ =? 0)%nat; [done|]. apply insert_insert_eq.
  - rewrite delete_empty, map_size_empty. cbn [Nat.eqb].
    apply delete_id. by rewrite Hmd, Ha.
Qed.

(** Server-managed metadata never counts as drift: writing any of
    resourceVersion, uid, generation, creationTimestamp or managedFields leaves
    the hash of an object unchanged. *)
Theorem hash_ignores_volatile m metadata k v :
  k ∈ volatileMetaKeys -> m !! "metadata" = Some (JObj metadata) ->
  HashObject (<["metadata" := JObj (<[k := v]> metadata)]> m) = HashObject m.
Proof.
  intros Hk Hm. unfold HashObject, strip.
  rewrite lookup_insert_eq, Hm, insert_insert_eq, strip_meta_volatile by done. done.
Qed.

(** Two texts with the same SHA-256. *)
Definition sha256_collision (a b : string) : Prop := a <> b /\ sha256hex a = sha256hex b.

(** ** What counts as a change *)

(** The annotations as a map; a missing field is an empty map. *)
Definition annotation_map (v : option json) : option obj :=
  match v with
  | Some (JObj a) => Some a
  | None => Some ∅
  | _ => None
  end.

(** Equal annotations, the hash annotation aside. *)
Definition same_annotations (v1 v2 : option json) : Prop :=
  match annotation_map v1, annotation_map v2 with
  | Some a1, Some a2 => forall k, k <> HashAnnotation -> a1 !! k = a2 !! k
  | None, None => v1 = v2
  | _, _ => False
  end.

Definition same_metadata (v1 v2 : option json) : Prop :=
  match v1, v2 with
  | Some (JObj m1), Some (JObj m2) =>
      (forall k, k ∉ volatileMetaKeys -> k <> "annotations" -> m1 !! k = m2 !! k) /\
      same_annotations (m1 !! "annotations") (m2 !! "annotations")
  | _, _ => v1 = v2
  end.

(** Two objects that differ at most in server-managed metadata and in the hash
    annotation. *)
Definition unchanged (o1 o2 : obj) : Prop :=
  (forall k, k <> "metadata" -> o1 !! k = o2 !! k) /\ same_metadata (o1 !! "metadata") (o2 !! "metadata").

(** What [strip_meta] leaves of the annotations. *)
Definition stripped_annotations (v : option json) : option json :=
  match v with
  | Some (JObj a) => if decide (delete HashAnnotation a = ∅) then None else Some (JObj (delete HashAnnotation a))
  | _ => v
  end.

Lemma annotations_kept : "annotations" ∉ volatileMetaKeys.
Proof. by apply (bool_decide_unpack _). Qed.

Lemma strip_meta_lookup metadata k :
  strip_meta metadata !! k =
    if decide (k ∈ volatileMetaKeys) then None
    else if decide (k = "annotations") then stripped_annotations (metadata !! k)
    else metadata !! k.
Proof.
  unfold strip_meta. set (md := foldl _ metadata _).
  assert (forall k, md !! k = if decide (k ∈ volatileMetaKeys) then None else metadata !! k) as Hmd
    by (intros; apply foldl_delete_lookup).
  pose proof annotations_kept as Hann. rewrite (Hmd "annotations"), decide_False by done.
  destruct (decide (k = "annotations")) as [->|Hk].
  - rewrite (decide_False (P := _ ∈ _)) by done.
    destruct (metadata !! "annotations") as [[| | | | |a]|] eqn:Ha; cbn [stripped_annotations];
      try (by rewrite Hmd, decide_False, Ha by done).
    destruct (Nat.eqb_spec (size (delete HashAnnotation a)) 0) as [Hs|Hs]; rewrite map_size_empty_iff in Hs.
    + rewrite decide_True by done. apply lookup_delete_eq.
    + rewrite decide_False by done. apply lookup_insert_eq.
  - destruct (metadata !! "annotations") as [[| | | | |a]|]; try by rewrite Hmd.
    destruct (_ =? _)%nat; [rewrite lookup_delete_ne by done|rewrite lookup_insert_ne by done]; by rewrite Hmd.
Qed.

Lemma stripped_annotations_iff v1 v2 :
  stripped_annotations v1 = stripped_annotations v2 <-> same_annotations v1 v2.
Proof.
  assert (forall a b : obj, delete HashAnnotation a = delete HashAnnotation b <->
    forall k, k <> HashAnnotation -> a !! k = b !! k) as Hdel.
  { intros a b. rewrite map_eq_iff. split; intros Hk k.
    - intros Hne. specialize (Hk k). by rewrite !lookup_delete_ne in Hk by done.
    - destruct (decide (k = HashAnnotation)) as [->|Hne]; [by rewrite !lookup_delete_eq|].
      rewrite !lookup_delete_ne by done. auto. }
  unfold same_annotations, stripped_annotations, annotation_map.
  destruct v1 as [[| | | | |a1]|], v2 as [[| | | | |a2]|]; rewrite <- ?Hdel, ?delete_empty;
    repeat case_decide; split; intros; simplify_eq; done || congruence.
Qed.

Lemma strip_meta_iff m1 m2 : strip_meta m1 = strip_meta m2 <-> same_metadata (Some (JObj m1)) (Some (JObj m2)).
Proof.
  unfold same_metadata. rewrite <- stripped_annotations_iff, map_eq_iff. split.
  - intros Hk. split; [intros k Hv Hn; specialize (Hk k)|specialize (Hk "annotations")];
      rewrite !strip_meta_lookup in Hk.
    + by rewrite !(decide_False (P := _ ∈ _)), !(decide_False (P := _ = _)) in Hk by done.
    + rewrite !(decide_False (P := _ ∈ _)) in Hk by exact annotations_kept. by rewrite !decide_True in Hk.
  - intros [Hk Ha] k. rewrite !strip_meta_lookup. case_decide; [done|]. case_decide; [by subst|auto].
Qed.

Lemma strip_iff o1 o2 : strip o1 = strip o2 <-> unchanged o1 o2.
Proof.
  assert (forall o k, k <> "metadata" -> strip o !! k = o !! k) as Hother.
  { intros o k Hk. unfold strip. destruct (o !! "metadata") as [[]|]; try done. by rewrite lookup_insert_ne. }
  assert (forall o, strip o !! "metadata" =
    match o !! "metadata" with Some (JObj m) => Some (JObj (strip_meta m)) | v => v end) as Hmeta.
  { intros o. unfold strip. destruct (o !! "metadata") as [[]|] eqn:E; rewrite ?lookup_insert_eq; done. }
  unfold unchanged. rewrite map_eq_iff. split.
  - intros Hs. split; [intros k Hk; by rewrite <- (Hother o1), <- (Hother o2), Hs|]. specialize (Hs "metadata"). rewrite !Hmeta in Hs.
    destruct (o1 !! "metadata") as [[]|], (o2 !! "metadata") as [[]|]; try done. apply strip_meta_iff. congruence.
  - intros [Hk Hm] k. destruct (decide (k = "metadata")) as [->|Hne]; [|by rewrite !Hother, Hk].
    rewrite !Hmeta. destruct (o1 !! "metadata") as [[]|], (o2 !! "metadata") as [[]|]; try done.
    apply strip_meta_iff in Hm. by rewrite Hm.
Qed.

(** C21. The drift gate sees every change that counts: for objects JSON can
    represent, [Check] of the live object against the hash of the applied one
    finds no drift exactly when the two differ at most in server-managed
    metadata and the hash annotation, or when the texts that were hashed are a
    SHA-256 collision. *)
Theorem check_iff_unchanged `{Unstructured} live applied :
  encodable (JObj (strip live)) = true -> encodable (JObj (strip applied)) = true ->
  Check live (HashObject applied) = None <->
  unchanged live applied \/ sha256_collision (marshal_obj (strip live)) (marshal_obj (strip applied)).
Proof.
  intros Hl Ha. rewrite <- strip_iff. unfold Check, HashObject, sha256_collision.
  destruct (String.eqb_spec (sha256hex (marshal_obj (strip live))) (sha256hex (marshal_obj (strip applied))))
    as [Heq|Hne]; split; try done.
  - intros _. destruct (decide (marshal_obj (strip live) = marshal_obj (strip applied))) as [Ht|Ht]; [left|by right].
    by apply marshal_obj_inj.
  - intros [Hs|[_ ?]]; [by rewrite Hs in Hne|done].
Qed.

Section Stamping.
Context `{UnstructuredLaws}.

(** An object [Stamp] can annotate without losing anything: metadata is a map
    whose annotations, if any, are strings. *)
Definition stampable (m : obj) : Prop :=
  exists metadata, m !! "metadata" = Some (JObj metadata) /\
    (metadata !! "annotations" = None \/
     exists a : gmap string string, metadata !! "annotations" = Some (JObj (JStr <$> a))).

(** What [Stamp] writes on such an object. *)
Lemma Stamp_eq m metadata ann :
  m !! "metadata" = Some (JObj metadata) ->
  metadata !! "annotations" = Some (JObj (JStr <$> ann)) \/
  (metadata !! "annotations" = None /\ ann = ∅) ->
  Stamp m = <["metadata" := JObj (<["annotations" :=
    JObj (<[HashAnnotation := JStr (HashObject m)]> (JStr <$> ann))]> metadata)]> m.
Proof.
  intros Hm Ha. unfold Stamp. rewrite set_annotations, get_annotations, nested_string_map.
  assert (default ∅ (as_obj (found (nested m ["metadata"; "annotations"])) ≫= string_map) = ann) as ->.
  { rewrite nested_cons, Hm. cbn. destruct Ha as [->|[-> ->]]; [|done]. cbn. by rewrite string_map_fmap. }
  cbn [set_nested]. rewrite Hm. cbn. by rewrite fmap_insert.
Qed.

(** C34. Stamping an object does not count as drift: on an object whose metadata
    is a map with string annotations, [Stamp] leaves the hash unchanged and the
    annotation it writes is that hash, so a later [Check] of the object as
    applied against the recorded annotation finds no drift. *)
Theorem stamp_then_check m :
  stampable m ->
  HashObject (Stamp m) = HashObject m /\
  exists h, (GetAnnotations (Stamp m) ≫= lookup HashAnnotation) = Some h /\ Check (Stamp m) h = None.
Proof.
  intros (metadata & Hm & Ha).
  assert (exists ann : gmap string string, metadata !! "annotations" = Some (JObj (JStr <$> ann)) \/
    (metadata !! "annotations" = None /\ ann = ∅)) as (ann & Hann).
  { destruct Ha as [Ha|[a Ha]]; [by exists ∅; right|by exists a; left]. }
  pose proof (Stamp_eq m metadata ann Hm Hann) as HS.
  assert (HashObject (Stamp m) = HashObject m) as Hh.
  { rewrite HS. generalize (JStr (HashObject m)). intros h. unfold HashObject, strip.
    rewrite lookup_insert_eq, Hm, insert_insert_eq, strip_meta_annotation; [done|].
    destruct Hann as [->|[-> ->]]; [by left|by right; rewrite fmap_empty]. }
  split; [done|]. exists (HashObject m). split.
  - rewrite get_annotations, nested_string_map, HS. rewrite nested_cons, lookup_insert_eq. cbn.
    rewrite lookup_insert_eq. cbn. rewrite <- fmap_insert, string_map_fmap. cbn. apply lookup_insert_eq.
  - unfold Check. by rewrite Hh, String.eqb_refl.
Qed.

(** An annotation that is not a string makes [Stamp] drop every annotation
    of the manifest: the accessor gives up on the whole map, and the write
    replaces it by the hash annotation alone. *)
Theorem stamp_drops_annotations m metadata ann :
  m !! "metadata" = Some (JObj metadata) -> metadata !! "annotations" = Some (JObj ann) ->
  string_map ann = None ->
  GetAnnotations (Stamp m) = Some {[ HashAnnotation := HashObject m ]}.
Proof.
  intros Hm Ha Hs. rewrite get_annotations, nested_string_map. unfold Stamp.
  rewrite set_annotations, get_annotations, nested_string_map.
  rewrite !(nested_cons m), Hm. cbn. rewrite Ha. cbn. rewrite Hs. cbn. rewrite Hm. cbn.
  rewrite lookup_insert_eq. cbn. rewrite lookup_insert_eq. cbn. by rewrite string_map_fmap.
Qed.

End Stamping.

(** ** Example *)

Module DriftExample.
Import ReferenceUnstructured.

Definition labels : obj := {[ "app" := JStr "web" ]}.
Definition metadata : obj :=
  <["name" := JStr "web"]> (<["namespace" := JStr "default"]> (<["labels" := JObj labels]>
  (<["resourceVersion" := JStr "17"]> ∅))).
Definition web : obj :=
  <["kind" := JStr "Deployment"]> (<["metadata" := JObj metadata]>
  {[ "spec" := JObj {[ "replicas" := JNum "2" ]} ]}).

Lemma web_stampable : stampable web.
Proof. exists metadata. split; [done|by left]. Qed.

(** The same deployment, touched by the API server and scaled by hand. *)
Definition scaled : obj := <["spec" := JObj {[ "replicas" := JNum "3" ]}]>
  (<["metadata" := JObj (<["uid" := JStr "1234"]> metadata)]> web).

Lemma check_iff_unchanged_witness :
  Check scaled (HashObject web) = None <->
  unchanged scaled web \/ sha256_collision (marshal_obj (strip scaled)) (marshal_obj (strip web)).
Proof. apply (check_iff_unchanged scaled web); vm_compute; reflexivity. Defined.

Lemma hash_ignores_volatile_witness :
  HashObject (<["metadata" := JObj (<["uid" := JStr "1234"]> metadata)]> web) = HashObject web.
Proof.
  apply (hash_ignores_volatile web metadata "uid" (JStr "1234"));
    [vm_compute; right; left | reflexivity].
Defined.

Lemma stamp_then_check_witness :
  HashObject (Stamp web) = HashObject web /\
  exists h, (GetAnnotations (Stamp web) ≫= lookup HashAnnotation) = Some h /\ Check (Stamp web) h = None.
Proof. apply (stamp_then_check web). exact web_stampable. Defined.

Definition numeric : obj := <["metadata" := JObj (<["annotations" :=
  JObj (<["team" := JStr "core"]> {[ "priority" := JNum "5" ]})]> metadata)]> web.

Lemma stamp_drops_annotations_witness :
  GetAnnotations (Stamp numeric) = Some {[ HashAnnotation := HashObject numeric ]}.
Proof.
  apply (stamp_drops_annotations numeric (<["annotations" :=
    JObj (<["team" := JStr "core"]> {[ "priority" := JNum "5" ]})]> metadata)
    (<["team" := JStr "core"]> {[ "priority" := JNum "5" ]})); reflexivity.
Defined.

Example drift_reported :
  Check (<["spec" := JObj {[ "replicas" := JNum "3" ]}]> web) (HashObject web)
  = Some ("drift detected on Deployment default/web: expected hash 8d9e46625f75, live hash 0d066ee0527d").
Proof. vm_compute. reflexivity. Qed.
End DriftExample.
