(* ===== verification/Merge.v ===== *)
(** * internal/executor: building the body of an update

    Updating an object that already exists overlays the manifest on the live
    object ([mergeMap], [mergeForUpdate]) and then restores the fields the API
    server treats as immutable or grow-only ([adoptImmutableFields]).  The
    quantities of k8s.io/apimachinery/pkg/api/resource are the class
    [Quantities]. *)

From S2P Require Import Prelude GoStrings Json Unstructured.
Local Open Scope Z_scope.

(** ** The overlay *)

(** The body of the second loop of [mergeMap] for one entry [k], [v] of the
    override; [rec] is the recursive call on two maps. *)
Definition merge_entry (rec : obj -> obj -> obj) (k : string) (v : json) (out : obj) : obj :=
  match v with
  | JNull => delete k out
  | JObj ov =>
      match out !! k with
      | Some (JObj bv) => <[k := JObj (rec bv ov)]> out
      | _ => <[k := v]> out
      end
  | _ => <[k := v]> out
  end.

(** [mergeMap]: the first loop copies [base], the second folds the override's
    entries, in an order Go leaves open, over the copy. *)
Fixpoint merge_value (v : json) (base : obj) : obj :=
  match v with
  | JObj override =>
      map_fold (fun k v out =>
        match v with
        | JNull => delete k out
        | JObj _ =>
            match out !! k with
            | Some (JObj bv) => <[k := JObj (merge_value v bv)]> out
            | _ => <[k := v]> out
            end
        | _ => <[k := v]> out
        end) base override
  | _ => base
  end.

Definition mergeMap (base override : obj) : obj := merge_value (JObj override) base.

Lemma mergeMap_fold base override : mergeMap base override = map_fold (merge_entry mergeMap) base override.
Proof.
  unfold mergeMap at 1. cbn [merge_value]. rewrite !map_fold_foldr.
  induction (map_to_list override) as [|[k v] l IH]; [done|]. cbn [foldr uncurry].
  rewrite IH. unfold merge_entry at 1. by destruct v.
Qed.

(** What the overlay holds at one key. *)
Definition merge_at (b o : option json) : option json :=
  match o with
  | None => b
  | Some JNull => None
  | Some (JObj ov) =>
      match b with
      | Some (JObj bv) => Some (JObj (mergeMap bv ov))
      | _ => Some (JObj ov)
      end
  | Some v => Some v
  end.

(** An entry changes its own key only. *)
Lemma merge_entry_lookup k v out j :
  merge_entry mergeMap k v out !! j = if decide (j = k) then merge_at (out !! k) (Some v) else out !! j.
Proof.
  destruct (decide (j = k)) as [->|Hne]; unfold merge_entry.
  - destruct v; try (by rewrite lookup_insert_eq); [by rewrite lookup_delete_eq|].
    cbn [merge_at]. destruct (out !! k) as [[]|]; by rewrite lookup_insert_eq.
  - destruct v; try (by rewrite lookup_insert_ne); [by rewrite lookup_delete_ne|].
    destruct (out !! k) as [[]|]; by rewrite lookup_insert_ne.
Qed.

Lemma merge_entry_comm k1 k2 v1 v2 out :
  k1 <> k2 ->
  merge_entry mergeMap k1 v1 (merge_entry mergeMap k2 v2 out) =
  merge_entry mergeMap k2 v2 (merge_entry mergeMap k1 v1 out).
Proof.
  intros Hne. apply map_eq. intros j. rewrite !merge_entry_lookup.
  repeat case_decide; congruence.
Qed.

Lemma mergeMap_lookup base override k :
  mergeMap base override !! k = merge_at (base !! k) (override !! k).
Proof.
  rewrite mergeMap_fold. induction override as [|j v m Hj IH] using map_ind.
  { by rewrite map_fold_empty, lookup_empty. }
  rewrite map_fold_insert_L by (done || intros; by apply merge_entry_comm).
  rewrite merge_entry_lookup. destruct (decide (k = j)) as [->|Hne].
  - rewrite lookup_insert_eq. by rewrite IH, Hj.
  - by rewrite lookup_insert_ne.
Qed.

(** The overlay does not depend on the order in which Go ranges over the
    manifest's map: folding its entries in any order gives the same object,
    and at every key that object holds the live value where the manifest is
    silent, nothing where it says null, the recursive overlay where both are
    maps, and the manifest's value otherwise. *)
Theorem merge_any_order base override entries :
  entries ≡ₚ map_to_list override ->
  let merged := foldl (fun out e => merge_entry mergeMap e.1 e.2 out) base entries in
  merged = mergeMap base override /\
  forall k, merged !! k = merge_at (base !! k) (override !! k).
Proof.
  intros Hp. cbv zeta.
  assert (foldl (fun out e => merge_entry mergeMap e.1 e.2 out) base entries = mergeMap base override) as ->;
    [|split; [done|intros; apply mergeMap_lookup]].
  apply map_eq. intros k. rewrite mergeMap_lookup.
  assert (NoDup entries.*1) as Hnd by (rewrite Hp; apply NoDup_fst_map_to_list).
  rewrite <- (list_to_map_to_list override), <- (list_to_map_proper entries) by done. clear Hp override.
  revert base. induction entries as [|[j v] l IH]; intros base; cbn [foldl list_to_map]; [done|].
  apply NoDup_cons in Hnd as [Hj Hnd]. cbn in Hj. rewrite IH by done. cbn. rewrite merge_entry_lookup.
  destruct (decide (k = j)) as [->|Hne].
  - rewrite lookup_insert_eq, (not_elem_of_list_to_map_1 l j) by done. done.
  - by rewrite lookup_insert_ne.
Qed.

(** ** Paths through the overlay *)

(** The manifest says nothing about [p]. *)
Fixpoint omits (override : obj) (p : list string) : bool :=
  match p with
  | [] => false
  | k :: rest =>
      match override !! k with
      | None => true
      | Some (JObj o) => omits o rest
      | Some _ => false
      end
  end.

(** A value that is neither null nor a map. *)
Definition leaf (v : json) : bool :=
  match v with
  | JNull | JObj _ => false
  | _ => true
  end.

Lemma merge_path_kept base override p v :
  omits override p = true -> nested base p = Found v -> nested (mergeMap base override) p = Found v.
Proof.
  revert base override. induction p as [|k p IH]; intros base override Ho Hb; [done|].
  rewrite nested_cons in *. rewrite mergeMap_lookup. cbn [omits] in Ho.
  destruct (override !! k) as [[]|]; cbn [merge_at]; try done.
  destruct (base !! k) as [bv|]; [|done].
  destruct p as [|k2 p]; [done|]. destruct bv; try done. by apply IH.
Qed.

Lemma merge_path_set base override p v :
  leaf v = true -> p <> [] -> nested override p = Found v -> nested (mergeMap base override) p = Found v.
Proof.
  intros Hv. revert base override. induction p as [|k p IH]; intros base override Hp Ho; [done|].
  rewrite nested_cons in *. rewrite mergeMap_lookup.
  destruct (override !! k) as [o|]; [|done]. destruct p as [|k2 p].
  - cbn in Ho. simplify_eq. by destruct v.
  - destruct o; try done. cbn [merge_at].
    destruct (base !! k) as [[]|]; try done. by apply IH.
Qed.

(** ** Redeploying the same manifest *)

(** No null under the manifest's maps. *)
Fixpoint null_free (j : json) : bool :=
  match j with
  | JNull => false
  | JObj m => map_fold (fun _ v acc => null_free v && acc) true m
  | _ => true
  end.

Lemma null_free_field m k v : null_free (JObj m) = true -> m !! k = Some v -> null_free v = true.
Proof.
  intros Hm Hk. cbn [null_free] in Hm.
  rewrite (map_fold_delete_L (fun _ v acc => null_free v && acc) true k v m) in Hm;
    [by apply andb_true_iff in Hm as [? _]| |done].
  intros. destruct (null_free z1), (null_free z2); done.
Qed.

Lemma merge_self j m : j = JObj m -> null_free j = true -> mergeMap m m = m.
Proof.
  revert m. induction j as [| | | | |m0 IH] using json_induction; intros m ? Hn; simplify_eq.
  apply map_eq. intros k. rewrite mergeMap_lookup. destruct (m !! k) as [v|] eqn:Hk; [|done].
  pose proof (null_free_field _ _ _ Hn Hk) as Hv. cbn [merge_at]. destruct v; try done.
  by rewrite (IH k _ Hk _ eq_refl Hv).
Qed.

Lemma merge_twice j override base :
  j = JObj override -> null_free j = true ->
  mergeMap (mergeMap base override) override = mergeMap base override.
Proof.
  revert override base. induction j as [| | | | |m0 IH] using json_induction; intros override base ? Hn; simplify_eq.
  apply map_eq. intros k. rewrite !mergeMap_lookup. destruct (override !! k) as [v|] eqn:Hk; [|done].
  pose proof (null_free_field _ _ _ Hn Hk) as Hv. destruct v as [| | | | |o]; try done. cbn [merge_at].
  destruct (base !! k) as [[| | | | |bv]|]; cbn [merge_at]; try (by rewrite (merge_self (JObj o))).
  by rewrite (IH k _ Hk o bv eq_refl Hv).
Qed.

(** [mergeForUpdate]: the live object is deep-copied, so the result is a value
    of its own. *)
Definition mergeForUpdate (live desired : obj) : obj := mergeMap live desired.

(** C30. Updating in place changes exactly what the manifest says: a live value at
    any path the manifest omits survives, a scalar or list the manifest sets at
    any path wins, and overlaying a manifest without nulls a second time
    changes nothing. *)
Theorem update_overlays_manifest live desired :
  (forall p v, omits desired p = true -> nested live p = Found v ->
     nested (mergeForUpdate live desired) p = Found v) /\
  (forall p v, leaf v = true -> nested desired p = Found v ->
     nested (mergeForUpdate live desired) p = Found v) /\
  (null_free (JObj desired) = true ->
     mergeForUpdate (mergeForUpdate live desired) desired = mergeForUpdate live desired).
Proof.
  split_and!.
  - intros. by apply merge_path_kept.
  - intros p v Hv Hp. apply merge_path_set; [done| |done]. intros ->. cbn in Hp. by simplify_eq.
  - intros. by eapply merge_twice.
Qed.

(** A null inside a map the live object lacks is kept, although null is
    documented to remove a key: the update then carries an explicit null. *)
Theorem null_in_new_map_survives base k k' rest :
  base !! k = None ->
  nested (mergeMap base (<[k := JObj (<[k' := JNull]> rest)]> ∅)) [k; k'] = Found JNull.
Proof.
  intros Hb. rewrite nested_cons, mergeMap_lookup, Hb, lookup_insert_eq. cbn [merge_at].
  cbn [nested_value]. by rewrite lookup_insert_eq.
Qed.

(** ** Immutable and grow-only fields *)

(** resource.Quantity. *)
Class Quantities := {
  quantity : Type;
  ParseQuantity : string -> option quantity;
  Cmp : quantity -> quantity -> Z;
}.

(** [Cmp] compares amounts: its sign is a total preorder. *)
Class QuantityLaws `{Quantities} : Prop := {
  parse_empty : ParseQuantity "" = None;
  cmp_opp a b : Cmp b a = - Cmp a b;
  cmp_trans a b c : 0 <= Cmp a b -> 0 <= Cmp b c -> 0 <= Cmp a c;
}.

Definition storage_request : list string := ["spec"; "resources"; "requests"; "storage"].
Definition storage_capacity : list string := ["status"; "capacity"; "storage"].
Definition match_labels : list string := ["spec"; "selector"; "matchLabels"].
Definition template_labels : list string := ["spec"; "template"; "metadata"; "labels"].

Definition pvcFields : list string :=
  ["volumeName"; "storageClassName"; "volumeMode"; "dataSource"; "dataSourceRef"; "selector"].
Definition serviceFields : list string := ["clusterIP"; "clusterIPs"; "ipFamilies"; "ipFamilyPolicy"].
Definition workloadKinds : list string := ["Deployment"; "StatefulSet"; "DaemonSet"; "ReplicaSet"; "Job"].

Section Adopt.
Context `{Unstructured} `{Quantities}.

(** A quantity together with its original text. *)
Record storageFloor := mkStorageFloor { qty : quantity; str : string }.

(** One round of the loop of [pvcStorageFloor]. *)
Definition floor_step (live : obj) (floor : option storageFloor) (path : list string) : option storageFloor :=
  match NestedString live path with
  | None => floor
  | Some s =>
      if s =s "" then floor
      else
        match ParseQuantity s with
        | None => floor
        | Some q =>
            match floor with
            | Some f => if 0 <? Cmp q (qty f) then Some (mkStorageFloor q s) else floor
            | None => Some (mkStorageFloor q s)
            end
        end
  end.

Definition pvcStorageFloor (live : obj) : option storageFloor :=
  foldl (floor_step live) None [storage_request; storage_capacity].

Definition clampPVCStorage (merged live : obj) : obj :=
  match pvcStorageFloor live with
  | None => merged
  | Some floor =>
      let reqStr := default "" (NestedString merged storage_request) in
      match ParseQuantity reqStr with
      | Some reqQty =>
          if 0 <=? Cmp reqQty (qty floor) then merged
          else default merged (SetNestedField merged (JStr (str floor)) storage_request)
      | None => default merged (SetNestedField merged (JStr (str floor)) storage_request)
      end
  end.

Definition reconcileSelectorLabels (o : obj) : obj :=
  let selector := default ∅ (NestedStringMap o match_labels) in
  if (size selector =? 0)%nat then o
  else
    let labels := default ∅ (NestedStringMap o template_labels) in
    let labels := map_fold (fun k v labels => <[k := v]> labels) labels selector in
    default o (SetNestedStringMap o labels template_labels).

(** [spec[f] = liveSpec[f]], or its removal. *)
Definition adopt_field (liveSpec spec : obj) (f : string) : obj :=
  match liveSpec !! f with
  | Some v => <[f := v]> spec
  | None => delete f spec
  end.

(** [adoptImmutableFields] writes through the [spec] map it shares with
    [merged]. *)
Definition adoptImmutableFields (merged live : obj) : obj :=
  match as_obj (merged !! "spec"), as_obj (live !! "spec") with
  | Some spec, Some liveSpec =>
      let kind := GetKind merged in
      let adopt fields := <["spec" := JObj (foldl (adopt_field liveSpec) spec fields)]> merged in
      if kind =s "PersistentVolumeClaim" then clampPVCStorage (adopt pvcFields) live
      else if kind =s "Service" then adopt serviceFields
      else if existsb (String.eqb kind) workloadKinds then reconcileSelectorLabels (adopt ["selector"])
      else merged
  | _, _ => merged
  end.

End Adopt.

(** ** What adoption guarantees *)

Lemma adopt_fields_lookup liveSpec spec fields f :
  foldl (adopt_field liveSpec) spec fields !! f = if decide (f ∈ fields) then liveSpec !! f else spec !! f.
Proof.
  revert spec. induction fields as [|g fields IH]; intros spec; cbn [foldl]; [done|].
  rewrite IH. unfold adopt_field. destruct (decide (f ∈ fields)) as [Hin|Hnin].
  { by rewrite decide_True by (by right). }
  destruct (decide (f = g)) as [->|Hne].
  - rewrite decide_True by (by left). destruct (liveSpec !! g); by rewrite ?lookup_insert_eq, ?lookup_delete_eq.
  - rewrite decide_False by (by rewrite elem_of_cons; intros [|]).
    destruct (liveSpec !! g); by rewrite ?lookup_insert_ne, ?lookup_delete_ne.
Qed.

(** A write two levels down leaves the siblings alone. *)
Lemma set_nested_sibling m v k k2 p m' s :
  m !! k = Some (JObj s) -> set_nested m v (k :: k2 :: p) = Some m' ->
  exists s', m' !! k = Some (JObj s') /\ set_nested s v (k2 :: p) = Some s' /\
    forall f, f <> k2 -> s' !! f = s !! f.
Proof.
  intros Hm Hs.
  rewrite set_nested_cons in Hs.
  rewrite Hm in Hs. apply fmap_Some in Hs as (s' & Hs & ->). exists s'.
  rewrite lookup_insert_eq. split_and!; [done..|]. intros f Hf. by eapply set_nested_other.
Qed.

(** Writing below a map that is there always succeeds. *)
Lemma set_nested_total m v p k s : nested m p = Found (JObj s) -> exists m', set_nested m v (p ++ [k]) = Some m'.
Proof.
  revert m. induction p as [|k0 p IH]; intros m Hp; [by eexists|].
  rewrite nested_cons in Hp. destruct (m !! k0) as [w|] eqn:Hk; [|done].
  assert (exists m0, w = JObj m0 /\ nested m0 p = Found (JObj s)) as (m0 & -> & Hp0).
  { destruct w; destruct p; try done; eauto. }
  destruct (IH _ Hp0) as [m1 H1]. exists (<[k0 := JObj m1]> m).
  destruct p; cbn [app] in *; rewrite set_nested_cons, Hk, H1; done.
Qed.

Section AdoptFacts.
Context `{UnstructuredLaws} `{QuantityLaws}.

(** The fields of the spec an update may not change. *)
Definition immutable_fields (kind : string) : list string :=
  if kind =s "PersistentVolumeClaim" then pvcFields
  else if kind =s "Service" then serviceFields
  else if existsb (String.eqb kind) workloadKinds then ["selector"]
  else [].

Definition spec_keeps (m m' : obj) (fields : list string) : Prop :=
  (forall k, k <> "spec" -> m' !! k = m !! k) /\
  forall s, m !! "spec" = Some (JObj s) ->
    exists s', m' !! "spec" = Some (JObj s') /\ forall f, f ∈ fields -> s' !! f = s !! f.

Lemma spec_write_keeps m v k2 p fields :
  k2 ∉ fields -> spec_keeps m (default m (set_nested m v ("spec" :: k2 :: p))) fields.
Proof.
  intros Hk. destruct (set_nested m v ("spec" :: k2 :: p)) as [m'|] eqn:Hs; cbn [default].
  - split; [intros; by eapply set_nested_other|]. intros s Hm.
    destruct (set_nested_sibling _ _ _ _ _ _ _ Hm Hs) as (s' & ? & _ & Hf). exists s'.
    split; [done|]. intros f Hin. apply Hf. by intros ->.
  - split; [done|]. intros s Hm. by exists s.
Qed.

Lemma clamp_keeps m live : spec_keeps m (clampPVCStorage m live) pvcFields.
Proof.
  assert (spec_keeps m m pvcFields) by (split; [done|]; intros s Hm; by exists s).
  unfold clampPVCStorage. destruct (pvcStorageFloor live) as [fl|]; [|done].
  rewrite set_nested_field. repeat case_match; try done;
    apply spec_write_keeps; vm_compute; intros Hin; repeat (apply elem_of_cons in Hin as [Hin|Hin]; [done|]);
    by apply elem_of_nil in Hin.
Qed.

Lemma reconcile_keeps m : spec_keeps m (reconcileSelectorLabels m) ["selector"].
Proof.
  unfold reconcileSelectorLabels. destruct (_ =? 0)%nat.
  - split; [done|]. intros s Hm. by exists s.
  - rewrite set_nested_string_map. apply spec_write_keeps. by rewrite list_elem_of_singleton.
Qed.

Lemma spec_keeps_adopted m spec liveSpec fields (m' : obj) :
  m !! "spec" = Some (JObj spec) ->
  spec_keeps (<["spec" := JObj (foldl (adopt_field liveSpec) spec fields)]> m) m' fields ->
  (forall k, k <> "spec" -> m' !! k = m !! k) /\
  exists spec', m' !! "spec" = Some (JObj spec') /\ forall f, f ∈ fields -> spec' !! f = liveSpec !! f.
Proof.
  intros Hm [Ho Hs]. split; [intros k Hk; rewrite Ho, lookup_insert_ne by done; done|].
  destruct (Hs _ ltac:(by rewrite lookup_insert_eq)) as (s' & Hs' & Hf). exists s'. split; [done|].
  intros f Hin. rewrite Hf by done. by rewrite adopt_fields_lookup, decide_True.
Qed.

(** An update never changes an immutable field: for claims, services and
    workloads, every field the API server treats as immutable has the live
    value (or is absent as in the live object) in the adopted object, and
    nothing outside the spec changes. *)
Theorem immutable_fields_adopted merged live spec liveSpec :
  merged !! "spec" = Some (JObj spec) -> live !! "spec" = Some (JObj liveSpec) ->
  (forall k, k <> "spec" -> adoptImmutableFields merged live !! k = merged !! k) /\
  exists spec', adoptImmutableFields merged live !! "spec" = Some (JObj spec') /\
    forall f, f ∈ immutable_fields (GetKind merged) -> spec' !! f = liveSpec !! f.
Proof.
  intros Hm Hl. unfold adoptImmutableFields, immutable_fields. rewrite Hm, Hl. cbn [as_obj].
  destruct (GetKind merged =s "PersistentVolumeClaim");
    [by eapply spec_keeps_adopted, clamp_keeps|].
  destruct (GetKind merged =s "Service").
  { eapply spec_keeps_adopted; [done..|]. split; [done|]. intros s Hs. by exists s. }
  destruct (existsb _ _); [by eapply spec_keeps_adopted, reconcile_keeps|].
  split; [done|]. exists spec. split; [done|]. intros f Hf. by apply elem_of_nil in Hf.
Qed.
(** *** Workloads *)

Lemma labels_union (labels sel : gmap string string) :
  map_fold (fun k v labels => <[k := v]> labels) labels sel = sel ∪ labels.
Proof.
  induction sel as [|k v sel Hk IH] using map_ind; [by rewrite map_fold_empty, (left_id_L ∅ (∪))|].
  rewrite map_fold_insert_L by (done || intros; by apply insert_insert_ne).
  by rewrite IH, insert_union_l.
Qed.

Lemma reconcile_spec o s md sel :
  o !! "spec" = Some (JObj s) -> nested s ["template"; "metadata"] = Found (JObj md) ->
  NestedStringMap o match_labels = Some sel ->
  default ∅ (NestedStringMap (reconcileSelectorLabels o) template_labels)
  = sel ∪ default ∅ (NestedStringMap o template_labels).
Proof.
  intros Ho Hmd Hsel. unfold reconcileSelectorLabels. rewrite Hsel.
  change (default ∅ (Some sel)) with sel. cbv zeta.
  destruct (size sel =? 0)%nat eqn:E.
  { apply Nat.eqb_eq, map_size_empty_inv in E. subst. by rewrite (left_id_L ∅ (∪)). }
  rewrite labels_union, set_nested_string_map.
  assert (nested o ["spec"; "template"; "metadata"] = Found (JObj md)) as Hp.
  { rewrite nested_cons, Ho. exact Hmd. }
  destruct (set_nested_total o (JObj (JStr <$> (sel ∪ default ∅ (NestedStringMap o template_labels))))
    _ "labels" _ Hp) as [o' Ho']. change (set_nested o (JObj (JStr <$> sel ∪ default ∅ (NestedStringMap o template_labels)))
    template_labels = Some o') in Ho'. rewrite Ho'.
  change (default o (Some o')) with o'.
  rewrite (nested_string_map o'), (nested_set_nested _ _ _ _ Ho'). cbn [found as_obj mbind option_bind].
  by rewrite string_map_fmap.
Qed.

(** A redeployed workload keeps its pods selectable: the pod template labels
    of the update contain every label of the live selector with the selector's
    value, and all other template labels are the manifest's. *)
Theorem template_satisfies_selector merged live spec liveSpec md sel :
  existsb (String.eqb (GetKind merged)) workloadKinds = true ->
  merged !! "spec" = Some (JObj spec) -> live !! "spec" = Some (JObj liveSpec) ->
  nested spec ["template"; "metadata"] = Found (JObj md) ->
  NestedStringMap live match_labels = Some sel ->
  exists labels,
    default ∅ (NestedStringMap (adoptImmutableFields merged live) template_labels) = labels /\
    sel ⊆ labels /\
    forall k, sel !! k = None -> labels !! k = default ∅ (NestedStringMap merged template_labels) !! k.
Proof.
  intros Hkind Hm Hl Hmd Hsel. unfold adoptImmutableFields. rewrite Hm, Hl. cbn [as_obj].
  destruct (String.eqb_spec (GetKind merged) "PersistentVolumeClaim") as [E|_]; [by rewrite E in Hkind|].
  destruct (String.eqb_spec (GetKind merged) "Service") as [E|_]; [by rewrite E in Hkind|].
  rewrite Hkind. set (s' := foldl _ spec _). set (o := <["spec" := JObj s']> merged).
  assert (s' !! "selector" = liveSpec !! "selector" /\ s' !! "template" = spec !! "template") as [Hs Ht].
  { subst s'. by rewrite !adopt_fields_lookup. }
  assert (o !! "spec" = Some (JObj s')) as Ho by apply lookup_insert_eq.
  rewrite (reconcile_spec o s' md sel).
  - eexists. split; [done|]. split; [apply map_union_subseteq_l|]. intros k Hk.
    rewrite lookup_union_r by done. rewrite !nested_string_map. unfold template_labels.
    rewrite (nested_cons o), (nested_cons merged), Ho, Hm.
    fold (nested s' ["template"; "metadata"; "labels"]) (nested spec ["template"; "metadata"; "labels"]).
    by rewrite !nested_cons, Ht.
  - done.
  - rewrite nested_cons in *. by rewrite Ht.
  - rewrite nested_string_map in *. unfold match_labels in *. rewrite nested_cons in *. rewrite Ho, Hl in *.
    fold (nested s' ["selector"; "matchLabels"]). fold (nested liveSpec ["selector"; "matchLabels"]) in Hsel.
    rewrite nested_cons in *. by rewrite Hs.
Qed.

(** *** Claims *)

Definition live_amount (live : obj) (q : quantity) : Prop :=
  exists s, (NestedString live storage_request = Some s \/ NestedString live storage_capacity = Some s) /\
    s <> "" /\ ParseQuantity s = Some q.

Lemma cmp_refl q : 0 <= Cmp q q.
Proof. pose proof (cmp_opp q q). lia. Qed.

Lemma floor_step_spec live fl path :
  (forall f, fl = Some f -> ParseQuantity (str f) = Some (qty f)) ->
  (forall f, floor_step live fl path = Some f -> ParseQuantity (str f) = Some (qty f)) /\
  (forall f0, fl = Some f0 -> exists f, floor_step live fl path = Some f /\ 0 <= Cmp (qty f) (qty f0)) /\
  (forall s q, NestedString live path = Some s -> s <> "" -> ParseQuantity s = Some q ->
     exists f, floor_step live fl path = Some f /\ 0 <= Cmp (qty f) q).
Proof.
  intros Hfl. unfold floor_step. destruct (NestedString live path) as [s|].
  2:{ split_and!; [done| |done]. intros f0 ->. eauto using cmp_refl. }
  destruct (String.eqb_spec s "") as [->|Hne].
  { split_and!; [done| |by intros; simplify_eq]. intros f0 ->. eauto using cmp_refl. }
  destruct (ParseQuantity s) as [q|] eqn:Hq.
  2:{ split_and!; [done| |by intros; simplify_eq]. intros f0 ->. eauto using cmp_refl. }
  destruct fl as [f0|].
  2:{ split_and!; [by intros; simplify_eq|done|]. intros; simplify_eq. eauto using cmp_refl. }
  destruct (Z.ltb_spec 0 (Cmp q (qty f0))) as [Hlt|Hle].
  - split_and!; [by intros; simplify_eq| |]; intros; simplify_eq; eexists; (split; [done|]);
      cbn [qty]; [lia|apply cmp_refl].
  - split_and!; [done| |]; intros; simplify_eq; eexists; (split; [done|]);
      [apply cmp_refl|rewrite cmp_opp; lia].
Qed.

(** The floor is at least the live request and the live capacity. *)
Lemma pvcStorageFloor_spec live q :
  live_amount live q ->
  exists f, pvcStorageFloor live = Some f /\ ParseQuantity (str f) = Some (qty f) /\ 0 <= Cmp (qty f) q.
Proof.
  intros (s & Hs & Hne & Hq). unfold pvcStorageFloor. cbn [foldl].
  destruct (floor_step_spec live None storage_request) as (Hp1 & _ & Hreq); [done|].
  destruct (floor_step_spec live _ storage_capacity Hp1) as (Hp2 & Hup & Hcap).
  destruct Hs as [Hs|Hs].
  - destruct (Hreq _ _ Hs Hne Hq) as (f1 & Hf1 & Hc1). destruct (Hup _ Hf1) as (f2 & Hf2 & Hc2).
    exists f2. split_and!; [done|by apply Hp2|]. by eapply cmp_trans.
  - destruct (Hcap _ _ Hs Hne Hq) as (f2 & Hf2 & Hc2). exists f2. split_and!; [done|by apply Hp2|done].
Qed.

(** C31. A claim never shrinks: whatever the manifest requests, the storage
    request of the update is at least the live request and at least the live
    capacity. *)
Theorem storage_never_shrinks merged live spec liveSpec rq q :
  GetKind merged = "PersistentVolumeClaim" ->
  merged !! "spec" = Some (JObj spec) -> live !! "spec" = Some (JObj liveSpec) ->
  nested spec ["resources"; "requests"] = Found (JObj rq) ->
  live_amount live q ->
  exists r rq', NestedString (adoptImmutableFields merged live) storage_request = Some r /\
    ParseQuantity r = Some rq' /\ 0 <= Cmp rq' q.
Proof.
  intros Hkind Hm Hl Hrq Hq. unfold adoptImmutableFields. rewrite Hm, Hl, Hkind. cbn [as_obj].
  rewrite String.eqb_refl. set (s' := foldl _ spec _). set (o := <["spec" := JObj s']> merged).
  destruct (pvcStorageFloor_spec live q Hq) as (f & Hf & Hp & Hc). unfold clampPVCStorage. rewrite Hf.
  assert (exists o', set_nested o (JStr (str f)) storage_request = Some o') as [o' Ho'].
  { apply (set_nested_total o (JStr (str f)) ["spec"; "resources"; "requests"] "storage" rq).
    rewrite nested_cons. unfold o. rewrite lookup_insert_eq.
    fold (nested s' ["resources"; "requests"]). rewrite nested_cons in *. subst s'.
    by rewrite adopt_fields_lookup. }
  assert (exists r rq', NestedString o' storage_request = Some r /\ ParseQuantity r = Some rq' /\
    0 <= Cmp rq' q) as Hset.
  { exists (str f), (qty f). split_and!; [|done..]. by rewrite nested_string, (nested_set_nested _ _ _ _ Ho'). }
  rewrite set_nested_field, Ho'. destruct (NestedString o storage_request) as [r|] eqn:Hr; cbn [default id].
  - destruct (ParseQuantity r) as [rq'|] eqn:Hpr; [|exact Hset].
    destruct (Z.leb_spec 0 (Cmp rq' (qty f))) as [Hge|]; [|exact Hset].
    exists r, rq'. split_and!; [done..|]. by eapply cmp_trans.
  - rewrite parse_empty. exact Hset.
Qed.
End AdoptFacts.

(** ** Examples *)

Module MergeExample.
Import ReferenceUnstructured.

(** Quantities in whole gibibytes. *)
#[export] Instance gibibytes : Quantities := {
  quantity := Z;
  ParseQuantity s := ParseInt (upto_byte (chr 71) s);
  Cmp a b := Z.sgn (a - b);
}.
#[export] Instance gibibytes_laws : QuantityLaws.
Proof.
  split; [done| |]; cbn [Cmp gibibytes quantity]; intros.
  - rewrite <- Z.sgn_opp. f_equal. lia.
  - apply Z.sgn_nonneg. apply Z.sgn_nonneg in H, H0. lia.
Qed.

Definition map2 (k1 : string) (v1 : json) (k2 : string) (v2 : json) : obj := <[k1 := v1]> {[ k2 := v2 ]}.

Definition claim_spec (volume size : string) : obj :=
  map2 "volumeName" (JStr volume) "resources" (JObj {[ "requests" := JObj {[ "storage" := JStr size ]} ]}).
Definition claim (volume size : string) : obj :=
  map2 "kind" (JStr "PersistentVolumeClaim") "spec" (JObj (claim_spec volume size)).
Definition bound : obj :=
  <["status" := JObj {[ "capacity" := JObj {[ "storage" := JStr "20Gi" ]} ]}]> (claim "pv-1" "10Gi").

Definition workload_spec (app tier : string) : obj :=
  map2 "selector" (JObj {[ "matchLabels" := JObj {[ "app" := JStr app ]} ]})
    "template" (JObj {[ "metadata" := JObj {[ "labels" := JObj (map2 "app" (JStr app) "tier" (JStr tier)) ]} ]}).
Definition workload (app tier : string) : obj :=
  map2 "kind" (JStr "Deployment") "spec" (JObj (workload_spec app tier)).

Example claim_clamped :
  adoptImmutableFields (mergeForUpdate bound (claim "pv-2" "5Gi")) bound
  = <["spec" := JObj (claim_spec "pv-1" "20Gi")]> bound.
Proof. vm_compute. reflexivity. Qed.

Lemma merge_any_order_witness :
  let merged := foldl (fun out e => merge_entry mergeMap e.1 e.2 out) bound
    (reverse (map_to_list (claim "pv-2" "5Gi"))) in
  merged = mergeMap bound (claim "pv-2" "5Gi") /\
  forall k, merged !! k = merge_at (bound !! k) (claim "pv-2" "5Gi" !! k).
Proof. apply (merge_any_order bound (claim "pv-2" "5Gi")). apply reverse_Permutation. Defined.

Lemma null_in_new_map_survives_witness :
  nested (mergeMap bound (<["data" := JObj (<["old" := JNull]> ∅)]> ∅)) ["data"; "old"] = Found JNull.
Proof. apply (null_in_new_map_survives bound "data" "old" ∅). reflexivity. Defined.

Lemma immutable_fields_adopted_witness :
  (forall k, k <> "spec" -> adoptImmutableFields (claim "pv-2" "5Gi") bound !! k = claim "pv-2" "5Gi" !! k) /\
  exists spec', adoptImmutableFields (claim "pv-2" "5Gi") bound !! "spec" = Some (JObj spec') /\
    forall f, f ∈ immutable_fields (GetKind (claim "pv-2" "5Gi")) -> spec' !! f = claim_spec "pv-1" "10Gi" !! f.
Proof.
  apply (immutable_fields_adopted (claim "pv-2" "5Gi") bound (claim_spec "pv-2" "5Gi") (claim_spec "pv-1" "10Gi"));
    reflexivity.
Defined.

Lemma template_satisfies_selector_witness :
  exists labels,
    default ∅ (NestedStringMap (adoptImmutableFields (workload "web-v2" "front") (workload "web" "back"))
      template_labels) = labels /\
    {[ "app" := "web" ]} ⊆ labels /\
    forall k, ({[ "app" := "web" ]} : gmap string string) !! k = None ->
      labels !! k = default ∅ (NestedStringMap (workload "web-v2" "front") template_labels) !! k.
Proof.
  apply (template_satisfies_selector (workload "web-v2" "front") (workload "web" "back")
    (workload_spec "web-v2" "front") (workload_spec "web" "back")
    {[ "labels" := JObj (map2 "app" (JStr "web-v2") "tier" (JStr "front")) ]}); reflexivity.
Defined.

Lemma storage_never_shrinks_witness :
  exists r rq', NestedString (adoptImmutableFields (claim "pv-2" "5Gi") bound) storage_request = Some r /\
    ParseQuantity r = Some rq' /\ 0 <= Cmp rq' (20 : @quantity gibibytes).
Proof.
  apply (storage_never_shrinks (claim "pv-2" "5Gi") bound (claim_spec "pv-2" "5Gi") (claim_spec "pv-1" "10Gi")
    {[ "storage" := JStr "5Gi" ]} (20 : @quantity gibibytes)); [reflexivity..|].
  exists "20Gi". split; [right; reflexivity|]. split; [discriminate|reflexivity].
Defined.
End MergeExample.
