(* ===== verification/Cluster.v ===== *)
(** * The cluster seen by the executor, and a logic for traces

    Everything the executor asks of the outside world (the dynamic and typed
    Kubernetes clients, discovery, Helm, the clock, the file system) is an
    operation of the class [Cluster] over an arbitrary state type: nothing is
    assumed about the answers.  [M] is the executor's effect: state passing with
    the trace of everything observable, a nil dereference as [Crash] and
    exhausted fuel as [Diverge].  [wp] is a weakest precondition over the
    history of events: every event must be allowed by an invariant [I] on the
    history before it. *)

From S2P Require Import Prelude GoTime Json Protocol.

(** ** Data *)

Record ApiError := mkApiError { err_text : string; err_notfound : bool }.

(** schema.GroupVersionResource. *)
Record GVR := mkGVR { gvr_group : string; gvr_version : string; gvr_resource : string }.

(** A dynamic resource interface: [Resource(gvr)], narrowed by [Namespace(ns)]
    when [sc_ns] is given. *)
Record scope := mkScope { sc_gvr : GVR; sc_ns : option string }.

(** What the executor reads of a corev1.Pod; owners are (kind, apiVersion). *)
Record Pod := mkPod {
  Pod_Namespace : string;
  Pod_Name : string;
  Pod_NodeName : string;
  Pod_Annotations : gmap string string;
  Pod_Owners : list (string * string);
}.

(** Failure of RESTMapping: its text and whether IsNoMatchError holds. *)
Record MappingError := mkMappingError { map_text : string; map_nomatch : bool }.

(** A loaded chart, by handle. *)
Record chart := mkChart { chart_id : string }.

Inductive event :=
| EGet (sc : scope) (name : string) (r : ApiError + obj)
| ECreate (sc : scope) (o : obj) (dry : bool) (r : option ApiError)
| EUpdate (sc : scope) (o : obj) (dry : bool) (r : option ApiError)
| EPatch (sc : scope) (name ptype data : string) (dry : bool) (r : option ApiError)
| EDelete (sc : scope) (name : string) (dry : bool) (r : option ApiError)
| EMapping (group kind version : string) (r : MappingError + GVR * bool)
| ENodeGet (node : string) (r : option ApiError)
| ENodePatch (node data : string) (r : option ApiError)
| EListPods (selector : string) (r : ApiError + list Pod)
| EEvict (ns name : string) (r : option ApiError)
| ENow (t : Time)
| EWait (d : Z) (cancelled : option string)
| EHelmInit (ns : string) (r : string + bool)
| ERegistry (r : option string)
| EHelmStatus (release : string) (r : option string)
| EStat (path : string) (exists_ : bool)
| ELoad (path : string) (r : string + chart)
| ELocate (ref version : string) (r : string + string)
| EInstall (release ns : string) (c : chart) (vals : obj) (dry : bool) (r : option string)
| EUpgrade (release ns : string) (c : chart) (vals : obj) (dry : bool) (r : option string)
| EUninstall (release : string) (r : option string)
| EReport (rep : Report)
| EMetric (verb result : string)
| EDrainSet (node : string) (pct : Z)
| EDrainClear (node : string).

(** ** The operations *)

Class Cluster (W : Type) := {
  op_get : scope -> string -> W -> (ApiError + obj) * W;
  op_create : scope -> obj -> bool -> W -> option ApiError * W;
  op_update : scope -> obj -> bool -> W -> option ApiError * W;
  op_patch : scope -> string -> string -> string -> bool -> W -> option ApiError * W;
  op_delete : scope -> string -> bool -> W -> option ApiError * W;
  (** RESTMapping: the resource and whether it is namespaced *)
  op_mapping : string -> string -> string -> W -> (MappingError + GVR * bool) * W;
  op_node_get : string -> W -> option ApiError * W;
  op_node_patch : string -> string -> W -> option ApiError * W;
  op_list_pods : string -> W -> (ApiError + list Pod) * W;
  op_evict : string -> string -> W -> option ApiError * W;
  op_now : W -> Time * W;
  (** select on ctx.Done and time.After(d): the context's error, if it was done *)
  op_wait : Z -> W -> option string * W;
  (** action.Configuration.Init: an error, or whether RegistryClient is nil *)
  op_helm_init : string -> W -> (string + bool) * W;
  op_registry : W -> option string * W;
  op_helm_status : string -> W -> option string * W;
  op_stat : string -> W -> bool * W;
  op_load : string -> W -> (string + chart) * W;
  op_locate : string -> string -> W -> (string + string) * W;
  op_install : string -> string -> chart -> obj -> bool -> W -> option string * W;
  op_upgrade : string -> string -> chart -> obj -> bool -> W -> option string * W;
  op_uninstall : string -> W -> option string * W;
}.

(** ** The effect *)

Inductive result (A : Type) : Type := Ret (a : A) | Crash | Diverge.
Arguments Ret {A} a.
Arguments Crash {A}.
Arguments Diverge {A}.

Definition M (W A : Type) : Type := W -> result A * W * list event.

Definition ret {W A} (a : A) : M W A := fun w => (Ret a, w, []).
Definition crash {W A} : M W A := fun w => (Crash, w, []).
Definition diverge {W A} : M W A := fun w => (Diverge, w, []).

Definition bind {W A B} (m : M W A) (k : A -> M W B) : M W B := fun w =>
  match m w with
  | (Ret a, w', tr) => let '(r, w'', tr') := k a w' in (r, w'', tr ++ tr')
  | (Crash, w', tr) => (Crash, w', tr)
  | (Diverge, w', tr) => (Diverge, w', tr)
  end.

Definition emit {W} (e : event) : M W unit := fun w => (Ret tt, w, [e]).

(** An operation, recorded with its answer. *)
Definition perform {W A} (op : W -> A * W) (e : A -> event) : M W A := fun w =>
  let '(a, w') := op w in (Ret a, w', [e a]).

Declare Scope exec_scope.
Delimit Scope exec_scope with exec.
Notation "x <- m ;; k" := (bind m (fun x => k)) (at level 100, m at next level, right associativity) : exec_scope.
Notation "m ;;; k" := (bind m (fun _ => k)) (at level 100, right associativity) : exec_scope.
Open Scope exec_scope.

(** ** A logic for traces *)

Section Wp.
Context {W : Type} (I : list event -> event -> Prop).

(** Every event of [tr] is allowed after what happened before it. *)
Definition allowed (h tr : list event) : Prop :=
  forall pre e post, tr = pre ++ e :: post -> I (h ++ pre) e.

Definition wp {A} (m : M W A) (h : list event) (Q : A -> list event -> Prop) : Prop :=
  forall w, let '(r, _, tr) := m w in
    allowed h tr /\ match r with Ret a => Q a (h ++ tr) | _ => True end.

Lemma allowed_nil h : allowed h [].
Proof. intros pre e post Hp. by destruct pre. Qed.

Lemma allowed_one h e : I h e -> allowed h [e].
Proof.
  intros He pre e' post Hp. destruct pre as [|? pre]; simplify_eq/=; [by rewrite app_nil_r|].
  by destruct pre.
Qed.

Lemma allowed_app h tr tr' : allowed h tr -> allowed (h ++ tr) tr' -> allowed h (tr ++ tr').
Proof.
  intros H1 H2 pre e post Hp. apply app_eq_app in Hp as (l & [[-> Hl]|[-> Hl]]).
  - destruct l as [|x l]; simplify_eq/=.
    + rewrite app_nil_r in *. specialize (H2 [] e post). rewrite app_nil_r in H2. by apply H2.
    + by eapply H1.
  - rewrite app_assoc. by eapply H2.
Qed.

Lemma wp_ret {A} (a : A) h (Q : A -> list event -> Prop) : Q a h -> wp (ret a) h Q.
Proof. intros HQ w. cbn. split; [apply allowed_nil|]. by rewrite app_nil_r. Qed.

Lemma wp_crash {A} h (Q : A -> list event -> Prop) : wp crash h Q.
Proof. intros w. split; [apply allowed_nil|done]. Qed.

Lemma wp_diverge {A} h (Q : A -> list event -> Prop) : wp diverge h Q.
Proof. intros w. split; [apply allowed_nil|done]. Qed.

Lemma wp_bind {A B} (m : M W A) (k : A -> M W B) h Q :
  wp m h (fun a h' => wp (k a) h' Q) -> wp (bind m k) h Q.
Proof.
  intros Hm w. specialize (Hm w). unfold bind. destruct (m w) as [[r w'] tr]. destruct Hm as [Ha Hr].
  destruct r as [a| |]; [|done..]. specialize (Hr w'). destruct (k a w') as [[r w''] tr'].
  destruct Hr as [Ha' Hr]. split; [by apply allowed_app|]. destruct r; [|done..]. by rewrite app_assoc.
Qed.

Lemma wp_mono {A} (m : M W A) h (Q Q' : A -> list event -> Prop) :
  wp m h Q -> (forall a h', Q a h' -> Q' a h') -> wp m h Q'.
Proof.
  intros Hm HQ w. specialize (Hm w). destruct (m w) as [[r w'] tr]. destruct Hm as [? Hr].
  split; [done|]. destruct r; eauto.
Qed.

Lemma wp_emit e h (Q : unit -> list event -> Prop) : I h e -> Q tt (h ++ [e]) -> wp (emit e) h Q.
Proof. intros He HQ w. split; [by apply allowed_one|done]. Qed.

Lemma wp_perform {A} (op : W -> A * W) (e : A -> event) h (Q : A -> list event -> Prop) :
  (forall a, I h (e a)) -> (forall a, Q a (h ++ [e a])) -> wp (perform op e) h Q.
Proof.
  intros He HQ w. unfold perform. destruct (op w) as [a w']. split; [by apply allowed_one|done].
Qed.

(** A whole run from the empty history. *)
Lemma wp_run {A} (m : M W A) Q w : wp m [] Q -> allowed [] (m w).2.
Proof. intros Hm. specialize (Hm w). destruct (m w) as [[r w'] tr]. by destruct Hm. Qed.

End Wp.
