(* ===== verification/Executor.v ===== *)
(** * internal/executor: running commands against the cluster

    Every method of [Executor] as a computation in [M] over an arbitrary
    cluster.  The report callback and the metrics are events of the trace; log
    lines are not modelled.  YAML decoding and Helm's values reader are the
    class [Decoders]. *)

From S2P Require Import Prelude GoStrings GoTime Json Protocol Config Unstructured Drift Merge Cluster.
Local Open Scope Z_scope.

Definition resultSucceeded : string := "succeeded".
Definition resultFailed : string := "failed".
Definition resultRefused : string := "refused".

(** k8syaml.NewYAMLReader, sigs.k8s.io/yaml and chartutil: the documents of a
    payload with the read error that ended them, if not the end of input; one
    document as a map (empty for a null document); a values file. *)
Class Decoders := {
  ReadDocs : string -> list string * option string;
  UnmarshalYAML : string -> string + obj;
  ReadValues : string -> string + obj;
}.

Definition gvrOf (ref : ResourceRef) : GVR :=
  mkGVR (Ref_Group ref) (Ref_Version ref) (Ref_Resource ref).

(** A report as the executor fills it; the callback stamps the other fields. *)
Definition exec_report (status msg diff : string) (progress : Z) : Report :=
  mkReport "" "" status msg diff progress 0.

Section Executor.
Context `{Unstructured} `{Quantities} `{Decoders} {W : Type} `{!Cluster W}.
(** The receiver: configuration, and whether the REST mapper is there. *)
Context (cfg : Config) (has_mapper : bool).

Definition report (status msg : string) : M W unit := emit (EReport (exec_report status msg "" 0)).
Definition report_diff (status msg diff : string) : M W unit :=
  emit (EReport (exec_report status msg diff 0)).
Definition report_progress (status msg : string) (progress : Z) : M W unit :=
  emit (EReport (exec_report status msg "" progress)).

Definition api_get (sc : scope) (name : string) : M W (ApiError + obj) := perform (op_get sc name) (EGet sc name).
Definition api_create (sc : scope) (o : obj) (dry : bool) : M W (option ApiError) :=
  perform (op_create sc o dry) (ECreate sc o dry).
Definition api_update (sc : scope) (o : obj) (dry : bool) : M W (option ApiError) :=
  perform (op_update sc o dry) (EUpdate sc o dry).
Definition api_patch (sc : scope) (name pt data : string) (dry : bool) : M W (option ApiError) :=
  perform (op_patch sc name pt data dry) (EPatch sc name pt data dry).
Definition api_delete (sc : scope) (name : string) (dry : bool) : M W (option ApiError) :=
  perform (op_delete sc name dry) (EDelete sc name dry).
Definition rest_mapping (group kind version : string) : M W (MappingError + GVR * bool) :=
  perform (op_mapping group kind version) (EMapping group kind version).
Definition node_get (node : string) : M W (option ApiError) := perform (op_node_get node) (ENodeGet node).
Definition node_patch (node data : string) : M W (option ApiError) :=
  perform (op_node_patch node data) (ENodePatch node data).
Definition list_pods (selector : string) : M W (ApiError + list Pod) :=
  perform (op_list_pods selector) (EListPods selector).
Definition evict (ns name : string) : M W (option ApiError) := perform (op_evict ns name) (EEvict ns name).
Definition time_now : M W Time := perform op_now ENow.
Definition wait (d : Z) : M W (option string) := perform (op_wait d) (EWait d).

(** ** Terminal reports *)

Definition refuse (cmd : Command) (reason : string) : M W unit :=
  emit (EMetric (Cmd_Verb cmd) resultRefused) ;;;
  report StatusRefused reason.

Definition fail (cmd : Command) (msg err : string) : M W unit :=
  emit (EMetric (Cmd_Verb cmd) resultFailed) ;;;
  report StatusFailed (msg ^^ ": " ^^ err).

Definition succeed (cmd : Command) (msg : string) : M W unit :=
  emit (EMetric (Cmd_Verb cmd) resultSucceeded) ;;;
  report StatusSucceeded msg.

(** ** Drift gate *)

(** [checkDrift]: whether to proceed. *)
Definition checkDrift (cmd : Command) (live : obj) : M W bool :=
  if Cmd_ExpectedHash cmd =s "" then ret true
  else
    match Check live (Cmd_ExpectedHash cmd) with
    | None => ret true
    | Some diff =>
        if DriftPolicy cfg =s DriftOverwrite then ret true
        else if DriftPolicy cfg =s DriftOverwriteWithApproval then
          if Cmd_Override cmd then ret true
          else
            emit (EMetric (Cmd_Verb cmd) resultRefused) ;;;
            report_diff StatusRefused "drift detected, approval required (override not set)" diff ;;;
            ret false
        else
          emit (EMetric (Cmd_Verb cmd) resultRefused) ;;;
          report_diff StatusRefused "drift detected, refusing to overwrite" diff ;;;
          ret false
    end.

(** [liveGet]: a missing object is [inr None]. *)
Definition liveGet (sc : scope) (name : string) : M W (ApiError + option obj) :=
  r <- api_get sc name ;;
  ret match r with
      | inl e => if err_notfound e then inr None else inl e
      | inr o => inr (Some o)
      end.

Definition liveObject (gvr : GVR) (ns name : string) : M W (ApiError + option obj) :=
  liveGet (mkScope gvr (Some ns)) name.

(** ** Manifests *)

(** The items of a List. *)
Fixpoint list_items (items : list json) : string + list obj :=
  match items with
  | [] => inr []
  | JObj im :: rest =>
      match list_items rest with
      | inl e => inl e
      | inr objs => inr (im :: objs)
      end
  | _ :: _ => inl "List item is not an object"
  end.

(** The loop of [decodeManifest] over the documents; [eof] is the error the
    reader ended with, if any. *)
Fixpoint decode_docs (docs : list string) (eof : option string) (objs : list obj) : string + list obj :=
  match docs with
  | [] => match eof with Some e => inl e | None => inr objs end
  | doc :: rest =>
      let doc := TrimSpace doc in
      if (String.length doc =? 0)%nat then decode_docs rest eof objs
      else
        match UnmarshalYAML doc with
        | inl e => inl e
        | inr m =>
            if (size m =? 0)%nat then decode_docs rest eof objs
            else if GetKind m =s "List" then
              match NestedSlice m ["items"] with
              | inl e => inl ("cannot read List items: " ^^ e)
              | inr items =>
                  match list_items (default [] items) with
                  | inl e => inl e
                  | inr more => decode_docs rest eof (objs ++ more)
                  end
              end
            else decode_docs rest eof (objs ++ [m])
        end
  end.

Definition decodeManifest (payload : string) : string + list obj :=
  let '(docs, eof) := ReadDocs payload in decode_docs docs eof [].

Definition gvrFor (o : obj) (fallback : ResourceRef) : M W (string + GVR * bool) :=
  let gvk := GetGVK o in
  let from_target : M W (string + GVR * bool) :=
    if negb (Ref_Resource fallback =s "") && negb (Ref_Version fallback =s "")
    then ret (inr (gvrOf fallback, true))
    else ret (inl ("cannot resolve resource type for " ^^ Gvk_Kind gvk ^^ " " ^^ quoted (GetName o)
      ^^ " (apiVersion " ^^ quoted (GroupVersionString gvk) ^^ "): not in discovery and no command target")) in
  if has_mapper && negb (Gvk_Kind gvk =s "") then
    r <- rest_mapping (Gvk_Group gvk) (Gvk_Kind gvk) (Gvk_Version gvk) ;;
    match r with
    | inr (gvr, namespaced) => ret (inr (gvr, namespaced))
    | inl e => if map_nomatch e then from_target else ret (inl (map_text e))
    end
  else from_target.

Definition createOrUpdate (sc : scope) (o : obj) (op : string) (dryRun : bool) : M W (option ApiError) :=
  if op =s "create" then api_create sc o dryRun else api_update sc o dryRun.

(** ** apply *)

(** The body [apply] sends for one object: the manifest's own when it is new,
    otherwise the overlay on the live object with its immutable fields. *)
Definition apply_body (o : obj) (live : option obj) : obj :=
  Stamp match live with
        | None => o
        | Some l => adoptImmutableFields (SetResourceVersion (GetResourceVersion l) (mergeForUpdate l o)) l
        end.

(** Defaults from the command's target. *)
Definition apply_defaults (cmd : Command) (o : obj) : obj :=
  let o := if GetName o =s "" then SetName (Ref_Name (Cmd_Target cmd)) o else o in
  if GetNamespace o =s "" then SetNamespace (Ref_Namespace (Cmd_Target cmd)) o else o.

(** One round of the loop of [apply]: whether the object was there, or [None]
    after a terminal report. *)
Definition apply_one (cmd : Command) (o : obj) : M W (option bool) :=
  let o := apply_defaults cmd o in
  r <- gvrFor o (Cmd_Target cmd) ;;
  match r with
  | inl e => fail cmd "cannot resolve resource type" e ;;; ret None
  | inr (gvr, namespaced) =>
      let ns := GetNamespace o in
      let name := GetName o in
      let id := GetKind o ^^ " " ^^ ns ^^ "/" ^^ name in
      let sc := mkScope gvr (if namespaced : bool then Some ns else None) in
      l <- liveGet sc name ;;
      match l with
      | inl e => fail cmd ("cannot fetch live " ^^ id) (err_text e) ;;; ret None
      | inr live =>
          proceed <- match live with Some l => checkDrift cmd l | None => ret true end ;;
          if negb proceed then ret None
          else
            let op := match live with Some _ => "update" | None => "create" end in
            let o := apply_body o live in
            dry <- (if DryRunFirst cfg then
                      e <- createOrUpdate sc o op true ;;
                      match e with
                      | Some e => fail cmd ("dry-run " ^^ op ^^ " of " ^^ id ^^ " failed") (err_text e) ;;; ret false
                      | None =>
                          report StatusDryRun ("dry-run " ^^ op ^^ " of " ^^ id ^^ " validated") ;;; ret true
                      end
                    else ret true) ;;
            if negb dry then ret None
            else
              report StatusApplying (op ^^ " " ^^ id) ;;;
              e <- createOrUpdate sc o op false ;;
              match e with
              | Some e => fail cmd (op ^^ " of " ^^ id ^^ " failed") (err_text e) ;;; ret None
              | None => ret (Some match live with Some _ => true | None => false end)
              end
      end
  end.

Fixpoint apply_loop (cmd : Command) (objs : list obj) (created updated : Z) : M W unit :=
  match objs with
  | [] =>
      succeed cmd ("applied " ^^ FormatInt (created + updated) ^^ " object(s): " ^^ FormatInt created
        ^^ " created, " ^^ FormatInt updated ^^ " updated")
  | o :: rest =>
      r <- apply_one cmd o ;;
      match r with
      | None => ret tt
      | Some true => apply_loop cmd rest created (updated + 1)
      | Some false => apply_loop cmd rest (created + 1) updated
      end
  end.

Definition apply (cmd : Command) : M W unit :=
  match decodeManifest (Cmd_Payload cmd) with
  | inl e => fail cmd "cannot decode payload" e
  | inr [] => fail cmd "cannot decode payload" "payload contains no objects"
  | inr objs => apply_loop cmd objs 0 0
  end.

(** ** patch *)

(** types.PatchType of apimachinery. *)
Definition StrategicMergePatchType : string := "application/strategic-merge-patch+json".
Definition MergePatchType : string := "application/merge-patch+json".
Definition JSONPatchType : string := "application/json-patch+json".

Definition patch_type (p : string) : option string :=
  if p =s PatchStrategic then Some StrategicMergePatchType
  else if p =s PatchMerge then Some MergePatchType
  else if p =s PatchJSON then Some JSONPatchType
  else None.

(** The patch that records the new hash. *)
Definition stamp_patch (live : obj) : string :=
  let h := default "" (default ∅ (GetAnnotations (Stamp live)) !! HashAnnotation) in
  marshal_obj {[ "metadata" := JObj {[ "annotations" := JObj {[ HashAnnotation := JStr h ]} ]} ]}.

Definition restamp (gvr : GVR) (ns name : string) : M W unit :=
  l <- liveObject gvr ns name ;;
  match l with
  | inr (Some live) =>
      api_patch (mkScope gvr (Some ns)) name MergePatchType (stamp_patch live) false ;;; ret tt
  | _ => ret tt
  end.

Definition patch (cmd : Command) : M W unit :=
  match patch_type (Cmd_PatchType cmd) with
  | None => refuse cmd ("unsupported patch type " ^^ quoted (Cmd_PatchType cmd))
  | Some pt =>
      let gvr := gvrOf (Cmd_Target cmd) in
      let ns := Ref_Namespace (Cmd_Target cmd) in
      let name := Ref_Name (Cmd_Target cmd) in
      let id := Ref_Resource (Cmd_Target cmd) ^^ " " ^^ ns ^^ "/" ^^ name in
      let sc := mkScope gvr (Some ns) in
      l <- liveObject gvr ns name ;;
      match l with
      | inl e => fail cmd "cannot fetch live object" (err_text e)
      | inr None => fail cmd "target not found" (id ^^ " does not exist")
      | inr (Some live) =>
          proceed <- checkDrift cmd live ;;
          if negb proceed then ret tt
          else
            dry <- (if DryRunFirst cfg then
                      e <- api_patch sc name pt (Cmd_Payload cmd) true ;;
                      match e with
                      | Some e => fail cmd "dry-run patch failed" (err_text e) ;;; ret false
                      | None => report StatusDryRun ("dry-run patch of " ^^ id ^^ " validated") ;;; ret true
                      end
                    else ret true) ;;
            if negb dry then ret tt
            else
              report StatusApplying ("patch " ^^ name) ;;;
              e <- api_patch sc name pt (Cmd_Payload cmd) false ;;
              match e with
              | Some e => fail cmd "patch failed" (err_text e)
              | None =>
                  restamp gvr ns name ;;;
                  succeed cmd ("patched " ^^ id)
              end
      end
  end.

(** ** delete *)

(** A delete that failed for another reason than absence. *)
Definition delete_error (e : option ApiError) : option ApiError :=
  match e with
  | Some e => if err_notfound e then None else Some e
  | None => None
  end.

Definition delete (cmd : Command) : M W unit :=
  let gvr := gvrOf (Cmd_Target cmd) in
  let ns := Ref_Namespace (Cmd_Target cmd) in
  let name := Ref_Name (Cmd_Target cmd) in
  let id := Ref_Resource (Cmd_Target cmd) ^^ " " ^^ ns ^^ "/" ^^ name in
  let sc := mkScope gvr (Some ns) in
  l <- liveObject gvr ns name ;;
  match l with
  | inl e => fail cmd "cannot fetch live object" (err_text e)
  | inr None => succeed cmd (id ^^ " already absent")
  | inr (Some live) =>
      proceed <- checkDrift cmd live ;;
      if negb proceed then ret tt
      else
        dry <- (if DryRunFirst cfg then
                  e <- api_delete sc name true ;;
                  match delete_error e with
                  | Some e => fail cmd "dry-run delete failed" (err_text e) ;;; ret false
                  | None => report StatusDryRun ("dry-run delete of " ^^ id ^^ " validated") ;;; ret true
                  end
                else ret true) ;;
        if negb dry then ret tt
        else
          report StatusApplying ("delete " ^^ name) ;;;
          e <- api_delete sc name false ;;
          match delete_error e with
          | Some e => fail cmd "delete failed" (err_text e)
          | None => succeed cmd ("deleted " ^^ id)
          end
  end.

(** ** drain-node and uncordon-node *)

Definition isMirrorPod (p : Pod) : bool :=
  bool_decide (is_Some (Pod_Annotations p !! "kubernetes.io/config.mirror")).

Definition isDaemonSetPod (p : Pod) : bool :=
  existsb (fun '(kind, apiVersion) => (kind =s "DaemonSet") && (apiVersion =s "apps/v1")) (Pod_Owners p).

(** The pods the two loops of [drainNode] do not skip. *)
Definition evictable (node : string) (p : Pod) : bool :=
  negb (negb (Pod_NodeName p =s node) || isMirrorPod p || isDaemonSetPod p
        || ProtectedNamespace cfg (Pod_Namespace p)).

Fixpoint count_evictable (node : string) (pods : list Pod) : Z :=
  match pods with
  | [] => 0
  | p :: rest => (if evictable node p then 1 else 0) + count_evictable node rest
  end.

(** The integer division of the progress reports. *)
Definition percent (evicted total : Z) : Z := wrap32 (Z.quot (wrap64 (evicted * 100)) total).

Definition drain_retry : Z := 2 * Second.

(** The endless loop around one eviction: [true] when the pod is gone, [false]
    after the report that ends the drain.  [fuel] bounds the attempts. *)
Fixpoint evict_loop (fuel : nat) (cmd : Command) (p : Pod) (lastSuccess : Time) (evicted total : Z)
    : M W bool :=
  match fuel with
  | O => diverge
  | S f =>
      e <- evict (Pod_Namespace p) (Pod_Name p) ;;
      match delete_error e with
      | None => ret true
      | Some err =>
          now <- time_now ;;
          if DrainStallTimeout cfg <=? Sub now lastSuccess then
            report_progress StatusProgress ("drain stalled, waiting for human: cannot evict "
              ^^ Pod_Namespace p ^^ "/" ^^ Pod_Name p ^^ ": " ^^ err_text err) (percent evicted total) ;;;
            ret false
          else
            c <- wait drain_retry ;;
            match c with
            | Some ctxErr => fail cmd "drain cancelled" ctxErr ;;; ret false
            | None => evict_loop f cmd p lastSuccess evicted total
            end
      end
  end.

(** The loop over the pods: the number evicted, or [None] when it returned. *)
Fixpoint drain_loop (fuel : nat) (cmd : Command) (node : string) (pods : list Pod) (lastSuccess : Time)
    (evicted total : Z) : M W (option Z) :=
  match pods with
  | [] => ret (Some evicted)
  | p :: rest =>
      if negb (evictable node p) then drain_loop fuel cmd node rest lastSuccess evicted total
      else
        ok <- evict_loop fuel cmd p lastSuccess evicted total ;;
        if negb ok then ret None
        else
          now <- time_now ;;
          let evicted := evicted + 1 in
          let pct := percent evicted total in
          emit (EDrainSet node pct) ;;;
          report_progress StatusProgress ("evicted " ^^ Pod_Namespace p ^^ "/" ^^ Pod_Name p ^^ " ("
            ^^ FormatInt evicted ^^ "/" ^^ FormatInt total ^^ ")") pct ;;;
          drain_loop fuel cmd node rest now evicted total
  end.

Definition cordon_patch (unschedulable : bool) : string :=
  marshal_obj {[ "spec" := JObj {[ "unschedulable" := JBool unschedulable ]} ]}.

Definition drainNode (fuel : nat) (cmd : Command) : M W unit :=
  let node := Ref_Name (Cmd_Target cmd) in
  if node =s "" then fail cmd "drain-node requires a node name" "empty target name"
  else
    e <- node_get node ;;
    match e with
    | Some e => fail cmd "cannot get node" (err_text e)
    | None =>
        e <- node_patch node (cordon_patch true) ;;
        match e with
        | Some e => fail cmd "cannot cordon node" (err_text e)
        | None =>
            r <- list_pods ("spec.nodeName=" ^^ node) ;;
            match r with
            | inl e => fail cmd "cannot list pods" (err_text e)
            | inr pods =>
                let total := count_evictable node pods in
                if total =? 0 then
                  emit (EDrainClear node) ;;;
                  succeed cmd ("node " ^^ node ^^ " drained (no evictable pods)")
                else
                  now <- time_now ;;
                  r <- drain_loop fuel cmd node pods now 0 total ;;
                  match r with
                  | None => ret tt
                  | Some evicted =>
                      emit (EDrainClear node) ;;;
                      succeed cmd ("node " ^^ node ^^ " drained, " ^^ FormatInt evicted ^^ " pods evicted")
                  end
            end
        end
    end.

Definition uncordonNode (cmd : Command) : M W unit :=
  let node := Ref_Name (Cmd_Target cmd) in
  if node =s "" then fail cmd "uncordon-node requires a node name" "empty target name"
  else
    e <- node_get node ;;
    match e with
    | Some e => fail cmd "cannot get node" (err_text e)
    | None =>
        e <- node_patch node (cordon_patch false) ;;
        match e with
        | Some e => fail cmd "cannot uncordon node" (err_text e)
        | None => succeed cmd ("node " ^^ node ^^ " uncordoned")
        end
    end.

(** ** cert-rotate *)

Definition certs : GVR := mkGVR "cert-manager.io" "v1" "certificates".
Definition crs : GVR := mkGVR "cert-manager.io" "v1" "certificaterequests".
Definition default_usages : list string := ["digital signature"; "key encipherment"].

(** The CertificateRequest [certRotate] creates. *)
Definition certificate_request (ns name crName : string) (issuerRef : obj) (usages : list string) : obj :=
  <["apiVersion" := JStr "cert-manager.io/v1"]> (<["kind" := JStr "CertificateRequest"]>
  (<["metadata" := JObj (<["name" := JStr crName]> (<["namespace" := JStr ns]>
     {[ "annotations" := JObj {[ "cert-manager.io/certificate-name" := JStr name ]} ]}))]>
  {[ "spec" := JObj (<["issuerRef" := JObj issuerRef]> {[ "usages" := JArr (JStr <$> usages) ]}) ]})).

Definition certRotate (cmd : Command) : M W unit :=
  let ns := Ref_Namespace (Cmd_Target cmd) in
  let name := Ref_Name (Cmd_Target cmd) in
  r <- api_get (mkScope certs (Some ns)) name ;;
  match r with
  | inl e => fail cmd "cannot fetch Certificate" (err_text e)
  | inr cert =>
      match NestedMap cert ["spec"; "issuerRef"] with
      | None => fail cmd "Certificate has no spec.issuerRef" (ns ^^ "/" ^^ name)
      | Some issuerRef =>
          let usages := default [] (NestedStringSlice cert ["spec"; "usages"]) in
          let usages := if (length usages =? 0)%nat then default_usages else usages in
          now <- time_now ;;
          let crName := name ^^ "-renew-" ^^ FormatInt (ToUnix now) in
          let cr := certificate_request ns name crName issuerRef usages in
          let sc := mkScope crs (Some ns) in
          dry <- (if DryRunFirst cfg then
                    e <- api_create sc cr true ;;
                    match e with
                    | Some e => fail cmd "dry-run create CertificateRequest failed" (err_text e) ;;; ret false
                    | None =>
                        report StatusDryRun ("dry-run create of CertificateRequest " ^^ ns ^^ "/" ^^ crName
                          ^^ " validated") ;;; ret true
                    end
                  else ret true) ;;
          if negb dry then ret tt
          else
            report StatusApplying ("create CertificateRequest " ^^ crName) ;;;
            e <- api_create sc cr false ;;
            match e with
            | Some e => fail cmd "create CertificateRequest failed" (err_text e)
            | None =>
                succeed cmd ("created CertificateRequest " ^^ ns ^^ "/" ^^ crName ^^ " for Certificate " ^^ name)
            end
      end
  end.

(** ** Helm *)

Definition helmConfig (namespace : string) : M W (option string) :=
  r <- perform (op_helm_init namespace) (EHelmInit namespace) ;;
  match r with
  | inl e => ret (Some e)
  | inr registry_nil => if registry_nil : bool then perform op_registry ERegistry else ret None
  end.

Definition parseValues (spec : HelmSpec) : string + obj :=
  if (String.length (Helm_ValuesYAML spec) =? 0)%nat then inr ∅
  else
    match ReadValues (Helm_ValuesYAML spec) with
    | inl e => inl ("cannot parse values YAML: " ^^ e)
    | inr vals => inr vals
    end.

Definition load_chart (path : string) : M W (string + chart) := perform (op_load path) (ELoad path).

Definition locateChart (spec : HelmSpec) : M W (string + chart) :=
  let ref := Helm_ChartRef spec in
  found <- perform (op_stat ref) (EStat ref) ;;
  if found || HasPrefix ref "." || HasPrefix ref "/" then load_chart ref
  else
    r <- perform (op_locate ref (Helm_Version spec)) (ELocate ref (Helm_Version spec)) ;;
    match r with
    | inl e => ret (inl e)
    | inr path => load_chart path
    end.

Definition sanitizeHelmErr (err : string) : string := upto_byte newline err.

Definition helm_install_run (h : HelmSpec) (c : chart) (vals : obj) (dry : bool) : M W (option string) :=
  perform (op_install (Helm_ReleaseName h) (Helm_Namespace h) c vals dry)
    (EInstall (Helm_ReleaseName h) (Helm_Namespace h) c vals dry).
Definition helm_upgrade_run (h : HelmSpec) (c : chart) (vals : obj) (dry : bool) : M W (option string) :=
  perform (op_upgrade (Helm_ReleaseName h) (Helm_Namespace h) c vals dry)
    (EUpgrade (Helm_ReleaseName h) (Helm_Namespace h) c vals dry).

(** Every Helm method dereferences [cmd.Helm]; nil crashes the process. *)
Definition helmInstall (cmd : Command) : M W unit :=
  match Cmd_Helm cmd with
  | None => crash
  | Some h =>
      match parseValues h with
      | inl e => fail cmd "helm-install" e
      | inr vals =>
          e <- helmConfig (Helm_Namespace h) ;;
          match e with
          | Some e => fail cmd "helm-install" e
          | None =>
              c <- locateChart h ;;
              match c with
              | inl e => fail cmd "cannot locate chart" e
              | inr c =>
                  dry <- (if DryRunFirst cfg then
                            e <- helm_install_run h c vals true ;;
                            match e with
                            | Some e => fail cmd "helm-install dry-run" (sanitizeHelmErr e) ;;; ret false
                            | None =>
                                report StatusDryRun ("dry-run install of release " ^^ quoted (Helm_ReleaseName h)
                                  ^^ " in " ^^ Helm_Namespace h ^^ " validated") ;;; ret true
                            end
                          else ret true) ;;
                  if negb dry then ret tt
                  else
                    report StatusApplying ("helm install " ^^ Helm_ReleaseName h) ;;;
                    e <- helm_install_run h c vals false ;;
                    match e with
                    | Some e => fail cmd "helm-install" (sanitizeHelmErr e)
                    | None => succeed cmd ("installed release " ^^ quoted (Helm_ReleaseName h) ^^ " in "
                        ^^ Helm_Namespace h)
                    end
              end
          end
      end
  end.

Definition helmUpgrade (cmd : Command) : M W unit :=
  match Cmd_Helm cmd with
  | None => crash
  | Some h =>
      match parseValues h with
      | inl e => fail cmd "helm-upgrade" e
      | inr vals =>
          e <- helmConfig (Helm_Namespace h) ;;
          match e with
          | Some e => fail cmd "helm-upgrade" e
          | None =>
              st <- perform (op_helm_status (Helm_ReleaseName h)) (EHelmStatus (Helm_ReleaseName h)) ;;
              match st with
              | Some _ =>
                  fail cmd "helm-upgrade" ("release " ^^ quoted (Helm_ReleaseName h) ^^ " not found in namespace "
                    ^^ quoted (Helm_Namespace h))
              | None =>
                  c <- locateChart h ;;
                  match c with
                  | inl e => fail cmd "cannot locate chart" e
                  | inr c =>
                      dry <- (if DryRunFirst cfg then
                                e <- helm_upgrade_run h c vals true ;;
                                match e with
                                | Some e => fail cmd "helm-upgrade dry-run" (sanitizeHelmErr e) ;;; ret false
                                | None =>
                                    report StatusDryRun ("dry-run upgrade of release "
                                      ^^ quoted (Helm_ReleaseName h) ^^ " in " ^^ Helm_Namespace h
                                      ^^ " validated") ;;; ret true
                                end
                              else ret true) ;;
                      if negb dry then ret tt
                      else
                        report StatusApplying ("helm upgrade " ^^ Helm_ReleaseName h) ;;;
                        e <- helm_upgrade_run h c vals false ;;
                        match e with
                        | Some e => fail cmd "helm-upgrade" (sanitizeHelmErr e)
                        | None => succeed cmd ("upgraded release " ^^ quoted (Helm_ReleaseName h) ^^ " in "
                            ^^ Helm_Namespace h)
                        end
                  end
              end
          end
      end
  end.

Definition helmUninstall (cmd : Command) : M W unit :=
  match Cmd_Helm cmd with
  | None => crash
  | Some h =>
      e <- helmConfig (Helm_Namespace h) ;;
      match e with
      | Some e => fail cmd "helm-uninstall" e
      | None =>
          report StatusApplying ("helm uninstall " ^^ Helm_ReleaseName h) ;;;
          e <- perform (op_uninstall (Helm_ReleaseName h)) (EUninstall (Helm_ReleaseName h)) ;;
          match e with
          | Some e => fail cmd "helm-uninstall" (sanitizeHelmErr e)
          | None => succeed cmd ("uninstalled release " ^^ quoted (Helm_ReleaseName h) ^^ " from "
              ^^ Helm_Namespace h)
          end
      end
  end.

(** ** Dispatch *)

(** [HandleCommand]; [fuel] bounds the attempts at each eviction of a drain. *)
Definition HandleCommand (fuel : nat) (cmd : Command) : M W unit :=
  report StatusValidating "" ;;;
  let v := Cmd_Verb cmd in
  if v =s VerbApply then apply cmd
  else if v =s VerbPatch then patch cmd
  else if v =s VerbDelete then delete cmd
  else if v =s VerbDrainNode then drainNode fuel cmd
  else if v =s VerbUncordonNode then uncordonNode cmd
  else if v =s VerbHelmInstall then helmInstall cmd
  else if v =s VerbHelmUpgrade then helmUpgrade cmd
  else if v =s VerbHelmUninstall then helmUninstall cmd
  else if v =s VerbCertRotate then certRotate cmd
  else if v =s VerbClusterUpgrade then refuse cmd "cluster-upgrade is not supported by this agent version"
  else refuse cmd ("unknown verb " ^^ quoted v).

End Executor.
