(* ===== verification/UpdateBody.v ===== *)
(** * internal/executor: the body of an update

    [apply_body] as a whole: the overlay of the manifest on the live object, the
    live resource version, the immutable fields, and the hash annotation, in the
    order of [apply].  The parts are in [Merge] and [Drift]; here is what survives
    their composition. *)

From S2P Require Import Prelude GoStrings Json Protocol Config Unstructured Drift Merge Cluster Executor.

Section UpdateBody.
Context `{UnstructuredLaws} `{Quantities}.

(** A field of the manifest that is a map or left out. *)
Definition map_or_absent (v : option json) : Prop :=
  match v with None | Some (JObj _) => True | _ => False end.

Lemma merge_keeps_map live o k lm :
  live !! k = Some (JObj lm) -> map_or_absent (o !! k) ->
  exists m, mergeForUpdate live o !! k = Some (JObj m).
Proof.
  intros Hl Ho. unfold mergeForUpdate. rewrite mergeMap_lookup, Hl.
  destruct (o !! k) as [[]|]; cbn in *; try done; by eauto.
Qed.

Lemma SetResourceVersion_eq v m md :
  v <> "" -> m !! "metadata" = Some (JObj md) ->
  SetResourceVersion v m = <["metadata" := JObj (<["resourceVersion" := JStr v]> md)]> m.
Proof.
  intros Hv Hm. rewrite set_resource_version. unfold set_metadata.
  rewrite (proj2 (string_eqb_false v "") Hv), set_nested_cons, Hm. done.
Qed.

Lemma Stamp_metadata m md :
  m !! "metadata" = Some (JObj md) ->
  exists a, Stamp m = <["metadata" := JObj (<["annotations" := a]> md)]> m.
Proof. intros Hm. unfold Stamp. rewrite set_annotations, set_nested_cons, Hm. cbn. by eauto. Qed.

Lemma GetKind_lookup m m' : m !! "kind" = m' !! "kind" -> GetKind m = GetKind m'.
Proof. intros Hk. by rewrite !get_kind, !nested_string, !nested_cons, Hk. Qed.

(** C29. What an update sends: for a live object with a spec and a manifest of the
    same kind whose metadata and spec are maps (or left out), the body keeps every
    immutable field of the live object through merge, adoption and stamping, and
    carries the live resource version, so that the API server accepts it and
    refuses it when the object changed in between. *)
Theorem update_body_conforms o live liveSpec liveMeta kind :
  live !! "spec" = Some (JObj liveSpec) -> live !! "metadata" = Some (JObj liveMeta) ->
  map_or_absent (o !! "spec") -> map_or_absent (o !! "metadata") ->
  o !! "kind" = Some (JStr kind) -> live !! "kind" = Some (JStr kind) -> GetResourceVersion live <> "" ->
  let body := apply_body o (Some live) in
  GetKind body = GetKind live /\ GetResourceVersion body = GetResourceVersion live /\
  exists spec', body !! "spec" = Some (JObj spec') /\
    forall f, f ∈ immutable_fields (GetKind live) -> spec' !! f = liveSpec !! f.
Proof.
  intros Hls Hlm Hos Hom Hko Hkl Hrv. cbv zeta. unfold apply_body.
  destruct (merge_keeps_map _ _ _ _ Hls Hos) as [spec Hs]. destruct (merge_keeps_map _ _ _ _ Hlm Hom) as [md Hm].
  set (v := GetResourceVersion live) in *. rewrite (SetResourceVersion_eq v _ md Hrv Hm).
  set (m1 := <["metadata" := _]> _).
  assert (m1 !! "spec" = Some (JObj spec)) as Hs1 by (unfold m1; by rewrite lookup_insert_ne).
  assert (m1 !! "kind" = Some (JStr kind)) as Hk1.
  { unfold m1, mergeForUpdate. by rewrite lookup_insert_ne, mergeMap_lookup, Hko. }
  destruct (immutable_fields_adopted m1 live spec liveSpec Hs1 Hls) as (Hother & spec' & Hspec & Himm).
  rewrite (GetKind_lookup m1 live) in Himm by congruence.
  set (m2 := adoptImmutableFields m1 live) in *.
  destruct (Stamp_metadata m2 (<["resourceVersion" := JStr v]> md)) as [a Ha].
  { rewrite Hother by done. unfold m1. apply lookup_insert_eq. }
  rewrite Ha. split_and!.
  - apply GetKind_lookup. rewrite lookup_insert_ne by done. rewrite Hother by done. congruence.
  - rewrite get_resource_version, nested_string, nested_cons, lookup_insert_eq. cbn.
    by rewrite lookup_insert_ne, lookup_insert_eq.
  - exists spec'. split; [|done]. by rewrite lookup_insert_ne.
Qed.
End UpdateBody.

Module UpdateBodyExample.
Import ReferenceUnstructured MergeExample.

Definition meta (version : string) : obj := map2 "name" (JStr "data") "resourceVersion" (JStr version).
Definition live_claim : obj := <["metadata" := JObj (meta "41")]> bound.
Definition manifest : obj := <["metadata" := JObj {[ "name" := JStr "data" ]}]> (claim "pv-2" "5Gi").

Lemma update_body_conforms_witness :
  let body := apply_body manifest (Some live_claim) in
  GetKind body = GetKind live_claim /\ GetResourceVersion body = GetResourceVersion live_claim /\
  exists spec', body !! "spec" = Some (JObj spec') /\
    forall f, f ∈ immutable_fields (GetKind live_claim) -> spec' !! f = claim_spec "pv-1" "10Gi" !! f.
Proof.
  apply (update_body_conforms manifest live_claim (claim_spec "pv-1" "10Gi") (meta "41") "PersistentVolumeClaim");
    (reflexivity || exact I || (vm_compute; discriminate)).
Defined.
End UpdateBodyExample.
