(* ===== verification/ExecutorReports.v ===== *)
(** * What the executor reports

    The reporting discipline of [HandleCommand], for every command, every
    cluster and every sequence of answers: one terminal report, last, with its
    metric. *)

From S2P Require Import Prelude GoStrings GoTime Json Protocol Config Unstructured Drift Merge Cluster Executor Receiver.
Local Open Scope Z_scope.

(** Case analysis of a computation down to its operations; [side] discharges
    the invariant at each of them. *)
Ltac wp_step side :=
  match goal with
  | |- wp _ (bind _ _) _ _ => apply wp_bind
  | |- wp _ (ret _) _ _ => apply wp_ret
  | |- wp _ crash _ _ => apply wp_crash
  | |- wp _ diverge _ _ => apply wp_diverge
  | |- wp _ (perform _ _) _ _ => apply wp_perform; [intros ?; side|intros ?]
  | |- wp _ (emit _) _ _ => apply wp_emit; [side|]
  | |- wp _ (match ?x with _ => _ end) _ _ => destruct x eqn:?
  end.

Section Reports.
Context `{Unstructured} `{Quantities} `{Decoders} {W : Type} `{!Cluster W}.
Context (cfg : Config) (has_mapper : bool) (cmd : Command).

Definition is_metric (e : event) : bool := match e with EMetric _ _ => true | _ => false end.
Definition is_terminal (e : event) : bool :=
  match e with EReport r => isTerminal (Rep_Status r) | _ => false end.

(** Neither a metric nor a terminal report so far. *)
Definition clean (h : list event) : Prop :=
  Forall (fun e => is_metric e = false /\ is_terminal e = false) h.

(** The metric and the terminal report that goes with it. *)
Definition finished (h : list event) : Prop :=
  exists pre rep, h = pre ++ [EMetric (Cmd_Verb cmd) (Rep_Status rep); EReport rep] /\ clean pre /\
    isTerminal (Rep_Status rep) = true.

(** Nothing happens after the terminal report; a terminal report directly
    follows the only metric, which names the command's verb and its status. *)
Definition disciplined (h : list event) (e : event) : Prop :=
  if is_terminal e then
    exists pre, clean pre /\
      h = pre ++ [EMetric (Cmd_Verb cmd) match e with EReport r => Rep_Status r | _ => "" end]
  else clean h.

Lemma clean_snoc h e : clean h -> is_metric e = false -> is_terminal e = false -> clean (h ++ [e]).
Proof. intros Hh Hm Ht. apply Forall_app. split; [done|]. by apply Forall_singleton. Qed.

Ltac quiet := solve [done | repeat apply clean_snoc; done].

Lemma wp_terminal status msg diff h (Q : unit -> list event -> Prop) :
  isTerminal status = true -> clean h -> (forall h', finished h' -> Q tt h') ->
  wp disciplined (bind (W:=W) (emit (EMetric (Cmd_Verb cmd) status)) (fun _ =>
    emit (EReport (exec_report status msg diff 0)))) h Q.
Proof.
  intros Ht Hh HQ. apply wp_bind, wp_emit; [done|]. apply wp_emit.
  - unfold disciplined. cbn [is_terminal exec_report Rep_Status]. rewrite Ht. by exists h.
  - apply HQ. exists h, (exec_report status msg diff 0). rewrite <- app_assoc. done.
Qed.

Lemma wp_fail msg err h (Q : unit -> list event -> Prop) :
  clean h -> (forall h', finished h' -> Q tt h') -> wp (W:=W) disciplined (fail cmd msg err) h Q.
Proof. by apply wp_terminal. Qed.

Lemma wp_succeed msg h (Q : unit -> list event -> Prop) :
  clean h -> (forall h', finished h' -> Q tt h') -> wp (W:=W) disciplined (succeed cmd msg) h Q.
Proof. by apply wp_terminal. Qed.

Lemma wp_refuse msg h (Q : unit -> list event -> Prop) :
  clean h -> (forall h', finished h' -> Q tt h') -> wp (W:=W) disciplined (refuse cmd msg) h Q.
Proof. by apply wp_terminal. Qed.

(** How a step of the walk ends: still clean, or finished. *)
Definition going (go_on : bool) (h : list event) : Prop := if go_on then clean h else finished h.

Ltac report_step :=
  first
    [ match goal with
      | |- wp _ (fail _ _ _) _ _ => apply wp_fail; [quiet|intros ? ?]
      | |- wp _ (succeed _ _) _ _ => apply wp_succeed; [quiet|intros ? ?]
      | |- wp _ (refuse _ _) _ _ => apply wp_refuse; [quiet|intros ? ?]
      end
    | progress unfold report, report_progress, api_get, api_create, api_update, api_patch, api_delete, rest_mapping,
        node_get, node_patch, list_pods, evict, time_now, wait, load_chart, helm_install_run, helm_upgrade_run
    | wp_step quiet ].
Ltac reports := repeat report_step.

(** The refusals of the drift gate. *)
Lemma wp_refuse_drift msg diff h :
  clean h ->
  wp (W:=W) disciplined (emit (EMetric (Cmd_Verb cmd) resultRefused) ;;;
    report_diff StatusRefused msg diff ;;; ret false) h going.
Proof.
  intros Hh. apply wp_bind, wp_emit; [done|]. apply wp_bind, wp_emit.
  - unfold disciplined. cbn. by exists h.
  - apply wp_ret. exists h, (exec_report StatusRefused msg diff 0). by rewrite <- app_assoc.
Qed.

Lemma wp_checkDrift live h : clean h -> wp (W:=W) disciplined (checkDrift cfg cmd live) h going.
Proof.
  intros Hh. unfold checkDrift. repeat case_match; (by apply wp_ret) || by apply wp_refuse_drift.
Qed.

Lemma wp_liveGet sc name h (Q : ApiError + option obj -> list event -> Prop) :
  clean h -> (forall r h', clean h' -> Q r h') -> wp (W:=W) disciplined (liveGet sc name) h Q.
Proof. intros Hh HQ. unfold liveGet. reports. apply HQ. quiet. Qed.

Lemma wp_gvrFor o ref h (Q : string + GVR * bool -> list event -> Prop) :
  clean h -> (forall r h', clean h' -> Q r h') -> wp (W:=W) disciplined (gvrFor has_mapper o ref) h Q.
Proof. intros Hh HQ. unfold gvrFor. cbv zeta. reports; apply HQ; quiet. Qed.

Lemma wp_locateChart spec h (Q : string + chart -> list event -> Prop) :
  clean h -> (forall r h', clean h' -> Q r h') -> wp (W:=W) disciplined (locateChart spec) h Q.
Proof. intros Hh HQ. unfold locateChart. reports; apply HQ; quiet. Qed.

Lemma wp_helmConfig ns h (Q : option string -> list event -> Prop) :
  clean h -> (forall r h', clean h' -> Q r h') -> wp (W:=W) disciplined (helmConfig ns) h Q.
Proof. intros Hh HQ. unfold helmConfig. reports; apply HQ; quiet. Qed.

Lemma wp_createOrUpdate sc o op dry h (Q : option ApiError -> list event -> Prop) :
  clean h -> (forall r h', clean h' -> Q r h') -> wp (W:=W) disciplined (createOrUpdate sc o op dry) h Q.
Proof. intros Hh HQ. unfold createOrUpdate. reports; apply HQ; quiet. Qed.

Lemma wp_restamp gvr ns name h (Q : unit -> list event -> Prop) :
  clean h -> (forall h', clean h' -> Q tt h') -> wp (W:=W) disciplined (restamp gvr ns name) h Q.
Proof.
  intros Hh HQ. unfold restamp, liveObject. apply wp_bind, wp_liveGet; [done|]. intros r h' Hh'.
  reports; apply HQ; quiet.
Qed.

(** The walk, with the lemmas above for the methods a command goes through. *)
Ltac walk :=
  repeat first
    [ match goal with
      | |- wp _ (checkDrift _ _ _) _ _ =>
          eapply wp_mono; [apply wp_checkDrift; quiet|intros [] ? ?; cbn [going negb] in *]
      | |- wp _ (liveGet _ _) _ _ => apply wp_liveGet; [quiet|intros [?|[?|]] ? ?]
      | |- wp _ (gvrFor _ _ _) _ _ => apply wp_gvrFor; [quiet|intros [?|[? ?]] ? ?]
      | |- wp _ (locateChart _) _ _ => apply wp_locateChart; [quiet|intros [?|?] ? ?]
      | |- wp _ (helmConfig _) _ _ => apply wp_helmConfig; [quiet|intros [?|] ? ?]
      | |- wp _ (createOrUpdate _ _ _ _) _ _ => apply wp_createOrUpdate; [quiet|intros [?|] ? ?]
      | |- wp _ (restamp _ _ _) _ _ => apply wp_restamp; [quiet|intros ? ?]
      end
    | report_step
    | progress cbn [negb] ].

Lemma wp_apply_one o h :
  clean h ->
  wp (W:=W) disciplined (apply_one cfg has_mapper cmd o) h
    (fun r h' => match r with None => finished h' | Some _ => clean h' end).
Proof. intros Hh. unfold apply_one. cbv zeta. walk; quiet. Qed.

Lemma wp_apply objs created updated h :
  clean h -> wp (W:=W) disciplined (apply_loop cfg has_mapper cmd objs created updated) h (fun _ => finished).
Proof.
  revert created updated h. induction objs as [|o objs IH]; intros created updated h Hh; cbn [apply_loop].
  { by apply wp_succeed. }
  apply wp_bind. eapply wp_mono; [by apply wp_apply_one|].
  intros [[]|] h' Hh'; [by apply IH|by apply IH|by apply wp_ret].
Qed.

Lemma wp_patch h : clean h -> wp (W:=W) disciplined (patch cfg cmd) h (fun _ => finished).
Proof. intros Hh. unfold patch, liveObject. cbv zeta. walk; quiet. Qed.

Lemma wp_delete h : clean h -> wp (W:=W) disciplined (delete cfg cmd) h (fun _ => finished).
Proof. intros Hh. unfold delete, liveObject. cbv zeta. walk; quiet. Qed.

Lemma wp_uncordon h : clean h -> wp (W:=W) disciplined (uncordonNode cmd) h (fun _ => finished).
Proof. intros Hh. unfold uncordonNode. cbv zeta. walk; quiet. Qed.

Lemma wp_certRotate h : clean h -> wp (W:=W) disciplined (certRotate cfg cmd) h (fun _ => finished).
Proof. intros Hh. unfold certRotate. cbv zeta. walk; quiet. Qed.

Lemma wp_helmInstall h : clean h -> wp (W:=W) disciplined (helmInstall cfg cmd) h (fun _ => finished).
Proof. intros Hh. unfold helmInstall. walk; quiet. Qed.

Lemma wp_helmUpgrade h : clean h -> wp (W:=W) disciplined (helmUpgrade cfg cmd) h (fun _ => finished).
Proof. intros Hh. unfold helmUpgrade. walk; quiet. Qed.

Lemma wp_helmUninstall h : clean h -> wp (W:=W) disciplined (helmUninstall cmd) h (fun _ => finished).
Proof. intros Hh. unfold helmUninstall. walk; quiet. Qed.

(** The report of a drain that gave up on a pod: progress, and a message for a
    human. *)
Definition stall_notice (rep : Report) : Prop :=
  Rep_Status rep = StatusProgress /\ HasPrefix (Rep_Message rep) "drain stalled, waiting for human: cannot evict " = true.

(** A stalled drain ends in it, with no terminal report and no metric. *)
Definition stalled (h : list event) : Prop :=
  clean h /\ exists h' rep, h = h' ++ [EReport rep] /\ stall_notice rep.

Lemma wp_evict_loop fuel p last evicted total h :
  clean h ->
  wp (W:=W) disciplined (evict_loop cfg fuel cmd p last evicted total) h
    (fun ok h' => if ok : bool then clean h' else finished h' \/ stalled h').
Proof.
  revert h. induction fuel as [|fuel IH]; intros h Hh; cbn [evict_loop]; [apply wp_diverge|].
  walk; try quiet; try (by left).
  - right. split; [quiet|]. eexists _, _. split; [done|]. split; [done|].
    cbn [exec_report Rep_Message]. apply HasPrefix_app.
  - apply IH. quiet.
Qed.

Lemma wp_drain_loop fuel node pods last evicted total h :
  clean h ->
  wp (W:=W) disciplined (drain_loop cfg fuel cmd node pods last evicted total) h
    (fun r h' => match r with Some _ => clean h' | None => finished h' \/ stalled h' end).
Proof.
  revert last evicted h. induction pods as [|p pods IH]; intros last evicted h Hh; cbn [drain_loop];
    [by apply wp_ret|].
  destruct (negb (evictable cfg node p)); [by apply IH|].
  apply wp_bind. eapply wp_mono; [by apply wp_evict_loop|]. intros [] h' Hh'; cbn [negb]; [|by apply wp_ret].
  cbv zeta. walk. apply IH. quiet.
Qed.

Lemma wp_drainNode fuel h :
  clean h -> wp (W:=W) disciplined (drainNode cfg fuel cmd) h (fun _ h' => finished h' \/ stalled h').
Proof.
  intros Hh. unfold drainNode. cbv zeta. walk; try (by left).
  eapply wp_mono; [apply wp_drain_loop; quiet|]. intros [] ? ?; walk; done || by left.
Qed.

(** The last report of a drain that gave up on a pod. *)
Lemma wp_HandleCommand fuel :
  wp (W:=W) disciplined (HandleCommand cfg has_mapper fuel cmd) []
    (fun _ h => finished h \/ (Cmd_Verb cmd = VerbDrainNode /\ stalled h)).
Proof.
  unfold HandleCommand, report. cbv zeta.
  assert (clean []) as Hnil by apply Forall_nil_2.
  apply wp_bind, wp_emit; [done|]. set (h := _ ++ _).
  assert (clean h) as Hh by (subst h; quiet). clearbody h.
  repeat match goal with
  | |- wp _ (if ?v =s ?w then _ else _) _ _ => destruct (String.eqb_spec v w)
  end.
  4: { eapply wp_mono; [by apply wp_drainNode|]. intros _ ? [|]; [by left|by right]. }
  all: apply (wp_mono _ _ _ (fun _ => finished)); [|intros; by left].
  - unfold apply. destruct (decodeManifest _) as [err|[|o objs]];
      [by apply wp_fail|by apply wp_fail|by apply wp_apply].
  - by apply wp_patch.
  - by apply wp_delete.
  - by apply wp_uncordon.
  - by apply wp_helmInstall.
  - by apply wp_helmUpgrade.
  - by apply wp_helmUninstall.
  - by apply wp_certRotate.
  - by apply wp_refuse.
  - by apply wp_refuse.
Qed.

(** C9. One terminal report, last: whatever the command and whatever the cluster
    answers, a terminal report is the last thing [HandleCommand] does and
    directly follows the only metric, which counts the command's verb with the
    reported status; and when [HandleCommand] returns it has sent one, except
    that a drain may instead end paused, in a progress report and without a
    metric. *)
Theorem one_terminal_report fuel w :
  let '(r, _, tr) := HandleCommand cfg has_mapper fuel cmd (w : W) in
  (forall pre rep post, tr = pre ++ EReport rep :: post -> isTerminal (Rep_Status rep) = true ->
     post = [] /\ exists pre', pre = pre' ++ [EMetric (Cmd_Verb cmd) (Rep_Status rep)] /\ clean pre') /\
  (r = Ret tt -> finished tr \/ (Cmd_Verb cmd = VerbDrainNode /\ stalled tr)).
Proof.
  pose proof (wp_HandleCommand fuel w) as Hw.
  destruct (HandleCommand _ _ _ _ w) as [[r w'] tr]. destruct Hw as [Ha Hr]. split.
  - intros pre rep post -> Ht. split.
    + destruct post as [|e post]; [done|]. exfalso.
      specialize (Ha (pre ++ [EReport rep]) e post ltac:(by rewrite <- app_assoc)). cbn in Ha.
      unfold disciplined in Ha.
      assert (forall h, EReport rep ∈ h -> ~ clean h) as Hno.
      { intros h Hin Hc. unfold clean in Hc. rewrite Forall_forall in Hc. destruct (Hc _ Hin) as [_ Hf]. cbn in Hf. congruence. }
      destruct (is_terminal e); [|by eapply Hno in Ha; [|rewrite elem_of_app, list_elem_of_singleton; right]].
      destruct Ha as (q & Hq & Heq). apply app_inj_tail in Heq as [_ Heq]. done.
    + specialize (Ha pre (EReport rep) post eq_refl). unfold disciplined in Ha. cbn in Ha. rewrite Ht in Ha.
      destruct Ha as (q & Hq & ->). by exists q.
  - intros ->. exact Hr.
Qed.

End Reports.
