(* ===== verification/ExecutorSafety.v ===== *)
(** * What the executor may change

    What comes before each write, for every command, every cluster and every
    sequence of answers.  Writes of manifests, patches and deletes pass two guards:
    a dry run of the same request when so configured, and the drift policy on the
    live object.  The writes the code lets through without them are named:
    cordon and uncordon patches and evictions (of the node commands), the Helm
    operations (no drift policy, and no dry run of an uninstall), the hash
    annotation after a patch (no dry run), and creates outside [apply]. *)

From S2P Require Import Prelude GoStrings GoTime Json Protocol Config Unstructured Drift Merge Cluster Executor ExecutorReports.
Local Open Scope Z_scope.

Section Safety.
Context `{Unstructured} `{Quantities} `{Decoders} {W : Type} `{!Cluster W}.
Context (cfg : Config) (has_mapper : bool) (cmd : Command).


































(** The expected hash of a drain is ignored: if the node is there, it is cordoned
    by a real patch that no dry run and no read of the node's content precedes. *)
Theorem cordon_unguarded fuel (w : W) :
  Cmd_Verb cmd = VerbDrainNode -> Ref_Name (Cmd_Target cmd) <> "" ->
  (op_node_get (Ref_Name (Cmd_Target cmd)) w).1 = None ->
  exists validating r post, (HandleCommand cfg has_mapper fuel cmd w).2
    = [EReport validating; ENodeGet (Ref_Name (Cmd_Target cmd)) None;
       ENodePatch (Ref_Name (Cmd_Target cmd)) (cordon_patch true) r] ++ post.
Proof.
  intros Hv Hn Hget. unfold HandleCommand, report, bind at 1, emit at 1. rewrite Hv. cbn -[drainNode].
  unfold drainNode, node_get, node_patch. cbv zeta. rewrite (proj2 (String.eqb_neq _ _) Hn).
  unfold bind at 1, perform at 1. destruct (op_node_get _ w) as [g w1]. cbn in Hget. subst g.
  unfold bind at 1, perform at 1. destruct (op_node_patch _ _ w1) as [e w2].
  match goal with |- context [let '(_, _) := ?m w2 in _] => destruct (m w2) as [[? ?] tr] end.
  by exists (exec_report StatusValidating "" "" 0), e, tr.
Qed.
End Safety.
