(* ===== verification/ExecutorTotal.v ===== *)
(** * Every command returns

    [HandleCommand] always returns when the clock runs: the retry loop of a
    drain stops at the stall timeout, every other loop is over a finite list.
    The only way to crash is a Helm verb without a Helm section. *)

From S2P Require Import Prelude GoStrings GoTime Json Protocol Config Unstructured Drift Merge Cluster Executor ExecutorReports Validator.
Local Open Scope Z_scope.

(** A clock behind the cluster's operations: reading it is accurate, nothing
    turns it back, and waiting takes at least as long as asked. *)
Class RunningClock (W : Type) `{Cluster W} := {
  clock : W -> Z;
  now_reads w : sane (op_now w).1 /\ instant (op_now w).1 = clock (op_now w).2 /\ clock w <= clock (op_now w).2;
  evict_runs ns name w : clock w <= clock (op_evict ns name w).2;
  wait_lasts d w : (op_wait d w).1 = None -> clock w + d <= clock (op_wait d w).2;
}.

(** ** Returning *)

Section Returns.
Context {W : Type}.

Definition returns {A} (m : M W A) (w : W) (Q : A -> W -> Prop) : Prop :=
  exists a w' tr, m w = (Ret a, w', tr) /\ Q a w'.

Lemma returns_ret {A} (a : A) w (Q : A -> W -> Prop) : Q a w -> returns (ret a) w Q.
Proof. intros HQ. by exists a, w, []. Qed.

Lemma returns_bind {A B} (m : M W A) (k : A -> M W B) w Q :
  returns m w (fun a w' => returns (k a) w' Q) -> returns (bind m k) w Q.
Proof.
  intros (a & w' & tr & Hm & (b & w'' & tr' & Hk & HQ)). unfold returns, bind. rewrite Hm, Hk.
  by exists b, w'', (tr ++ tr').
Qed.

Lemma returns_emit e w (Q : unit -> W -> Prop) : Q tt w -> returns (emit e) w Q.
Proof. intros HQ. by exists tt, w, [e]. Qed.

Lemma returns_perform {A} (op : W -> A * W) (e : A -> event) w (Q : A -> W -> Prop) :
  Q (op w).1 (op w).2 -> returns (perform op e) w Q.
Proof.
  intros HQ. unfold returns, perform. destruct (op w) as [a w']. by exists a, w', [e a].
Qed.

Lemma returns_mono {A} (m : M W A) w (Q Q' : A -> W -> Prop) :
  returns m w Q -> (forall a w', Q a w' -> Q' a w') -> returns m w Q'.
Proof. intros (a & w' & tr & Hm & HQ) Hmono. exists a, w', tr. eauto. Qed.
End Returns.

Ltac returns_step :=
  match goal with
  | |- returns (bind _ _) _ _ => apply returns_bind
  | |- returns (ret _) _ _ => apply returns_ret
  | |- returns (emit _) _ _ => apply returns_emit
  | |- returns (perform _ _) _ _ => apply returns_perform
  | |- returns (match ?x with _ => _ end) _ _ => destruct x eqn:?
  end.

Ltac returns_walk :=
  repeat first
    [ progress unfold fail, succeed, refuse, report, report_progress, report_diff, api_get, api_create, api_update,
        api_patch, api_delete, rest_mapping, node_get, node_patch, list_pods, evict, time_now, wait, load_chart,
        helm_install_run, helm_upgrade_run
    | progress cbn [negb]
    | returns_step ].

Section Total.
Context `{Unstructured} `{Quantities} `{Decoders} {W : Type} `{!Cluster W} `{!RunningClock W}.
Context (cfg : Config) (has_mapper : bool) (cmd : Command).

Definition yes {A} (_ : A) (_ : W) : Prop := True.

(** Attempts that cover the stall timeout, with two seconds between them. *)
Definition drain_fuel : nat := S (Z.to_nat (DrainStallTimeout cfg / drain_retry + 1)).

Lemma evict_loop_returns fuel p last evicted total w :
  sane last -> instant last <= clock w -> DrainStallTimeout cfg <= int64_max -> (1 <= fuel)%nat ->
  DrainStallTimeout cfg <= clock w - instant last + (Z.of_nat fuel - 1) * drain_retry ->
  returns (evict_loop cfg fuel cmd p last evicted total) w yes.
Proof.
  intros Hl. revert w. induction fuel as [|fuel IH]; intros w Hc Hmax Hf Hb; [lia|]. cbn [evict_loop].
  unfold evict at 1. apply returns_bind, returns_perform.
  pose proof (evict_runs (Pod_Namespace p) (Pod_Name p) w) as He. set (w1 := (op_evict _ _ w).2) in *.
  destruct (delete_error _); [|by returns_walk].
  unfold time_now at 1. apply returns_bind, returns_perform.
  destruct (now_reads w1) as (Hs & Hi & Hn). set (w2 := (op_now w1).2) in *. set (t := (op_now w1).1) in *.
  destruct (Z.leb_spec (DrainStallTimeout cfg) (Sub t last)) as [_|Hsub]; [by returns_walk|].
  assert (0 <= Sub t last) as Hpos by (apply Sub_elapsed; [done|done|unfold int64_max|]; lia).
  assert (instant t - instant last < DrainStallTimeout cfg) as Helapsed.
  { apply Z.nle_gt. intros Hle. apply Sub_elapsed in Hle; [lia|done|done|lia]. }
  unfold wait at 1. apply returns_bind, returns_perform.
  pose proof (wait_lasts drain_retry w2) as Hw. destruct (op_wait drain_retry w2).1; [by returns_walk|].
  specialize (Hw eq_refl). unfold drain_retry, Second in *. apply IH; lia.
Qed.

Lemma drain_loop_returns fuel node pods last evicted total w :
  sane last -> instant last <= clock w -> DrainStallTimeout cfg <= int64_max -> (drain_fuel <= fuel)%nat ->
  returns (drain_loop cfg fuel cmd node pods last evicted total) w yes.
Proof.
  intros Hl Hc Hmax Hf. revert last evicted w Hl Hc.
  induction pods as [|p pods IH]; intros last evicted w Hl Hc; cbn [drain_loop]; [by apply returns_ret|].
  destruct (negb _); [by apply IH|]. apply returns_bind.
  eapply returns_mono; [apply evict_loop_returns; [done..|unfold drain_fuel in Hf; lia|]|].
  { unfold drain_fuel in Hf. pose proof (Z.div_mod (DrainStallTimeout cfg) drain_retry ltac:(done)).
    pose proof (Z.mod_pos_bound (DrainStallTimeout cfg) drain_retry ltac:(done)).
    set (q := DrainStallTimeout cfg / drain_retry) in *. unfold drain_retry, Second in *. lia. }
  intros [] w1 _; [|by returns_walk]. cbn [negb]. cbv zeta. unfold time_now at 1.
  apply returns_bind, returns_perform. destruct (now_reads w1) as (Hs & Hi & _).
  returns_walk. apply IH; [done|]. by rewrite Hi.
Qed.

Lemma checkDrift_returns live w : returns (checkDrift cfg cmd live) w yes.
Proof. unfold checkDrift. by returns_walk. Qed.

Lemma apply_one_returns o w : returns (apply_one cfg has_mapper cmd o) w yes.
Proof.
  unfold apply_one, gvrFor, liveGet, createOrUpdate, checkDrift. cbv zeta. by returns_walk.
Qed.

Lemma apply_loop_returns objs created updated w :
  returns (apply_loop cfg has_mapper cmd objs created updated) w yes.
Proof.
  revert created updated w. induction objs as [|o objs IH]; intros created updated w; cbn [apply_loop];
    [by returns_walk|].
  apply returns_bind. eapply returns_mono; [apply apply_one_returns|]. intros [[]|] w' _; by returns_walk.
Qed.

Lemma drainNode_returns fuel w :
  DrainStallTimeout cfg <= int64_max -> (drain_fuel <= fuel)%nat -> returns (drainNode cfg fuel cmd) w yes.
Proof.
  intros Hmax Hf. unfold drainNode. cbv zeta. returns_walk; try done.
  match goal with |- returns (drain_loop _ _ _ _ _ (op_now ?w1).1 _ _) _ _ =>
    destruct (now_reads w1) as (Hs & Hi & _) end.
  eapply returns_mono; [apply drain_loop_returns; [done|by rewrite Hi|done|done]|].
  intros [] w' _; by returns_walk.
Qed.

Lemma handle_returns fuel w :
  DrainStallTimeout cfg <= int64_max -> (drain_fuel <= fuel)%nat ->
  (is_helm_verb (Cmd_Verb cmd) = true -> Cmd_Helm cmd <> None) ->
  returns (HandleCommand cfg has_mapper fuel cmd) w yes.
Proof.
  intros Hmax Hf Hh. unfold HandleCommand, report. cbv zeta. apply returns_bind, returns_emit.
  repeat match goal with
  | |- returns (if ?v =s ?x then _ else _) _ _ => destruct (String.eqb_spec v x) as [Hv|]
  end.
  - unfold apply. destruct (decodeManifest _) as [err|[|o objs]]; [by returns_walk..|apply apply_loop_returns].
  - unfold patch, restamp, liveObject, liveGet, checkDrift. cbv zeta. by returns_walk.
  - unfold delete, liveObject, liveGet, checkDrift. cbv zeta. by returns_walk.
  - by apply drainNode_returns.
  - unfold uncordonNode. cbv zeta. by returns_walk.
  - rewrite Hv in Hh. specialize (Hh eq_refl). unfold helmInstall, helmConfig, locateChart.
    destruct (Cmd_Helm cmd); [by returns_walk|done].
  - rewrite Hv in Hh. specialize (Hh eq_refl). unfold helmUpgrade, helmConfig, locateChart.
    destruct (Cmd_Helm cmd); [by returns_walk|done].
  - rewrite Hv in Hh. specialize (Hh eq_refl). unfold helmUninstall, helmConfig.
    destruct (Cmd_Helm cmd); [by returns_walk|done].
  - unfold certRotate. cbv zeta. by returns_walk.
  - by returns_walk.
  - by returns_walk.
Qed.

(** The result of a computation. *)
Definition result_of {A} (x : result A * W * list event) : result A := x.1.1.

(** C12. Every command returns, or crashes for one reason: with a running clock,
    a stall timeout in range and the attempts that cover it, [HandleCommand]
    returns for every command and every sequence of answers of the cluster,
    except that a Helm verb whose command carries no Helm section crashes the
    process on a nil dereference. *)
Theorem handle_command_returns fuel (w : W) :
  DrainStallTimeout cfg <= int64_max -> (drain_fuel <= fuel)%nat ->
  result_of (HandleCommand cfg has_mapper fuel cmd w) =
    if is_helm_verb (Cmd_Verb cmd) && bool_decide (Cmd_Helm cmd = None) then Crash else Ret tt.
Proof.
  intros Hmax Hf. destruct (is_helm_verb _ && _) eqn:E.
  - apply andb_true_iff in E as [Hv Hh]. bool_to_prop. unfold is_helm_verb in Hv.
    unfold result_of, HandleCommand, report, bind, emit.
    apply orb_true_iff in Hv as [Hv|Hv]; [apply orb_true_iff in Hv as [Hv|Hv]|]; bool_to_prop; rewrite Hv;
      unfold helmInstall, helmUpgrade, helmUninstall; rewrite Hh; reflexivity.
  - destruct (handle_returns fuel w Hmax Hf) as (a & w' & tr & Hm & _).
    { intros Hv. rewrite Hv in E. cbn [andb] in E. by bool_to_prop. }
    unfold result_of. rewrite Hm. by destruct a.
Qed.
End Total.
