(* ===== verification/RestGetter.v ===== *)
(** * internal/executor: discovery clients

    The REST mapper [executor.New] builds for apply, and [restClientGetter], the
    adapter through which Helm gets its clients: each is built once, by a
    sync.Once, and its outcome kept.  client-go's constructors are functions; the
    outcome of discovery.NewDiscoveryClientForConfig is an argument of the call
    that would make it. *)

From S2P Require Import Prelude.

Section RestGetter.
(** A rest.Config, a discovery client, its cached form, a REST mapper. *)
Context {C D M R : Type}.
Variable NewMemCacheClient : D -> M.
Variable NewDeferredDiscoveryRESTMapper : M -> R.

(** The mapper of [executor.New]: none when discovery is unavailable. *)
Definition executor_mapper (dc : string + D) : option R :=
  match dc with
  | inl _ => None
  | inr dc => Some (NewDeferredDiscoveryRESTMapper (NewMemCacheClient dc))
  end.

Record restClientGetter := mkGetter {
  g_restCfg : C;
  g_discOnce : bool;
  g_disc : option M;
  g_discErr : option string;
  g_mapperOnce : bool;
  g_mapper : option R;
  g_mapperErr : option string;
}.

(** [&restClientGetter{restCfg: e.restCfg}]. *)
Definition newGetter (cfg : C) : restClientGetter := mkGetter cfg false None None false None None.

Definition ToRESTConfig (g : restClientGetter) : C := g_restCfg g.

Definition ToDiscoveryClient (dc : string + D) (g : restClientGetter)
    : (option M * option string) * restClientGetter :=
  let g :=
    if g_discOnce g then g
    else
      match dc with
      | inl e => mkGetter (g_restCfg g) true (g_disc g) (Some e) (g_mapperOnce g) (g_mapper g) (g_mapperErr g)
      | inr dc =>
          mkGetter (g_restCfg g) true (Some (NewMemCacheClient dc)) (g_discErr g) (g_mapperOnce g) (g_mapper g)
            (g_mapperErr g)
      end in
  ((g_disc g, g_discErr g), g).

Definition ToRESTMapper (dc : string + D) (g : restClientGetter)
    : (option R * option string) * restClientGetter :=
  let g :=
    if g_mapperOnce g then g
    else
      let '((disc, err), g) := ToDiscoveryClient dc g in
      match err, disc with
      | Some e, _ =>
          mkGetter (g_restCfg g) (g_discOnce g) (g_disc g) (g_discErr g) true (g_mapper g) (Some e)
      | None, Some disc =>
          mkGetter (g_restCfg g) (g_discOnce g) (g_disc g) (g_discErr g) true
            (Some (NewDeferredDiscoveryRESTMapper disc)) (g_mapperErr g)
      | None, None =>
          mkGetter (g_restCfg g) (g_discOnce g) (g_disc g) (g_discErr g) true (g_mapper g) (g_mapperErr g)
      end in
  ((g_mapper g, g_mapperErr g), g).

(** The calls Helm makes, in any order, with what discovery would answer. *)
Inductive getter_call := CallDiscovery (dc : string + D) | CallMapper (dc : string + D).

Definition call (c : getter_call) (g : restClientGetter) : restClientGetter :=
  match c with
  | CallDiscovery dc => (ToDiscoveryClient dc g).2
  | CallMapper dc => (ToRESTMapper dc g).2
  end.
Definition call_answer (c : getter_call) : string + D := match c with CallDiscovery dc | CallMapper dc => dc end.
Definition calls (cs : list getter_call) (g : restClientGetter) : restClientGetter := foldl (fun g c => call c g) g cs.

(** A getter after the first answer [dc]. *)
Record settled (cfg : C) (dc : string + D) (g : restClientGetter) : Prop := {
  se_cfg : g_restCfg g = cfg;
  se_once : g_discOnce g = true;
  se_disc : (g_disc g, g_discErr g) =
    match dc with inl e => (None, Some e) | inr dc => (Some (NewMemCacheClient dc), None) end;
  se_mapper : g_mapperOnce g = true ->
    (g_mapper g, g_mapperErr g) = (executor_mapper dc, match dc with inl e => Some e | inr _ => None end);
  se_fresh : g_mapperOnce g = false -> (g_mapper g, g_mapperErr g) = (None, None);
}.

Lemma call_settles cfg c : settled cfg (call_answer c) (call c (newGetter cfg)).
Proof. destruct c as [[e|dc]|[e|dc]]; by split. Qed.

Lemma call_keeps cfg dc c g : settled cfg dc g -> settled cfg dc (call c g).
Proof.
  destruct g as [k d1 d2 d3 m1 m2 m3]. intros [Hk Ho Hd Hm Hf]. cbn in *. subst k d1.
  assert (d2 = match dc with inl _ => None | inr dc => Some (NewMemCacheClient dc) end /\
    d3 = match dc with inl e => Some e | inr _ => None end) as [-> ->] by (destruct dc; by simplify_eq).
  destruct c as [a|a]; [by split|]. cbn. unfold ToRESTMapper. cbn. destruct m1; [by split|]. cbn.
  specialize (Hf eq_refl). simplify_eq. by destruct dc; split.
Qed.

(** One discovery client per getter: whatever Helm asks for, in whatever order, and
    whatever discovery would answer later, every request after the first gives what
    the first answer led to: the same client and mapper, or the same error. *)
Lemma getter_settles cfg c cs :
  settled cfg (call_answer c) (calls (c :: cs) (newGetter cfg)).
Proof.
  unfold calls. cbn [foldl]. pose proof (call_settles cfg c) as Hs. revert Hs. generalize (call c (newGetter cfg)) as g.
  induction cs as [|d cs IH]; intros g Hg; [done|]. cbn [foldl]. by apply IH, call_keeps.
Qed.

Lemma mapper_settles cfg c cs dc :
  (ToRESTMapper dc (calls (c :: cs) (newGetter cfg))).1 =
    (executor_mapper (call_answer c), match call_answer c with inl e => Some e | inr _ => None end).
Proof.
  pose proof (call_keeps _ _ (CallMapper dc) _ (getter_settles cfg c cs)) as Hs.
  assert (forall g, g_mapperOnce (ToRESTMapper dc g).2 = true) as Honce.
  { intros g. unfold ToRESTMapper. cbn. destruct (g_mapperOnce g) eqn:E; [done|]. by repeat case_match. }
  exact (se_mapper _ _ _ Hs (Honce _)).
Qed.
End RestGetter.
