(* ===== verification/Operator.v ===== *)
(** * The operator: receiver and executor together

    [run_command] runs a dispatched command: the executor's reports go through
    the callback the receiver gave it, in order.  The theorems follow a command
    from the receiver to the cluster and its outcome back to the control plane.
    [ScriptedCluster] is a concrete cluster on which the executor's theorems are
    instantiated. *)

From S2P Require Import Prelude GoStrings GoTime Json Protocol Config Validator NonceCache ReportQueue Receiver Unstructured Drift Merge Cluster Executor ExecutorReports ExecutorSafety ExecutorDrain ExecutorTotal.
Local Open Scope Z_scope.

(** The reports of a trace, in order. *)
Fixpoint reports_of (tr : list event) : list Report :=
  match tr with
  | [] => []
  | EReport rep :: tr' => rep :: reports_of tr'
  | _ :: tr' => reports_of tr'
  end.

Lemma reports_of_app t1 t2 : reports_of (t1 ++ t2) = reports_of t1 ++ reports_of t2.
Proof. induction t1 as [|e t1 IH]; [done|]. destruct e; cbn [reports_of app]; by rewrite ?IH. Qed.

Section Operator.
Context `{Ed25519} {P : Type} `{!PushChannel P}.
Context `{Unstructured} `{Quantities} `{Decoders} {W : Type} `{!Cluster W}.
Context (has_mapper : bool).

(** The callback on each report; [clk n] is the clock at the [n]-th. *)
Fixpoint deliver_reports (r : Receiver P) (cmd : Command) (clk : nat -> Time) (n : nat) (reps : list Report)
    : Receiver P :=
  match reps with
  | [] => r
  | rep :: rest => deliver_reports (report_callback r cmd (clk n) rep) cmd clk (S n) rest
  end.

(** The goroutine [process] starts. *)
Definition run_command (fuel : nat) (r : Receiver P) (cmd : Command) (clk : nat -> Time) (w : W)
    : result unit * W * Receiver P :=
  let '(res, w', tr) := HandleCommand (r_cfg r) has_mapper fuel cmd w in
  (res, w', deliver_reports r cmd clk 0 (reports_of tr)).

Lemma deliver_reports_snoc r cmd clk n reps rep :
  exists r' m, deliver_reports r cmd clk n (reps ++ [rep]) = report_callback r' cmd (clk m) rep /\
    r_cfg r' = r_cfg r.
Proof.
  revert r n. induction reps as [|x reps IH]; intros r n; cbn [app deliver_reports]; [by eexists _, _|].
  destruct (IH (report_callback r cmd (clk n) x) (S n)) as (r' & m & Heq & Hc). exists r', m.
  split; [done|]. rewrite Hc. unfold report_callback. by destruct (deliverReport_frame r (stamp_report r cmd (clk n) x)) as (-> & _).
Qed.

Lemma terminal_enqueued r rep :
  isTerminal (Rep_Status rep) = true ->
  exists ll, q_ll (r_queue (deliverReport r rep)) = ll ++ [mkReportPtr (r_fresh r) rep].
Proof.
  intros Ht. unfold deliverReport. rewrite Ht. cbn [set_fresh r_push r_queue].
  destruct (r_push r) as [p|]; [destruct (Connected p); [destruct (SendReport rep p) as [[]]|]|];
    cbn [negb orb]; by eexists.
Qed.

(** A command that returns has sent a terminal report last, or is a drain whose
    last report is the stall notice. *)
Lemma command_reports cfg fuel cmd (w : W) w' tr :
  HandleCommand cfg has_mapper fuel cmd w = (Ret tt, w', tr) ->
  exists pre rep, reports_of tr = pre ++ [rep] /\
    (isTerminal (Rep_Status rep) = true \/ Cmd_Verb cmd = VerbDrainNode /\ stall_notice rep).
Proof.
  pose proof (wp_HandleCommand cfg has_mapper cmd fuel w) as Hw. intros Heq. rewrite Heq in Hw.
  cbn [app] in Hw. destruct Hw as [_ [(pre & rep & -> & _ & Ht)|[Hv [_ (pre & rep & -> & Hs)]]]];
    exists (reports_of pre), rep; rewrite reports_of_app; (split; [done|]); [by left|by right].
Qed.

(** The outcome of every command reaches the report queue: when a command
    has run, the newest queued report is its terminal report, stamped with the
    cluster and the command's ID, whatever the fast path did; the one exception
    is a drain that paused. *)
Theorem outcome_is_queued fuel r cmd clk w w' r' :
  run_command fuel r cmd clk w = (Ret tt, w', r') ->
  (exists ll ptr, q_ll (r_queue r') = ll ++ [ptr] /\ Rep_CommandID (rp_val ptr) = Cmd_ID cmd /\
     Rep_ClusterID (rp_val ptr) = ClusterID (r_cfg r) /\ isTerminal (Rep_Status (rp_val ptr)) = true) \/
  Cmd_Verb cmd = VerbDrainNode.
Proof.
  unfold run_command. pose proof (command_reports (r_cfg r) fuel cmd w) as Hw.
  destruct (HandleCommand _ _ _ _ _) as [[res w1] tr]. intros ?; simplify_eq.
  destruct (Hw _ _ eq_refl) as (pre & rep & -> & [Ht|[Hv _]]); [left|by right].
  destruct (deliver_reports_snoc r cmd clk 0 pre rep) as (r' & m & -> & Hc).
  unfold report_callback. destruct (terminal_enqueued r' (stamp_report r' cmd (clk m) rep)) as [ll Hll]; [done|].
  eexists ll, _. split; [exact Hll|]. cbn. by rewrite Hc.
Qed.

(** Where a command's target lives. *)
Definition target_scope (cmd : Command) : scope :=
  mkScope (gvrOf (Cmd_Target cmd)) (Some (Ref_Namespace (Cmd_Target cmd))).

(** C40. The policy validator does not guard the executor: a delete that
    [Validate] refuses because ALLOW_DELETE is off is carried out once the
    receiver has dispatched it, as long as the object exists and the API server
    accepts the delete. *)
Theorem policy_not_enforced fuel cfg cmd (w : W) live :
  Cmd_Verb cmd = VerbDelete -> Cmd_ExpectedHash cmd = "" -> AllowDelete cfg = false ->
  let sc := target_scope cmd in
  (op_get sc (Ref_Name (Cmd_Target cmd)) w).1 = inr live ->
  (forall dry w', (op_delete sc (Ref_Name (Cmd_Target cmd)) dry w').1 = None) ->
  Validate cfg (Some cmd) <> None /\
  EDelete sc (Ref_Name (Cmd_Target cmd)) false None ∈ (HandleCommand cfg has_mapper fuel cmd w).2.
Proof.
  intros Hv Hh Ha sc Hget Hdel. split.
  { unfold Validate, validate_verb. rewrite Hv, Ha. done. }
  unfold HandleCommand, report, bind at 1, emit at 1. rewrite Hv. cbn -[delete].
  unfold delete, liveObject, liveGet, api_get, api_delete, checkDrift. fold (target_scope cmd). fold sc. rewrite Hh. cbv zeta.
  unfold bind, perform, emit, ret. cbn [String.eqb].
  destruct (op_get sc _ w) as [g w1]. cbn in Hget. rewrite Hget. cbn.
  destruct (DryRunFirst cfg).
  - pose proof (Hdel true w1) as Hd1. destruct (op_delete sc _ true w1) as [d1 w2]. cbn in Hd1. rewrite Hd1. cbn.
    pose proof (Hdel false w2) as Hd2. destruct (op_delete sc _ false w2) as [d2 w3]. cbn in Hd2. rewrite Hd2.
    cbn. set_solver.
  - cbn. pose proof (Hdel false w1) as Hd2. destruct (op_delete sc _ false w1) as [d2 w3]. cbn in Hd2. rewrite Hd2.
    cbn. set_solver.
Qed.
End Operator.

(** ** A concrete cluster *)

Module ScriptedCluster.
Import ReferenceUnstructured MergeExample DriftExample.

(** One object, and a clock in nanoseconds since the epoch; the context expires
    when the clock would run out. *)
Record world := mkWorld { w_live : option obj; w_ns : Z }.

Definition horizon : Z := 2 ^ 40 * Second - 1.
Definition ticks (w : world) : Z := Z.max 0 (Z.min (w_ns w) horizon).
Definition reading (w : world) : Time := mkTime (unixToInternal + ticks w / Second) (ticks w mod Second).

Definition not_found : ApiError := mkApiError "not found" true.
Definition too_many : ApiError := mkApiError "disruption budget" false.

Definition pod (name : string) (owners : list (string * string)) : Pod :=
  mkPod "default" name "node-1" ∅ owners.
Definition pods : list Pod :=
  [pod "web-1" [("ReplicaSet", "apps/v1")]; pod "log-1" [("DaemonSet", "apps/v1")]; pod "db-1" []].

Definition wait_for (d : Z) (w : world) : option string * world :=
  if (0 <=? d) && (ticks w + d <=? horizon) then (None, mkWorld (w_live w) (ticks w + d))
  else (Some "context canceled", w).

#[export] Instance scripted : Cluster world := {
  op_get _ _ w := (match w_live w with Some o => inr o | None => inl not_found end, w);
  op_create _ o dry w := (None, if dry then w else mkWorld (Some o) (w_ns w));
  op_update _ o dry w := (None, if dry then w else mkWorld (Some o) (w_ns w));
  op_patch _ _ _ _ _ w := (None, w);
  op_delete _ _ dry w := (None, if dry then w else mkWorld None (w_ns w));
  op_mapping group kind version w := (inr (mkGVR group version "deployments", true), w);
  op_node_get _ w := (None, w);
  op_node_patch _ _ w := (None, w);
  op_list_pods _ w := (inr pods, w);
  op_evict _ name w := (if name =s "db-1" then Some too_many else None, w);
  op_now w := (reading w, w);
  op_wait := wait_for;
  op_helm_init _ w := (inr true, w);
  op_registry w := (None, w);
  op_helm_status _ w := (None, w);
  op_stat _ w := (false, w);
  op_load path w := (inr (mkChart path), w);
  op_locate ref _ w := (inr ref, w);
  op_install _ _ _ _ _ w := (None, w);
  op_upgrade _ _ _ _ _ w := (None, w);
  op_uninstall _ w := (None, w);
}.

(** Every document is the deployment of the drift example. *)
#[export] Instance decoders : Decoders := {
  ReadDocs s := ([s], None);
  UnmarshalYAML _ := inr web;
  ReadValues _ := inr ∅;
}.

Lemma reading_sane w : sane (reading w).
Proof.
  unfold sane, reading, ticks, horizon. cbn [t_sec t_nsec].
  pose proof (Z.mod_pos_bound (Z.max 0 (Z.min (w_ns w) (2 ^ 40 * Second - 1))) Second ltac:(done)).
  split; [|done]. split; [|].
  - assert (0 <= Z.max 0 (Z.min (w_ns w) (2 ^ 40 * Second - 1)) / Second) by (apply Z.div_pos; [lia|done]). lia.
  - assert (Z.max 0 (Z.min (w_ns w) (2 ^ 40 * Second - 1)) / Second < 2 ^ 40); [|lia].
    apply Z.div_lt_upper_bound; [done|]. unfold Second. lia.
Qed.

Lemma reading_instant w : instant (reading w) = unixToInternal * Second + ticks w.
Proof.
  unfold instant, reading. cbn [t_sec t_nsec].
  pose proof (Z.div_mod (ticks w) Second ltac:(done)). lia.
Qed.

#[export] Program Instance running : RunningClock world := { clock w := instant (reading w) }.
Next Obligation. intros w. cbn. split; [apply reading_sane|done]. Qed.
Next Obligation. intros ns name w. done. Qed.
Next Obligation.
  intros d w. cbn. unfold wait_for. destruct (_ && _) eqn:E; [|done]. intros _. cbn.
  apply andb_true_iff in E as [E1 E2]. bool_to_prop. rewrite !reading_instant.
  assert (ticks (mkWorld (w_live w) (ticks w + d)) = ticks w + d); [|lia].
  unfold ticks at 1. cbn. assert (0 <= ticks w) by (unfold ticks; lia). lia.
Qed.

(** Commands of the examples, and the default configuration with dry runs. *)
Definition command (verb : string) (helm : option HelmSpec) : Command :=
  {| Cmd_ID := "cmd-1"; Cmd_Nonce := "n-1"; Cmd_Timestamp := 1700000000; Cmd_Verb := verb;
     Cmd_Target := mkResourceRef "apps" "v1" "deployments" "kube-system" "node-1"; Cmd_Payload := "web";
     Cmd_PatchType := "merge"; Cmd_Helm := helm; Cmd_ExpectedHash := ""; Cmd_Override := false;
     Cmd_Signature := "" |}.

Definition start : world := mkWorld (Some web) (1700000000 * Second).

Definition trace (fuel : nat) (cmd : Command) : list event := (HandleCommand sample_config true fuel cmd start).2.

(** What was seen by an observer of the statuses only. *)
Definition statuses (tr : list event) : list string := Rep_Status <$> reports_of tr.

Example apply_statuses :
  statuses (trace 1 (command VerbApply None)) = ["validating"; "dry-run"; "applying"; "succeeded"].
Proof. vm_compute. reflexivity. Qed.

(** One of the two evictable pods goes; the other is protected by a budget until
    the stall timeout pauses the drain. *)
Example drain_pauses :
  (fun r => (Rep_Status r, Rep_Progress r)) <$> reports_of (trace (drain_fuel sample_config)
    (command VerbDrainNode None)) = [("validating", 0); ("progress", 50); ("progress", 50)].
Proof. vm_compute. reflexivity. Qed.

Definition target : scope := mkScope (mkGVR "apps" "v1" "deployments") (Some "kube-system").
Definition drain_trace : list event := trace 1 (command VerbDrainNode None).



Lemma drain_evicts_only_evictable_witness :
  drain_ok sample_config (command VerbDrainNode None) (take 5 drain_trace) (EEvict "default" "web-1" None).
Proof.
  apply (drain_evicts_only_evictable sample_config true (command VerbDrainNode None) 1 start
    (take 5 drain_trace) (EEvict "default" "web-1" None) (drop 6 drain_trace));
    [reflexivity|vm_compute; reflexivity].
Defined.

Lemma handle_command_returns_witness :
  result_of (HandleCommand sample_config true (drain_fuel sample_config) (command VerbHelmInstall None) start)
  = Crash.
Proof.
  apply (handle_command_returns sample_config true (command VerbHelmInstall None) (drain_fuel sample_config) start);
    [vm_compute; discriminate|apply Nat.le_refl].
Defined.

Definition no_delete : Config :=
  read_env (fun key => if key =s "ALLOW_DELETE" then "false" else sample_env key).

Lemma policy_not_enforced_witness :
  Validate no_delete (Some (command VerbDelete None)) <> None /\
  EDelete target "node-1" false None ∈ (HandleCommand no_delete true 1 (command VerbDelete None) start).2.
Proof.
  apply (policy_not_enforced true 1 no_delete (command VerbDelete None) start web); reflexivity.
Defined.

(** A receiver without fast path runs the delete. *)
Definition receiver : Receiver Empty_set := New sample_config None.
Definition clk (_ : nat) : Time := reading start.
Definition after : result unit * world * Receiver Empty_set :=
  run_command (PushChannel0 := ReceiverExample.no_push) true 1 receiver (command VerbDelete None) clk start.

Lemma outcome_is_queued_witness :
  (exists ll ptr, q_ll (r_queue after.2) = ll ++ [ptr] /\ Rep_CommandID (rp_val ptr) = "cmd-1" /\
     Rep_ClusterID (rp_val ptr) = ClusterID sample_config /\ isTerminal (Rep_Status (rp_val ptr)) = true) \/
  VerbDelete = VerbDrainNode.
Proof.
  apply (outcome_is_queued (PushChannel0 := ReceiverExample.no_push) true 1 receiver (command VerbDelete None)
    clk start after.1.2 after.2). vm_compute. reflexivity.
Defined.
End ScriptedCluster.
