(* ===== verification/Informers.v ===== *)
(** * internal/informers: from cluster objects to inventory events

    The table of watched resources, [Resolve], the conversion of an informer
    notification to an inventory event with secret values stripped, and the
    manager's operations over its caches.  client-go's informers are
    represented by what the manager reads of them: the content of each store
    and whether it has synced. *)

From S2P Require Import Prelude GoStrings GoTime Json Protocol Metrics Unstructured Cluster.
Local Open Scope Z_scope.

(** ** Watched resources *)

Record WatchedResource := mkWatched { w_GVR : GVR; w_Namespaced : bool; w_Secret : bool }.

Definition gvr (group version resource : string) : GVR := mkGVR group version resource.

Definition namespaced (group version resource : string) : WatchedResource :=
  mkWatched (gvr group version resource) true false.
Definition clusterwide (group version resource : string) : WatchedResource :=
  mkWatched (gvr group version resource) false false.

Definition known : gmap string WatchedResource := list_to_map [
  ("deployments", namespaced "apps" "v1" "deployments");
  ("statefulsets", namespaced "apps" "v1" "statefulsets");
  ("daemonsets", namespaced "apps" "v1" "daemonsets");
  ("replicasets", namespaced "apps" "v1" "replicasets");
  ("pods", namespaced "" "v1" "pods");
  ("services", namespaced "" "v1" "services");
  ("configmaps", namespaced "" "v1" "configmaps");
  ("secrets", mkWatched (gvr "" "v1" "secrets") true true);
  ("nodes", clusterwide "" "v1" "nodes");
  ("namespaces", clusterwide "" "v1" "namespaces");
  ("persistentvolumeclaims", namespaced "" "v1" "persistentvolumeclaims");
  ("serviceaccounts", namespaced "" "v1" "serviceaccounts");
  ("ingresses", namespaced "networking.k8s.io" "v1" "ingresses");
  ("networkpolicies", namespaced "networking.k8s.io" "v1" "networkpolicies");
  ("roles", namespaced "rbac.authorization.k8s.io" "v1" "roles");
  ("rolebindings", namespaced "rbac.authorization.k8s.io" "v1" "rolebindings");
  ("clusterroles", clusterwide "rbac.authorization.k8s.io" "v1" "clusterroles");
  ("clusterrolebindings", clusterwide "rbac.authorization.k8s.io" "v1" "clusterrolebindings");
  ("poddisruptionbudgets", namespaced "policy" "v1" "poddisruptionbudgets");
  ("certificates", namespaced "cert-manager.io" "v1" "certificates");
  ("issuers", namespaced "cert-manager.io" "v1" "issuers");
  ("clusterissuers", clusterwide "cert-manager.io" "v1" "clusterissuers")].

Definition le_name (a b : string) : Prop := String.leb a b = true.
#[export] Instance le_name_dec : RelDecision le_name.
Proof. intros a b. unfold le_name. apply _. Defined.

Definition knownNames : list string := merge_sort le_name (map_to_list known).*1.

(** The key a user-facing name stands for. *)
Definition informer_key (n : string) : string := ToLower (TrimSpace n).

Fixpoint Resolve (names : list string) : string + list WatchedResource :=
  match names with
  | [] => inr []
  | n :: rest =>
      match known !! informer_key n with
      | None => inl ("unknown informer " ^^ quoted n ^^ " (known: " ^^ Join knownNames ", " ^^ ")")
      | Some w =>
          match Resolve rest with
          | inl e => inl e
          | inr ws => inr (w :: ws)
          end
      end
  end.

(** ** Events *)

(** What an informer hands to its handlers. *)
Inductive informer_object :=
| AnObject (u : obj)
| Tombstone (o : informer_object)      (* cache.DeletedFinalStateUnknown *)
| Unexpected (type_name : string).

Section Events.
Context `{Unstructured}.

(** A string map as json.Marshal sees it: a nil map is null. *)
Definition string_map_json (m : option (gmap string string)) : json :=
  match m with
  | Some m => JObj (JStr <$> m)
  | None => JNull
  end.

(** The keys of the data field, with empty values. *)
Definition secret_keys (u : obj) : gmap string string :=
  match NestedStringMap u ["data"] with
  | Some data => (fun _ => "") <$> data
  | None =>
      match NestedMap u ["data"] with
      | Some raw => (fun _ => "") <$> raw
      | None => ∅
      end
  end.

Definition stripSecret (u : obj) : obj :=
  let typ := default "" (NestedString u ["type"]) in
  <["apiVersion" := JStr (GetAPIVersion u)]> (<["kind" := JStr (GetKind u)]>
  (<["metadata" := JObj (<["name" := JStr (GetName u)]> (<["namespace" := JStr (GetNamespace u)]>
     (<["labels" := string_map_json (GetLabels u)]> (<["annotations" := string_map_json (GetAnnotations u)]>
     {[ "creationTimestamp" := GetCreationTimestamp u ]}))))]>
  (<["type" := JStr typ]> {[ "data" := string_map_json (Some (secret_keys u)) ]}))).

(** One tombstone is unpacked, as in the code. *)
Definition unpack (o : informer_object) : informer_object :=
  match o with
  | Tombstone o' => o'
  | _ => o
  end.

Definition toEvent (op : string) (g : GVR) (o : informer_object) (secret : bool) (now : Time)
    : string + InventoryEvent :=
  match unpack o with
  | AnObject u =>
      let payload := if secret then stripSecret u else u in
      inr {| Ev_Op := op;
             Ev_Ref := mkResourceRef (gvr_group g) (gvr_version g) (gvr_resource g) (GetNamespace u) (GetName u);
             Ev_ObjectJSON := marshal_obj payload;
             Ev_Timestamp := ToUnix now |}
  | Tombstone _ => inl "unexpected object type cache.DeletedFinalStateUnknown"
  | Unexpected t => inl ("unexpected object type " ^^ t)
  end.

(** ** The manager *)

(** A started informer: its resource, the objects of its store, and whether it
    has synced. *)
Record informer := mkInformer { i_GVR : GVR; i_store : list informer_object; i_synced : bool }.

#[export] Instance GVR_eq_dec : EqDecision GVR.
Proof. solve_decision. Defined.

(** The sink is the uploader; [m_sink] is what was enqueued, in order. *)
Record Manager := mkManager {
  m_informers : list informer;
  m_secrets : GVR -> bool;
  m_lastEvent : gmap string Time;
  m_sink : list InventoryEvent;
}.

(** [served]: [disco] is the discovery client, giving the resource names of a
    group version or an error. *)
Definition served (disco : string -> string + list string) (w : WatchedResource) : bool :=
  match disco (GroupVersionString (mkGVK (gvr_group (w_GVR w)) (gvr_version (w_GVR w)) "")) with
  | inl _ => false
  | inr names => existsb (fun n => n =s gvr_resource (w_GVR w)) names
  end.

(** [New]: [added] is whether the event handler could be added. *)
Fixpoint new_loop (disco : string -> string + list string) (added : WatchedResource -> bool) (now : Time) (resources : list WatchedResource)
    (m : Manager) : Manager :=
  match resources with
  | [] => m
  | w :: rest =>
      let m :=
        if served disco w && added w then
          {| m_informers := filter (fun i => i_GVR i <> w_GVR w) (m_informers m) ++ [mkInformer (w_GVR w) [] false];
             m_secrets := fun g => if decide (g = w_GVR w) then w_Secret w else m_secrets m g;
             m_lastEvent := <[gvr_resource (w_GVR w) := now]> (m_lastEvent m);
             m_sink := m_sink m |}
        else m in
      new_loop disco added now rest m
  end.

Definition New (disco : string -> string + list string) (added : WatchedResource -> bool) (now : Time) (resources : list WatchedResource) : Manager :=
  new_loop disco added now resources (mkManager [] (fun _ => false) ∅ []).

(** The manager over other cache contents. *)
Definition with_informers (infs : list informer) (m : Manager) : Manager :=
  mkManager infs (m_secrets m) (m_lastEvent m) (m_sink m).

Definition HasSynced (m : Manager) : bool :=
  if (length (m_informers m) =? 0)%nat then false else forallb i_synced (m_informers m).

(** [handle]: an object that cannot be converted is logged and dropped. *)
Definition handle (op : string) (w : WatchedResource) (o : informer_object) (now : Time) (m : Manager) : Manager :=
  match toEvent op (w_GVR w) o (w_Secret w) now with
  | inl _ => m
  | inr ev =>
      {| m_informers := m_informers m; m_secrets := m_secrets m;
         m_lastEvent := <[gvr_resource (w_GVR w) := now]> (m_lastEvent m);
         m_sink := m_sink m ++ [ev] |}
  end.

(** The events of one store. *)
Fixpoint store_events (m : Manager) (g : GVR) (now : Time) (store : list informer_object) : list InventoryEvent :=
  match store with
  | [] => []
  | o :: rest =>
      match toEvent OpSync g o (m_secrets m g) now with
      | inl _ => store_events m g now rest
      | inr ev => ev :: store_events m g now rest
      end
  end.

(** [Snapshot], ranging over the informers in some order. *)
Definition Snapshot (m : Manager) (now : Time) : list InventoryEvent :=
  i ← m_informers m; store_events m (i_GVR i) now (i_store i).

(** [observeLag]: one observation per label, in nanoseconds. *)
Definition observeLag (m : Manager) (now : Time) (mt : Metrics) : Metrics :=
  map_fold (fun resource last mt => ObserveCacheSyncLag resource (Sub now last) mt) mt (m_lastEvent m).

End Events.

(** ** Secrets *)

Definition secrets_gvr : GVR := gvr "" "v1" "secrets".

Lemma known_secrets key w : known !! key = Some w -> w_GVR w = secrets_gvr -> w_Secret w = true.
Proof.
  intros Hk Hg.
  assert (forallb (fun e => negb (bool_decide (w_GVR e.2 = secrets_gvr)) || w_Secret e.2) (map_to_list known) = true)
    as Hall by (vm_compute; reflexivity).
  rewrite forallb_forall in Hall. specialize (Hall (key, w)).
  rewrite <- list_elem_of_In, elem_of_map_to_list in Hall. specialize (Hall Hk). cbn in Hall.
  by rewrite bool_decide_true in Hall by done.
Qed.

Lemma Resolve_known names ws w : Resolve names = inr ws -> w ∈ ws -> exists key, known !! key = Some w.
Proof.
  revert ws. induction names as [|n names IH]; intros ws Hr Hw; cbn [Resolve] in Hr; simplify_eq.
  { by apply elem_of_nil in Hw. }
  destruct (known !! informer_key n) as [w'|] eqn:Hk; [|done].
  destruct (Resolve names) as [|ws'] eqn:Hr'; [done|]. simplify_eq.
  apply elem_of_cons in Hw as [->|Hw]; eauto.
Qed.

Section Secrets.
Context `{UnstructuredLaws}.

(** Two secrets that differ at most in the values of their data. *)
Definition same_but_values (u1 u2 : obj) : Prop :=
  (forall k, k ∈ ["apiVersion"; "kind"; "metadata"; "type"] -> u1 !! k = u2 !! k) /\
  exists d1 d2 : obj, u1 !! "data" = Some (JObj d1) /\ u2 !! "data" = Some (JObj d2) /\ dom d1 = dom d2.

Lemma secret_keys_eq u d : u !! "data" = Some (JObj d) -> secret_keys u = (fun _ => "") <$> d.
Proof.
  intros Hd. unfold secret_keys. rewrite nested_string_map, nested_map, nested_cons, Hd.
  cbn [nested_value found as_obj mbind option_bind].
  destruct (string_map d) as [a|] eqn:Ha; [|done].
  apply string_map_inv in Ha. subst d. rewrite <- map_fmap_compose. done.
Qed.

Lemma const_fmap_dom (d1 d2 : obj) : dom d1 = dom d2 -> (fun _ => "") <$> d1 = (fun _ => "") <$> d2.
Proof.
  intros Hd. apply map_eq. intros k. rewrite !lookup_fmap.
  assert (is_Some (d1 !! k) <-> is_Some (d2 !! k)) as Hk by (by rewrite <- !elem_of_dom, Hd).
  destruct (d1 !! k), (d2 !! k); try done; exfalso; [destruct Hk as [Hk _]|destruct Hk as [_ Hk]];
    by destruct Hk.
Qed.

Lemma nested_agree u1 u2 k p : u1 !! k = u2 !! k -> nested u1 (k :: p) = nested u2 (k :: p).
Proof. intros Hk. by rewrite !nested_cons, Hk. Qed.

Lemma stripSecret_agree u1 u2 : same_but_values u1 u2 -> stripSecret u1 = stripSecret u2.
Proof.
  intros [Hk (d1 & d2 & Hd1 & Hd2 & Hdom)].
  assert (u1 !! "apiVersion" = u2 !! "apiVersion" /\ u1 !! "kind" = u2 !! "kind" /\
    u1 !! "metadata" = u2 !! "metadata" /\ u1 !! "type" = u2 !! "type") as (Ha & Hkind & Hm & Ht)
    by (split_and!; apply Hk; set_solver).
  unfold stripSecret. rewrite !get_api_version, !get_kind, !get_name, !get_namespace, !get_labels, !get_annotations,
    !nested_string, !nested_string_map, (get_creation_timestamp u1 u2 Hm),
    (secret_keys_eq u1 d1 Hd1), (secret_keys_eq u2 d2 Hd2), (const_fmap_dom d1 d2 Hdom).
  rewrite !(nested_agree u1 u2) by done. done.
Qed.

(** Two notifications, or two cached objects, of a resource that differ at most
    in secret values (inside a tombstone or not). *)
Definition object_agree (g : GVR) (o1 o2 : informer_object) : Prop :=
  o1 = o2 \/
  g = secrets_gvr /\ exists u1 u2, unpack o1 = AnObject u1 /\ unpack o2 = AnObject u2 /\ same_but_values u1 u2.

Definition informer_agree (i1 i2 : informer) : Prop :=
  i_GVR i1 = i_GVR i2 /\ Forall2 (object_agree (i_GVR i1)) (i_store i1) (i_store i2).

Lemma toEvent_agree op g o1 o2 flag now :
  object_agree g o1 o2 -> (g = secrets_gvr -> flag = true) -> toEvent op g o1 flag now = toEvent op g o2 flag now.
Proof.
  intros [->|(Hg & u1 & u2 & Ho1 & Ho2 & Hs)] Hf; [done|]. rewrite (Hf Hg). unfold toEvent.
  rewrite Ho1, Ho2, (stripSecret_agree u1 u2 Hs).
  destruct Hs as [Hk _]. assert (u1 !! "metadata" = u2 !! "metadata") as Hm by (apply Hk; set_solver).
  by rewrite !get_name, !get_namespace, !nested_string, !(nested_agree u1 u2).
Qed.

Lemma store_events_agree m1 m2 g now s1 s2 :
  m_secrets m1 = m_secrets m2 -> (g = secrets_gvr -> m_secrets m1 g = true) ->
  Forall2 (object_agree g) s1 s2 -> store_events m1 g now s1 = store_events m2 g now s2.
Proof.
  intros Hm Hf. induction 1 as [|o1 o2 s1 s2 Ho _ IH]; [done|]. cbn [store_events].
  rewrite <- Hm, (toEvent_agree OpSync g o1 o2) by done. destruct (toEvent _ _ _ _ _); by rewrite IH.
Qed.

(** An informer for secrets is registered with the flag of the table. *)
Definition flagged (m : Manager) : Prop :=
  forall i, i ∈ m_informers m -> i_GVR i = secrets_gvr -> m_secrets m secrets_gvr = true.

Lemma Snapshot_agree m1 m2 now :
  m_secrets m1 = m_secrets m2 -> flagged m1 -> Forall2 informer_agree (m_informers m1) (m_informers m2) ->
  Snapshot m1 now = Snapshot m2 now.
Proof.
  unfold flagged, Snapshot. intros Hm Hf H2. revert Hf.
  induction H2 as [|i1 i2 l1 l2 [Hg Hs] _ IH]; intros Hf; [done|]. cbn [mbind list_bind].
  rewrite IH by (intros; eapply Hf; [by right|done]). rewrite <- Hg.
  rewrite (store_events_agree m1 m2 (i_GVR i1) now (i_store i1) (i_store i2)); [done|done| |done].
  intros Hi. rewrite Hi. apply (Hf i1); [by left|done].
Qed.

Lemma new_loop_flagged disco added now resources m :
  (forall w, w ∈ resources -> w_GVR w = secrets_gvr -> w_Secret w = true) ->
  flagged m -> flagged (new_loop disco added now resources m).
Proof.
  revert m. induction resources as [|w rest IH]; intros m Hall Hm; cbn [new_loop]; [done|].
  apply IH; [intros; apply Hall; [by right|done]|]. destruct (served disco w && added w); [|done].
  intros i Hi Hg. cbn in *. destruct (decide (secrets_gvr = w_GVR w)) as [Hw|Hw]; [apply Hall; [by left|done]|].
  apply elem_of_app in Hi as [Hi|Hi].
  - apply list_elem_of_filter in Hi as [_ Hi]. by apply (Hm i).
  - apply list_elem_of_singleton in Hi as ->. by destruct Hw.
Qed.

Lemma Resolve_flags names ws :
  Resolve names = inr ws -> forall w, w ∈ ws -> w_GVR w = secrets_gvr -> w_Secret w = true.
Proof. intros Hr w Hw Hg. destruct (Resolve_known _ _ _ Hr Hw) as [key Hk]. by eapply known_secrets. Qed.

(** C23. Values of secrets never leave the cluster: for every informer
    configuration that resolves, two notifications that differ only in the
    values under the data keys of a secret are handled alike, and two cache
    contents of the manager that differ only in such values give the same
    snapshot; so no event the agent uploads depends on a data value. *)
Theorem secret_values_never_leave names ws disco added start now :
  Resolve names = inr ws ->
  (forall op w o1 o2 m, w ∈ ws -> object_agree (w_GVR w) o1 o2 -> handle op w o1 now m = handle op w o2 now m) /\
  (forall infs1 infs2, i_GVR <$> infs1 = i_GVR <$> m_informers (New disco added start ws) ->
     Forall2 informer_agree infs1 infs2 ->
     Snapshot (with_informers infs1 (New disco added start ws)) now
     = Snapshot (with_informers infs2 (New disco added start ws)) now).
Proof.
  intros Hr. pose proof (Resolve_flags _ _ Hr) as Hflag. split.
  - intros op w o1 o2 m Hw Ho. unfold handle. by rewrite (toEvent_agree op (w_GVR w) o1 o2) by auto.
  - intros infs1 infs2 Hg H2.
    assert (flagged (with_informers infs1 (New disco added start ws))) as Hf.
    { intros i Hi Hi'. cbn in *. assert (i_GVR i ∈ i_GVR <$> infs1) as Hin by (by apply list_elem_of_fmap_2).
      rewrite Hg in Hin. apply list_elem_of_fmap in Hin as (j & Hj & Hin).
      eapply (new_loop_flagged disco added start ws); [done|intros ? []%not_elem_of_nil|exact Hin|congruence]. }
    by apply Snapshot_agree.
Qed.

(** Annotations of a secret are uploaded unchanged: in particular a secret
    created with kubectl apply carries its whole manifest, data included, in
    the last-applied-configuration annotation, and that text is part of the
    payload. *)
Theorem annotations_of_secrets_leave u a key text :
  GetAnnotations u = Some a -> a !! key = Some text ->
  nested (stripSecret u) ["metadata"; "annotations"; key] = Found (JStr text).
Proof.
  intros Ha Hk. unfold stripSecret. rewrite Ha. rewrite nested_cons.
  rewrite !lookup_insert_ne, lookup_insert_eq by done. cbn [nested_value].
  rewrite !lookup_insert_ne, lookup_insert_eq by done. cbn [nested_value string_map_json].
  by rewrite lookup_fmap, Hk.
Qed.
End Secrets.

Module InformersExample.
Import ReferenceUnstructured.

Definition last_applied : string := "kubectl.kubernetes.io/last-applied-configuration".
Definition secret (value : string) : obj :=
  <["kind" := JStr "Secret"]> (<["metadata" := JObj (<["name" := JStr "db"]>
    {[ "annotations" := JObj {[ last_applied := JStr "data: czNjcjN0" ]} ]})]>
  {[ "data" := JObj {[ "password" := JStr value ]} ]}).

Definition discovery (gv : string) : string + list string :=
  if gv =s "v1" then inr ["configmaps"; "secrets"] else inl "the server could not find the requested resource".
Definition watched : WatchedResource := mkWatched secrets_gvr true true.

Definition cached (value : string) : list informer := [mkInformer secrets_gvr [AnObject (secret value)] true].
Definition start : Time := Unix 1700000000.

Lemma secrets_agree g : g = secrets_gvr -> object_agree g (AnObject (secret "czNjcjN0")) (AnObject (secret "b3RoZXI=")).
Proof.
  intros Hg. right. split; [exact Hg|]. exists (secret "czNjcjN0"), (secret "b3RoZXI=").
  do 2 (split; [reflexivity|]). split; [|by eexists _, _].
  intros k Hk. repeat (apply elem_of_cons in Hk as [->|Hk]; [reflexivity|]). by apply elem_of_nil in Hk.
Qed.

Lemma secret_values_never_leave_witness :
  handle OpAdd watched (AnObject (secret "czNjcjN0")) start (New discovery (fun _ => true) start [watched])
  = handle OpAdd watched (AnObject (secret "b3RoZXI=")) start (New discovery (fun _ => true) start [watched]) /\
  Snapshot (with_informers (cached "czNjcjN0") (New discovery (fun _ => true) start [watched])) start
  = Snapshot (with_informers (cached "b3RoZXI=") (New discovery (fun _ => true) start [watched])) start.
Proof.
  destruct (secret_values_never_leave [" Secrets "] [watched] discovery (fun _ => true) start start)
    as [Hh Hs]; [vm_compute; reflexivity|]. split.
  - apply Hh; [by left|]. by apply secrets_agree.
  - apply Hs; [vm_compute; reflexivity|]. apply Forall2_cons. split; [|by apply Forall2_nil].
    split; [reflexivity|]. apply Forall2_cons. split; [by apply secrets_agree|by apply Forall2_nil].
Defined.

Example snapshot_has_event :
  length (Snapshot (with_informers (cached "czNjcjN0") (New discovery (fun _ => true) start [watched])) start) = 1%nat.
Proof. vm_compute. reflexivity. Qed.

Lemma annotations_of_secrets_leave_witness :
  nested (stripSecret (secret "czNjcjN0")) ["metadata"; "annotations"; last_applied]
  = Found (JStr "data: czNjcjN0").
Proof.
  apply (annotations_of_secrets_leave (secret "czNjcjN0") {[ last_applied := "data: czNjcjN0" ]}); reflexivity.
Defined.
End InformersExample.
