(* ===== verification/Inventory.v ===== *)
(** * The server's view of the cluster

    Informers, uploader and the inventory endpoint together.  Objects change in
    the informers' stores and the handlers are told ([Informers.handle]); what
    they enqueue, the loop of [UploadSystem] sends; the server applies batches as
    SERVER.md says: last write wins per object reference, [delete] removes the
    row, unknown ops are skipped, and nothing is pruned.  [view_converges]: as
    long as the spill file is not needed, whatever else fails, the table and what is
    on its way together are always the content of the informer caches.
    [stale_after_overflow]: once it is, the table can stay behind with nothing
    failing at all. *)

From S2P Require Import Prelude GoStrings GoTime Json Protocol Config Metrics Unstructured Cluster Uploader UploadSystem Informers.
From Stdlib Require Import Permutation.
Local Open Scope Z_scope.

#[export] Instance ResourceRef_countable : Countable ResourceRef.
Proof.
  refine (inj_countable' (fun r => (Ref_Group r, Ref_Version r, Ref_Resource r, Ref_Namespace r, Ref_Name r))
    (fun '(g, v, r, ns, n) => mkResourceRef g v r ns n) _).
  by intros [].
Defined.

(** ** The inventory table *)

(** The object JSON stored per reference. *)
Abbreviation table := (gmap ResourceRef string).

Definition apply_event (t : table) (ev : InventoryEvent) : table :=
  if decide (Ev_Op ev ∈ [OpSync; OpAdd; OpUpdate]) then <[Ev_Ref ev := Ev_ObjectJSON ev]> t
  else if Ev_Op ev =s OpDelete then delete (Ev_Ref ev) t
  else t.

Definition apply_events (t : table) (evs : list InventoryEvent) : table := foldl apply_event t evs.

(** What an event leaves under a reference, if it is about it: [Some None] is a
    removed row. *)
Definition write_of (ref : ResourceRef) (ev : InventoryEvent) : option (option string) :=
  if decide (Ev_Ref ev = ref) then
    if decide (Ev_Op ev ∈ [OpSync; OpAdd; OpUpdate]) then Some (Some (Ev_ObjectJSON ev))
    else if Ev_Op ev =s OpDelete then Some None
    else None
  else None.

(** The last of them. *)
Fixpoint writes (ref : ResourceRef) (evs : list InventoryEvent) : option (option string) :=
  match evs with
  | [] => None
  | ev :: evs => match writes ref evs with Some v => Some v | None => write_of ref ev end
  end.

Lemma write_of_other ref ev : Ev_Ref ev <> ref -> write_of ref ev = None.
Proof. intros Hne. unfold write_of. by rewrite decide_False. Qed.

Lemma apply_event_lookup t ev ref : apply_event t ev !! ref = default (t !! ref) (write_of ref ev).
Proof.
  unfold apply_event, write_of. destruct (decide (Ev_Ref ev = ref)) as [<-|Hne];
    destruct (decide (Ev_Op ev ∈ _)); [| destruct (_ =s _)| |destruct (_ =s _)]; by simplify_map_eq.
Qed.

Lemma apply_lookup t evs ref : apply_events t evs !! ref = default (t !! ref) (writes ref evs).
Proof.
  revert t. induction evs as [|ev evs IH]; intros t; cbn [apply_events foldl writes]; [done|].
  fold (apply_events (apply_event t ev) evs). rewrite IH, apply_event_lookup. by destruct (writes ref evs).
Qed.

Lemma writes_app ref l1 l2 :
  writes ref (l1 ++ l2) = match writes ref l2 with Some v => Some v | None => writes ref l1 end.
Proof. induction l1 as [|ev l1 IH]; cbn [app writes]; [by destruct (writes ref l2)|]. rewrite IH. by destruct (writes ref l2). Qed.

Lemma writes_None ref evs : Forall (fun ev => Ev_Ref ev <> ref) evs -> writes ref evs = None.
Proof. induction 1 as [|ev evs Hne _ IH]; cbn [writes]; [done|]. rewrite IH. by apply write_of_other. Qed.

Lemma writes_about ref evs v : writes ref evs = Some v -> exists ev, ev ∈ evs /\ write_of ref ev = Some v.
Proof.
  induction evs as [|ev evs IH]; cbn [writes]; [done|]. destruct (writes ref evs) as [v'|].
  - intros [= ->]. destruct (IH eq_refl) as (ev' & ? & ?). exists ev'. split; [by right|done].
  - intros Hw. exists ev. split; [by left|done].
Qed.

(** Applying a batch again changes nothing once it is to be applied anyway. *)
Lemma apply_again t evs rest : apply_events (apply_events t evs) (evs ++ rest) = apply_events t (evs ++ rest).
Proof.
  apply map_eq. intros ref. rewrite !apply_lookup, writes_app.
  destruct (writes ref rest); [done|]. by destruct (writes ref evs).
Qed.

Lemma apply_app t l1 l2 : apply_events t (l1 ++ l2) = apply_events (apply_events t l1) l2.
Proof. apply foldl_app. Qed.

(** The server gets every acknowledged batch; of the others some arrive, and only
    the acknowledgement is lost.  A batch that arrives does so before the next one
    is sent. *)
Inductive received : table -> log -> table -> Prop :=
| rc_nil t : received t [] t
| rc_applied t b ok l t' : received (apply_events t (Batch_Events b)) l t' -> received t ((b, ok) :: l) t'
| rc_lost t b l t' : received t l t' -> received t ((b, false) :: l) t'.

Lemma received_about t l t' (evs : list InventoryEvent) ref :
  received t l t' -> Forall (fun e => forall ev, ev ∈ Batch_Events e.1 -> ev ∈ evs) l ->
  t' !! ref = t !! ref \/ exists ev, ev ∈ evs /\ write_of ref ev = Some (t' !! ref).
Proof.
  induction 1 as [t|t b ok l t' _ IH|t b l t' _ IH]; intros Hl; [by left| |].
  - inversion_clear Hl as [|?? Hb Hl']. destruct (IH Hl') as [->|]; [|by right].
    rewrite apply_lookup. destruct (writes ref (Batch_Events b)) as [v|] eqn:Hw; [|by left].
    apply writes_about in Hw as (ev & Hev & Hw). right. exists ev. split; [by apply Hb|done].
  - inversion_clear Hl. by apply IH.
Qed.

Section Inventory.
Context `{Unstructured} `{EventCodec} {codable : InventoryEvent -> Prop} `{!EventCodecLaws codable}.
Context (policy : log -> InventoryBatch -> bool) (cfg : Config) (ws : list WatchedResource).
(** What the file system may do. *)
Context (may : files -> Prop).

(** ** The stores and their handlers *)

(** The key of a store (MetaNamespaceKeyFunc). *)
Definition obj_key (o : informer_object) : option (string * string) :=
  match unpack o with AnObject u => Some (GetNamespace u, GetName u) | _ => None end.

Definition others (k : string * string) (st : list informer_object) : list informer_object :=
  filter (fun o => obj_key o <> Some k) st.

(** A call of a handler that [New] added. *)
Record notification := mkNotification { no_op : string; no_w : WatchedResource; no_obj : informer_object }.

(** A store changes, in whatever order it lists its objects, and its handler is to
    be told. *)
Inductive cache_change : Manager -> notification -> Manager -> Prop :=
| cc_put m w i1 i2 st st' sy sy' op u :
    w ∈ ws -> m_informers m = i1 ++ mkInformer (w_GVR w) st sy :: i2 -> op ∈ [OpAdd; OpUpdate] ->
    st' ≡ₚ AnObject u :: others (GetNamespace u, GetName u) st ->
    cache_change m (mkNotification op w (AnObject u)) (with_informers (i1 ++ mkInformer (w_GVR w) st' sy' :: i2) m)
| cc_delete m w i1 i2 st st' sy sy' o u :
    w ∈ ws -> m_informers m = i1 ++ mkInformer (w_GVR w) st sy :: i2 -> unpack o = AnObject u ->
    st' ≡ₚ others (GetNamespace u, GetName u) st ->
    cache_change m (mkNotification OpDelete w o) (with_informers (i1 ++ mkInformer (w_GVR w) st' sy' :: i2) m).

(** What the handler enqueues. *)
Definition events_of (now : Time) (n : notification) : list InventoryEvent :=
  match toEvent (no_op n) (w_GVR (no_w n)) (no_obj n) (w_Secret (no_w n)) now with inr ev => [ev] | inl _ => [] end.

(** The content of the caches: what a snapshot would send. *)
Definition inventory (m : Manager) : table :=
  list_to_map ((fun ev => (Ev_Ref ev, Ev_ObjectJSON ev)) <$> Snapshot m (Unix 0)).

(** ** The pipeline *)

Record pipeline := mkPipeline {
  pl_m : Manager;
  pl_pending : list notification;   (* handlers still to be called, in order *)
  pl_y : system;
  pl_table : table;                 (* at the server *)
}.

(** Handlers of one resource are called in order; a snapshot reads the caches at
    one instant. *)
Definition enqueue_list (io : spill_io) (evs : list InventoryEvent) (y : system) : system :=
  foldl (fun y ev => enqueue io ev y) y evs.

Inductive istep : pipeline -> pipeline -> Prop :=
| is_change m n m' p y t :
    cache_change m n m' -> istep (mkPipeline m p y t) (mkPipeline m' (p ++ [n]) y t)
| is_handle fs m p1 n p2 now y t evs :
    may fs -> Forall (fun n' => w_GVR (no_w n') <> w_GVR (no_w n)) p1 ->
    m_sink (handle (no_op n) (no_w n) (no_obj n) now m) = m_sink m ++ evs ->
    Forall (spillable (codable:=codable)) evs ->
    istep (mkPipeline m (p1 ++ n :: p2) y t)
      (mkPipeline (handle (no_op n) (no_w n) (no_obj n) now m) (p1 ++ p2) (enqueue_list (fs_spill fs) evs y) t)
| is_loop m p y y' t t' now snap l :
    snap ≡ₚ Snapshot m now -> loop_step policy cfg may snap y y' -> y_log y' = y_log y ++ l -> received t l t' ->
    istep (mkPipeline m p y t) (mkPipeline m p y' t').

(** A fresh agent over an empty spill file, and whatever table the server has. *)
Definition pipeline_start (disco : string -> string + list string) (added : WatchedResource -> bool) (now : Time)
    (capacity : Z) (seqfile : option string) (t0 : table) : pipeline :=
  mkPipeline (New disco added now ws) [] (initial capacity [] seqfile) t0.

(** Events on their way to the table: in flight, buffered, and about to be
    enqueued. *)
Definition waiting (s : pipeline) : list InventoryEvent :=
  y_flight (pl_y s) ++ u_buf (y_u (pl_y s)) ++ (pl_pending s ≫= events_of (Unix 0)).

(** The references this agent has ever been told about. *)
Definition touched (s : pipeline) : list ResourceRef :=
  Ev_Ref <$> y_in (pl_y s) ++ (pl_pending s ≫= events_of (Unix 0)).

Definition expected (t0 : table) (s : pipeline) : table :=
  inventory (pl_m s) ∪ filter (fun e => e.1 ∉ touched s) t0.

(** ** Rows of the caches *)

Definition obj_ref (g : GVR) (u : obj) : ResourceRef :=
  mkResourceRef (gvr_group g) (gvr_version g) (gvr_resource g) (GetNamespace u) (GetName u).
Definition payload (secret : bool) (u : obj) : string := marshal_obj (if secret then stripSecret u else u).

Definition row (secret : bool) (g : GVR) (o : informer_object) : option (ResourceRef * string) :=
  match unpack o with AnObject u => Some (obj_ref g u, payload secret u) | _ => None end.

Definition ev_row (ev : InventoryEvent) : ResourceRef * string := (Ev_Ref ev, Ev_ObjectJSON ev).

Definition rows_in (flag : GVR -> bool) (infs : list informer) : list (ResourceRef * string) :=
  i ← infs; omap (row (flag (i_GVR i)) (i_GVR i)) (i_store i).
Definition rows (m : Manager) : list (ResourceRef * string) := rows_in (m_secrets m) (m_informers m).

Lemma Snapshot_rows m now : ev_row <$> Snapshot m now = rows m.
Proof.
  unfold Snapshot, rows, rows_in. induction (m_informers m) as [|i infs IHm]; [done|].
  rewrite !bind_cons, fmap_app, IHm. f_equal. clear IHm. induction (i_store i) as [|o st IH]; cbn [store_events omap list_omap]; [done|].
  unfold row at 1. unfold toEvent. destruct (unpack o) as [u| |]; [|exact IH..]. rewrite <- IH. done.
Qed.

Lemma inventory_rows m : inventory m = list_to_map (rows m).
Proof. unfold inventory. by rewrite <- (Snapshot_rows m (Unix 0)). Qed.

Lemma row_ref secret g o r : row secret g o = Some r -> exists u, unpack o = AnObject u /\ r.1 = obj_ref g u.
Proof. unfold row. destruct (unpack o) as [u| |]; [|done..]. intros [= <-]. by eexists. Qed.

Lemma obj_ref_inj g g' u u' :
  obj_ref g u = obj_ref g' u' -> g = g' /\ (GetNamespace u, GetName u) = (GetNamespace u', GetName u').
Proof. destruct g, g'. unfold obj_ref. cbn. intros [= -> -> -> -> ->]. done. Qed.

(** Rows but for one reference. *)
Abbreviation without ref := (filter (fun r : ResourceRef * string => r.1 <> ref)).

Lemma rows_others secret g st u :
  without (obj_ref g u) (omap (row secret g) st) = omap (row secret g) (others (GetNamespace u, GetName u) st).
Proof.
  induction st as [|o st IH]; [done|]. unfold others in *. cbn [omap list_omap]. rewrite filter_cons.
  destruct (row secret g o) as [r|] eqn:Hr.
  - pose proof (row_ref _ _ _ _ Hr) as (u' & Hu & Hr1). rewrite filter_cons, Hr1. unfold obj_key. rewrite Hu.
    destruct (decide (obj_ref g u' = obj_ref g u)) as [He|Hne].
    + apply obj_ref_inj in He as [_ He]. by rewrite !decide_False by (intros Hn; apply Hn; unfold obj_ref; congruence).
    + rewrite !decide_True; [|intros [= Hns Hn]; apply Hne; unfold obj_ref; congruence|done].
      cbn [omap list_omap]. by rewrite Hr, IH.
  - destruct (decide _); [|done]. cbn [omap list_omap]. by rewrite Hr.
Qed.


Lemma without_id ref (l : list (ResourceRef * string)) : Forall (fun r => r.1 <> ref) l -> without ref l = l.
Proof. induction 1 as [|r l Hr _ IH]; [done|]. by rewrite filter_cons, decide_True, IH. Qed.

Lemma rows_elsewhere flag infs g u :
  g ∉ i_GVR <$> infs -> without (obj_ref g u) (rows_in flag infs) = rows_in flag infs.
Proof.
  intros Hg. apply without_id, Forall_forall. intros r Hr. apply list_elem_of_bind in Hr as (i & Hr & Hi).
  apply list_elem_of_omap in Hr as (o & _ & Hr). apply row_ref in Hr as (u' & _ & ->).
  intros [<- _]%obj_ref_inj. by apply Hg, list_elem_of_fmap_2.
Qed.

Lemma list_to_map_without ref (l : list (ResourceRef * string)) :
  list_to_map (without ref l) = delete ref (list_to_map l : table).
Proof.
  induction l as [|[k v] l IH]; [symmetry; apply delete_empty|].
  rewrite filter_cons, list_to_map_cons. case_decide as Hk; cbn [fst] in Hk.
  - rewrite list_to_map_cons, IH. by apply insert_delete_ne.
  - subst k. by rewrite delete_insert_eq.
Qed.

(** The manager as [New] registered its handlers. *)
Record registered (m : Manager) : Prop := {
  rg_distinct : NoDup (i_GVR <$> m_informers m);
  rg_secrets : forall w, w ∈ ws -> w_GVR w ∈ i_GVR <$> m_informers m -> m_secrets m (w_GVR w) = w_Secret w;
  rg_rows : NoDup (rows m).*1;
}.

Lemma rows_split flag i1 g st sy i2 u :
  NoDup (i_GVR <$> i1 ++ mkInformer g st sy :: i2) ->
  without (obj_ref g u) (rows_in flag (i1 ++ mkInformer g st sy :: i2))
  = rows_in flag i1 ++ omap (row (flag g) g) (others (GetNamespace u, GetName u) st) ++ rows_in flag i2.
Proof.
  rewrite fmap_app, fmap_cons. cbn [i_GVR]. intros (_ & Hd & Hn)%NoDup_app. apply NoDup_cons in Hn as [Hn _].
  unfold rows_in. rewrite bind_app, bind_cons, !filter_app. cbn [i_GVR i_store].
  fold (rows_in flag i1) (rows_in flag i2). rewrite rows_others, !rows_elsewhere; [done|done|].
  intros Hin. apply (Hd _ Hin). by left.
Qed.

(** A store change is the write its notification stands for. *)
Lemma cache_change_rows m n m' :
  registered m -> cache_change m n m' ->
  exists ev, events_of (Unix 0) n = [ev] /\
    ((Ev_Op ev ∈ [OpSync; OpAdd; OpUpdate] /\ rows m' ≡ₚ ev_row ev :: without (Ev_Ref ev) (rows m)) \/
     (Ev_Op ev = OpDelete /\ rows m' ≡ₚ without (Ev_Ref ev) (rows m))).
Proof.
  intros [Hd Hs _] Hc. destruct Hc as [m w i1 i2 st st' sy sy' op u Hw Hm Hop Hst|m w i1 i2 st st' sy sy' o u Hw Hm Ho Hst];
    unfold events_of, toEvent; cbn [no_op no_w no_obj unpack]; rewrite ?Ho; (eexists; split; [done|]); cbn [Ev_Op Ev_Ref];
    fold (obj_ref (w_GVR w) u); unfold rows; rewrite Hm in *; cbn [m_secrets m_informers with_informers];
    rewrite (rows_split _ _ _ _ _ _ _ Hd); unfold rows_in; rewrite bind_app, bind_cons; cbn [i_GVR i_store];
    fold (rows_in (m_secrets m) i1) (rows_in (m_secrets m) i2); [left|right]; (split; [by set_solver|]); rewrite Hst.
  - cbn [omap list_omap]. unfold row at 1. cbn [unpack].
    rewrite Hs by (done || rewrite fmap_app, fmap_cons; set_solver). cbn [app].
    unfold ev_row. cbn [Ev_Ref Ev_ObjectJSON]. symmetry. apply Permutation_middle.
  - done.
Qed.

Lemma registered_change m n m' : registered m -> cache_change m n m' -> registered m'.
Proof.
  intros Hr Hc. pose proof (cache_change_rows _ _ _ Hr Hc) as (ev & _ & Hrows). destruct Hr as [Hd Hs Hn].
  assert (i_GVR <$> m_informers m' = i_GVR <$> m_informers m /\ m_secrets m' = m_secrets m) as [Hg Hsec].
  { destruct Hc as [m w i1 i2 st st' sy sy' op u Hw Hm Hop Hst|m w i1 i2 st st' sy sy' o u Hw Hm Ho Hst];
      cbn; rewrite Hm, !fmap_app, !fmap_cons; done. }
  split; rewrite ?Hg, ?Hsec; [done|done|].
  assert (NoDup (without (Ev_Ref ev) (rows m)).*1) as Hn'.
  { eapply sublist_NoDup; [exact Hn|]. apply fmap_sublist, sublist_filter. }
  destruct Hrows as [[_ ->]|[_ ->]]; [|done]. cbn. apply NoDup_cons. split; [|done].
  intros (r & Hr & Hin)%list_elem_of_fmap. by apply list_elem_of_filter in Hin as [Hne _].
Qed.

Lemma inventory_change m n m' :
  registered m -> cache_change m n m' ->
  inventory m' = apply_events (inventory m) (events_of (Unix 0) n).
Proof.
  intros Hr Hc. pose proof (registered_change _ _ _ Hr Hc) as [_ _ Hn'].
  destruct (cache_change_rows _ _ _ Hr Hc) as (ev & -> & Hrows). rewrite !inventory_rows. cbn [apply_events foldl].
  unfold apply_event. destruct Hrows as [[Hop Hp]|[Hop Hp]]; rewrite (list_to_map_proper _ _ Hn' Hp).
  - rewrite decide_True by done. unfold ev_row. by rewrite list_to_map_cons, list_to_map_without, insert_delete_eq.
  - rewrite Hop, decide_False by (by rewrite !elem_of_cons, elem_of_nil; intros [|[|[|]]]). apply list_to_map_without.
Qed.

(** ** Notifications and their events *)

Definition ref_GVR (r : ResourceRef) : GVR := mkGVR (Ref_Group r) (Ref_Version r) (Ref_Resource r).

Lemma events_GVR now n ev : ev ∈ events_of now n -> ref_GVR (Ev_Ref ev) = w_GVR (no_w n).
Proof.
  unfold events_of, toEvent. destruct (unpack _) as [u| |]; [|by intros ?%elem_of_nil..].
  intros ->%list_elem_of_singleton. by destruct (w_GVR (no_w n)).
Qed.

(** The time of an event is of no account here. *)
Lemma events_refs now now' n : Ev_Ref <$> events_of now n = Ev_Ref <$> events_of now' n.
Proof. unfold events_of, toEvent. by destruct (unpack _). Qed.
Lemma events_writes now now' n ref : writes ref (events_of now n) = writes ref (events_of now' n).
Proof. unfold events_of, toEvent. by destruct (unpack _). Qed.

Lemma handle_events now n m :
  let m' := handle (no_op n) (no_w n) (no_obj n) now m in
  m_sink m' = m_sink m ++ events_of now n /\ m_informers m' = m_informers m /\ m_secrets m' = m_secrets m.
Proof. unfold handle, events_of. destruct (toEvent _ _ _ _ _); cbn; by rewrite ?app_nil_r. Qed.

Lemma writes_comm ref l1 l2 :
  (forall e1 e2, e1 ∈ l1 -> e2 ∈ l2 -> Ev_Ref e1 <> Ev_Ref e2) -> writes ref (l1 ++ l2) = writes ref (l2 ++ l1).
Proof.
  intros Hd. rewrite !writes_app. destruct (writes ref l1) as [v1|] eqn:H1, (writes ref l2) as [v2|] eqn:H2; try done.
  apply writes_about in H1 as (e1 & Hin1 & Hw1), H2 as (e2 & Hin2 & Hw2). exfalso. apply (Hd e1 e2 Hin1 Hin2).
  unfold write_of in *. by repeat case_decide; subst.
Qed.

Lemma enqueue_all io evs y :
  let y' := enqueue_list io evs y in
  y_flight y' = y_flight y /\ y_in y' = y_in y ++ evs /\
  (y_spilled y' = false -> y_spilled y = false /\ u_buf (y_u y') = u_buf (y_u y) ++ evs).
Proof.
  unfold enqueue_list. revert y. induction evs as [|ev evs IH]; intros y; cbn [foldl]; [by rewrite !app_nil_r|].
  destruct (IH (enqueue io ev y)) as (-> & -> & Hsp). cbn [enqueue y_flight y_in]. rewrite <- app_assoc.
  split_and!; [done..|]. intros Hf. destruct (Hsp Hf) as [[Hs Hfull]%orb_false_iff ->]. split; [done|].
  unfold full in Hfull. apply negb_false_iff in Hfull. cbn [enqueue y_u]. unfold Enqueue. rewrite Hfull.
  cbn [signal set_depth set_buf set_umetrics u_buf]. by rewrite <- app_assoc.
Qed.

Lemma enqueue_all_reach fs evs y :
  may fs -> Forall (spillable (codable:=codable)) evs ->
  rtc (step (codable:=codable) policy cfg may) y (enqueue_list (fs_spill fs) evs y).
Proof.
  intros Hfs Hall. unfold enqueue_list. revert y. induction Hall as [|ev evs Hev _ IH]; intros y; [apply rtc_refl|].
  eapply rtc_l; [by apply sy_enqueue|]. apply IH.
Qed.

(** ** The invariant *)

Lemma leftover_lookup (t0 : table) (l : list ResourceRef) ref :
  filter (fun e => e.1 ∉ l) t0 !! ref = if decide (ref ∈ l) then None else t0 !! ref.
Proof.
  rewrite map_lookup_filter. destruct (t0 !! ref) as [v|]; cbn [mbind option_bind]; [|by case_decide].
  case_guard as Hg; case_decide; cbn in *; done.
Qed.

Lemma expected_lookup t0 s ref :
  expected t0 s !! ref = match inventory (pl_m s) !! ref with
                         | Some v => Some v
                         | None => if decide (ref ∈ touched s) then None else t0 !! ref
                         end.
Proof. unfold expected. rewrite lookup_union, leftover_lookup. by destruct (inventory _ !! ref), (decide _), (t0 !! ref). Qed.

Section Invariant.
Context (capacity : Z) (seqfile : option string) (t0 : table).

Record sound (s : pipeline) : Prop := {
  so_reach : rtc (step (codable:=codable) policy cfg may) (initial capacity [] seqfile) (pl_y s);
  so_registered : registered (pl_m s);
  so_touched : forall ref, is_Some (inventory (pl_m s) !! ref) -> ref ∈ touched s;
  so_view : y_spilled (pl_y s) = false -> apply_events (pl_table s) (waiting s) = expected t0 s;
}.

Lemma sound_change m n m' p y t :
  cache_change m n m' -> sound (mkPipeline m p y t) -> sound (mkPipeline m' (p ++ [n]) y t).
Proof.
  intros Hc [Hr Hg Ht Hv]. cbn [pl_m pl_y pl_table] in *.
  pose proof (inventory_change _ _ _ Hg Hc) as Hinv. destruct (cache_change_rows _ _ _ Hg Hc) as (ev & Hev & Hop).
  assert (touched (mkPipeline m' (p ++ [n]) y t) = touched (mkPipeline m p y t) ++ [Ev_Ref ev]) as Htouch.
  { unfold touched. cbn [pl_y pl_pending]. by rewrite bind_app, bind_cons, Hev, app_assoc, fmap_app. }
  assert (waiting (mkPipeline m' (p ++ [n]) y t) = waiting (mkPipeline m p y t) ++ [ev]) as Hwait.
  { unfold waiting. cbn [pl_y pl_pending]. by rewrite bind_app, bind_cons, Hev, <- !app_assoc. }
  rewrite Hev in Hinv. cbn [apply_events foldl] in Hinv.
  assert (exists v, write_of (Ev_Ref ev) ev = Some v) as (v & Hw).
  { unfold write_of. rewrite decide_True by done. destruct Hop as [[Hop _]|[-> _]]; [by rewrite decide_True; eauto|].
    case_decide; by eauto. }
  split; cbn [pl_m pl_y pl_table]; [done|by eapply registered_change| |].
  - intros ref. rewrite Htouch, elem_of_app, list_elem_of_singleton, Hinv, apply_event_lookup.
    destruct (decide (Ev_Ref ev = ref)) as [->|Hne]; [by right|]. rewrite write_of_other by done. left. by apply Ht.
  - intros Hsp. rewrite Hwait, apply_app, (Hv Hsp). cbn [apply_events foldl]. apply map_eq. intros ref.
    rewrite apply_event_lookup, !expected_lookup, Htouch. cbn [pl_m]. rewrite Hinv, apply_event_lookup.
    destruct (decide (Ev_Ref ev = ref)) as [<-|Hne].
    + rewrite Hw. destruct v; [done|]. cbn. by rewrite decide_True by set_solver.
    + rewrite write_of_other by done. cbn [default].
      destruct (inventory m !! ref); [done|]. by apply decide_ext; rewrite elem_of_app, list_elem_of_singleton; naive_solver.
Qed.

(** Two states with the same caches and the same references. *)
Lemma expected_ext s s' :
  inventory (pl_m s) = inventory (pl_m s') -> (forall ref, ref ∈ touched s <-> ref ∈ touched s') ->
  expected t0 s = expected t0 s'.
Proof.
  intros Hi Ht. apply map_eq. intros ref. rewrite !expected_lookup, Hi. destruct (inventory _ !! ref); [done|].
  by apply decide_ext.
Qed.

Lemma sound_handle fs m p1 n p2 now y t evs :
  may fs -> Forall (fun n' => w_GVR (no_w n') <> w_GVR (no_w n)) p1 ->
  m_sink (handle (no_op n) (no_w n) (no_obj n) now m) = m_sink m ++ evs ->
  Forall (spillable (codable:=codable)) evs ->
  sound (mkPipeline m (p1 ++ n :: p2) y t) ->
  sound (mkPipeline (handle (no_op n) (no_w n) (no_obj n) now m) (p1 ++ p2) (enqueue_list (fs_spill fs) evs y) t).
Proof.
  intros Hfs Hp1 Hsink Hspill [Hr Hg Ht Hv]. cbn [pl_m pl_y pl_table] in *.
  destruct (handle_events now n m) as (Hs & Hi & Hsec). rewrite Hs in Hsink. apply app_inv_head in Hsink as <-.
  set (m' := handle _ _ _ _ _) in *. set (y' := enqueue_list _ _ _).
  destruct (enqueue_all (fs_spill fs) (events_of now n) y) as (Hfl & Hin & Hbuf). fold y' in Hfl, Hin, Hbuf.
  assert (rows m' = rows m) as Hrows by (unfold rows; by rewrite Hi, Hsec).
  assert (inventory m' = inventory m) as Hinv by (by rewrite !inventory_rows, Hrows).
  assert (forall ref, ref ∈ touched (mkPipeline m' (p1 ++ p2) y' t) <-> ref ∈ touched (mkPipeline m (p1 ++ n :: p2) y t)) as Htouch.
  { intros ref. unfold touched. cbn [pl_y pl_pending]. rewrite Hin, !bind_app, bind_cons, !fmap_app, (events_refs now (Unix 0)).
    rewrite !elem_of_app. tauto. }
  split; cbn [pl_m pl_y pl_table].
  - etrans; [exact Hr|]. by apply enqueue_all_reach.
  - destruct Hg as [Hd Hf Hn]. split; by rewrite ?Hi, ?Hsec, ?Hrows.
  - intros ref Href. apply Htouch, Ht. by rewrite <- Hinv.
  - intros Hsp. destruct (Hbuf Hsp) as [Hsp0 Hb]. rewrite (expected_ext (mkPipeline m' (p1 ++ p2) y' t) (mkPipeline m (p1 ++ n :: p2) y t) Hinv Htouch), <- (Hv Hsp0). apply map_eq. intros ref. rewrite !apply_lookup. f_equal.
    unfold waiting. cbn [pl_y pl_pending]. rewrite Hfl, Hb, !bind_app, bind_cons. rewrite <- app_assoc, !writes_app.
    rewrite (events_writes now (Unix 0)). set (l1 := p1 ≫= _). set (l2 := p2 ≫= _). set (l := events_of (Unix 0) n).
    assert (writes ref (l1 ++ l) = writes ref (l ++ l1)) as Hc.
    { apply writes_comm. intros e1 e2 (n1 & He1 & Hn1)%list_elem_of_bind He2 Heq. rewrite Forall_forall in Hp1.
      apply events_GVR in He1, He2. apply (Hp1 _ Hn1). congruence. }
    rewrite !writes_app in Hc. destruct (writes ref l2); [done|].
    destruct (writes ref l1), (writes ref l); try done; by simplify_eq.
Qed.

(** What a snapshot writes is in the caches. *)
Lemma Snapshot_write m now ev ref v :
  registered m -> ev ∈ Snapshot m now -> write_of ref ev = Some v -> is_Some v /\ inventory m !! ref = v.
Proof.
  intros [_ _ Hn] Hev Hw.
  assert (Ev_Op ev = OpSync) as Hop.
  { unfold Snapshot in Hev. apply list_elem_of_bind in Hev as (i & Hev & _). revert Hev.
    induction (i_store i) as [|o st IH]; cbn [store_events]; [by intros ?%elem_of_nil|].
    unfold toEvent. destruct (unpack o); [|exact IH..]. intros [->|Hin]%elem_of_cons; [done|by apply IH]. }
  apply (list_elem_of_fmap_2 ev_row) in Hev. rewrite Snapshot_rows in Hev.
  unfold write_of in Hw. rewrite Hop in Hw. case_decide as Hr; [|done]. cbn in Hw. injection Hw as <-. subst ref.
  split; [done|]. rewrite inventory_rows. by apply elem_of_list_to_map_1.
Qed.

Lemma received_nil t t' : received t [] t' -> t' = t.
Proof. by inversion 1. Qed.

Lemma received_one t b ok t' :
  received t [(b, ok)] t' -> t' = apply_events t (Batch_Events b) \/ ok = false /\ t' = t.
Proof. inversion_clear 1 as [|? ? ? ? ? Hr|? ? ? ? Hr]; apply received_nil in Hr as ->; [by left|by right]. Qed.

(** A piece of the loop leaves what the table and the events on the way come to. *)
Lemma loop_view m p y y' t t' now snap l :
  snap ≡ₚ Snapshot m now -> loop_step policy cfg may snap y y' -> y_log y' = y_log y ++ l -> received t l t' ->
  sound (mkPipeline m p y t) -> rtc (step (codable:=codable) policy cfg may) (initial capacity [] seqfile) y' ->
  y_spilled y' = false -> apply_events t' (waiting (mkPipeline m p y' t')) = expected t0 (mkPipeline m p y t).
Proof.
  intros Hperm Hstep Hlog Hrec [Hr Hg _ Hv] Hr' Hsp. cbn [pl_m pl_y pl_table] in *.
  unfold waiting in *. cbn [pl_y pl_pending] in *. set (rest := p ≫= _) in *.
  destruct Hstep as [fs u w i a sp ok u' w' _ _ Hs|fs u w i a sp b u' _ _ Ht|fs u fl w i a sp u' w' _ Hfl Hs|fs u fl w i a sp u' w' _ Hfl Hs];
    cbn [y_u y_flight y_log y_spilled] in *; specialize (Hv Hsp).
  - destruct (send_snapshot_same policy cfg (fs_seq fs) snap u w) as (ok2 & u2 & w2 & Hs' & Hb & _). rewrite Hs in Hs'. injection Hs' as <- <- <-.
    assert (u_buf (if ok then set_needSnapshot u' false else u') = u_buf u) as -> by (by destruct ok).
    apply snapshot_loop_log in Hs as (l' & -> & Hl). apply app_inv_head in Hlog as ->.
    apply map_eq. intros ref. rewrite apply_lookup. cbn [app] in *.
    apply (f_equal (lookup ref)) in Hv. rewrite apply_lookup in Hv.
    destruct (received_about _ _ _ _ ref Hrec Hl) as [->|(ev & Hev & Hw)]; [done|].
    destruct (writes ref _) as [v|]; [done|]. cbn [default] in *. rewrite Hperm in Hev.
    destruct (Snapshot_write m now ev ref _ Hg Hev Hw) as [[x Hx] Hi]. rewrite Hx in *.
    rewrite expected_lookup. cbn [pl_m]. by rewrite Hi.
  - rewrite <- (app_nil_r w) in Hlog at 1. apply app_inv_head in Hlog as <-. apply received_nil in Hrec as ->.
    apply unspilled_order in Hr as [_ Hin], Hr' as [_ Hin']; [|done..]. cbn in Hin, Hin'. rewrite Hin in Hin'.
    apply app_inv_head in Hin'. by rewrite app_assoc, <- Hin'.
  - destruct (sendBatch_log policy cfg (fs_seq fs) fl false u w) as (ok & u1 & Hs' & _). pose proof (sendBatch_same _ _ _ _ _ _ _ _ _ _ Hs) as (Hb & _).
    rewrite Hs in Hs'. injection Hs' as <- <- ->. apply app_inv_head in Hlog as <-.
    apply received_one in Hrec as [->|[? _]]; [|done]. rewrite Hb, <- Hv. cbn [Batch_Events app].
    by rewrite <- apply_app.
  - destruct (sendBatch_log policy cfg (fs_seq fs) fl false u w) as (ok & u1 & Hs' & _). pose proof (sendBatch_same _ _ _ _ _ _ _ _ _ _ Hs) as (Hb & _).
    rewrite Hs in Hs'. injection Hs' as <- <- ->. apply app_inv_head in Hlog as <-.
    assert (u_buf (set_needSnapshot (requeueFront fl u') true) = fl ++ u_buf u) as -> by (cbn; by rewrite Hb).
    cbn [app]. rewrite <- app_assoc, <- Hv. apply received_one in Hrec as [->|[_ ->]]; [|done]. apply apply_again.
Qed.

Lemma loop_step_in snap y y' : loop_step policy cfg may snap y y' -> y_in y' = y_in y /\ y_spilled y' = y_spilled y.
Proof. by destruct 1. Qed.

Lemma sound_step s s' : istep s s' -> sound s -> sound s'.
Proof.
  destruct 1 as [m n m' p y t Hc|fs m p1 n p2 now y t evs Hfs Hp1 Hsink Hspill|m p y y' t t' now snap l Hperm Hl Hlog Hrec].
  - by apply sound_change.
  - by apply sound_handle.
  - intros Hs. destruct (loop_step_in _ _ _ Hl) as [Hin Hsp].
    assert (rtc (step (codable:=codable) policy cfg may) (initial capacity [] seqfile) y') as Hr'.
    { eapply rtc_r; [apply (so_reach _ Hs)|]. by eapply sy_loop. }
    assert (touched (mkPipeline m p y' t') = touched (mkPipeline m p y t)) as Ht
      by (unfold touched; cbn [pl_y pl_pending]; by rewrite Hin).
    split; cbn [pl_m pl_y pl_table]; [done|apply Hs|rewrite Ht; apply (so_touched _ Hs)|].
    intros Hf. rewrite (loop_view m p y y' t t' now snap l); [|done..]. unfold expected. by rewrite Ht.
Qed.

End Invariant.

(** ** The start *)

Record fresh (m : Manager) : Prop := {
  fr_distinct : NoDup (i_GVR <$> m_informers m);
  fr_known : forall i, i ∈ m_informers m ->
    i_store i = [] /\ exists w, w ∈ ws /\ w_GVR w = i_GVR i /\ m_secrets m (i_GVR i) = w_Secret w;
}.

Lemma new_loop_fresh disco added now resources m :
  resources ⊆ ws -> fresh m -> fresh (new_loop disco added now resources m).
Proof.
  revert m. induction resources as [|w rest IH]; intros m Hsub Hm; cbn [new_loop]; [done|].
  apply IH; [set_solver|]. destruct (served disco w && added w); [|done]. destruct Hm as [Hd Hk].
  split; cbn [m_informers m_secrets].
  - rewrite fmap_app. apply NoDup_app. split_and!; [| |apply NoDup_singleton].
    + eapply sublist_NoDup; [exact Hd|]. apply fmap_sublist, sublist_filter.
    + intros g (i & -> & Hi)%list_elem_of_fmap. apply list_elem_of_filter in Hi as [Hne _].
      cbn. by rewrite list_elem_of_singleton.
  - intros i [Hi|Hi]%elem_of_app.
    + apply list_elem_of_filter in Hi as [Hne Hi]. destruct (Hk i Hi) as (Hst & w' & ?). split; [done|]. exists w'.
      by rewrite decide_False.
    + apply list_elem_of_singleton in Hi as ->. split; [done|]. exists w. cbn. rewrite decide_True by done. set_solver.
Qed.

Lemma fresh_rows m : fresh m -> rows m = [].
Proof.
  intros [_ Hk]. unfold rows, rows_in. induction (m_informers m) as [|i infs IH]; [done|]. rewrite bind_cons, IH.
  - destruct (Hk i) as [-> _]; [by left|done].
  - intros j Hj. apply Hk. by right.
Qed.

Lemma fresh_registered m : NoDup (w_GVR <$> ws) -> fresh m -> registered m.
Proof.
  intros Hnd Hf. pose proof (fresh_rows _ Hf) as Hrows. destruct Hf as [Hd Hk].
  split; [done| |rewrite Hrows; constructor]. intros w Hw (i & Hgi & Hi)%list_elem_of_fmap.
  destruct (Hk i Hi) as (_ & w' & Hw' & Hg & Hs). rewrite Hgi, Hs. f_equal.
  apply list_elem_of_lookup in Hw as (j & Hj), Hw' as (k & Hk').
  assert (j = k) as ->; [|congruence].
  eapply NoDup_lookup; [exact Hnd| |]; rewrite list_lookup_fmap; [by rewrite Hj|by rewrite Hk', <- Hg, Hgi in *].
Qed.

Lemma start_sound disco added now capacity seqfile t0 :
  NoDup (w_GVR <$> ws) -> sound capacity seqfile t0 (pipeline_start disco added now capacity seqfile t0).
Proof.
  intros Hnd. assert (fresh (New disco added now ws)) as Hf.
  { apply new_loop_fresh; [done|]. split; cbn; [constructor|by intros i ?%elem_of_nil]. }
  assert (inventory (New disco added now ws) = ∅) as Hinv by (by rewrite inventory_rows, fresh_rows).
  unfold pipeline_start. split; cbn [pl_m pl_y pl_table]; [apply rtc_refl|by apply fresh_registered| |].
  - intros ref. rewrite Hinv, lookup_empty. by intros [].
  - intros _. apply map_eq. intros ref. rewrite expected_lookup. cbn [pl_m]. rewrite Hinv, lookup_empty.
    unfold touched. cbn. by rewrite decide_False by apply not_elem_of_nil.
Qed.

(** C6. The server's table converges to the cluster: in every interleaving of
    changes in the informer caches, their handlers and the uploader's loop, whatever
    batches the control plane acknowledges, loses, or applies without the agent
    knowing, and while the spill file was never needed, the table and the events on
    their way together come to exactly the content of the caches, plus rows of
    earlier agents that this one was never told about; so once nothing is on its way
    every object the agent was told about is in the table as it is in the caches, or
    in neither, and a table that started empty is the content of the caches. *)
Theorem view_converges disco added now capacity seqfile t0 s :
  NoDup (w_GVR <$> ws) -> rtc istep (pipeline_start disco added now capacity seqfile t0) s ->
  y_spilled (pl_y s) = false ->
  apply_events (pl_table s) (waiting s) = expected t0 s /\
  (waiting s = [] -> forall ref, ref ∈ touched s -> pl_table s !! ref = inventory (pl_m s) !! ref) /\
  (waiting s = [] -> t0 = ∅ -> pl_table s = inventory (pl_m s)).
Proof.
  intros Hnd Hr Hsp.
  assert (sound capacity seqfile t0 s) as Hs.
  { pose proof (start_sound disco added now capacity seqfile t0 Hnd) as Hs. revert Hs.
    induction Hr as [|s1 s2 s3 H12 _ IH]; intros Hs; [done|]. apply IH; [done|]. by eapply sound_step. }
  pose proof (so_view _ _ _ _ Hs Hsp) as Hv. split; [done|].
  assert (waiting s = [] -> forall ref, pl_table s !! ref = expected t0 s !! ref) as Hw
    by (intros Hw ref; by rewrite <- Hv, Hw).
  split; [intros Hn ref Href|intros Hn ->; apply map_eq; intros ref]; rewrite Hw, expected_lookup by done;
    destruct (inventory (pl_m s) !! ref); try done; by case_decide.
Qed.

(** ** Schedules *)

Section Schedules.
Hypothesis healthy_may : may all_ok.

Definition loop_piece (snap : list InventoryEvent) (y : system) : option system :=
  let '(mkSystem u fl w i a sp) := y in
  match fl with
  | [] =>
      if u_needSnapshot u then
        match sendSnapshot (BatchSender0 := logged_sender policy) cfg (fun _ => seq_ok) snap u w with
        | Done (ok, u', w') => Some (mkSystem (if ok then set_needSnapshot u' false else u') [] w' i a sp)
        | Panic => None
        end
      else match take_batch true true batchSize u with Done (b, u') => Some (mkSystem u' b w i a sp) | Panic => None end
  | _ =>
      Some (match sendBatch (BatchSender0 := logged_sender policy) cfg (fun _ => seq_ok) fl false u w with
            | (true, u', w') => mkSystem u' [] w' i (a ++ fl) sp
            | (false, u', w') => mkSystem (set_needSnapshot (requeueFront fl u') true) [] w' i a sp
            end)
  end.

Lemma loop_piece_step snap y y' : loop_piece snap y = Some y' -> loop_step policy cfg may snap y y'.
Proof.
  destruct y as [u [|e fl] w i a sp]; cbn [loop_piece].
  - destruct (u_needSnapshot u) eqn:Hn.
    + destruct (sendSnapshot _ _ _ _ _) as [[[ok u'] w']|] eqn:Hs; [|done]. intros [= <-]. by apply (sl_snapshot _ _ _ _ all_ok).
    + destruct (take_batch _ _ _ _) as [[b u']|] eqn:Ht; [|done]. intros [= <-]. by apply (sl_take _ _ _ _ all_ok).
  - destruct (sendBatch _ _ _ _ _ _) as [[[|] u'] w'] eqn:Hs; intros [= <-]; [by apply (sl_sent _ _ _ _ all_ok)|by apply (sl_failed _ _ _ _ all_ok)].
Qed.

Lemma loop_step_log snap y y' : loop_step policy cfg may snap y y' -> exists l, y_log y' = y_log y ++ l.
Proof.
  destruct 1 as [fs u w i a sp ok u' w' _ _ Hs|fs u w i a sp b u' _ _ Ht|fs u fl w i a sp u' w' _ Hfl Hs|fs u fl w i a sp u' w' _ Hfl Hs];
    cbn [y_log]; [|by exists []; rewrite app_nil_r|..].
  - apply snapshot_loop_log in Hs as (l & -> & _). by exists l.
  - destruct (sendBatch_log policy cfg (fs_seq fs) fl false u w) as (ok & u1 & Hs' & _). rewrite Hs in Hs'. simplify_eq. by eexists.
  - destruct (sendBatch_log policy cfg (fs_seq fs) fl false u w) as (ok & u1 & Hs' & _). rewrite Hs in Hs'. simplify_eq. by eexists.
Qed.

Fixpoint receive (reached : bool) (t : table) (l : log) : table :=
  match l with
  | [] => t
  | (b, ok) :: l => receive reached (if ok || reached then apply_events t (Batch_Events b) else t) l
  end.

Lemma receive_received reached t l : received t l (receive reached t l).
Proof.
  revert t. induction l as [|[b ok] l IH]; intros t; cbn [receive]; [constructor|].
  destruct ok; [by apply rc_applied|]. destruct reached; [by apply rc_applied|by apply rc_lost].
Qed.

(** Changes are of the first informer; [ILoop] says whether a batch that is not
    acknowledged arrives. *)
Inductive ievent := IPut (op : string) (u : obj) | IDelete (u : obj) | IHandle (now : Time) | ILoop (reached : bool).

Context `{!forall ev, Decision (spillable (codable:=codable) ev)}.

Definition ifire (s : pipeline) (e : ievent) : pipeline :=
  let '(mkPipeline m p y t) := s in
  match e, ws, m_informers m with
  | IPut op u, w :: _, mkInformer g st sy :: infs =>
      if decide (g = w_GVR w /\ op ∈ [OpAdd; OpUpdate]) then
        mkPipeline (with_informers (mkInformer (w_GVR w) (AnObject u :: others (GetNamespace u, GetName u) st) true :: infs) m)
          (p ++ [mkNotification op w (AnObject u)]) y t
      else s
  | IDelete u, w :: _, mkInformer g st sy :: infs =>
      if decide (g = w_GVR w) then
        mkPipeline (with_informers (mkInformer (w_GVR w) (others (GetNamespace u, GetName u) st) true :: infs) m)
          (p ++ [mkNotification OpDelete w (AnObject u)]) y t
      else s
  | IHandle now, _, _ =>
      match p with
      | n :: p' =>
          if decide (Forall (spillable (codable:=codable)) (events_of now n)) then
            mkPipeline (handle (no_op n) (no_w n) (no_obj n) now m) p' (enqueue_list spill_ok (events_of now n) y) t
          else s
      | [] => s
      end
  | ILoop reached, _, _ =>
      match loop_piece (Snapshot m (Unix 0)) y with
      | Some y' => mkPipeline m p y' (receive reached t (drop (length (y_log y)) (y_log y')))
      | None => s
      end
  | _, _, _ => s
  end.

Lemma ifire_step s e : ifire s e = s \/ istep s (ifire s e).
Proof.
  destruct s as [m p y t]. unfold ifire. destruct e as [op u|u|now|reached].
  - destruct ws as [|w ws'] eqn:Hws, (m_informers m) as [|[g st sy] infs] eqn:Hm; try by left.
    case_decide as Hd; [|by left]. destruct Hd as [-> Hop]. right. apply is_change.
    eapply (cc_put m w [] infs); [rewrite Hws; by left|exact Hm|exact Hop|done].
  - destruct ws as [|w ws'] eqn:Hws, (m_informers m) as [|[g st sy] infs] eqn:Hm; try by left.
    case_decide as Hd; [|by left]. subst g. right. apply is_change.
    eapply (cc_delete m w [] infs); [rewrite Hws; by left|exact Hm|done|done].
  - destruct p as [|n p]; [by left|]. case_decide as Hd; [|by left]. right.
    apply (is_handle all_ok m [] n p now); [done|constructor|apply handle_events|done].
  - destruct (loop_piece _ y) as [y'|] eqn:Hp; [|by left]. apply loop_piece_step in Hp. right.
    destruct (loop_step_log _ _ _ Hp) as (l & Hl). rewrite Hl, drop_app_length.
    eapply is_loop; [done|exact Hp|exact Hl|apply receive_received].
Qed.

Lemma ischedule_reach es s : rtc istep s (foldl ifire s es).
Proof.
  revert s. induction es as [|e es IH]; intros s; [apply rtc_refl|]. cbn. etrans; [|apply IH].
  destruct (ifire_step s e) as [->|Hs]; [apply rtc_refl|by apply rtc_once].
Qed.
End Schedules.
End Inventory.

(** ** After an overflow *)

Section Overflow.
Context `{Unstructured} `{EventCodec} {codable : InventoryEvent -> Prop} `{!EventCodecLaws codable}.
Context (cfg : Config) (ws : list WatchedResource).

(** A control plane that acknowledges every batch. *)
Definition accept_all (_ : log) (_ : InventoryBatch) : bool := true.

Abbreviation calm_step := (istep (codable:=codable) accept_all cfg ws all_healthy).

(** The loop sends buffer and spill file, in this order, and comes to rest. *)
Lemma drain m y t sp :
  y_flight y = [] -> u_needSnapshot (y_u y) = false -> spill_holds (codable:=codable) (y_u y) sp ->
  exists y' l, rtc calm_step (mkPipeline m [] y t) (mkPipeline m [] y' (apply_events t (u_buf (y_u y) ++ sp))) /\
    y_flight y' = [] /\ u_buf (y_u y') = [] /\ d_spill (u_disk (y_u y')) = None /\ u_needSnapshot (y_u y') = false /\
    y_log y' = y_log y ++ l /\ Forall (fun e => e.2 = true) l.
Proof.
  remember (length (u_buf (y_u y) ++ sp)) as n eqn:Hn. revert y t sp Hn.
  induction (lt_wf n) as [n _ IH]. intros [u fl w i a spf] t sp Hn Hfl Hns Hsp. cbn [y_flight y_u] in *. subst fl.
  destruct (take_order u sp Hsp) as (b & u1 & sp1 & Ht & Hsp1 & Hbs & Hns1 & He).
  assert (calm_step (mkPipeline m [] (mkSystem u [] w i a spf) t) (mkPipeline m [] (mkSystem u1 b w i a spf) t)) as Htake.
  { eapply (is_loop _ _ _ _ m [] _ _ t t (Unix 0) (Snapshot m (Unix 0)) []); [done| | |constructor].
    - by apply (sl_take _ _ _ _ all_ok).
    - cbn. by rewrite app_nil_r. }
  destruct b as [|e b].
  - destruct (He eq_refl) as [Hb ->]. rewrite Hbs, Hb. exists (mkSystem u1 [] w i a spf), []. cbn [y_flight y_u y_log].
    rewrite !app_nil_r. split_and!; [by apply rtc_once|done|done| |congruence|done|constructor].
    destruct Hsp1 as [_ [[Hd _]|[_ Hd]]]; done.
  - destruct (sendBatch_log accept_all cfg (fs_seq all_ok) (e :: b) false u1 w) as (ok & u2 & Hs & _).
    assert (ok = true) as -> by (unfold sendBatch in Hs; cbn in Hs; by simplify_eq).
    pose proof (sendBatch_same _ _ _ _ _ _ _ _ _ _ Hs) as Hsame.
    assert (u_needSnapshot u2 = u_needSnapshot u1) as Hns2 by (unfold sendBatch in Hs; cbn in Hs; by simplify_eq).
    set (entry := (mkInventoryBatch _ _ _ _, true)) in *.
    destruct (IH (length (u_buf u2 ++ sp1))) with (y := mkSystem u2 [] (w ++ [entry]) i (a ++ e :: b) spf) (t := apply_events t (e :: b)) (sp := sp1)
      as (y' & l & Hr & Hr1 & Hr2 & Hr3 & Hr4 & Hlog & Hall); [|done|done|cbn; congruence|by eapply spill_holds_same|].
    { destruct Hsame as (-> & _). rewrite Hn, Hbs, !length_app. cbn [length]. lia. }
    cbn [y_u y_log] in *. destruct Hsame as (Hb2 & _). rewrite Hb2, <- apply_app, <- Hbs in Hr.
    exists y', (entry :: l). split_and!; [|done|done|done|done| |by constructor].
    + eapply rtc_l; [exact Htake|]. eapply rtc_l; [|exact Hr].
      eapply (is_loop _ _ _ _ m [] _ _ t _ (Unix 0) (Snapshot m (Unix 0))); [done|by apply (sl_sent _ _ _ _ all_ok)|done|].
      apply rc_applied. constructor.
    + by rewrite Hlog, <- app_assoc.
Qed.

(** C39. After an overflow the table can stay behind for good: take any state an
    agent can come to in which the spill file holds, last among its events about an
    object, the write [v], the buffer has room again, nothing is in flight or about
    to be handled and no snapshot is due.  If the object changes now, there is a
    continuation in which nothing fails (the files are healthy and the control plane
    acknowledges every batch) and which ends with nothing on its way, buffer and
    spill file empty and no snapshot due, and the server has [v] for the object where
    the caches have the new version: events of the buffer overtake those of the
    file. *)
Theorem stale_after_overflow disco added now capacity seqfile t0 m y t sp w op u v now' :
  NoDup (w_GVR <$> ws) ->
  rtc calm_step (pipeline_start ws disco added now capacity seqfile t0) (mkPipeline m [] y t) ->
  y_flight y = [] -> u_needSnapshot (y_u y) = false -> full (y_u y) = false ->
  spill_holds (codable:=codable) (y_u y) sp -> writes (obj_ref (w_GVR w) u) sp = Some v ->
  w ∈ ws -> w_GVR w ∈ i_GVR <$> m_informers m -> op ∈ [OpAdd; OpUpdate] ->
  Forall (spillable (codable:=codable)) (events_of now' (mkNotification op w (AnObject u))) ->
  exists m' y' t' l, rtc calm_step (mkPipeline m [] y t) (mkPipeline m' [] y' t') /\
    waiting (mkPipeline m' [] y' t') = [] /\ d_spill (u_disk (y_u y')) = None /\ u_needSnapshot (y_u y') = false /\
    y_log y' = y_log y ++ l /\ Forall (fun e => e.2 = true) l /\
    t' !! obj_ref (w_GVR w) u = v /\ inventory m' !! obj_ref (w_GVR w) u = Some (payload (w_Secret w) u).
Proof.
  intros Hnd Hrun Hfl Hns Hroom Hsp Hv Hw (inf & Hg & (i1 & i2 & Hm)%list_elem_of_split)%list_elem_of_fmap Hop Hev.
  assert (registered ws m) as Hreg.
  { apply (so_registered (codable:=codable) accept_all cfg ws all_healthy capacity seqfile t0 (mkPipeline m [] y t)).
    pose proof (start_sound (codable:=codable) accept_all cfg ws all_healthy disco added now capacity seqfile t0 Hnd) as Hs. revert Hs.
    induction Hrun as [|s1 s2 s3 H12 _ IH]; intros Hs; [done|]. apply IH. by eapply sound_step. }
  destruct inf as [g st sy]. cbn [i_GVR] in Hg. subst g.
  set (n := mkNotification op w (AnObject u)) in *.
  set (st' := AnObject u :: others (GetNamespace u, GetName u) st).
  set (m1 := with_informers (i1 ++ mkInformer (w_GVR w) st' sy :: i2) m).
  assert (cache_change ws m n m1) as Hc by (by eapply cc_put).
  pose proof (inventory_change _ _ _ _ Hreg Hc) as Hinv.
  destruct (handle_events now' n m1) as (Hsink & Hi & Hsec).
  set (m2 := handle (no_op n) (no_w n) (no_obj n) now' m1) in *.
  set (y1 := enqueue_list (fs_spill all_ok) (events_of now' n) y).
  assert (exists ev, events_of now' n = [ev]) as (ev & Hone) by (unfold events_of, toEvent; cbn; by eexists).
  assert (y_flight y1 = [] /\ u_needSnapshot (y_u y1) = false /\ spill_holds (codable:=codable) (y_u y1) sp /\
    u_buf (y_u y1) = u_buf (y_u y) ++ [ev] /\ y_log y1 = y_log y) as (Hfl1 & Hns1 & Hsp1 & Hb1 & Hlog1).
  { unfold y1. rewrite Hone. cbn [enqueue_list foldl enqueue y_flight y_u y_log]. unfold Enqueue.
    unfold full in Hroom. apply negb_false_iff in Hroom. by rewrite Hroom. }
  destruct (drain m2 y1 t sp Hfl1 Hns1 Hsp1) as (y' & l & Hdr & Hd1 & Hd2 & Hd3 & Hd4 & Hd5 & Hd6).
  eexists m2, y', _, l. split_and!; [|by unfold waiting; cbn; rewrite Hd1, Hd2|done|done|by rewrite Hd5, Hlog1|done| |].
  - eapply rtc_l; [by apply is_change|]. eapply rtc_l; [|exact Hdr].
    by apply (is_handle _ _ _ all_healthy all_ok m1 [] n [] now').
  - by rewrite apply_lookup, writes_app, Hv.
  - assert (inventory m2 = inventory m1) as -> by (rewrite !inventory_rows; unfold rows; by rewrite Hi, Hsec).
    rewrite Hinv, apply_lookup. unfold events_of, toEvent. cbn. unfold write_of. cbn.
    rewrite decide_True by (by destruct (w_GVR w)). rewrite decide_True by set_solver. cbn. done.
Qed.

End Overflow.

(** ** A config map *)
Module InventoryExample.
Import ReferenceUnstructured InformersExample UploadExample.

#[local] Instance spillable_dec ev : Decision (spillable (codable:=codable) ev).
Proof. unfold spillable, codable, in_int64. apply _. Defined.

Definition configmaps : WatchedResource := mkWatched (gvr "" "v1" "configmaps") true false.

Definition config_map (value : string) : obj :=
  <["metadata" := JObj {[ "name" := JStr "app" ]}]> {[ "data" := JObj {[ "level" := JStr value ]} ]}.

Definition app_ref : ResourceRef := mkResourceRef "" "v1" "configmaps" "" "app".
Definition old_ref : ResourceRef := mkResourceRef "" "v1" "configmaps" "" "old".

Definition begin (capacity : Z) (t0 : table) : pipeline :=
  pipeline_start [configmaps] discovery (fun _ => true) start capacity None t0.

(** The first snapshot arrives but its acknowledgement is lost; it is sent again,
    and so are the events. *)
Definition run_once_more : pipeline :=
  foldl (ifire (codable:=codable) reject_first sample_config [configmaps]) (begin 10 {[ old_ref := "{}" ]})
    [IPut OpAdd (config_map "info"); IHandle start; ILoop true; IPut OpUpdate (config_map "debug"); ILoop true;
     ILoop true; ILoop true; IHandle start; ILoop true; ILoop true].

Lemma run_once_more_reachable :
  rtc (istep (codable:=codable) reject_first sample_config [configmaps] any_files) (begin 10 {[ old_ref := "{}" ]}) run_once_more.
Proof. by apply (ischedule_reach (codable:=codable) reject_first sample_config [configmaps]). Qed.

Definition text_of (value : string) : string := payload false (config_map value).

Example table_at_end :
  (pl_table run_once_more !! app_ref, pl_table run_once_more !! old_ref, length (y_log (pl_y run_once_more)))
  = (Some (text_of "debug"), Some "{}", 4%nat).
Proof. vm_compute. reflexivity. Qed.

Lemma view_converges_witness :
  apply_events (pl_table run_once_more) (waiting run_once_more) = expected {[ old_ref := "{}" ]} run_once_more /\
  pl_table run_once_more !! app_ref = inventory (pl_m run_once_more) !! app_ref.
Proof.
  destruct (view_converges (codable:=codable) reject_first sample_config [configmaps] any_files discovery (fun _ => true) start 10 None
    {[ old_ref := "{}" ]} run_once_more) as (Hv & Hw & _).
  - apply NoDup_singleton.
  - exact run_once_more_reachable.
  - vm_compute. reflexivity.
  - split; [exact Hv|]. apply Hw; [vm_compute; reflexivity|]. apply (bool_decide_unpack _). vm_compute. exact I.
Defined.

(** Room for one event: the first event fills the buffer, the second goes to the
    spill file, and then the first is sent. *)
Definition overflow : pipeline :=
  foldl (ifire (codable:=codable) accept_all sample_config [configmaps]) (begin 1 ∅)
    [ILoop true; IPut OpAdd (config_map "info"); IHandle start; IPut OpUpdate (config_map "debug"); IHandle start;
     ILoop true; ILoop true].

Abbreviation calm_step := (istep (codable:=codable) accept_all sample_config [configmaps] all_healthy).
Abbreviation calm := (mkPipeline (pl_m overflow) [] (pl_y overflow) (pl_table overflow)).

Lemma no_pending s : pl_pending s = [] -> mkPipeline (pl_m s) [] (pl_y s) (pl_table s) = s.
Proof. destruct s as [m p y t]. cbn. by intros ->. Qed.

Lemma overflow_run : rtc calm_step (begin 1 ∅) overflow.
Proof. exact (ischedule_reach (codable:=codable) accept_all sample_config [configmaps] all_healthy all_ok_healthy _ _). Qed.

Lemma overflow_reachable : rtc calm_step (begin 1 ∅) calm.
Proof.
  assert (pl_pending overflow = []) as Hp by (vm_compute; reflexivity).
  pose proof overflow_run as Hr. pose proof (no_pending overflow Hp) as He. revert Hr He.
  generalize (pl_m overflow) (pl_y overflow) (pl_table overflow). generalize overflow. by intros s m y t Hr ->.
Qed.

Definition debug_event : InventoryEvent := mkInventoryEvent OpUpdate app_ref (text_of "debug") (ToUnix start).

Lemma stale_after_overflow_witness :
  exists m' y' t' l, rtc calm_step calm (mkPipeline m' [] y' t') /\
    waiting (mkPipeline m' [] y' t') = [] /\ d_spill (u_disk (y_u y')) = None /\ u_needSnapshot (y_u y') = false /\
    y_log y' = y_log (pl_y overflow) ++ l /\ Forall (fun e => e.2 = true) l /\
    t' !! obj_ref (w_GVR configmaps) (config_map "error") = Some (text_of "debug") /\
    inventory m' !! obj_ref (w_GVR configmaps) (config_map "error") = Some (payload (w_Secret configmaps) (config_map "error")).
Proof.
  refine (stale_after_overflow (codable:=codable) sample_config [configmaps] discovery (fun _ => true) start 1 None ∅
    (pl_m overflow) (pl_y overflow) (pl_table overflow) [debug_event] configmaps OpUpdate (config_map "error")
    (Some (text_of "debug")) start (NoDup_singleton _) overflow_reachable _ _ _ _ _ _ _ _ _).
  - vm_compute. reflexivity.
  - vm_compute. reflexivity.
  - vm_compute. reflexivity.
  - split; [apply Forall_singleton; apply (bool_decide_unpack _); vm_compute; exact I|].
    right. split; [vm_compute; reflexivity|discriminate].
  - vm_compute. reflexivity.
  - by left.
  - apply (bool_decide_unpack _). vm_compute. exact I.
  - apply (bool_decide_unpack _). vm_compute. exact I.
  - apply (bool_decide_unpack _). vm_compute. exact I.
Defined.

Example versions_differ : text_of "debug" <> text_of "error".
Proof. vm_compute. discriminate. Qed.
End InventoryExample.
