(* ===== verification/HttpClient.v ===== *)
(** * internal/protocol/http.go: the control plane over HTTP

    One POST per request, with the bearer token; the status code decides
    between the decoded reply, an authentication error and a plain error, and
    the tunnel gauge follows.  The transport (net/http over the network) is the
    class [Transport]; [http_sender] makes the client the uploader's batch
    sender. *)

From S2P Require Import Prelude GoStrings Protocol Config Metrics GoTime Backoff Uploader Receiver.
Local Open Scope Z_scope.

(** The reply: the status code, and the body or the error of reading it. *)
Record Response := mkResponse { StatusCode : Z; Body : string + string }.

(** A request as it leaves: URL, Authorization header, body. *)
Record Request := mkRequest { Url : string; Authorization : string; ReqBody : string }.

(** http.NewRequestWithContext (its error, for a URL that does not parse) and
    http.Client.Do; encoding/json on the four messages. *)
Class Transport (W : Type) := {
  build_error : string -> option string;
  do_request : Request -> W -> (string + Response) * W;
}.
Class Messages := {
  encode_batch : InventoryBatch -> string;
  decode_inventory_ack : string -> string + InventoryAck;
  encode_poll : PollRequest -> string;
  decode_poll : string -> string + PollResponse;
}.

Record Client := mkClient { base : string; token : string }.

Definition NewClient (endpoint tok : string) : Client := mkClient (TrimRightSlash endpoint) tok.

Inductive HttpError := AuthError (status : Z) (body : string) | OtherError (text : string).

Definition AuthError_text (status : Z) (body : string) : string :=
  "control plane authentication failed (HTTP " ^^ FormatInt status ^^ "): " ^^ body.

(** An ellipsis in UTF-8. *)
Definition ellipsis : string := String (chr 226) (String (chr 128) (String (chr 166) "")).

Definition truncate (s : string) (n : nat) : string :=
  if (n <? String.length s)%nat then take_bytes n s ^^ ellipsis else s.

Definition maxBody : nat := Z.to_nat (16 * 1048576).

Section HttpClient.
Context {W : Type} `{!Transport W} `{Messages}.

(** [post] with the reply's decoder; the gauge is part of the result. *)
Definition post {A} (c : Client) (path body : string) (decode : string -> string + A) (m : Metrics) (w : W)
    : (HttpError + A) * Metrics * W :=
  match build_error (base c ^^ path) with
  | Some e => (inl (OtherError ("build " ^^ path ^^ " request: " ^^ e)), m, w)
  | None =>
      let '(r, w') := do_request (mkRequest (base c ^^ path) ("Bearer " ^^ token c) body) w in
      match r with
      | inl e => (inl (OtherError ("POST " ^^ path ^^ ": " ^^ e)), SetTunnelConnected false m, w')
      | inr resp =>
          match Body resp with
          | inl e => (inl (OtherError ("read " ^^ path ^^ " response: " ^^ e)), SetTunnelConnected false m, w')
          | inr body =>
              let body := take_bytes maxBody body in
              if StatusCode resp =? 200 then
                match decode body with
                | inl e => (inl (OtherError ("decode " ^^ path ^^ " response: " ^^ e)), SetTunnelConnected true m, w')
                | inr a => (inr a, SetTunnelConnected true m, w')
                end
              else if (StatusCode resp =? 401) || (StatusCode resp =? 403) then
                (inl (AuthError (StatusCode resp) (truncate body 200)), SetTunnelConnected false m, w')
              else
                (inl (OtherError ("POST " ^^ path ^^ ": HTTP " ^^ FormatInt (StatusCode resp) ^^ ": "
                   ^^ truncate body 200)), SetTunnelConnected false m, w')
          end
      end
  end.

Definition Inventory (c : Client) (b : InventoryBatch) (m : Metrics) (w : W)
    : (HttpError + InventoryAck) * Metrics * W :=
  post c "/k8s/inventory" (encode_batch b) decode_inventory_ack m w.

Definition Poll (c : Client) (req : PollRequest) (m : Metrics) (w : W) : (HttpError + PollResponse) * Metrics * W :=
  post c "/k8s/poll" (encode_poll req) decode_poll m w.

Definition is_auth (e : HttpError) : bool := match e with AuthError _ _ => true | _ => false end.

(** The uploader's sender: the client with its gauge. *)
#[export] Instance http_sender (c : Client) : BatchSender (Metrics * W) := {
  send b s :=
    let '(r, m, w) := Inventory c b s.1 s.2 in
    (match r with inl e => inl (is_auth e) | inr ack => inr (Some ack) end, (m, w));
}.

(** The outcome the poll loop sees. *)
Definition poll_outcome (c : Client) (req : PollRequest) (m : Metrics) (w : W) : poll_result :=
  match (Poll c req m w).1.1 with
  | inl e => PollError (is_auth e)
  | inr resp => PollReply resp
  end.

(** The status and body of a reply that could be read. *)
Definition reply_status (c : Client) (path body : string) (w : W) : option (Z * string) :=
  match build_error (base c ^^ path) with
  | Some _ => None
  | None =>
      match (do_request (mkRequest (base c ^^ path) ("Bearer " ^^ token c) body) w).1 with
      | inr (mkResponse code (inr b)) => Some (code, b)
      | _ => None
      end
  end.

(** The three classes of replies. *)
Definition reply_class (reply : option (Z * string)) : Z :=
  match reply with
  | Some (code, _) => if code =? 200 then 200 else if (code =? 401) || (code =? 403) then 401 else 500
  | None => 500
  end.

(** A request succeeds exactly on a readable HTTP 200 whose body decodes, is
    an authentication error exactly on 401 and 403, and leaves the tunnel gauge
    at one exactly when the control plane answered 200 (a request that could
    not even be built leaves the gauge alone). *)
Theorem post_classifies {A} c path body (decode : string -> string + A) m w :
  let '(r, m', _) := post c path body decode m w in
  let reply := reply_status c path body w in
  match r with
  | inr a => exists b, reply = Some (200, b) /\ decode (take_bytes maxBody b) = inr a
  | inl (AuthError _ _) => reply_class reply = 401
  | inl (OtherError _) =>
      reply_class reply = 500 \/ exists b e, reply = Some (200, b) /\ decode (take_bytes maxBody b) = inl e
  end /\
  (build_error (base c ^^ path) = None ->
   tunnelConnected m' = if reply_class reply =? 200 then 1 else 0).
Proof.
  unfold post, reply_status. destruct (build_error (base c ^^ path)); [split; [by left|done]|].
  destruct (do_request _ w) as [[e|[code [e|b]]] w']; cbn [fst StatusCode Body];
    [split; [by left|done]..|].
  destruct (Z.eqb_spec code 200) as [->|H200].
  { destruct (decode _) as [e|a] eqn:Hd; (split; [|done]); [right; by eauto|by eauto]. }
  unfold reply_class. rewrite (proj2 (Z.eqb_neq _ _) H200).
  destruct ((code =? 401) || (code =? 403)); split; done || by left.
Qed.
End HttpClient.
