(* ===== verification/WsClient.v ===== *)
(** * internal/wsclient: the WebSocket fast path

    Dialing, the hello handshake, the read loop and report sending, over an
    abstract WebSocket library (class [Sockets]) and the JSON forms of the
    frames (class [Frames]); the read limit is handed to the library.  [ws_push] is the push channel the receiver is
    built with. *)

From S2P Require Import Prelude GoStrings GoTime Protocol Config Metrics Backoff Receiver.
Local Open Scope Z_scope.

Definition readLimit : Z := 262144.
Definition handshakeTimeout : Z := 10 * Second.
Definition writeTimeout : Z := 10 * Second.
Definition pingInterval : Z := 25 * Second.
Definition pongTimeout : Z := 30 * Second.
Definition silenceTimeout : Z := 60 * Second.

(** github.com/coder/websocket: connections by handle; a read gives whether the
    frame is text, and its data; SetReadLimit bounds the frames a read takes. *)
Class Sockets (W : Type) := {
  ws_dial : string -> W -> (string + nat) * W;
  ws_limit : nat -> Z -> W -> W;
  ws_write : nat -> string -> W -> option string * W;
  ws_read : nat -> W -> (string + bool * string) * W;
  ws_close : nat -> W -> W;
}.

(** encoding/json on the frames of ws.go. *)
Class Frames := {
  encode_hello : WsHello -> string;
  encode_report : Report -> string;
  decode_type : string -> string + string;
  decode_ack : string -> string + WsHelloAck;
  decode_command : string -> option (option Command);
  decode_error : string -> option string;
}.

Definition wsURL (b : string) : string :=
  let u := TrimRightSlash b in
  let scheme := if HasPrefix u "https://" then "wss://" else "ws://" in
  let u := TrimPrefix u "http://" in
  let u := TrimPrefix u "https://" in
  scheme ^^ u ^^ "/k8s/ws".

Definition smellsAuth (msg : string) : bool :=
  let m := ToLower msg in Contains m "unauthorized" || Contains m "token" || Contains m "401".

Inductive ws_error := AuthErr (msg : string) | ConnErr (msg : string).

(** What an observer sees of the channel. *)
Inductive ws_event :=
| WHello (conn : nat) (reply : option string)    (* a hello, and the frame read for it *)
| WCommand (conn : nat) (cmd : option Command)   (* the handler is called *)
| WReport (conn : nat) (rep : Report)
| WClosed (conn : nat).

Record Client := mkClient {
  c_connected : bool;
  c_conn : option nat;
  c_handler : bool;            (* SetCommandHandler was called *)
  c_metrics : Metrics;
  c_events : list ws_event;
}.

(** [New]. *)
Definition New : Client := mkClient false None false empty_metrics [].

Definition Connected (c : Client) : bool := c_connected c.
Definition SetCommandHandler (c : Client) : Client :=
  mkClient (c_connected c) (c_conn c) true (c_metrics c) (c_events c).

Definition log_event (e : ws_event) (c : Client) : Client :=
  mkClient (c_connected c) (c_conn c) (c_handler c) (c_metrics c) (c_events c ++ [e]).
Definition set_conn (k : option nat) (c : Client) : Client :=
  mkClient (c_connected c) k (c_handler c) (c_metrics c) (c_events c).
(** The flag and the gauge change together. *)
Definition set_connected (b : bool) (c : Client) : Client :=
  mkClient b (c_conn c) (c_handler c) (SetTunnelConnected b (c_metrics c)) (c_events c).

Section WsClient.
Context {W : Type} `{!Sockets W} `{Frames}.

(** [SendReport]. *)
Definition SendReport (r : Report) (c : Client) (w : W) : option string * Client * W :=
  if negb (c_connected c) then (Some "websocket not connected", c, w)
  else
    match c_conn c with
    | None => (Some "websocket not connected", c, w)
    | Some k =>
        match ws_write k (encode_report r) w with
        | (Some e, w') => (Some ("write report: " ^^ e), c, w')
        | (None, w') => (None, log_event (WReport k r) c, w')
        end
    end.

(** The frame the server answers the hello with. *)
Definition agent_hello (cfg : Config) : WsHello :=
  mkWsHello WsTypeAgentHello (ServerToken cfg) (ClusterID cfg) agentVersion.

Definition hello_reply (cfg : Config) (conn : nat) (w : W) : option string :=
  match ws_write conn (encode_hello (agent_hello cfg)) w with
  | (Some _, _) => None
  | (None, w) => match (ws_read conn w).1 with inl _ => None | inr (_, data) => Some data end
  end.

(** The frames by which a server accepts a hello: an ack, tagged as one or not
    tagged, that says so. *)
Definition accepts_hello (data : string) : bool :=
  match decode_type data, decode_ack data with
  | inr typ, inr ack => ((typ =s "") || (typ =s WsTypeHelloAck)) && HelloAck_Accepted ack
  | _, _ => false
  end.

Definition accepted_reply (reply : option string) : bool :=
  match reply with Some data => accepts_hello data | None => false end.

(** [handshake]: [None] when it goes through. *)
Definition handshake (cfg : Config) (conn : nat) (w : W) : option ws_error * W :=
  match ws_write conn (encode_hello (agent_hello cfg)) w with
  | (Some e, w') => (Some (ConnErr ("write hello: " ^^ e)), w')
  | (None, w') =>
      match ws_read conn w' with
      | (inl e, w'') => (Some (ConnErr ("read hello ack: " ^^ e)), w'')
      | (inr (_, data), w'') =>
          (match decode_type data with
           | inl e => Some (ConnErr ("decode hello ack: " ^^ e))
           | inr typ =>
               if negb (typ =s "") && negb (typ =s WsTypeHelloAck)
               then Some (ConnErr ("expected " ^^ WsTypeHelloAck ^^ " frame, got " ^^ quoted typ))
               else
                 match decode_ack data with
                 | inl e => Some (ConnErr ("decode hello ack: " ^^ e))
                 | inr ack =>
                     if negb (HelloAck_Accepted ack) then
                       let msg := "hello rejected: " ^^ HelloAck_Message ack in
                       if smellsAuth (HelloAck_Message ack) then Some (AuthErr msg) else Some (ConnErr msg)
                     else None
                 end
           end, w'')
      end
  end.

(** One frame of [readLoop]: a command without handler is logged with its ID,
    which panics when it is nil. *)
Definition dispatch (conn : nat) (text : bool) (data : string) (c : Client) : outcome Client :=
  if negb text then Done c
  else
    match decode_type data with
    | inl _ => Done c
    | inr typ =>
        if typ =s WsTypeCommand then
          match decode_command data with
          | None => Done c
          | Some cmd =>
              if c_handler c then Done (log_event (WCommand conn cmd) c)
              else match cmd with None => Panic | Some _ => Done c end
          end
        else Done c
    end.

(** [readLoop] until the connection drops; [fuel] bounds the frames read, and
    [None] in the result means there are more. *)
Fixpoint readLoop (fuel : nat) (conn : nat) (c : Client) (w : W) : outcome (option string * Client * W) :=
  match fuel with
  | O => Done (None, c, w)
  | S f =>
      match ws_read conn w with
      | (inl e, w') => Done (Some ("read: " ^^ e), c, w')
      | (inr (text, data), w') => outcome_bind (dispatch conn text data c) (fun c => readLoop f conn c w')
      end
  end.

(** The deferred clean-up of [connectOnce]. *)
Definition disconnect (conn : nat) (c : Client) : Client :=
  let c := set_connected false c in
  let c := if bool_decide (c_conn c = Some conn) then set_conn None c else c in
  log_event (WClosed conn) c.

(** [connectOnce]: the error it ends with, [None] while the read loop runs on. *)
Definition connectOnce (fuel : nat) (cfg : Config) (bo : backoff) (c : Client) (w : W)
    : outcome (option ws_error * backoff * Client * W) :=
  let url := wsURL (EndpointBase cfg) in
  match ws_dial url w with
  | (inl e, w) => Done (Some (ConnErr ("dial " ^^ url ^^ ": " ^^ e)), bo, c, w)
  | (inr conn, w) =>
      let w := ws_limit conn readLimit w in
      let c := log_event (WHello conn (hello_reply cfg conn w)) c in
      match handshake cfg conn w with
      | (Some e, w) => Done (Some e, bo, log_event (WClosed conn) c, ws_close conn w)
      | (None, w) =>
          let bo := reset bo in
          let c := set_connected true (set_conn (Some conn) c) in
          outcome_bind (readLoop fuel conn c w) (fun '(e, c, w) =>
            match e with
            | None => Done (None, bo, c, w)
            | Some e => Done (Some (ConnErr e), bo, disconnect conn c, ws_close conn w)
            end)
      end
  end.

(** One failed attempt in [Run]: the sleep before the next. *)
Definition after_failure (k : Z) (e : ws_error) (bo : backoff) : Z * backoff :=
  next k (match e with AuthErr _ => mkBackoff (bo_d bo) true | ConnErr _ => bo end).

(** One tick of [keepalive]: whether it closes the connection, and the new time
    of last activity. *)
Definition keepalive_tick (now lastActivity : Time) (silenceAfter : Z) (pong : option Time) : bool * Time :=
  if silenceAfter <? Sub now lastActivity then (true, lastActivity)
  else match pong with None => (true, lastActivity) | Some t => (false, t) end.

(** ** What holds on the channel *)

(** The handshake goes through exactly when the server's frame accepts the hello. *)
Lemma handshake_verdict cfg k w :
  accepted_reply (hello_reply cfg k w) = match (handshake cfg k w).1 with None => true | Some _ => false end.
Proof.
  unfold handshake, hello_reply, accepted_reply, accepts_hello.
  destruct (ws_write _ _ _) as [[e|] w1]; [done|]. destruct (ws_read k w1) as [[e|[text data]] w2]; [done|]. cbn [fst].
  destruct (decode_type data) as [e|typ]; [done|]. rewrite <- negb_orb.
  destruct (_ || _); cbn [negb andb fst]; destruct (decode_ack data) as [e|ack]; try done.
  destruct (HelloAck_Accepted ack); [done|]. by destruct (smellsAuth _).
Qed.

(** A connection in use is one whose hello was answered by a frame that accepts
    it, and is not closed. *)
Definition live_conn (h : list ws_event) (k : nat) : Prop :=
  exists pre data post, h = pre ++ WHello k (Some data) :: post /\ accepts_hello data = true /\ WClosed k ∉ post.

(** Commands and reports pass over accepted, open connections only. *)
Definition channel_ok (h : list ws_event) : Prop :=
  forall pre e post, h = pre ++ e :: post ->
    match e with
    | WCommand k _ | WReport k _ => live_conn pre k
    | _ => True
    end.

Lemma live_conn_snoc h k e : live_conn h k -> e <> WClosed k -> live_conn (h ++ [e]) k.
Proof.
  intros (pre & data & post & -> & Ha & Hp) He. exists pre, data, (post ++ [e]). split; [by rewrite <- app_assoc|]. split; [done|].
  rewrite elem_of_app, list_elem_of_singleton. naive_solver.
Qed.

Lemma channel_ok_snoc h e :
  channel_ok h -> match e with WCommand k _ | WReport k _ => live_conn h k | _ => True end -> channel_ok (h ++ [e]).
Proof.
  intros Hh He pre e' post Heq. destruct post as [|x post] using rev_ind.
  - apply app_inj_tail in Heq as [-> ->]. done.
  - rewrite app_comm_cons, app_assoc in Heq. apply app_inj_tail in Heq as [-> _]. by eapply Hh.
Qed.

(** The client's goroutines: the run loop, step by step through [connectOnce],
    and any number of senders.  A sender reads the flag first and the connection
    later, under the lock, so its write may come after the flag went down. *)
Inductive run_pc :=
| Idle
| Accepted (k : nat)     (* handshake done, connection not yet published *)
| Published (k : nat)    (* c.conn is set *)
| Reading (k : nat)      (* the flag is up *)
| Down (k : nat)         (* the flag is down again *)
| Cleared (k : nat).     (* c.conn is nil, the connection not yet closed *)

Record system := mkSystem { y_pc : run_pc; y_c : Client }.

(** The part of [SendReport] under the lock. *)
Definition send_locked (r : Report) (c : Client) (w : W) : option string * Client * W :=
  match c_conn c with
  | None => (Some "websocket not connected", c, w)
  | Some k =>
      match ws_write k (encode_report r) w with
      | (Some e, w') => (Some ("write report: " ^^ e), c, w')
      | (None, w') => (None, log_event (WReport k r) c, w')
      end
  end.

Inductive step (cfg : Config) : system -> system -> Prop :=
| s_handler pc c : step cfg (mkSystem pc c) (mkSystem pc (SetCommandHandler c))
| s_send pc c r w : step cfg (mkSystem pc c) (mkSystem pc (send_locked r c w).1.2)
| s_reject c k w w' e :
    handshake cfg k w = (Some e, w') ->
    step cfg (mkSystem Idle c) (mkSystem Idle (log_event (WClosed k) (log_event (WHello k (hello_reply cfg k w)) c)))
| s_accept c k w w' :
    handshake cfg k w = (None, w') ->
    step cfg (mkSystem Idle c) (mkSystem (Accepted k) (log_event (WHello k (hello_reply cfg k w)) c))
| s_publish c k : step cfg (mkSystem (Accepted k) c) (mkSystem (Published k) (set_conn (Some k) c))
| s_up c k : step cfg (mkSystem (Published k) c) (mkSystem (Reading k) (set_connected true c))
| s_frame c c' k text data :
    dispatch k text data c = Done c' -> step cfg (mkSystem (Reading k) c) (mkSystem (Reading k) c')
| s_down c k : step cfg (mkSystem (Reading k) c) (mkSystem (Down k) (set_connected false c))
| s_clear c k :
    step cfg (mkSystem (Down k) c)
      (mkSystem (Cleared k) (if bool_decide (c_conn c = Some k) then set_conn None c else c))
| s_close c k : step cfg (mkSystem (Cleared k) c) (mkSystem Idle (log_event (WClosed k) c)).

Lemma send_locked_SendReport r c w : c_connected c = true -> SendReport r c w = send_locked r c w.
Proof. intros Hc. unfold SendReport, send_locked. by rewrite Hc. Qed.

(** Where the connection and the flag stand at each point of the run loop. *)
Definition pc_ok (s : system) : Prop :=
  match y_pc s with
  | Idle => c_connected (y_c s) = false /\ c_conn (y_c s) = None
  | Accepted k => c_connected (y_c s) = false /\ c_conn (y_c s) = None /\ live_conn (c_events (y_c s)) k
  | Published k | Down k =>
      c_connected (y_c s) = false /\ c_conn (y_c s) = Some k /\ live_conn (c_events (y_c s)) k
  | Reading k => c_connected (y_c s) = true /\ c_conn (y_c s) = Some k /\ live_conn (c_events (y_c s)) k
  | Cleared k => c_connected (y_c s) = false /\ c_conn (y_c s) = None /\ live_conn (c_events (y_c s)) k
  end.

Definition sys_ok (s : system) : Prop := channel_ok (c_events (y_c s)) /\ pc_ok s.

Lemma pc_ok_log pc c e :
  pc_ok (mkSystem pc c) -> (forall k, e <> WClosed k) -> pc_ok (mkSystem pc (log_event e c)).
Proof.
  intros Hpc He. unfold pc_ok in *. cbn in *.
  destruct pc; destruct_and?; split_and?; try done; by apply live_conn_snoc.
Qed.

Lemma conn_live pc c k : pc_ok (mkSystem pc c) -> c_conn c = Some k -> live_conn (c_events c) k.
Proof. unfold pc_ok. cbn. destruct pc; naive_solver. Qed.

Lemma step_ok cfg s s' : step cfg s s' -> sys_ok s -> sys_ok s'.
Proof.
  intros Hst [Hch Hpc]. destruct Hst as [pc c|pc c r w|c k w w' e Hh|c k w w' Hh|c k|c k|c c' k text data Hd|c k|c k|c k];
    cbn [y_c] in *.
  - done.
  - unfold send_locked. destruct (c_conn c) as [k|] eqn:Hk; [|done].
    destruct (ws_write _ _ _) as [[e|] w']; cbn; [done|].
    split; [apply channel_ok_snoc; [done|]; by eapply conn_live|by apply pc_ok_log].
  - split; [by do 2 (apply channel_ok_snoc; [|done])|]. by destruct Hpc.
  - split; [by apply channel_ok_snoc|]. destruct Hpc. split_and!; [done..|].
    pose proof (handshake_verdict cfg k w) as Hv. rewrite Hh in Hv. cbn in Hv.
    destruct (hello_reply cfg k w) as [data|]; [|done]. exists (c_events c), data, []. split_and!; [done..|apply not_elem_of_nil].
  - destruct Hpc as (? & ? & ?). split; [done|]. by split_and!.
  - destruct Hpc as (? & ? & ?). split; [done|]. by split_and!.
  - unfold dispatch in Hd. destruct Hpc as (Hc & Hk & Hl).
    assert (sys_ok (mkSystem (Reading k) c)) as Hsame by (split; [done|by split_and!]).
    repeat case_match; simplify_eq; try done.
    split; [by apply channel_ok_snoc|]. apply pc_ok_log; [by split_and!|done].
  - destruct Hpc as (? & ? & ?). split; [done|]. by split_and!.
  - destruct Hpc as (? & Hk & ?). rewrite bool_decide_true by done. split; [done|]. by split_and!.
  - destruct Hpc as (? & ? & ?). split; [by apply channel_ok_snoc|]. done.
Qed.

(** C24. The fast path is only used when it is authenticated: under any
    interleaving of senders with the run loop, every command taken from the
    socket and every report written to it passes over a connection on which the
    server answered the hello with an ack that accepts it, and that the run loop
    has not closed yet; and whenever the client claims to be connected there is
    such a connection. *)
Theorem channel_authenticated cfg s :
  rtc (step cfg) (mkSystem Idle New) s ->
  channel_ok (c_events (y_c s)) /\
  (Connected (y_c s) = true -> exists k, c_conn (y_c s) = Some k /\ live_conn (c_events (y_c s)) k).
Proof.
  intros Hr. assert (sys_ok s) as [Hch Hpc].
  { assert (sys_ok (mkSystem Idle New)) as Hinit by (split; [intros pre e post Hp; by destruct pre|done]).
    induction Hr as [|s1 s2 s3 H12 _ IH]; eauto using step_ok. }
  split; [done|]. unfold Connected. intros Hc. unfold pc_ok in Hpc.
  destruct (y_pc s); destruct_and?; solve [congruence|eauto].
Qed.
(** The read loop is a sequence of frame steps. *)
Lemma readLoop_steps cfg fuel k c w e c' w' :
  readLoop fuel k c w = Done (e, c', w') -> rtc (step cfg) (mkSystem (Reading k) c) (mkSystem (Reading k) c').
Proof.
  revert c w. induction fuel as [|fuel IH]; intros c w Hr; cbn [readLoop] in Hr; [by simplify_eq|].
  destruct (ws_read k w) as [[e1|[text data]] w1]; [by simplify_eq|].
  destruct (dispatch k text data c) as [c1|] eqn:Hd; [|done]. cbn [outcome_bind] in Hr.
  eapply rtc_l; [by apply (s_frame cfg c c1 k text data)|]. by eapply IH.
Qed.

(** [connectOnce] takes the steps of the run loop: what holds of reachable
    states holds before, during and after each connection. *)
Lemma connectOnce_steps fuel cfg bo c w e bo' c' w' :
  connectOnce fuel cfg bo c w = Done (e, bo', c', w') ->
  exists pc, rtc (step cfg) (mkSystem Idle c) (mkSystem pc c') /\ (e <> None -> pc = Idle).
Proof.
  unfold connectOnce. destruct (ws_dial _ w) as [[e0|k] w1].
  { intros ?; simplify_eq. by exists Idle. }
  set (w1' := ws_limit k readLimit w1). cbv zeta. destruct (handshake cfg k w1') as [[e1|] w2] eqn:Hh.
  { intros ?; simplify_eq. exists Idle. split; [|done]. by eapply rtc_once, s_reject. }
  destruct (readLoop _ _ _ _) as [[[er c1] w3]|] eqn:Hr; [|done]. cbn [outcome_bind].
  apply (readLoop_steps cfg) in Hr.
  assert (rtc (step cfg) (mkSystem Idle c) (mkSystem (Reading k) c1)) as Hread.
  { eapply rtc_l; [by eapply s_accept|]. eapply rtc_l; [apply s_publish|]. eapply rtc_l; [apply s_up|exact Hr]. }
  destruct er as [er|]; intros ?; simplify_eq; [|by exists (Reading k)].
  exists Idle. split; [|done]. etransitivity; [exact Hread|].
  eapply rtc_l; [apply s_down|]. eapply rtc_l; [apply s_clear|]. apply rtc_once, s_close.
Qed.

(** The receiver's push channel. *)
#[export] Instance ws_push : PushChannel (Client * W) := {
  Receiver.Connected p := c_connected p.1;
  Receiver.SendReport r p := let '(e, c, w) := SendReport r p.1 p.2 in (e, (c, w));
}.

End WsClient.

Module WsExample.
(** A server that accepts every hello and sends nothing. *)
#[export] Instance accepting : Sockets unit := {
  ws_dial _ w := (inr 1%nat, w);
  ws_limit _ _ w := w;
  ws_write _ _ w := (None, w);
  ws_read _ w := (inr (true, "{}"), w);
  ws_close _ w := w;
}.
#[export] Instance frames : Frames := {
  encode_hello _ := "hello";
  encode_report _ := "report";
  decode_type _ := inr "";
  decode_ack _ := inr (mkWsHelloAck "" true "");
  decode_command _ := None;
  decode_error _ := None;
}.

Definition up : Client := set_connected true (set_conn (Some 1%nat) (log_event (WHello 1 (Some "{}")) New)).

Lemma up_reachable : rtc (step sample_config) (mkSystem Idle New) (mkSystem (Reading 1) up).
Proof.
  eapply rtc_l; [by apply (s_accept sample_config New 1 tt tt)|]. eapply rtc_l; [apply s_publish|].
  eapply rtc_l; [apply s_up|]. apply rtc_refl.
Qed.

Lemma channel_authenticated_witness :
  channel_ok (c_events up) /\
  (Connected up = true -> exists k, c_conn up = Some k /\ live_conn (c_events up) k).
Proof. apply (channel_authenticated sample_config (mkSystem (Reading 1) up) up_reachable). Defined.

Example urls : (wsURL "https://cp.example/audit_ready/", wsURL "http://localhost:8080")
  = ("wss://cp.example/audit_ready/k8s/ws", "ws://localhost:8080/k8s/ws").
Proof. vm_compute. reflexivity. Qed.
End WsExample.
