(* ===== verification/WsLoops.v ===== *)
(** * internal/wsclient: the loops of the client

    [Run], which reconnects for ever with growing delays, and the keepalive
    goroutine beside the read loop: a ping per tick of a 25-second ticker, each
    given 30 seconds for its pong, and a close when the socket has been silent for
    60 seconds.  The rounds of the keepalive carry the clock readings;
    [well_timed] is what the ticker, the timeout of the ping and the read loop
    guarantee about them. *)

From S2P Require Import Prelude GoStrings GoTime Protocol Config Metrics Backoff Receiver WsClient.
Local Open Scope Z_scope.

(** ** The client's own backoff

    wsclient.go has a copy of the receiver's type; the model uses the definitions
    of [Backoff] for both. *)
Module WsBackoff.
Definition backoffMin : Z := Second.
Definition backoffMax : Z := 30 * Second.

Definition next (k : Z) (b : backoff) : Z * backoff :=
  let held := if bo_d b <? backoffMin then backoffMin else bo_d b in
  let doubled := wrap64 (held * 2) in
  (held + jitter k held, mkBackoff (if backoffMax <? doubled then backoffMax else doubled) (bo_authLogged b)).

Definition reset (b : backoff) : backoff := mkBackoff 0 false.

Lemma same_backoff k b : next k b = Backoff.next k b /\ reset b = Backoff.reset b.
Proof. split; reflexivity. Qed.
End WsBackoff.

(** ** Reconnecting *)

Section Run.
Context {W : Type} `{!Sockets W} `{!Frames}.

(** What the environment does around one attempt: whether the context is done
    when it ends, the random draw of the delay, and whether the sleep ran to its
    end. *)
Record around := mkAround { ar_cancelled : bool; ar_draw : Z; ar_slept : bool }.

(** What one attempt did on the channel, and the delay after it. *)
Record attempt := mkAttempt { at_events : list ws_event; at_delay : Z }.

(** [Run]: at most [fuel] attempts of at most [frames] frames each; the attempts
    that were followed by a delay. *)
Fixpoint Run (fuel frames : nat) (cfg : Config) (env : nat -> around) (i : nat) (bo : backoff) (c : Client) (w : W)
    : outcome (list attempt * Client * W) :=
  match fuel with
  | O => Done ([], c, w)
  | S f =>
      outcome_bind (connectOnce frames cfg bo c w) (fun '(e, bo, c', w) =>
        match e with
        | None => Done ([], c', w)
        | Some e =>
            if ar_cancelled (env i) then Done ([], c', w)
            else
              let '(d, bo) := after_failure (ar_draw (env i)) e bo in
              let a := mkAttempt (drop (length (c_events c)) (c_events c')) d in
              if negb (ar_slept (env i)) then Done ([a], c', w)
              else outcome_bind (Run f frames cfg env (S i) bo c' w) (fun '(l, c, w) => Done (a :: l, c, w))
        end)
  end.

(** Whether the server's answer to the hello of an attempt accepted it. *)
Definition was_accepted (a : attempt) : bool :=
  existsb (fun e => match e with WHello _ reply => accepted_reply reply | _ => false end) (at_events a).

(** Delays of a run of attempts when [j] attempts have failed since the last
    accepted connection: doubling from one second up to thirty, within 20
    percent, and from one second again after an accepted connection. *)
Fixpoint delays_ok (j : nat) (l : list attempt) : Prop :=
  match l with
  | [] => True
  | a :: l' =>
      let j := if was_accepted a then 0%nat else j in
      8 * base_delay j <= 10 * at_delay a <= 12 * base_delay j /\ delays_ok (S j) l'
  end.

Lemma after_failure_holds k e bo j :
  float64_draw k -> holds bo j ->
  holds (after_failure k e bo).2 (S j) /\
  8 * base_delay j <= 10 * (after_failure k e bo).1 <= 12 * base_delay j.
Proof. intros Hk Hb. unfold after_failure. destruct e; by apply next_holds. Qed.

(** The events an attempt adds. *)
Lemma dispatch_events k text data c c' :
  dispatch k text data c = Done c' -> exists es, c_events c' = c_events c ++ es.
Proof.
  unfold dispatch. intros Hd. repeat case_match; simplify_eq; (by exists []; rewrite app_nil_r) || by eexists.
Qed.

Lemma readLoop_events fuel k c w e c' w' :
  readLoop fuel k c w = Done (e, c', w') -> exists es, c_events c' = c_events c ++ es.
Proof.
  revert c w. induction fuel as [|f IH]; intros c w Hr; cbn [readLoop] in Hr.
  { simplify_eq. exists []. by rewrite app_nil_r. }
  destruct (ws_read k w) as [[e1|[text data]] w1]; [simplify_eq; exists []; by rewrite app_nil_r|].
  destruct (dispatch k text data c) as [c1|] eqn:Hd; [|done]. cbn [outcome_bind] in Hr.
  apply dispatch_events in Hd as [es1 Hd]. apply IH in Hr as [es2 Hr].
  exists (es1 ++ es2). by rewrite Hr, Hd, app_assoc.
Qed.

(** An attempt resets the backoff exactly when its hello was accepted. *)
Lemma connectOnce_backoff frames cfg bo c w e bo' c' w' d :
  connectOnce frames cfg bo c w = Done (e, bo', c', w') ->
  let a := mkAttempt (drop (length (c_events c)) (c_events c')) d in
  bo' = if was_accepted a then reset bo else bo.
Proof.
  assert (forall es, c_events c' = c_events c ++ es -> drop (length (c_events c)) (c_events c') = es) as Hdrop.
  { intros es ->. by rewrite drop_app_length. }
  unfold connectOnce, was_accepted. cbn [at_events]. destruct (ws_dial _ w) as [[e0|k] w1]; intros Hc.
  { simplify_eq. rewrite (Hdrop []); [done|by rewrite app_nil_r]. }
  set (w1' := ws_limit k readLimit w1) in Hc. pose proof (handshake_verdict cfg k w1') as Hv. cbv zeta in Hc.
  set (reply := hello_reply cfg k w1') in *.
  destruct (handshake cfg k w1') as [[e1|] w2]; cbn [fst] in Hv.
  { simplify_eq. rewrite (Hdrop [WHello k reply; WClosed k]); [cbn; by rewrite Hv|]. cbn. by rewrite <- app_assoc. }
  destruct (readLoop _ _ _ _) as [[[er c1] w3]|] eqn:Hr; [|done]. cbn [outcome_bind] in Hc.
  apply readLoop_events in Hr as [es Hr]. cbn in Hr. rewrite <- app_assoc in Hr.
  assert (exists es', c_events c' = c_events c ++ WHello k reply :: es') as [es' Hes].
  { destruct er as [er|]; simplify_eq; [|by exists es]. exists (es ++ [WClosed k]).
    unfold disconnect. case_match; cbn; rewrite Hr; by rewrite <- app_assoc. }
  rewrite (Hdrop _ Hes). cbn [existsb]. rewrite Hv. by destruct er; simplify_eq.
Qed.

(** C37. The client reconnects for ever with bounded delays: whatever the server
    and the network do, the delay after the [j]-th attempt since the last accepted
    connection is [min(2^j s, 30 s)] within 20 percent, so a dropped connection is
    retried after about a second and a dead server at most every 36 seconds. *)
Theorem reconnect_delays fuel frames cfg env c w l c' w' :
  (forall i, float64_draw (ar_draw (env i))) ->
  Run fuel frames cfg env 0 new_backoff c w = Done (l, c', w') -> delays_ok 0 l.
Proof.
  intros Hdraw. assert (holds new_backoff 0) as Hh by reflexivity. revert Hh.
  generalize 0%nat at 1 3 as j. generalize 0%nat as i. generalize new_backoff as bo. intros bo i j Hh Hr.
  revert bo i j c w l Hh Hr. induction fuel as [|f IH]; intros bo i j c w l Hh Hr; cbn [Run] in Hr; [by simplify_eq|].
  destruct (connectOnce frames cfg bo c w) as [[[[[e|] bo1] c1] w1]|] eqn:Hc; [|by cbn in Hr; simplify_eq|done].
  cbn [outcome_bind] in Hr. destruct (ar_cancelled (env i)); [by simplify_eq|].
  pose proof (connectOnce_backoff _ _ _ _ _ _ _ _ _ (after_failure (ar_draw (env i)) e bo1).1 Hc) as Hb.
  cbv zeta in Hb. set (a := mkAttempt _ _) in Hb. set (j' := if was_accepted a then 0%nat else j).
  assert (holds bo1 j') as Hh1 by (rewrite Hb; unfold j'; by destruct (was_accepted a)).
  destruct (after_failure_holds _ e _ _ (Hdraw i) Hh1) as [Hnext Hdelay].
  destruct (after_failure (ar_draw (env i)) e bo1) as [d bo2]. cbn [fst snd] in *. fold a in Hr.
  destruct (ar_slept (env i)); cbn [negb] in Hr.
  - destruct (Run f frames cfg env (S i) bo2 c1 w1) as [[[l' c2] w2]|] eqn:Hrun; [|done]. cbn in Hr. simplify_eq.
    split; [exact Hdelay|]. by eapply IH.
  - simplify_eq. split; [exact Hdelay|done].
Qed.
End Run.

(** ** The keepalive *)

(** One tick: when it is handled, the last activity recorded at that time (by the
    read loop or by the last pong), and the clock when its pong was read. *)
Record round := mkRound { k_now : Time; k_heard : Time; k_pong : option Time }.

Inductive verdict := SilentTooLong | PongMissing.

(** [keepalive]: the round that closes the connection, and why. *)
Fixpoint keepalive (silenceAfter : Z) (rounds : list round) : option (round * verdict) :=
  match rounds with
  | [] => None
  | r :: rounds' =>
      if fst (keepalive_tick (k_now r) (k_heard r) silenceAfter (k_pong r)) then
        Some (r, if silenceAfter <? Sub (k_now r) (k_heard r) then SilentTooLong else PongMissing)
      else keepalive silenceAfter rounds'
  end.

(** The rounds of a connection since the activity at [last]: a tick comes at most
    [pingEvery] after the previous pong, activity only moves forward, and a pong
    arrives within [pongWithin] or not at all. *)
Fixpoint well_timed (pingEvery pongWithin : Z) (last : Time) (rounds : list round) : Prop :=
  match rounds with
  | [] => True
  | r :: rounds' =>
      sane (k_now r) /\ sane (k_heard r) /\
      instant last <= instant (k_heard r) <= instant (k_now r) /\
      instant (k_now r) <= instant last + pingEvery /\
      match k_pong r with
      | None => True
      | Some t => instant (k_now r) <= instant t <= instant (k_now r) + pongWithin /\
                  well_timed pingEvery pongWithin t rounds'
      end
  end.

(** The first ping that gets no pong, and the pong before it. *)
Fixpoint first_unanswered (last : Time) (rounds : list round) : option (round * Time) :=
  match rounds with
  | [] => None
  | r :: rounds' =>
      match k_pong r with
      | None => Some (r, last)
      | Some t => first_unanswered t rounds'
      end
  end.

Lemma sane_int64 t : sane t -> in_int64 (t_sec t) /\ 0 <= t_nsec t < Second.
Proof. unfold sane, in_int64, int64_min, int64_max, unixToInternal. lia. Qed.

Lemma not_silent r silenceAfter :
  sane (k_now r) -> sane (k_heard r) -> 0 <= silenceAfter <= Hour ->
  0 <= instant (k_now r) - instant (k_heard r) <= silenceAfter ->
  (silenceAfter <? Sub (k_now r) (k_heard r)) = false.
Proof.
  intros Hn Hh Hs Hd. apply Z.ltb_ge. destruct (sane_int64 _ Hh) as [Hi Hns].
  apply (Sub_window (k_now r) (k_heard r) silenceAfter Hn Hi Hns Hs). lia.
Qed.

(** The keepalive closes the connection exactly at the first ping that gets
    no pong, and never for silence: with pings every 25 seconds the 60 seconds of
    the silence limit are never reached.  A peer that goes away is noticed at most
    55 seconds after its last pong (or after the connection was made). *)
Theorem keepalive_closes_at_lost_pong start rounds :
  well_timed pingInterval pongTimeout start rounds ->
  match first_unanswered start rounds with
  | None => keepalive silenceTimeout rounds = None
  | Some (r, last) =>
      keepalive silenceTimeout rounds = Some (r, PongMissing) /\
      instant (k_now r) + pongTimeout <= instant last + 55 * Second
  end.
Proof.
  revert start. induction rounds as [|r rounds IH]; intros start Hw; [done|].
  cbn [well_timed] in Hw. destruct Hw as (Hn & Hh & Hmono & Htick & Hp).
  assert ((silenceTimeout <? Sub (k_now r) (k_heard r)) = false) as Hq.
  { apply not_silent; [done..| |]; unfold silenceTimeout, pingInterval, Hour, Minute, Second in *; lia. }
  cbn [first_unanswered keepalive]. unfold keepalive_tick. rewrite Hq.
  destruct (k_pong r) as [t|]; cbn [fst].
  - destruct Hp as [_ Hw]. by apply IH.
  - split; [done|]. unfold pingInterval, pongTimeout, Second in *. lia.
Qed.

(** ** A connection whose peer dies *)
Module KeepaliveExample.
Definition at_ (sec : Z) : Time := mkTime (1700000000 + unixToInternal + sec) 0.

(** Two pings are answered, the third is not. *)
Definition rounds : list round :=
  [mkRound (at_ 25) (at_ 3) (Some (at_ 26)); mkRound (at_ 50) (at_ 48) (Some (at_ 79)); mkRound (at_ 79) (at_ 79) None].

Lemma rounds_well_timed : well_timed pingInterval pongTimeout (at_ 0) rounds.
Proof. unfold sane. cbn. unfold sane. vm_compute. intuition (discriminate || reflexivity). Qed.

Lemma keepalive_closes_at_lost_pong_witness :
  keepalive silenceTimeout rounds = Some (mkRound (at_ 79) (at_ 79) None, PongMissing) /\
  instant (at_ 79) + pongTimeout <= instant (at_ 79) + 55 * Second.
Proof. exact (keepalive_closes_at_lost_pong (at_ 0) rounds rounds_well_timed). Defined.
End KeepaliveExample.

(** ** A server that is down *)
Module RunExample.
#[local] Existing Instance WsExample.frames.
#[local] Instance refused : Sockets unit := {
  ws_dial _ w := (inl "connection refused", w);
  ws_limit _ _ w := w;
  ws_write _ _ w := (Some "closed", w);
  ws_read _ w := (inl "closed", w);
  ws_close _ w := w;
}.
Definition calm (_ : nat) : around := mkAround false (2 ^ 52) true.
Definition tries : list attempt := [mkAttempt [] Second; mkAttempt [] (2 * Second); mkAttempt [] (4 * Second)].

Lemma reconnect_delays_witness : delays_ok 0 tries.
Proof.
  apply (@reconnect_delays unit refused WsExample.frames 3 10 sample_config calm WsClient.New tt tries WsClient.New tt);
    [intros i; split; [discriminate|reflexivity]|vm_compute; reflexivity].
Defined.
End RunExample.
