(* ===== verification/HealthServer.v ===== *)
(** * internal/server and the readiness loop of the operator

    The health endpoints on their flag, and the goroutine of
    cmd/operator/main.go that raises the flag once every informer cache has
    synced, beside the informers themselves. *)

From S2P Require Import Prelude GoStrings GoTime Json Protocol Metrics Unstructured Cluster Informers.
Local Open Scope Z_scope.

Module Health.
Record State := mkState { ready : bool }.

Definition New : State := mkState false.
Definition SetReady (b : bool) (s : State) : State := mkState b.

(** [writeJSON]: the status code and the encoded body, which json.Encoder ends
    with a newline. *)
Definition writeJSON (code : Z) (v : gmap string string) : Z * string :=
  (code, marshal_obj (JStr <$> v) ^^ nl).

(** [Handler]; [metrics_page] is the page promhttp renders for the registry, and
    an unregistered path is the ServeMux's 404. *)
Definition Handler (s : State) (metrics_page path : string) : Z * string :=
  if path =s "/metrics" then (200, metrics_page)
  else if path =s "/healthz" then writeJSON 200 {[ "status" := "ok" ]}
  else if path =s "/readyz" then
    if negb (ready s) then writeJSON 503 {[ "status" := "caches syncing" ]}
    else writeJSON 200 {[ "status" := "ok" ]}
  else (404, "404 page not found" ^^ nl).
End Health.

(** ** Readiness *)

Section Readiness.
Context `{Unstructured}.

(** The informers, the health server, whether the readiness goroutine is still
    ticking, and whether the tunnel has ever been up. *)
Record readiness := mkReadiness {
  rd_manager : Manager;
  rd_health : Health.State;
  rd_waiting : bool;
  rd_tunnel : bool;
}.

(** One tick of the readiness goroutine, which returns after the first success. *)
Definition readiness_tick (s : readiness) : readiness :=
  if rd_waiting s && HasSynced (rd_manager s)
  then mkReadiness (rd_manager s) (Health.SetReady true (rd_health s)) false (rd_tunnel s)
  else s.

Definition readiness_start (m : Manager) : readiness := mkReadiness m Health.New true false.

(** What client-go does to an informer: its store changes, and once synced it
    stays synced. *)
Definition informer_moves (i i' : informer) : Prop :=
  i_GVR i' = i_GVR i /\ (i_synced i = true -> i_synced i' = true).

Inductive ready_step : readiness -> readiness -> Prop :=
| rd_informers s infs :
    Forall2 informer_moves (m_informers (rd_manager s)) infs ->
    ready_step s (mkReadiness (with_informers infs (rd_manager s)) (rd_health s) (rd_waiting s) (rd_tunnel s))
| rd_handle s op w o now :
    ready_step s (mkReadiness (handle op w o now (rd_manager s)) (rd_health s) (rd_waiting s) (rd_tunnel s))
| rd_connect s : ready_step s (mkReadiness (rd_manager s) (rd_health s) (rd_waiting s) true)
| rd_tick s : ready_step s (readiness_tick s).

Definition readyz (s : readiness) (page : string) : Z := (Health.Handler (rd_health s) page "/readyz").1.

Lemma readyz_200 s page : readyz s page = 200 <-> Health.ready (rd_health s) = true.
Proof. unfold readyz, Health.Handler. destruct (Health.ready _); cbn; naive_solver. Qed.

Lemma HasSynced_spec m :
  HasSynced m = true <-> m_informers m <> [] /\ Forall (fun i => i_synced i = true) (m_informers m).
Proof.
  unfold HasSynced. destruct (m_informers m) as [|i infs]; [naive_solver|]. cbn [length Nat.eqb].
  rewrite forallb_forall, Forall_forall. split; [intros Hf; split; [done|]|intros [_ Hf]];
    intros x Hx; apply Hf; by apply list_elem_of_In.
Qed.

Lemma HasSynced_moves m infs :
  Forall2 informer_moves (m_informers m) infs -> HasSynced m = true -> HasSynced (with_informers infs m) = true.
Proof.
  intros H2. rewrite !HasSynced_spec. cbn [with_informers m_informers].
  intros [Hne Hall]. split.
  - intros ->. apply Forall2_nil_inv_r in H2. done.
  - clear Hne. induction H2 as [|i i' l l' [_ Hi] _ IH]; [constructor|].
    apply Forall_cons in Hall as [? ?]. constructor; auto.
Qed.

Lemma handle_informers op w o now m : m_informers (handle op w o now m) = m_informers m.
Proof. unfold handle. by destruct (toEvent _ _ _ _ _). Qed.

(** The flag is down while the goroutine ticks, and up only over synced caches. *)
Definition ready_inv (s : readiness) : Prop :=
  (rd_waiting s = true /\ Health.ready (rd_health s) = false) \/
  (rd_waiting s = false /\ Health.ready (rd_health s) = true /\ HasSynced (rd_manager s) = true).

Lemma ready_step_inv s s' : ready_step s s' -> ready_inv s -> ready_inv s'.
Proof.
  unfold ready_inv. destruct 1 as [s infs Hm|s op w o now|s|s]; cbn; intros Hinv; [| |done|].
  - destruct Hinv as [?|(? & ? & ?)]; [by left|right]. eauto using HasSynced_moves.
  - destruct Hinv as [?|(? & ? & Hs)]; [by left|right]. split_and!; [done..|].
    unfold HasSynced in *. by rewrite handle_informers.
  - unfold readiness_tick. destruct Hinv as [[Hw Hr]|(Hw & Hr & Hs)]; rewrite Hw; cbn [andb].
    + destruct (HasSynced (rd_manager s)) eqn:E; [right|left]; done.
    + right. done.
Qed.

Lemma ready_reachable_inv m s : rtc ready_step (readiness_start m) s -> ready_inv s.
Proof.
  assert (ready_inv (readiness_start m)) as Hinit by by left.
  intros Hr. induction Hr as [|s1 s2 s3 H12 _ IH]; eauto using ready_step_inv.
Qed.

(** Readiness means synced caches: whatever informers, notifications and
    the tunnel do, /readyz answers 200 only when there is an informer and every
    one of them has synced; once they all have, one tick of the readiness
    goroutine makes it answer 200, and no later step takes that back. *)
Theorem ready_means_synced m s page :
  rtc ready_step (readiness_start m) s ->
  (readyz s page = 200 ->
     m_informers (rd_manager s) <> [] /\ Forall (fun i => i_synced i = true) (m_informers (rd_manager s))) /\
  (HasSynced (rd_manager s) = true -> readyz (readiness_tick s) page = 200) /\
  (forall s', ready_step s s' -> readyz s page = 200 -> readyz s' page = 200).
Proof.
  intros Hr. apply ready_reachable_inv in Hr as Hinv. rewrite !readyz_200. split_and!.
  - intros Hs. apply HasSynced_spec. destruct Hinv as [[_ ?]|(_ & _ & ?)]; congruence.
  - intros Hs. unfold readiness_tick. rewrite Hs.
    destruct Hinv as [[Hw _]|(Hw & Hr' & _)]; by rewrite Hw.
  - intros s' Hst. rewrite !readyz_200. intros Hs. apply ready_step_inv in Hst as Hinv'; [|done].
    destruct Hst; cbn in *; try done. unfold readiness_tick. by destruct (_ && _).
Qed.
End Readiness.

Module ReadinessExample.
Import ReferenceUnstructured.

Definition one (synced : bool) : Manager :=
  mkManager [mkInformer (gvr "" "v1" "pods") [] synced] (fun _ => false) ∅ [].
Definition after : readiness := readiness_tick (mkReadiness (one true) Health.New true false).

Lemma after_reachable : rtc ready_step (readiness_start (one false)) after.
Proof.
  eapply rtc_l; [apply (rd_informers _ [mkInformer (gvr "" "v1" "pods") [] true]); by repeat constructor|].
  apply rtc_once. apply (rd_tick (mkReadiness (one true) Health.New true false)).
Qed.

Lemma ready_means_synced_witness :
  (readyz after "" = 200 ->
     m_informers (rd_manager after) <> [] /\
     Forall (fun i => i_synced i = true) (m_informers (rd_manager after))) /\
  (HasSynced (rd_manager after) = true -> readyz (readiness_tick after) "" = 200) /\
  (forall s', ready_step after s' -> readyz after "" = 200 -> readyz s' "" = 200).
Proof. apply (ready_means_synced (one false) after ""). exact after_reachable. Defined.

(** /readyz does not wait for the tunnel: it can answer 200 although the agent
    never had a connection to the control plane. *)
Lemma ready_without_tunnel : exists s, rtc ready_step (readiness_start (one false)) s /\
  rd_tunnel s = false /\ readyz s "" = 200.
Proof. exists after. split; [exact after_reachable|]. by split. Qed.
End ReadinessExample.
