(* ===== verification/Startup.v ===== *)
(** * cmd/operator: start-up

    [run] up to the start of the goroutines: the configuration, the Kubernetes
    credentials of the read and the write path, the read-only decision, and the
    components wired together.  client-go's constructors are the class
    [KubeClients]. *)

From Stdlib Require Import Ascii.
From S2P Require Import Prelude GoStrings GoTime Protocol Config Metrics NonceCache Receiver Uploader Unstructured Cluster Informers HttpClient WsClient HealthServer.

(** ** Paths (path/filepath) *)

(** One component in Clean; the stack has the last component first. *)
Definition clean_step (rooted : bool) (stack : list string) (c : string) : list string :=
  if (c =s "") || (c =s ".") then stack
  else if c =s ".." then
    match stack with
    | t :: rest => if t =s ".." then ".." :: stack else rest
    | [] => if rooted then [] else [".."]
    end
  else c :: stack.

Definition Clean (p : string) : string :=
  let rooted := HasPrefix p "/" in
  let comps := rev (fold_left (clean_step rooted) (Split "/" p) []) in
  if rooted then "/" ^^ Join comps "/"
  else match comps with [] => "." | _ => Join comps "/" end.

Definition Dir (p : string) : string :=
  Clean (trim_right (fun c => negb (Ascii.eqb c "/")) p).

(** filepath.Join of a non-empty directory and a file name. *)
Definition path_join (dir file : string) : string := Clean (dir ^^ "/" ^^ file).

(** net.JoinHostPort. *)
Definition JoinHostPort (host port : string) : string :=
  if Contains host ":" then "[" ^^ host ^^ "]:" ^^ port else host ^^ ":" ^^ port.

Example paths :
  (path_join (Dir "/var/run/secrets/agent-writer/token") "ca.crt", path_join (Dir "token") "ca.crt",
   path_join (Dir "/a/../token") "ca.crt")
  = ("/var/run/secrets/agent-writer/ca.crt", "ca.crt", "/ca.crt").
Proof. vm_compute. reflexivity. Qed.

(** ** Kubernetes credentials *)

(** rest.Config: one a library function built, or the literal of main.go. *)
Inductive rest_config (K : Type) :=
| Built (k : K)
| TokenFile (Host BearerTokenFile CAFile : string).
Arguments Built {K} _.
Arguments TokenFile {K} _ _ _.

Class KubeClients (K : Type) := {
  BuildConfigFromFlags : string -> string + K;
  InClusterConfig : string + K;
  dynamic_NewForConfig : rest_config K -> option string;
  discovery_NewForConfig : rest_config K -> option string;
  kubernetes_NewForConfig : rest_config K -> option string;
}.

Section Startup.
Context {K : Type} `{!KubeClients K} `{!Unstructured}.
Context {W : Type} `{!Sockets W} `{!Frames} `{!Ed25519}.
(** The process environment and the files that exist. *)
Variable Getenv : string -> string.
Variable Stat : string -> bool.

Definition built (r : string + K) : string + rest_config K :=
  match r with inl e => inl e | inr k => inr (Built k) end.

Definition kubeConfigFor (tokenPath : string) : string + rest_config K :=
  let kubeconfig := Getenv "KUBECONFIG" in
  if negb (kubeconfig =s "") then built (BuildConfigFromFlags kubeconfig)
  else
    let host := Getenv "KUBERNETES_SERVICE_HOST" in
    let port := Getenv "KUBERNETES_SERVICE_PORT" in
    if (host =s "") || (port =s "")
    then inl "not in a cluster (KUBERNETES_SERVICE_HOST/PORT unset) and KUBECONFIG is not set"
    else
      let caFile := path_join (Dir tokenPath) "ca.crt" in
      if negb (Stat caFile) then built InClusterConfig
      else inr (TokenFile ("https://" ^^ JoinHostPort host port) tokenPath caFile).

Definition set_WriterEnabled (c : Config) (b : bool) : Config :=
  {| ServerEndpoint := ServerEndpoint c; ServerToken := ServerToken c; ServerPublicKey := ServerPublicKey c;
     ClusterID := ClusterID c; PollInterval := PollInterval c; WSEnabled := WSEnabled c;
     ReaderTokenPath := ReaderTokenPath c; WriterTokenPath := WriterTokenPath c;
     SpillDir := SpillDir c; WriterEnabled := b; DryRunFirst := DryRunFirst c;
     DriftPolicy := DriftPolicy c; AllowDelete := AllowDelete c;
     InformersEnabled := InformersEnabled c; ProtectedNamespaces := ProtectedNamespaces c;
     MetricsAddr := MetricsAddr c; LogLevel := LogLevel c;
     DrainStallTimeout := DrainStallTimeout c |}.

(** The read-only decision. *)
Definition writer_available (cfg : Config) : bool :=
  if negb (Stat (WriterTokenPath cfg)) && (Getenv "KUBECONFIG" =s "") then false else WriterEnabled cfg.

(** The wired agent; the executor is represented by its credentials. *)
Record Agent := mkAgent {
  a_cfg : Config;
  a_reader : rest_config K;
  a_exec : option (rest_config K);
  a_client : HttpClient.Client;
  a_upload : Uploader;
  a_manager : Manager;
  a_recv : Receiver (WsClient.Client * W);
  a_health : Health.State;
}.

Definition check (e : option string) (msg : string) : string + unit :=
  match e with Some e => inl (msg ^^ ": " ^^ e) | None => inr tt end.
Definition wrap {A} (r : string + A) (msg : string) : string + A :=
  match r with inl e => inl (msg ^^ ": " ^^ e) | inr a => inr a end.
Definition try {A B} (r : string + A) (f : A -> string + B) : string + B :=
  match r with inl e => inl e | inr a => f a end.

(** The write path. *)
Definition build_executor (cfg : Config) : string + option (rest_config K) :=
  if WriterEnabled cfg then
    try (wrap (kubeConfigFor (WriterTokenPath cfg)) "writer kube config") (fun writerCfg =>
    try (check (dynamic_NewForConfig writerCfg) "writer dynamic client") (fun _ =>
    try (check (kubernetes_NewForConfig writerCfg) "writer clientset") (fun _ => inr (Some writerCfg))))
  else inr None.

(** [receiver.New] registers its handler with the push channel. *)
Definition push_channel (cfg : Config) (w : W) : option (WsClient.Client * W) :=
  if WSEnabled cfg then Some (SetCommandHandler WsClient.New, w) else None.

(** [run] until the goroutines start: [d] the files of the uploader, [disco] and
    [added] the answers of discovery and of the informer factory. *)
Definition run (d : disk) (disco : string -> string + list string) (added : WatchedResource -> bool)
    (now : Time) (w : W) : string + Agent :=
  try (Load Getenv) (fun cfg =>
  try (wrap (kubeConfigFor (ReaderTokenPath cfg)) "reader kube config") (fun readerCfg =>
  try (check (dynamic_NewForConfig readerCfg) "reader dynamic client") (fun _ =>
  try (check (discovery_NewForConfig readerCfg) "discovery client") (fun _ =>
  let cfg := set_WriterEnabled cfg (writer_available cfg) in
  try (build_executor cfg) (fun exec =>
  let client := NewClient (EndpointBase cfg) (ServerToken cfg) in
  let upload := Uploader.New d in
  try (wrap (Resolve (InformersEnabled cfg)) "resolve informers") (fun resources =>
  let manager := Informers.New disco added now resources in
  let recv := Receiver.New cfg (push_channel cfg w) in
  inr (mkAgent cfg readerCfg exec client upload manager recv Health.New))))))).

(** [lazySnapshotter.Snapshot]: the manager is set before anything runs. *)
Definition lazy_Snapshot (m : option Manager) (now : Time) : list InventoryEvent :=
  match m with None => [] | Some m => Snapshot m now end.

(** ** What start-up guarantees *)

Lemma wrap_inr {A} (r : string + A) msg a : wrap r msg = inr a -> r = inr a.
Proof. unfold wrap. destruct r; congruence. Qed.

Lemma try_inr {A B} (r : string + A) (f : A -> string + B) b :
  try r f = inr b -> exists a, r = inr a /\ f a = inr b.
Proof. unfold try. destruct r as [e|a]; [done|eauto]. Qed.

Lemma build_executor_inr cfg exec :
  build_executor cfg = inr exec ->
  match exec with
  | None => WriterEnabled cfg = false
  | Some k => WriterEnabled cfg = true /\ kubeConfigFor (WriterTokenPath cfg) = inr k
  end.
Proof.
  unfold build_executor. destruct (WriterEnabled cfg); [|by intros [= <-]].
  intros (k & Hk%wrap_inr & Ht)%try_inr. apply try_inr in Ht as (? & _ & Ht).
  apply try_inr in Ht as (? & _ & [= <-]). done.
Qed.

(** What a successful [run] has done. *)
Record started (a : Agent) (w : W) : Prop := {
  st_cfg : exists c, Load Getenv = inr c /\ a_cfg a = set_WriterEnabled c (writer_available c);
  st_reader : kubeConfigFor (ReaderTokenPath (a_cfg a)) = inr (a_reader a);
  st_exec : match a_exec a with
            | None => WriterEnabled (a_cfg a) = false
            | Some k => WriterEnabled (a_cfg a) = true /\ kubeConfigFor (WriterTokenPath (a_cfg a)) = inr k
            end;
  st_recv : a_recv a = Receiver.New (a_cfg a) (push_channel (a_cfg a) w);
}.

Lemma run_started d disco added now w a : run d disco added now w = inr a -> started a w.
Proof.
  unfold run. intros (c & Hload & Ht)%try_inr. apply try_inr in Ht as (rk & Hrk%wrap_inr & Ht).
  apply try_inr in Ht as (? & _ & Ht). apply try_inr in Ht as (? & _ & Ht). cbv zeta in Ht.
  apply try_inr in Ht as (exec & Hexec%build_executor_inr & Ht). apply try_inr in Ht as (ws & _ & [= <-]).
  split; [by exists c|exact Hrk|exact Hexec|done].
Qed.

(** C22. Read-only without credentials: in an agent that started, every command
    the receiver ever hands over finds an executor (the nil executor of
    read-only mode is never called); and that executor only exists when the
    configuration enables the writer and the writer token file was there, or a
    kubeconfig stood in for it. *)
Theorem executor_needs_writer_token d disco added now w a r cmd ctx :
  run d disco added now w = inr a ->
  rtc rstep (a_recv a) r -> (cmd, ctx) ∈ r_spawned r ->
  (exists k, a_exec a = Some k) /\
  envBool Getenv "WRITER_ENABLED" true = true /\
  (Stat (WriterTokenPath (a_cfg a)) = true \/ Getenv "KUBECONFIG" <> "").
Proof.
  intros [(c & Hload & Hcfg) _ Hexec Hrecv]%run_started Hr Hin. rewrite Hrecv in Hr.
  destruct (reachable_recv_inv _ _ _ Hr) as [_ _ _ _ _ Hs]. rewrite Forall_forall in Hs.
  destruct (Hs _ Hin) as [Hw _]. split.
  { destruct (a_exec a) as [k|]; [by exists k|congruence]. }
  rewrite Hcfg in *. cbn [WriterEnabled WriterTokenPath set_WriterEnabled] in *. unfold writer_available in Hw.
  unfold Load in Hload. destruct (Config.Validate (read_env Getenv)); [done|]. injection Hload as <-.
  destruct (Stat _) eqn:Hst; cbn [negb andb] in Hw; [split; [exact Hw|by left]|].
  destruct (Getenv "KUBECONFIG" =s "") eqn:Hk; [done|]. split; [exact Hw|right].
  by apply string_eqb_false in Hk.
Qed.

(** The two paths hold separate credentials: in a cluster (no kubeconfig)
    with both CA files mounted, the informers authenticate with the reader
    token file only and the executor, when there is one, with the writer token
    file only, both against the same API server. *)
Theorem credentials_separated d disco added now w a :
  run d disco added now w = inr a ->
  Getenv "KUBECONFIG" = "" ->
  Stat (path_join (Dir (ReaderTokenPath (a_cfg a))) "ca.crt") = true ->
  Stat (path_join (Dir (WriterTokenPath (a_cfg a))) "ca.crt") = true ->
  exists host,
    a_reader a = TokenFile host (ReaderTokenPath (a_cfg a)) (path_join (Dir (ReaderTokenPath (a_cfg a))) "ca.crt") /\
    match a_exec a with
    | None => True
    | Some k => k = TokenFile host (WriterTokenPath (a_cfg a)) (path_join (Dir (WriterTokenPath (a_cfg a))) "ca.crt")
    end.
Proof.
  intros [_ Hrd Hexec _]%run_started Hk Hr Hw.
  unfold kubeConfigFor in *. rewrite Hk in *. cbn [negb] in *. rewrite Hr, Hw in *. cbn [negb] in *.
  destruct (_ || _); [done|]. eexists. split; [by injection Hrd as <-|].
  destruct (a_exec a); [|done]. destruct Hexec as [_ [= <-]]. done.
Qed.
End Startup.

Module StartupExample.
#[local] Existing Instance ToyEd25519.toy.
#[local] Existing Instance ReferenceUnstructured.reference.
#[local] Existing Instance WsExample.accepting.
#[local] Existing Instance WsExample.frames.

#[export] Instance clients : KubeClients unit := {
  BuildConfigFromFlags _ := inr tt;
  InClusterConfig := inr tt;
  dynamic_NewForConfig _ := None;
  discovery_NewForConfig _ := None;
  kubernetes_NewForConfig _ := None;
}.

(** A pod with both tokens mounted. *)
Definition pod_env (key : string) : string :=
  if key =s "KUBERNETES_SERVICE_HOST" then "10.0.0.1"
  else if key =s "KUBERNETES_SERVICE_PORT" then "443"
  else sample_env key.
Definition files (p : string) : bool :=
  bool_decide (p ∈ ["/var/run/secrets/agent-reader/token"; "/var/run/secrets/agent-reader/ca.crt";
                    "/var/run/secrets/agent-writer/token"; "/var/run/secrets/agent-writer/ca.crt"]).
Definition reader_files (p : string) : bool :=
  bool_decide (p ∈ ["/var/run/secrets/agent-reader/token"; "/var/run/secrets/agent-reader/ca.crt"]).

Definition empty_disk : disk := mkDisk None None.
Definition start (stat : string -> bool) : string + Agent (K := unit) (W := unit) :=
  run pod_env stat empty_disk (fun _ => inr ["pods"]) (fun _ => true) (Unix 1700000000) tt.
Definition dummy : Agent (K := unit) (W := unit) :=
  mkAgent sample_config (Built tt) None (NewClient "" "") (Uploader.New empty_disk)
    (mkManager [] (fun _ => false) ∅ []) (Receiver.New sample_config None) Health.New.
Definition agent : Agent (K := unit) (W := unit) := match start files with inl _ => dummy | inr a => a end.

Definition after_one : Receiver (WsClient.Client * unit) :=
  match process (a_recv agent) (ReceiverExample.clock 1700000100) (ReceiverExample.clock 1700000100)
          (Some (ReceiverExample.command "cmd-1" "n-1")) with Done r => r | Panic => a_recv agent end.

Lemma after_one_step : rstep (a_recv agent) after_one.
Proof.
  unfold after_one.
  destruct (process_total (a_recv agent) (ReceiverExample.clock 1700000100) (ReceiverExample.clock 1700000100)
    (ReceiverExample.command "cmd-1" "n-1")) as [r' Hr'].
  rewrite Hr'. by eapply rs_process.
Qed.

Lemma agent_started : start files = inr agent.
Proof. unfold agent. destruct (start files) eqn:E; [exfalso; vm_compute in E; discriminate|reflexivity]. Qed.

(** Without the writer token the same pod comes up read-only. *)
Example read_only_start :
  match start reader_files with
  | inr a => (WriterEnabled (a_cfg a), a_exec a)
  | inl _ => (true, None)
  end = (false, None).
Proof. vm_compute. reflexivity. Qed.

Lemma executor_needs_writer_token_witness :
  (exists k, a_exec agent = Some k) /\
  envBool pod_env "WRITER_ENABLED" true = true /\
  (files (WriterTokenPath (a_cfg agent)) = true \/ pod_env "KUBECONFIG" <> "").
Proof.
  apply (executor_needs_writer_token pod_env files empty_disk (fun _ => inr ["pods"]) (fun _ => true)
    (Unix 1700000000) tt agent after_one (ReceiverExample.command "cmd-1" "n-1") Background agent_started).
  - exact (rtc_once _ _ after_one_step).
  - apply list_elem_of_In. vm_compute. left. reflexivity.
Defined.

Lemma credentials_separated_witness :
  exists host,
    a_reader agent = TokenFile host (ReaderTokenPath (a_cfg agent))
      (path_join (Dir (ReaderTokenPath (a_cfg agent))) "ca.crt") /\
    match a_exec agent with
    | None => True
    | Some k => k = TokenFile host (WriterTokenPath (a_cfg agent))
        (path_join (Dir (WriterTokenPath (a_cfg agent))) "ca.crt")
    end.
Proof.
  apply (credentials_separated pod_env files empty_disk (fun _ => inr ["pods"]) (fun _ => true)
    (Unix 1700000000) tt agent agent_started); vm_compute; reflexivity.
Defined.
End StartupExample.
