(* ===== verification/Lifecycle.v ===== *)
(** * cmd/operator: the life of the process

    The goroutines [run] starts, each as an automaton of its Run function between
    the points where it waits; the error of one of them stopping the others; and
    the shutdown.  What an operation of the environment answers (a timer, a call
    that takes the context, the listener) is an argument of [resume]; when the
    context is done, what a wait may answer and what the code then does are
    separate definitions, [may_answer] and [resume].  A panic ends the process and
    has no step here. *)

From S2P Require Import Prelude GoStrings GoTime Protocol Config Metrics Backoff ReportQueue Receiver Unstructured Cluster Informers HealthServer.
Local Open Scope Z_scope.

(** ** Logging and lag *)

Section Runs.
Context `{Unstructured}.

Definition lagReportInterval : Z := 30 * Second.

(** [newLogger]: slog's numeric levels. *)
Definition newLogger (level : string) : Z :=
  if level =s "debug" then -4
  else if level =s "warn" then 4
  else if level =s "error" then 8
  else 0.

(** Reporting lag touches nothing but the lag gauges. *)
Lemma observeLag_frame m now mt :
  commandsTotal (observeLag m now mt) = commandsTotal mt /\
  tunnelConnected (observeLag m now mt) = tunnelConnected mt /\
  inventoryEventsSent (observeLag m now mt) = inventoryEventsSent mt.
Proof.
  unfold observeLag. apply (map_fold_weak_ind (fun mt' _ => commandsTotal mt' = commandsTotal mt /\
    tunnelConnected mt' = tunnelConnected mt /\ inventoryEventsSent mt' = inventoryEventsSent mt)); [done|].
  intros k t _ mt' _ (H1 & H2 & H3). by split_and!.
Qed.

(** A validated configuration never falls to the default by accident. *)
Lemma newLogger_levels cfg :
  Config.Validate cfg = None ->
  (LogLevel cfg = "debug" /\ newLogger (LogLevel cfg) = -4) \/ (LogLevel cfg = "info" /\ newLogger (LogLevel cfg) = 0) \/
  (LogLevel cfg = "warn" /\ newLogger (LogLevel cfg) = 4) \/ (LogLevel cfg = "error" /\ newLogger (LogLevel cfg) = 8).
Proof.
  unfold Config.Validate. repeat (case_match; try done). intros _.
  match goal with H : negb ((LogLevel cfg =s "debug") || _ || _ || _) = false |- _ => rename H into Hl end.
  apply negb_false_iff in Hl. rewrite !orb_true_iff in Hl.
  destruct Hl as [[[Hl|Hl]|Hl]|Hl]; apply String.eqb_eq in Hl; rewrite Hl; cbn; tauto.
Qed.
End Runs.

(** ** The goroutines *)

Inductive subsystem := SubWs | SubInformers | SubUploader | SubReceiver | SubHttp | SubReadiness.
#[export] Instance subsystem_eq_dec : EqDecision subsystem.
Proof. solve_decision. Defined.

(** The goroutines [run] adds to the wait group. *)
Definition subsystems (cfg : Config) : list subsystem :=
  (if WSEnabled cfg then [SubWs] else []) ++ [SubInformers; SubUploader; SubReceiver; SubHttp; SubReadiness].

(** Where [wsclient.Run] is: dialling, waiting for the ack of the hello, reading a
    frame, or in the sleep after a failure. *)
Inductive ws_pc := WsDial | WsHandshake | WsRead | WsSleep.
(** [Manager.Run]: about to start, in [<-ctx.Done()] without informers, in
    WaitForCacheSync, or in the loop of the lag ticker. *)
Inductive manager_pc := MgStart | MgIdle | MgSync | MgLag.
(** [Uploader.Run]: at the top of the loop with [needSnapshot], sending the
    snapshot with [left] batches to go, about to take a batch, waiting for events,
    sending a batch, or in the sleep after a failure. *)
Inductive uploader_pc := UpTop (needSnapshot : bool) | UpSnapshot (left : nat) | UpTake | UpWait | UpBatch | UpSleep.
(** [Receiver.Run]: in a poll, or in the sleep after it. *)
Inductive receiver_pc := RcPoll | RcSleep.
(** [State.Run]: in the select of the listener's error and the context, or in
    srv.Shutdown, which has five seconds of its own. *)
Inductive http_pc := HtServe | HtShutdown.

Inductive goroutine :=
| GWs (pc : ws_pc)
| GInformers (pc : manager_pc)
| GUploader (pc : uploader_pc)
| GReceiver (pc : receiver_pc)
| GHttp (pc : http_pc)
| GReadiness.

Definition sub (g : goroutine) : subsystem :=
  match g with
  | GWs _ => SubWs | GInformers _ => SubInformers | GUploader _ => SubUploader
  | GReceiver _ => SubReceiver | GHttp _ => SubHttp | GReadiness => SubReadiness
  end.

Definition launch (s : subsystem) : goroutine :=
  match s with
  | SubWs => GWs WsDial
  | SubInformers => GInformers MgStart
  | SubUploader => GUploader (UpTop true)
  | SubReceiver => GReceiver RcPoll
  | SubHttp => GHttp HtServe
  | SubReadiness => GReadiness
  end.


(** What comes of it.  [Ran n] carries the number the code computes: the batches of
    a snapshot, the events taken. *)
Inductive answer :=
| Ran (n : nat)
| Cancelled
| Event (now : Time)
| Came (ok : bool)
| ListenFailed (err : string).



(** The next wait of a function, or its return. *)
Inductive next_pc (A : Type) := Goto (pc : A) | Return (err : option string).
Arguments Goto {A}.
Arguments Return {A}.

(** [wsclient.Run] and the connectOnce, handshake and readLoop it is in: any
    failure goes to the check of the context and then to the sleep. *)
Definition ws_resume (pc : ws_pc) (ctxDone : bool) (a : answer) : next_pc ws_pc :=
  match pc, a with
  | WsDial, Came true => Goto WsHandshake
  | WsHandshake, Came true => Goto WsRead
  | WsRead, Came true => Goto WsRead
  | WsSleep, Event _ => Goto WsDial
  | WsSleep, _ => Return None
  | _, _ => if ctxDone then Return None else Goto WsSleep
  end.

(** [Manager.Run] with [informers] informers. *)
Definition manager_resume (informers : nat) (pc : manager_pc) (a : answer) : next_pc manager_pc :=
  match pc, a with
  | MgStart, _ => if (informers =? 0)%nat then Goto MgIdle else Goto MgSync
  | MgSync, Came true => Goto MgLag
  | MgLag, Event _ => Goto MgLag
  | MgSync, _ | MgIdle, _ | MgLag, _ => Return None
  end.

(** [Uploader.Run]: [Ran n] is the number of batches of the snapshot at the top
    of the loop and the number of events taken after it. *)
Definition uploader_resume (pc : uploader_pc) (ctxDone : bool) (a : answer) : next_pc uploader_pc :=
  match pc, a with
  | UpTop needSnapshot, Ran n =>
      if ctxDone then Return None
      else if needSnapshot then (if (n =? 0)%nat then Goto UpTake else Goto (UpSnapshot n)) else Goto UpTake
  | UpSnapshot n, Came true => if (n <=? 1)%nat then Goto UpTake else Goto (UpSnapshot (n - 1))
  | UpSnapshot _, _ => Goto UpSleep
  | UpTake, Ran n => if (n =? 0)%nat then Goto UpWait else Goto UpBatch
  | UpWait, Event _ => Goto (UpTop false)
  | UpBatch, Came true => Goto (UpTop false)
  | UpBatch, _ => Goto UpSleep
  | UpSleep, Event _ => Goto (UpTop true)
  | _, _ => Return None
  end.

(** [Receiver.Run]: the commands of a reply are handed to their goroutines before
    the sleep. *)
Definition receiver_resume (pc : receiver_pc) (ctxDone : bool) (a : answer) : next_pc receiver_pc :=
  match pc, a with
  | RcPoll, Came true => Goto RcSleep
  | RcPoll, _ => if ctxDone then Return None else Goto RcSleep
  | RcSleep, Event _ => Goto RcPoll
  | RcSleep, _ => Return None
  end.

(** [State.Run]: http.ErrServerClosed, which only srv.Shutdown causes, cannot come
    while the select is waiting. *)
Definition health_resume (pc : http_pc) (a : answer) : next_pc http_pc :=
  match pc, a with
  | HtServe, ListenFailed err => Return (Some err)
  | HtServe, _ => Goto HtShutdown
  | HtShutdown, _ => Return None
  end.

(** The readiness goroutine of [run]. *)
Definition readiness_resume (synced : bool) (a : answer) : next_pc unit :=
  match a with
  | Event _ => if synced then Return None else Goto tt
  | _ => Return None
  end.

Definition into {A} (f : A -> goroutine) (n : next_pc A) : next_pc goroutine :=
  match n with Goto pc => Goto (f pc) | Return err => Return err end.

(** ** The process *)

Section Process.
Context `{Unstructured}.

(** The function of a goroutine after an answer; [m] is the informer manager. *)
Definition resume (m : Manager) (ctxDone : bool) (g : goroutine) (a : answer) : next_pc goroutine :=
  match g with
  | GWs pc => into GWs (ws_resume pc ctxDone a)
  | GInformers pc => into GInformers (manager_resume (length (m_informers m)) pc a)
  | GUploader pc => into GUploader (uploader_resume pc ctxDone a)
  | GReceiver pc => into GReceiver (receiver_resume pc ctxDone a)
  | GHttp pc => into GHttp (health_resume pc a)
  | GReadiness => into (fun _ => GReadiness) (readiness_resume (HasSynced m) a)
  end.

(** Where [run] is: at [<-ctx.Done()], at [wg.Wait()], or returned. *)
Inductive main_pc := AtDone | AtWait | Returned.

Record process := mkProcess {
  p_ctxDone : bool;
  p_running : list goroutine;    (* those that have not called wg.Done *)
  p_failed : list (subsystem * string);
  p_main : main_pc;
  p_manager : Manager;
  p_health : Health.State;
  p_metrics : Metrics;
}.

Definition process_start (cfg : Config) (m : Manager) (mt : Metrics) : process :=
  mkProcess false (launch <$> subsystems cfg) [] AtDone m Health.New mt.

Definition set_goroutines (l : list goroutine) (p : process) : process :=
  mkProcess (p_ctxDone p) l (p_failed p) (p_main p) (p_manager p) (p_health p) (p_metrics p).
(** [stop()], which a signal runs too. *)
Definition stop (p : process) : process :=
  mkProcess true (p_running p) (p_failed p) (p_main p) (p_manager p) (p_health p) (p_metrics p).

(** What a goroutine does to the state the process shares on an answer: the lag
    ticker sets the gauges, the readiness goroutine the flag. *)
Definition act (g : goroutine) (a : answer) (p : process) : process :=
  match g, a with
  | GInformers MgLag, Event now =>
      mkProcess (p_ctxDone p) (p_running p) (p_failed p) (p_main p) (p_manager p) (p_health p)
        (observeLag (p_manager p) now (p_metrics p))
  | GReadiness, Event _ =>
      if HasSynced (p_manager p) then
        mkProcess (p_ctxDone p) (p_running p) (p_failed p) (p_main p) (p_manager p)
          (Health.SetReady true (p_health p)) (p_metrics p)
      else p
  | _, _ => p
  end.

(** The end of the [i]-th goroutine: wg.Done, after an error before the shutdown
    has stopped everything. *)
Definition goroutine_ends (i : nat) (s : subsystem) (err : option string) (p : process) : process :=
  let p :=
    match err with
    | Some e =>
        if negb (p_ctxDone p) then
          stop (mkProcess (p_ctxDone p) (p_running p) (p_failed p ++ [(s, e)]) (p_main p) (p_manager p) (p_health p) (p_metrics p))
        else p
    | None => p
    end in
  set_goroutines (delete i (p_running p)) p.

Definition advance (i : nat) (g : goroutine) (a : answer) (p : process) : process :=
  let p := act g a p in
  match resume (p_manager p) (p_ctxDone p) g a with
  | Goto g' => set_goroutines (<[i := g']> (p_running p)) p
  | Return err => goroutine_ends i (sub g) err p
  end.






(** ** What a return depends on *)








(** ** The invariant *)









(** ** The shutdown *)












End Process.

(** ** Agreement with the receiver's own model *)

(** The automaton of [Receiver.Run] stops after a poll exactly when
    [Receiver.run_after_poll] does. *)
Lemma receiver_resume_agrees `{Ed25519} {P : Type} `{!PushChannel P} (r : Receiver P) bo sent res ctxDone k now now' r' bo' nx :
  run_after_poll r bo sent res ctxDone k now now' = Done (r', bo', nx) ->
  receiver_resume RcPoll ctxDone (Came (match res with PollReply _ => true | PollError _ => false end)) =
    match nx with Stop => Return None | Sleep _ => Goto RcSleep end.
Proof.
  unfold run_after_poll. destruct res as [auth|resp].
  - destruct ctxDone; [by intros [= <- <- <-]|]. destruct (next _ _) as [d bo1]. by intros [= <- <- <-].
  - destruct (process_all _ _ _ _) as [r1|]; [|done]. by intros [= <- <- <-].
Qed.

Module LifecycleExample.
Import ReferenceUnstructured.
Definition m0 : Manager := mkManager [] (fun _ => false) ∅ [].

(** The health server cannot listen: everything comes down. *)
Definition started : process := process_start sample_config m0 empty_metrics.
Definition failed : process :=
  advance (length (p_running started) - 2) (GHttp HtServe) (ListenFailed "address already in use") started.



Example failed_stops : p_ctxDone failed = true /\ length (p_running failed) = 5%nat.
Proof. vm_compute. split; reflexivity. Qed.

(** Without informers Manager.Run waits for the shutdown. *)
Example no_informers : resume m0 false (GInformers MgStart) (Ran 0) = Goto (GInformers MgIdle).
Proof. reflexivity. Qed.
End LifecycleExample.
