(* ===== verification/Codecs.v ===== *)
(** * The encodings the agent runs with

    The readers and writers of [Wire] as instances of the interfaces the
    components are written against: the spill file's event codec with its laws,
    the HTTP messages and the WebSocket frames.  The texts of encoding/json's
    errors are a parameter; the agent only logs them. *)

From S2P Require Import Prelude GoStrings Json JsonString JsonParse Protocol Wire Uploader HttpClient WsClient.

(** ** The spill file *)

#[export] Instance wire_events : EventCodec := {
  Uploader.Marshal := marshal write_InventoryEvent;
  Uploader.Unmarshal := unmarshal read_InventoryEvent zero_InventoryEvent;
}.

Lemma write_InventoryEvent_numbers e : numbers_ok (write_InventoryEvent e) = true.
Proof.
  destruct e as [op [g v res ns nm] obj ts]. unfold write_InventoryEvent, write_ResourceRef, omitempty.
  destruct obj as [|a obj], ns as [|b ns]; cbn -[valid_number FormatInt]; by rewrite valid_FormatInt.
Qed.

(** A line of the spill file reads back as the event it was written for. *)
#[export] Instance wire_events_laws : EventCodecLaws (fun e => event_ok e = true).
Proof.
  split.
  - intros e. pose proof (print_one_line _ (write_InventoryEvent_numbers e)) as Hl. unfold one_line in Hl.
    apply negb_true_iff, orb_false_iff in Hl. exact Hl.
  - intros e. done.
  - intros e He. eapply unmarshal_text; [eauto with wire|lia|eauto with wire].
Qed.

(** ** HTTP messages and WebSocket frames *)

Section Json.
Variable json_error : string -> string.

(** json.Unmarshal with its error. *)
Definition unmarshal_or {A} (read : jval -> A -> option A) (zero : A) (data : string) : string + A :=
  match unmarshal read zero data with
  | Some a => inr a
  | None => inl (json_error data)
  end.

Definition wire_messages : Messages := {|
  encode_batch := marshal write_InventoryBatch;
  decode_inventory_ack := unmarshal_or read_InventoryAck zero_InventoryAck;
  encode_poll := marshal write_PollRequest;
  decode_poll := unmarshal_or read_PollResponse zero_PollResponse;
|}.

Definition wire_frames : Frames := {|
  encode_hello := marshal write_WsHello;
  encode_report := fun r => marshal write_WsReportMessage (mkWsReportMessage WsTypeReport (Some r));
  decode_type := fun data =>
    match unmarshal_or read_WsEnvelope (mkWsEnvelope "") data with inl e => inl e | inr e => inr (Env_Type e) end;
  decode_ack := unmarshal_or read_WsHelloAck zero_WsHelloAck;
  decode_command := fun data =>
    CmdMsg_Command <$> unmarshal read_WsCommandMessage zero_WsCommandMessage data;
  decode_error := fun data =>
    ErrMsg_Message <$> unmarshal read_WsErrorMessage (mkWsErrorMessage "" "") data;
|}.
End Json.
