(* ===== verification/MockServer.v ===== *)
(** * cmd/mockserver: the mock control plane

    The server of local development: it signs the commands of a file, checks the
    bearer token, acknowledges inventory batches and hands the commands out once
    per channel.  Key generation, the file, the clock and the random bytes are
    arguments; a nil pointer in a request panics its handler, as in the code. *)

From S2P Require Import Prelude GoStrings GoTime Json JsonString JsonParse Protocol Wire.
Local Open Scope Z_scope.

Module Mock.

Record server := mkServer {
  token : string;
  priv : string;
  pub : string;
  commands : list Command;
  delivered : bool;
  wsDelivered : bool;
}.

Definition set_delivered (s : server) : server :=
  mkServer (token s) (priv s) (pub s) (commands s) true (wsDelivered s).
Definition set_wsDelivered (s : server) : server :=
  mkServer (token s) (priv s) (pub s) (commands s) (delivered s) true.

(** [randomID] of eight random bytes. *)
Definition randomID (b : string) : string := hex_encode b.

Definition set_ID (c : Command) (id : string) : Command :=
  mkCommand id (Cmd_Nonce c) (Cmd_Timestamp c) (Cmd_Verb c) (Cmd_Target c) (Cmd_Payload c) (Cmd_PatchType c)
    (Cmd_Helm c) (Cmd_ExpectedHash c) (Cmd_Override c) (Cmd_Signature c).
Definition set_Nonce (c : Command) (n : string) : Command :=
  mkCommand (Cmd_ID c) n (Cmd_Timestamp c) (Cmd_Verb c) (Cmd_Target c) (Cmd_Payload c) (Cmd_PatchType c)
    (Cmd_Helm c) (Cmd_ExpectedHash c) (Cmd_Override c) (Cmd_Signature c).
Definition set_Timestamp (c : Command) (t : Z) : Command :=
  mkCommand (Cmd_ID c) (Cmd_Nonce c) t (Cmd_Verb c) (Cmd_Target c) (Cmd_Payload c) (Cmd_PatchType c)
    (Cmd_Helm c) (Cmd_ExpectedHash c) (Cmd_Override c) (Cmd_Signature c).

Section Mock.
Context `{Ed25519}.
(** The text of an encoding/json error for an input. *)
Variable json_error : string -> string.

(** What newServer fills in of one command; [idb] and [nonceb] are the random
    bytes it would draw. *)
Definition fill_command (idb nonceb : string) (now : Time) (c : Command) : Command :=
  let c := if Cmd_ID c =s "" then set_ID c (randomID idb) else c in
  let c := if Cmd_Nonce c =s "" then set_Nonce c (randomID nonceb) else c in
  if Cmd_Timestamp c =? 0 then set_Timestamp c (ToUnix now) else c.

(** The loop of [newServer] from command [i] on. *)
Fixpoint sign_commands (key : string) (rnd : nat -> string * string) (now : nat -> Time) (i : nat)
    (cmds : list (option Command)) : outcome (list Command) :=
  match cmds with
  | [] => Done []
  | None :: _ => Panic
  | Some c :: rest =>
      let c := Sign (fill_command (rnd i).1 (rnd i).2 (now i) c) key in
      outcome_bind (sign_commands key rnd now (S i) rest) (fun cs => Done (c :: cs))
  end.

(** The command file. *)
Definition read_commands (ReadFile : string -> string + string) (commandFile : string)
    : string + list (option Command) :=
  if commandFile =s "" then inr []
  else
    match ReadFile commandFile with
    | inl e => inl ("read command file: " ^^ e)
    | inr data =>
        match unmarshal (read_slice (read_ptr read_Command zero_Command) None) [] data with
        | None => inl ("parse command file: " ^^ json_error data)
        | Some cmds => inr cmds
        end
    end.

(** [newServer]; [key] is the private key of ed25519.GenerateKey, or its error. *)
Definition newServer (tok commandFile : string) (key : string + string) (ReadFile : string -> string + string)
    (rnd : nat -> string * string) (now : nat -> Time) : outcome (string + server) :=
  match key with
  | inl e => Done (inl ("generate signing key: " ^^ e))
  | inr key =>
      match read_commands ReadFile commandFile with
      | inl e => Done (inl e)
      | inr cmds =>
          outcome_bind (sign_commands key rnd now 0 cmds) (fun cs =>
            Done (inr (mkServer tok key (Public key) cs false false)))
      end
  end.

(** What [main] prints for the agent's environment once the server is built. *)
Definition banner (s : server) : string :=
  "SERVER_TOKEN=" ^^ token s ^^ nl ^^ "SERVER_PUBLIC_KEY=" ^^ b64_encode (pub s) ^^ nl.

(** ** HTTP *)

(** A status and a body. *)
Definition writeJSON (status : Z) (body : jval) : Z * string := (status, print body ^^ nl).

Definition authorized (s : server) (authorization : string) : bool := authorization =s "Bearer " ^^ token s.

(** json.NewDecoder(r.Body).Decode(&x) on a zero [x]. *)
Definition decode_body {A} (read : jval -> A -> option A) (zero : A) (body : string) : option A :=
  v ← Decode_value body; read v zero.

Definition inventory (authorization body : string) (s : server) : (Z * string) * server :=
  if negb (authorized s authorization)
  then (writeJSON 401 (write_InventoryAck (mkInventoryAck false 0 "")), s)
  else
    match decode_body read_InventoryBatch zero_BatchRead body with
    | None => (writeJSON 400 (write_InventoryAck (mkInventoryAck false 0 (json_error body))), s)
    | Some b => (writeJSON 200 (write_InventoryAck (mkInventoryAck true (BR_Seq b) "")), s)
    end.

(** The response of [poll]: commands are always written, [] when there are
    none. *)
Definition write_pollResponse (ok : bool) (cmds : list Command) : jval :=
  VObj (always "ok" (VBool ok) ++ always "commands" (VArr (map write_Command cmds))).

(** Logging a nil report dereferences it. *)
Fixpoint log_reports (reps : list (option Report)) : outcome (list Report) :=
  match reps with
  | [] => Done []
  | None :: _ => Panic
  | Some r :: rest => outcome_bind (log_reports rest) (fun rs => Done (r :: rs))
  end.

(** [poll]: the response, the reports it logged and the server. *)
Definition poll (authorization body : string) (s : server) : outcome ((Z * string) * list Report * server) :=
  if negb (authorized s authorization) then Done (writeJSON 401 (write_PollResponse (mkPollResponse false [])), [], s)
  else
    match decode_body read_PollRequest zero_PollRead body with
    | None => Done (writeJSON 400 (write_PollResponse (mkPollResponse false [])), [], s)
    | Some req =>
        outcome_bind (log_reports (PR_Reports req)) (fun reps =>
          let cmds := if delivered s then [] else commands s in
          Done (writeJSON 200 (write_pollResponse true cmds), reps, set_delivered s))
    end.

(** The routes of the mux (a GET route also takes HEAD); paths are clean. *)
Inductive route := RouteInventory | RoutePoll | RouteWs | MethodNotAllowed | NotFound.

Definition mux (method path : string) : route :=
  if path =s "/audit_ready/k8s/inventory" then if method =s "POST" then RouteInventory else MethodNotAllowed
  else if path =s "/audit_ready/k8s/poll" then if method =s "POST" then RoutePoll else MethodNotAllowed
  else if path =s "/audit_ready/k8s/ws" then
    if (method =s "GET") || (method =s "HEAD") then RouteWs else MethodNotAllowed
  else NotFound.

(** [handler] on a plain HTTP request; [no_upgrade] is what websocket.Accept
    answers to a request that asks for no upgrade.  An accepted one is [ws]. *)
Definition handler (no_upgrade : Z * string) (method path authorization body : string) (s : server)
    : outcome ((Z * string) * server) :=
  match mux method path with
  | RouteInventory => Done (inventory authorization body s)
  | RoutePoll => outcome_bind (poll authorization body s) (fun '(resp, _, s) => Done (resp, s))
  | RouteWs => Done (no_upgrade, s)
  | MethodNotAllowed => Done ((405, "Method Not Allowed" ^^ nl), s)
  | NotFound => Done ((404, "404 page not found" ^^ nl), s)
  end.

(** ** The WebSocket channel *)

Definition hello_ack (accepted : bool) (msg : string) : string :=
  marshal write_WsHelloAck (mkWsHelloAck WsTypeHelloAck accepted msg).

(** The commands pushed on the first connection, from frame [i] on, until a
    write fails. *)
Fixpoint push_commands (write_ok : nat -> bool) (i : nat) (cmds : list Command) : list string * bool :=
  match cmds with
  | [] => ([], true)
  | c :: rest =>
      if write_ok i then
        let '(fs, ok) := push_commands write_ok (S i) rest in
        (marshal write_WsCommandMessage (mkWsCommandMessage WsTypeCommand (Some c)) :: fs, ok)
      else ([], false)
  end.

(** Report frames until the agent disconnects. *)
Fixpoint read_reports (frames : list string) : outcome (list Report) :=
  match frames with
  | [] => Done []
  | data :: rest =>
      match unmarshal read_WsEnvelope (mkWsEnvelope "") data with
      | None => read_reports rest
      | Some env =>
          if negb (Env_Type env =s WsTypeReport) then read_reports rest
          else
            match unmarshal read_WsReportMessage zero_WsReportMessage data with
            | None => read_reports rest
            | Some msg =>
                match RepMsg_Report msg with
                | None => Panic
                | Some rep => outcome_bind (read_reports rest) (fun reps => Done (rep :: reps))
                end
            end
      end
  end.

(** [ws] on the frames an agent sends until it closes: the frames written back,
    the reports logged and the server; [write_ok i] is whether the i-th write
    succeeds. *)
Definition ws (write_ok : nat -> bool) (frames : list string) (s : server)
    : outcome (list string * list Report * server) :=
  match frames with
  | [] => Done ([], [], s)
  | data :: rest =>
      let hello := unmarshal read_WsHello zero_WsHello data in
      match hello with
      | Some h =>
          if negb (Hello_Type h =s WsTypeAgentHello)
          then Done (if write_ok 0%nat then [hello_ack false "expected agent_hello"] else [], [], s)
          else if negb (Hello_Token h =s token s)
          then Done (if write_ok 0%nat then [hello_ack false "unauthorized"] else [], [], s)
          else if negb (write_ok 0%nat) then Done ([], [], s)
          else
            let '(pushed, ok) := if wsDelivered s then ([], true) else push_commands write_ok 1 (commands s) in
            if negb ok then Done (hello_ack true "" :: pushed, [], set_wsDelivered s)
            else outcome_bind (read_reports rest) (fun reps =>
                   Done (hello_ack true "" :: pushed, reps, set_wsDelivered s))
      | None => Done (if write_ok 0%nat then [hello_ack false "expected agent_hello"] else [], [], s)
      end
  end.

(** ** The commands of a server *)

Lemma int64_ok_wrap z : int64_ok (wrap64 z) = true.
Proof. unfold int64_ok. destruct (wrap64_range z). apply andb_true_iff. rewrite !Z.leb_le. lia. Qed.

Lemma fill_command_ok idb nonceb now c : command_ok c = true -> command_ok (fill_command idb nonceb now c) = true.
Proof.
  intros Hc. unfold command_ok in Hc. bool_to_prop. unfold fill_command.
  repeat case_match; unfold command_ok, set_ID, set_Nonce, set_Timestamp, randomID, ToUnix; cbn -[valid_utf8];
    rewrite ?valid_hex, ?int64_ok_wrap, ?andb_true_iff; done.
Qed.

Lemma Sign_ok c key : command_ok c = true -> command_ok (Sign c key) = true.
Proof.
  intros Hc. unfold command_ok in Hc. bool_to_prop. unfold Sign, command_ok, set_Signature. cbn -[valid_utf8].
  rewrite valid_b64, ?andb_true_iff. done.
Qed.

(** A command the agent will find intact and signed. *)
Definition signed_ok (pk : string) (c : Command) : Prop := command_ok c = true /\ VerifySignature c pk = None.

Lemma sign_commands_ok `{!Ed25519Laws} key rnd now i cmds cs :
  Forall (fun c => ptr_ok command_ok c = true) cmds -> sign_commands key rnd now i cmds = Done cs ->
  Forall (signed_ok (Public key)) cs.
Proof.
  intros Hc. revert i cs. induction Hc as [|[c|] cmds Hc _ IH]; intros i cs Hs; cbn [sign_commands] in Hs;
    simplify_eq; [constructor|].
  destruct (sign_commands key rnd now (S i) cmds) as [cs'|] eqn:Hcs; [|done]. cbn [outcome_bind] in Hs. simplify_eq.
  constructor; [|by eapply IH]. split; [by apply Sign_ok, fill_command_ok|apply sign_then_verify].
Qed.

Lemma newServer_spec `{!Ed25519Laws} tok file key ReadFile rnd now s :
  newServer tok file key ReadFile rnd now = Done (inr s) ->
  token s = tok /\ pub s = Public (priv s) /\ key = inr (priv s) /\ delivered s = false /\ wsDelivered s = false /\
  Forall (signed_ok (pub s)) (commands s).
Proof.
  unfold newServer. destruct key as [e|key]; [done|]. intros Hn.
  destruct (read_commands ReadFile file) as [e|cmds] eqn:Hr; [done|].
  destruct (sign_commands key rnd now 0 cmds) as [cs|] eqn:Hcs; [|done]. cbn [outcome_bind] in Hn. simplify_eq.
  split_and!; try done. cbn. eapply sign_commands_ok; [|exact Hcs].
  unfold read_commands in Hr. destruct (file =s ""); [simplify_eq; constructor|].
  destruct (ReadFile file) as [e|data]; [done|]. destruct (unmarshal _ _ _) as [l|] eqn:Hu; [|done]. simplify_eq.
  unfold unmarshal in Hu. apply bind_Some in Hu as (v & Hv & Hl). apply Unmarshal_value_ok in Hv.
  by eapply read_commands_ok.
Qed.
End Mock.
End Mock.
