(* ===== verification/ControlPlane.v ===== *)
(** * The agent against the mock control plane

    The HTTP client of the agent talking to the handlers of the mock server, with
    the encodings of [Codecs] in between: what the receiver's poll and the
    uploader's batches come to when client and server are put together, and the
    same for the WebSocket channel, where each end closes the connection at a frame
    over its read limit: 256 KiB set by the agent, the library's 32 KiB default on
    the server. *)

From Stdlib Require Import Ascii.
From S2P Require Import Prelude GoStrings GoTime Json JsonString JsonText JsonParse Protocol Wire Config Metrics Backoff NonceCache ReportQueue Receiver Uploader UploadDrain HttpClient WsClient Codecs MockServer.
Local Open Scope Z_scope.

(** ** Texts *)

Lemma take_bytes_all n s : (String.length s <= n)%nat -> take_bytes n s = s.
Proof. revert s. induction n as [|n IH]; intros [|a s] Hs; cbn in *; try done; [lia|]. rewrite IH by lia. done. Qed.

Lemma TrimPrefix_app a b : TrimPrefix (a ^^ b) a = b.
Proof. unfold TrimPrefix. rewrite HasPrefix_app. apply skip_app. Qed.

Lemma digits_fuel_length fuel n acc :
  (String.length (digits_fuel fuel n acc) <= fuel + String.length acc)%nat.
Proof.
  revert n acc. induction fuel as [|f IH]; intros n acc; cbn [digits_fuel]; [lia|].
  case_match; [cbn; lia|]. etransitivity; [apply IH|]. cbn. lia.
Qed.

Lemma FormatInt_short n : in_int64 n -> (String.length (FormatInt n) <= 65)%nat.
Proof.
  unfold in_int64, int64_min, int64_max. intros Hn.
  assert (forall k, 0 <= k <= 2 ^ 63 -> (String.length (format_nat k) <= 64)%nat) as Hf.
  { intros k Hk. unfold format_nat. etransitivity; [apply digits_fuel_length|].
    pose proof (Z.log2_le_mono (k + 1) (2 ^ 63 + 1)) as Hl. change (Z.log2 (2 ^ 63 + 1)) with 63 in Hl. cbn. lia. }
  unfold FormatInt. destruct (Z.ltb_spec n 0); [cbn [String.length]|]; [apply le_n_S|etransitivity; [|apply le_S, le_n]];
    apply Hf; lia.
Qed.

(** The texts the client does not truncate. *)
Definition fits (body : string) : Prop := Z.of_nat (String.length body) <= 16 * 1048576.

Lemma fits_take body : fits body -> take_bytes maxBody body = body.
Proof. intros Hf. apply take_bytes_all. unfold fits, maxBody in *. lia. Qed.

(** Reading a body that ends with the newline of json.Encoder. *)
Lemma unmarshal_line {A} (read : jval -> A -> option A) zero v b n :
  printable n v -> (n <= 10)%nat -> read v zero = Some b -> unmarshal read zero (print v ^^ nl) = Some b.
Proof.
  intros [Hok Hd] Hn Hr. unfold unmarshal, Unmarshal_value.
  rewrite parse_print; [exact Hr|done|apply nesting_enough; lia|done].
Qed.

(** json.Decoder on a marshalled request. *)
Lemma decode_text {A B} (write : A -> jval) (read : jval -> B -> option B) zero a b n :
  printable n (write a) -> (n <= 10)%nat -> read (write a) zero = Some b ->
  Mock.decode_body read zero (marshal write a) = Some b.
Proof.
  intros [Hok Hd] Hn Hr. unfold Mock.decode_body, Decode_value, marshal.
  rewrite <- (string_app_nil_r (print (write a))), parse_print; [exact Hr|done|apply nesting_enough; lia|done].
Qed.

(** The mock's poll response is read like protocol.PollResponse. *)
Lemma write_pollResponse_ok ok cmds :
  Forall (fun c => command_ok c = true) cmds -> printable 4 (Mock.write_pollResponse ok cmds).
Proof.
  intros Hc. unfold Mock.write_pollResponse. wire_fields. apply printable_arr, Forall_fmap.
  eapply Forall_impl; [exact Hc|]. intros c Hok. by apply write_Command_ok.
Qed.

Lemma read_pollResponse ok cmds :
  Forall (fun c => command_ok c = true) cmds ->
  read_PollResponse (Mock.write_pollResponse ok cmds) zero_PollResponse
    = Some (mkPollResponse ok (Some <$> cmds)).
Proof.
  intros Hc. unfold read_PollResponse, Mock.write_pollResponse, read_struct.
  pose proof (read_slice_ptr read_Command write_Command zero_Command cmds) as Hl.
  cbn -[read_slice map]. rewrite Hl; [done|done|].
  eapply Forall_impl; [exact Hc|]. intros c Hok. by apply read_write_Command.
Qed.

Lemma log_reports_some reps : Mock.log_reports (Some <$> reps) = Done reps.
Proof. induction reps as [|r reps IH]; [done|]. cbn in *. by rewrite IH. Qed.

Section ControlPlane.
Context `{Ed25519}.
(** The texts of encoding/json's errors, the address the server listens on, and
    the answer to a plain request on the WebSocket route. *)
Variable json_error : string -> string.
Variable addr : string.
Variable no_upgrade : Z * string.

#[local] Existing Instance wire_events.
#[local] Instance messages : Messages := wire_messages json_error.

Definition server_url : string := "http://" ^^ addr.

(** A connection to the server: a panicking handler aborts the response. *)
#[local] Instance mock_transport : Transport Mock.server := {
  build_error _ := None;
  do_request req s :=
    if HasPrefix (Url req) server_url then
      match Mock.handler json_error no_upgrade "POST" (TrimPrefix (Url req) server_url) (Authorization req)
              (ReqBody req) s with
      | Done ((code, body), s') => (inr (mkResponse code (inr body)), s')
      | Panic => (inl "EOF", s)
      end
    else (inl "no such host", s);
}.

(** An agent whose SERVER_ENDPOINT is the server, and its client. *)
Definition points_at_mock (cfg : Config) : Prop := EndpointBase cfg = server_url ^^ "/audit_ready".
Definition client (cfg : Config) : HttpClient.Client := NewClient (ServerEndpoint cfg) (ServerToken cfg).

(** A request of such an agent reaches the handler of its path. *)
Lemma request_reaches cfg s path body :
  points_at_mock cfg ->
  do_request (mkRequest (HttpClient.base (client cfg) ^^ path) ("Bearer " ^^ ServerToken cfg) body) s =
    match Mock.handler json_error no_upgrade "POST" ("/audit_ready" ^^ path) ("Bearer " ^^ ServerToken cfg) body s with
    | Done ((code, text), s') => (inr (mkResponse code (inr text)), s')
    | Panic => (inl "EOF", s)
    end.
Proof.
  intros Hb. cbn [do_request mock_transport Url Authorization ReqBody].
  unfold client, NewClient. cbn [HttpClient.base]. unfold points_at_mock, EndpointBase in Hb.
  by rewrite Hb, string_app_assoc, HasPrefix_app, TrimPrefix_app.
Qed.

(** What [post] makes of an answer of the handler. *)
Lemma post_reply {A} cfg path body (decode : string -> string + A) m s code text s' :
  points_at_mock cfg -> fits text ->
  Mock.handler json_error no_upgrade "POST" ("/audit_ready" ^^ path) ("Bearer " ^^ ServerToken cfg) body s
    = Done ((code, text), s') ->
  post (client cfg) path body decode m s =
    if code =? 200 then
      (match decode text with
       | inl e => inl (OtherError ("decode " ^^ path ^^ " response: " ^^ e))
       | inr a => inr a
       end, SetTunnelConnected true m, s')
    else
      (inl (if (code =? 401) || (code =? 403) then AuthError code (truncate text 200)
            else OtherError ("POST " ^^ path ^^ ": HTTP " ^^ FormatInt code ^^ ": " ^^ truncate text 200)),
       SetTunnelConnected false m, s').
Proof.
  intros Hp Hf Hh. unfold post. cbn [build_error mock_transport].
  change (HttpClient.token (client cfg)) with (ServerToken cfg).
  rewrite (request_reaches _ _ _ _ Hp), Hh. cbn [Body StatusCode]. rewrite fits_take by done.
  repeat case_match; simplify_eq; done.
Qed.

(** ** Polling *)

(** The commands the next poll is answered with. *)
Definition pending (s : Mock.server) : list Command := if Mock.delivered s then [] else Mock.commands s.

Lemma poll_answer s tok req :
  tok = Mock.token s -> poll_ok req = true ->
  Mock.handler json_error no_upgrade "POST" "/audit_ready/k8s/poll" ("Bearer " ^^ tok) (encode_poll req) s
    = Done ((200, print (Mock.write_pollResponse true (pending s)) ^^ nl), Mock.set_delivered s).
Proof.
  intros -> Hreq. unfold Mock.handler. change (Mock.mux _ _) with Mock.RoutePoll. cbv iota.
  unfold Mock.poll, Mock.authorized. rewrite eqb_refl_string. cbn [negb].
  change (encode_poll req) with (marshal write_PollRequest req).
  erewrite decode_text; [|eauto with wire|lia|eauto with wire].
  cbn [PR_Reports sent_poll]. by rewrite log_reports_some.
Qed.

Lemma poll_mock cfg s req m :
  points_at_mock cfg -> ServerToken cfg = Mock.token s -> poll_ok req = true ->
  Forall (fun c => command_ok c = true) (pending s) -> fits (print (Mock.write_pollResponse true (pending s)) ^^ nl) ->
  Poll (client cfg) req m s
    = (inr (mkPollResponse true (Some <$> pending s)), SetTunnelConnected true m, Mock.set_delivered s).
Proof.
  intros Hp Ht Hreq Hc Hf. unfold Poll.
  rewrite (post_reply _ _ _ _ _ _ _ _ _ Hp Hf (poll_answer _ _ _ Ht Hreq)). cbn [Z.eqb].
  change (decode_poll ?t) with (unmarshal_or json_error read_PollResponse zero_PollResponse t).
  unfold unmarshal_or. erewrite unmarshal_line; [done|by apply write_pollResponse_ok|lia|by apply read_pollResponse].
Qed.

(** ** Inventory *)

Definition batch_ack (b : InventoryBatch) : InventoryAck := mkInventoryAck true (Batch_Seq b) "".

Lemma inventory_answer s tok b :
  tok = Mock.token s -> batch_ok b = true ->
  Mock.handler json_error no_upgrade "POST" "/audit_ready/k8s/inventory" ("Bearer " ^^ tok) (encode_batch b) s
    = Done ((200, print (write_InventoryAck (batch_ack b)) ^^ nl), s).
Proof.
  intros -> Hb. unfold Mock.handler. change (Mock.mux _ _) with Mock.RouteInventory. cbv iota.
  unfold Mock.inventory, Mock.authorized. rewrite eqb_refl_string. cbn [negb].
  change (encode_batch b) with (marshal write_InventoryBatch b).
  by erewrite decode_text; [|eauto with wire|lia|eauto with wire].
Qed.

Lemma batch_ack_ok b : batch_ok b = true -> ack_ok (batch_ack b) = true.
Proof. unfold batch_ok, ack_ok. intros Hb. bool_to_prop. by apply andb_true_iff. Qed.

Lemma batch_ack_fits b : batch_ok b = true -> fits (print (write_InventoryAck (batch_ack b)) ^^ nl).
Proof.
  unfold batch_ok, int64_ok. intros Hb. bool_to_prop.
  pose proof (FormatInt_short (Batch_Seq b)) as Hl. unfold fits, batch_ack, write_InventoryAck.
  cbn -[FormatInt]. rewrite !string_length_app. cbn [String.length].
  change (String.length (marshal_string "ok")) with 4%nat.
  change (String.length (marshal_string "lastSeq")) with 9%nat. change (String.length nl) with 1%nat.
  unfold in_int64 in Hl. lia.
Qed.

Lemma inventory_mock cfg s b m :
  points_at_mock cfg -> ServerToken cfg = Mock.token s -> batch_ok b = true ->
  Inventory (client cfg) b m s = (inr (batch_ack b), SetTunnelConnected true m, s).
Proof.
  intros Hp Ht Hb. unfold Inventory.
  rewrite (post_reply _ _ _ _ _ _ _ _ _ Hp (batch_ack_fits _ Hb) (inventory_answer _ _ _ Ht Hb)). cbn [Z.eqb].
  change (decode_inventory_ack ?t) with (unmarshal_or json_error read_InventoryAck zero_InventoryAck t).
  unfold unmarshal_or. pose proof (batch_ack_ok _ Hb).
  by erewrite unmarshal_line; [|eauto with wire|lia|eauto with wire].
Qed.

(** ** Uploading *)

(** The uploader's control plane is the client of [cfg] with its gauge. *)
Definition mock_sender (cfg : Config) : BatchSender (Metrics * Mock.server) := http_sender (client cfg).

Lemma mock_acks cfg s :
  points_at_mock cfg -> ServerToken cfg = Mock.token s -> valid_utf8 (ClusterID cfg) = true ->
  forall seq full evs (w : Metrics * Mock.server),
    w.2 = s -> Forall (fun e => event_ok e = true) evs -> in_int64 seq ->
    exists ack w', @send _ (mock_sender cfg) (mkInventoryBatch (ClusterID cfg) seq full evs) w = (inr ack, w') /\ w'.2 = s.
Proof.
  intros Hp Ht Hcl seq full evs [m w] Hw He Hseq. cbn in Hw. subst w. cbn [send mock_sender http_sender fst snd].
  rewrite inventory_mock; [by eauto|done..|]. unfold batch_ok, int64_ok. cbn [Batch_ClusterID Batch_Seq Batch_Events].
  rewrite Hcl, (proj2 (Forall_forallb _ _) He), (proj2 (Z.leb_le _ _)), (proj2 (Z.leb_le _ _)); unfold in_int64 in Hseq; done || lia.
Qed.

Lemma decoded_event_ok line ev : Uploader.Unmarshal line = Some ev -> event_ok ev = true.
Proof.
  cbn [Uploader.Unmarshal wire_events]. intros Hu. unfold unmarshal in Hu.
  apply bind_Some in Hu as (v & Hv & Hr). apply Unmarshal_value_ok in Hv. by eapply read_InventoryEvent_ok.
Qed.

(** C19. Uploads drain: an agent that points at the mock control plane with its
    token and whose events are UTF-8 sends its snapshot and everything it has
    buffered or spilled in at most one round per event plus one: [Run] meets no
    error, comes to wait for events with nothing left, and has counted exactly
    the snapshot and the backlog as sent; the server is unchanged. *)
Theorem mock_uploads_drain cfg s fuel snap i bo u m io :
  points_at_mock cfg -> ServerToken cfg = Mock.token s -> valid_utf8 (ClusterID cfg) = true ->
  (forall j, Forall (fun e => event_ok e = true) (snap j)) -> Forall (fun e => event_ok e = true) (u_buf u) ->
  (length (backlog u) < fuel)%nat ->
  exists u' m',
    @run_until_idle _ _ (mock_sender cfg) fuel cfg io true true snap i bo u (m, s) = Done (Some (u', (m', s))) /\
    backlog u' = [] /\ u_needSnapshot u' = false /\
    sent_count u' = sent_count u +
      Z.of_nat (length (if u_needSnapshot u then snap i else []) + length (backlog u)).
Proof.
  intros Hp Ht Hcl Hsnap Hbuf Hfuel.
  destruct (@run_drains _ _ (mock_sender cfg) cfg io (fun w => w.2 = s) (fun e => event_ok e = true)
    (mock_acks cfg s Hp Ht Hcl) decoded_event_ok fuel snap i bo u (m, s)) as (u' & [m' s'] & Hr & Hw & H1 & H2 & H3);
    [done..|]. cbn in Hw. subst s'. by exists u', m'.
Qed.

(** ** The WebSocket channel *)

#[local] Instance frames : Frames := wire_frames json_error.

(** One connection at a time: the server as it was when the connection was
    accepted, the frames the agent wrote, how many of the answers it read and the
    size of frames it reads.  A larger frame breaks the connection; closing the
    connection ends the handler. *)
Record session := mkSession { ss_server : Mock.server; ss_written : list string; ss_read : nat; ss_limit : Z }.

(** The limit of a connection that was set none, and the error of a read over
    its limit. *)
Definition default_limit : Z := 32768.
Definition too_big : string := "read limited: message too big".

Definition new_session (s : Mock.server) : session := mkSession s [] 0 default_limit.

Definition ws_url : string := "ws://" ^^ addr ^^ "/audit_ready/k8s/ws".

Definition all_writes (_ : nat) : bool := true.

Definition ended (w : session) : Mock.server :=
  match Mock.ws all_writes (ss_written w) (ss_server w) with
  | Done (_, _, s) => s
  | Panic => Mock.set_wsDelivered (ss_server w)   (* only a report read after the pushes panics *)
  end.

#[local] Instance mock_sockets : Sockets session := {
  ws_dial url w := if url =s ws_url then (inr 1%nat, new_session (ss_server w)) else (inl "no such host", w);
  ws_limit _ n w := mkSession (ss_server w) (ss_written w) (ss_read w) n;
  ws_write _ data w := (None, mkSession (ss_server w) (ss_written w ++ [data]) (ss_read w) (ss_limit w));
  ws_read _ w :=
    match Mock.ws all_writes (ss_written w) (ss_server w) with
    | Done (out, _, _) =>
        match out !! ss_read w with
        | Some data =>
            if Z.of_nat (String.length data) <=? ss_limit w
            then (inr (true, data), mkSession (ss_server w) (ss_written w) (S (ss_read w)) (ss_limit w))
            else (inl too_big, w)
        | None => (inl "closed", w)
        end
    | Panic => (inl "EOF", w)
    end;
  ws_close _ w := new_session (ended w);
}.

(** What the handler reads and writes on the hello of an agent. *)
Definition agent_utf8 (cfg : Config) : Prop :=
  valid_utf8 (ClusterID cfg) = true /\ valid_utf8 (ServerToken cfg) = true.

Lemma agent_hello_ok cfg : agent_utf8 cfg -> hello_ok (agent_hello cfg) = true.
Proof. intros [Hc Ht]. unfold hello_ok. cbn -[valid_utf8]. by rewrite Hc, Ht. Qed.

Lemma read_agent_hello cfg :
  agent_utf8 cfg ->
  unmarshal read_WsHello zero_WsHello (encode_hello (agent_hello cfg)) = Some (agent_hello cfg).
Proof.
  intros Hu%agent_hello_ok. change (encode_hello ?h) with (marshal write_WsHello h).
  eapply unmarshal_text; [eauto with wire|lia|eauto with wire].
Qed.

(** The commands a connection is pushed. *)
Definition ws_pending (s : Mock.server) : list Command := if Mock.wsDelivered s then [] else Mock.commands s.
Definition command_frame (c : Command) : string :=
  marshal write_WsCommandMessage (mkWsCommandMessage WsTypeCommand (Some c)).

Lemma push_commands_all i cs : Mock.push_commands all_writes i cs = (command_frame <$> cs, true).
Proof. revert i. induction cs as [|c cs IH]; intros i; cbn; [done|]. by rewrite IH. Qed.

Lemma ws_accepts cfg s rest :
  agent_utf8 cfg -> ServerToken cfg = Mock.token s ->
  Mock.ws all_writes (encode_hello (agent_hello cfg) :: rest) s =
    outcome_bind (Mock.read_reports rest) (fun reps =>
      Done (Mock.hello_ack true "" :: (command_frame <$> ws_pending s), reps, Mock.set_wsDelivered s)).
Proof.
  intros Hu Ht. unfold Mock.ws. rewrite read_agent_hello by done.
  change (Hello_Type (agent_hello cfg)) with WsTypeAgentHello. rewrite eqb_refl_string. cbn [negb].
  change (Hello_Token (agent_hello cfg)) with (ServerToken cfg). rewrite Ht, eqb_refl_string. cbn [negb all_writes].
  unfold ws_pending. destruct (Mock.wsDelivered s); [done|]. by rewrite push_commands_all.
Qed.

Lemma ws_rejects cfg s rest :
  agent_utf8 cfg -> ServerToken cfg <> Mock.token s ->
  Mock.ws all_writes (encode_hello (agent_hello cfg) :: rest) s = Done ([Mock.hello_ack false "unauthorized"], [], s).
Proof.
  intros Hu Ht. unfold Mock.ws. rewrite read_agent_hello by done.
  change (Hello_Type (agent_hello cfg)) with WsTypeAgentHello. rewrite eqb_refl_string. cbn [negb].
  change (Hello_Token (agent_hello cfg)) with (ServerToken cfg).
  by rewrite (proj2 (string_eqb_false _ _) Ht).
Qed.

(** The agent's side of the connection. *)
Definition opened (cfg : Config) (s : Mock.server) (n : nat) (limit : Z) : session :=
  mkSession s [encode_hello (agent_hello cfg)] n limit.

(** The frames a client that has set its limit can read. *)
Definition readable (c : Command) : bool := Z.of_nat (String.length (command_frame c)) <=? readLimit.

Lemma read_opened cfg s n k limit :
  agent_utf8 cfg -> ServerToken cfg = Mock.token s ->
  ws_read k (opened cfg s n limit) =
    match (Mock.hello_ack true "" :: (command_frame <$> ws_pending s)) !! n with
    | Some data =>
        if Z.of_nat (String.length data) <=? limit then (inr (true, data), opened cfg s (S n) limit)
        else (inl too_big, opened cfg s n limit)
    | None => (inl "closed", opened cfg s n limit)
    end.
Proof.
  intros Hu Ht. cbn [ws_read mock_sockets opened ss_written ss_server ss_read].
  by rewrite (ws_accepts cfg s [] Hu Ht).
Qed.

(** The ack is short. *)
Definition ack_limit : Z := 256.

Lemma handshake_accepted cfg s limit :
  agent_utf8 cfg -> ServerToken cfg = Mock.token s -> ack_limit <= limit ->
  handshake cfg 1 (mkSession s [] 0 limit) = (None, opened cfg s 1 limit) /\
  hello_reply cfg 1 (mkSession s [] 0 limit) = Some (Mock.hello_ack true "").
Proof.
  intros Hu Ht Hl. unfold handshake, hello_reply. cbn [ws_write mock_sockets ss_server ss_written ss_read ss_limit app].
  change (mkSession s [encode_hello (agent_hello cfg)] 0 limit) with (opened cfg s 0 limit).
  rewrite (read_opened _ _ _ _ _ Hu Ht). cbn [lookup list_lookup].
  rewrite (proj2 (Z.leb_le _ _)); [by split|]. etransitivity; [|exact Hl]. vm_compute. discriminate.
Qed.

Lemma handshake_rejected cfg s :
  agent_utf8 cfg -> ServerToken cfg <> Mock.token s ->
  (handshake cfg 1 (new_session s)).1 = Some (AuthErr "hello rejected: unauthorized").
Proof.
  intros Hu Ht. unfold handshake. cbn [ws_write mock_sockets new_session ss_server ss_written ss_read ss_limit app].
  cbn [ws_read mock_sockets ss_written ss_server ss_read]. rewrite (ws_rejects cfg s [] Hu Ht).
  reflexivity.
Qed.

(** A command frame hands the command to the handler unchanged. *)
Lemma dispatch_command k c cl :
  command_ok c = true -> c_handler cl = true ->
  dispatch k true (command_frame c) cl = Done (log_event (WCommand k (Some c)) cl).
Proof.
  intros Hc Hh. unfold dispatch. cbn [negb].
  set (m := mkWsCommandMessage WsTypeCommand (Some c)). assert (command_frame_ok m = true) as Hm by done.
  assert (decode_type (command_frame c) = inr WsTypeCommand) as ->.
  { cbn [decode_type frames wire_frames]. unfold unmarshal_or, command_frame.
    by erewrite unmarshal_text; [|by apply write_WsCommandMessage_ok|lia|reflexivity]. }
  assert (decode_command (command_frame c) = Some (Some c)) as ->.
  { cbn [decode_command frames wire_frames]. unfold command_frame. fold m.
    by rewrite (unmarshal_text _ _ _ _ m 3 (write_WsCommandMessage_ok _ Hm)); [|lia|apply read_write_WsCommandMessage]. }
  by rewrite eqb_refl_string, Hh.
Qed.

(** Logging a sequence of events. *)
Definition log_all (es : list ws_event) (c : WsClient.Client) : WsClient.Client := foldl (fun c e => log_event e c) c es.

(** How the read loop ends on a list of commands. *)
Definition loop_end (cs : list Command) : string := "read: " ^^ (if forallb readable cs then "closed" else too_big).

(** The commands up to the first that is not readable. *)
Fixpoint take_readable (cs : list Command) : list Command :=
  match cs with
  | [] => []
  | c :: cs => if readable c then c :: take_readable cs else []
  end.

Lemma take_readable_split cs :
  exists lost, cs = take_readable cs ++ lost /\ forallb readable (take_readable cs) = true /\
    (forallb readable cs = true -> lost = []) /\
    (forallb readable cs = false -> exists c, head lost = Some c /\ readLimit < Z.of_nat (String.length (command_frame c))).
Proof.
  induction cs as [|c cs (lost & Hs & Ha & Ht & Hf)]; [by exists []|]. cbn [take_readable forallb].
  destruct (readable c) eqn:Hc; cbn [andb forallb].
  - exists lost. rewrite Hc. cbn [app andb]. split_and!; [by f_equal|done..].
  - exists (c :: cs). split_and!; [done..|]. intros _. exists c. split; [done|]. unfold readable in Hc. by apply Z.leb_gt in Hc.
Qed.

Lemma readLoop_commands cfg s cs fuel n k cl :
  agent_utf8 cfg -> ServerToken cfg = Mock.token s -> Forall (fun c => command_ok c = true) cs ->
  c_handler cl = true -> drop n (ws_pending s) = cs -> (length cs < fuel)%nat ->
  exists m, readLoop fuel k cl (opened cfg s (S n) readLimit) =
    Done (Some (loop_end cs), log_all ((fun c => WCommand k (Some c)) <$> take_readable cs) cl, opened cfg s m readLimit).
Proof.
  intros Hu Ht Hok. revert fuel n cl. induction Hok as [|c cs Hc _ IH]; intros fuel n cl Hh Hd Hf;
    (destruct fuel as [|fuel]; [cbn in Hf; lia|]); cbn [readLoop]; rewrite (read_opened _ _ _ _ _ Hu Ht);
    rewrite lookup_cons_ne_0, list_lookup_fmap by done; cbn [Nat.pred].
  - rewrite lookup_ge_None_2; [by eexists|].
    apply (f_equal length) in Hd. rewrite length_drop in Hd. cbn in Hd. lia.
  - assert (ws_pending s !! n = Some c) as -> by (rewrite <- (Nat.add_0_r n), <- lookup_drop, Hd; done).
    cbn [fmap option_fmap option_map]. unfold loop_end. cbn [take_readable forallb]. fold (readable c).
    destruct (readable c); cbn [andb]; [|by eexists].
    rewrite dispatch_command by done. cbn [outcome_bind].
    destruct (IH fuel (S n) (log_event (WCommand k (Some c)) cl)) as (m & Hm); [done| |cbn in Hf; lia|by exists m; rewrite Hm].
    rewrite <- Nat.add_1_r, <- drop_drop, Hd. done.
Qed.

Lemma signed_ok_commands pk cs : Forall (Mock.signed_ok pk) cs -> Forall (fun c => command_ok c = true) cs.
Proof. intros Hs. eapply Forall_impl; [exact Hs|]. by intros c [? _]. Qed.

Lemma TrimRightSlash_keeps (a b : string) c :
  Ascii.eqb "/" c = false -> TrimRightSlash (a ^^ b ^^ String c "") = a ^^ b ^^ String c "".
Proof.
  intros Hc. unfold TrimRightSlash, trim_right.
  assert (forall x y z, rev_string (x ^^ y) z = rev_string y (rev_string x z)) as Happ.
  { induction x as [|d x IH]; intros y z; [done|]. rewrite string_app_cons. cbn. apply IH. }
  rewrite trim_left_id; [by rewrite rev_string_involutive|]. by rewrite !Happ.
Qed.

(** The address has no scheme of its own. *)
Definition plain_address : Prop := HasPrefix (addr ^^ "/audit_ready") "https://" = false.

Lemma wsURL_mock cfg : points_at_mock cfg -> plain_address -> wsURL (EndpointBase cfg) = ws_url.
Proof.
  intros Hp Ha. unfold points_at_mock, server_url in Hp. rewrite Hp. unfold wsURL.
  change "/audit_ready" with ("/audit_read" ^^ "y"). rewrite TrimRightSlash_keeps by done.
  change ("/audit_read" ^^ "y") with "/audit_ready". rewrite string_app_assoc.
  change (HasPrefix ("http://" ^^ ?x) "https://") with false. cbv iota. rewrite TrimPrefix_app.
  unfold TrimPrefix. rewrite Ha. unfold ws_url. by rewrite string_app_assoc.
Qed.

Lemma log_all_fields es c :
  c_events (log_all es c) = c_events c ++ es /\ c_conn (log_all es c) = c_conn c /\
  c_connected (log_all es c) = c_connected c.
Proof.
  unfold log_all. revert c. induction es as [|e es IH]; intros c; cbn [foldl]; [by rewrite app_nil_r|].
  destruct (IH (log_event e c)) as (-> & -> & ->). cbn. by rewrite <- app_assoc.
Qed.

(** C25. The fast path delivers the command file: an agent with the mock's
    address and token and a handler installed connects, is accepted, and hands
    the commands of the server's file to its handler, in order and unchanged, over
    that connection, which it then closes: all of them when every frame is within
    the read limit of 256 KiB, and otherwise those before the first larger one, at
    which the connection breaks.  A later connection is pushed nothing either
    way. *)
Theorem fast_path_delivers `{!Ed25519Laws} tok file key ReadFile rnd clock s cfg fuel bo cl old n limit :
  Mock.newServer json_error tok file key ReadFile rnd clock = Done (inr s) ->
  points_at_mock cfg -> plain_address -> agent_utf8 cfg -> ServerToken cfg = Mock.token s -> c_handler cl = true ->
  (length (Mock.commands s) < fuel)%nat ->
  let small := forallb readable (Mock.commands s) in
  exists cl' w' sent lost,
    Mock.commands s = sent ++ lost /\ forallb readable sent = true /\
    (small = true -> lost = []) /\ (small = false -> exists c, head lost = Some c /\ readLimit < Z.of_nat (String.length (command_frame c))) /\
    connectOnce fuel cfg bo cl (mkSession s old n limit)
      = Done (Some (ConnErr ("read: " ^^ (if small then "closed" else too_big))), reset bo, cl', w') /\
    c_events cl' = c_events cl ++ [WHello 1 (Some (Mock.hello_ack true ""))] ++
      ((fun c => WCommand 1 (Some c)) <$> sent) ++ [WClosed 1] /\
    WsClient.Connected cl' = false /\ ws_pending (ss_server w') = [].
Proof.
  intros Hnew Hp Ha Hu Ht Hh Hf small. destruct (Mock.newServer_spec _ _ _ _ _ _ _ _ Hnew) as (_ & _ & _ & _ & Hdel & Hsig).
  apply signed_ok_commands in Hsig.
  assert (ws_pending s = Mock.commands s) as Hpend by (unfold ws_pending; by rewrite Hdel).
  unfold connectOnce. rewrite (wsURL_mock _ Hp Ha). cbn [ws_dial mock_sockets]. rewrite eqb_refl_string.
  cbn [ss_server ws_limit mock_sockets new_session ss_written ss_read].
  destruct (handshake_accepted cfg s readLimit Hu Ht) as [-> ->]; [vm_compute; discriminate|].
  set (c1 := set_connected _ _).
  destruct (readLoop_commands cfg s (Mock.commands s) fuel 0 1 c1 Hu Ht Hsig Hh Hpend Hf) as (m & ->). cbn [outcome_bind].
  destruct (take_readable_split (Mock.commands s)) as (lost & Hsplit & Hall & Hrest).
  destruct (log_all_fields ((fun c => WCommand 1 (Some c)) <$> take_readable (Mock.commands s)) c1) as (He & Hc & _).
  set (c2 := log_all _ c1) in *.
  eexists _, _, (take_readable (Mock.commands s)), lost. split_and!; [exact Hsplit|exact Hall|by apply Hrest|by apply Hrest|done|..].
  - assert (c_events (disconnect 1 c2) = c_events c2 ++ [WClosed 1]) as -> by (unfold disconnect; by case_match).
    rewrite He. cbn. by rewrite <- !app_assoc.
  - unfold disconnect. by case_match.
  - cbn [ws_close mock_sockets ss_server]. unfold ended, opened. cbn [ss_written ss_server new_session].
    by rewrite (ws_accepts cfg s [] Hu Ht).
Qed.

(** ** Reports over the fast path *)

Lemma read_reports_sent reps :
  Forall (fun r => report_ok r = true) reps -> Mock.read_reports (encode_report <$> reps) = Done reps.
Proof.
  induction 1 as [|r reps Hr _ IH]; [done|]. cbn [fmap list_fmap Mock.read_reports].
  set (m := mkWsReportMessage WsTypeReport (Some r)). change (encode_report r) with (marshal write_WsReportMessage m).
  assert (report_frame_ok m = true) as Hm by done. pose proof (write_WsReportMessage_ok _ Hm) as Hp.
  erewrite (unmarshal_text _ _ _ _ (mkWsEnvelope WsTypeReport) 2 Hp); [|lia|reflexivity].
  cbn [Env_Type]. rewrite eqb_refl_string. cbn [negb].
  rewrite (unmarshal_text _ _ _ _ m 2 Hp); [|lia|by apply read_write_WsReportMessage].
  cbn [RepMsg_Report m]. fold (fmap (M:=list) encode_report reps). by rewrite IH.
Qed.

(** The agent sends a list of reports over the channel. *)
Fixpoint send_all (reps : list Report) (c : WsClient.Client) (w : session) : list (option string) * WsClient.Client * session :=
  match reps with
  | [] => ([], c, w)
  | r :: reps =>
      let '(e, c, w) := WsClient.SendReport r c w in
      let '(es, c, w) := send_all reps c w in
      (e :: es, c, w)
  end.

Lemma send_all_written reps c w :
  c_connected c = true -> c_conn c = Some 1%nat ->
  exists c', send_all reps c w =
    ((fun _ => None) <$> reps, c', mkSession (ss_server w) (ss_written w ++ (encode_report <$> reps)) (ss_read w) (ss_limit w)).
Proof.
  revert c w. induction reps as [|r reps IH]; intros c w Hc Hk; cbn [send_all].
  { exists c. rewrite app_nil_r. by destruct w. }
  unfold WsClient.SendReport. rewrite Hc, Hk. cbn [negb ws_write mock_sockets].
  destruct (IH (log_event (WReport 1 r) c) (mkSession (ss_server w) (ss_written w ++ [encode_report r]) (ss_read w) (ss_limit w)))
    as (c' & ->); [done..|]. exists c'. cbn. by rewrite <- app_assoc.
Qed.

(** Reports sent over the fast path arrive: after the handshake every report
    the client writes without error is logged by the server, all of them, in
    order and with every field intact. *)
Lemma fast_path_reports_logged cfg s n limit c reps :
  agent_utf8 cfg -> ServerToken cfg = Mock.token s -> c_connected c = true -> c_conn c = Some 1%nat ->
  Forall (fun r => report_ok r = true) reps ->
  exists es c' w',
    send_all reps c (opened cfg s n limit) = (es, c', w') /\ Forall (eq None) es /\
    exists out s', Mock.ws all_writes (ss_written w') s = Done (out, reps, s').
Proof.
  intros Hu Ht Hc Hk Hr. destruct (send_all_written reps c (opened cfg s n limit) Hc Hk) as (c' & Hs).
  eexists _, c', _. split; [exact Hs|]. split; [apply Forall_fmap, Forall_true; done|].
  cbn [ss_written opened app]. rewrite (ws_accepts _ _ _ Hu Ht), (read_reports_sent _ Hr). cbn [outcome_bind]. by eauto.
Qed.

(** ** Credentials *)

Lemma wrong_token s tok : tok <> Mock.token s -> Mock.authorized s ("Bearer " ^^ tok) = false.
Proof.
  intros Ht. unfold Mock.authorized. apply string_eqb_false. intros Heq. apply Ht.
  by apply (f_equal (skip 7)) in Heq.
Qed.

Lemma poll_rejected s auth body :
  Mock.authorized s auth = false ->
  Mock.handler json_error no_upgrade "POST" "/audit_ready/k8s/poll" auth body s
    = Done (Mock.writeJSON 401 (write_PollResponse (mkPollResponse false [])), s).
Proof.
  intros Ha. unfold Mock.handler. change (Mock.mux _ _) with Mock.RoutePoll. cbv iota. unfold Mock.poll. by rewrite Ha.
Qed.

Lemma inventory_rejected s auth body :
  Mock.authorized s auth = false ->
  Mock.handler json_error no_upgrade "POST" "/audit_ready/k8s/inventory" auth body s
    = Done (Mock.writeJSON 401 (write_InventoryAck (mkInventoryAck false 0 "")), s).
Proof.
  intros Ha. unfold Mock.handler. change (Mock.mux _ _) with Mock.RouteInventory. cbv iota.
  unfold Mock.inventory. by rewrite Ha.
Qed.

(** C36. A wrong token is an authentication error everywhere: whatever the agent
    uploads or polls for, the request fails with HTTP 401, the tunnel gauge goes
    down, and the server hands out and records nothing; the hello of the fast
    path is rejected, and the client takes that for an authentication error
    too. *)
Theorem wrong_token_rejected cfg s m :
  points_at_mock cfg -> ServerToken cfg <> Mock.token s ->
  (forall req, exists body, Poll (client cfg) req m s = (inl (AuthError 401 body), SetTunnelConnected false m, s)) /\
  (forall b, exists body, Inventory (client cfg) b m s = (inl (AuthError 401 body), SetTunnelConnected false m, s)) /\
  (agent_utf8 cfg -> (handshake cfg 1 (new_session s)).1 = Some (AuthErr "hello rejected: unauthorized")).
Proof.
  intros Hp Hne. pose proof (wrong_token _ _ Hne) as Ht. split_and!; [intros x; eexists..|].
  - unfold Poll. rewrite (fun f => post_reply cfg _ _ _ _ _ _ _ _ Hp f (poll_rejected _ _ _ Ht)); [done|].
    vm_compute. discriminate.
  - unfold Inventory. rewrite (fun f => post_reply cfg _ _ _ _ _ _ _ _ Hp f (inventory_rejected _ _ _ Ht)); [done|].
    vm_compute. discriminate.
  - intros Hu. by rewrite handshake_rejected.
Qed.

(** ** Commands *)

Context {P : Type} `{!PushChannel P}.

(** The request an iteration of the receiver's [Run] builds. *)
Definition next_request (r : Receiver P) : PollRequest :=
  mkPollRequest (ClusterID (r_cfg r)) agentVersion (rp_val <$> poll_request r).

(** An iteration of [Run] against the server: the poll and what follows it. *)
Definition poll_round (r : Receiver P) (bo : backoff) (m : Metrics) (s : Mock.server) (cancelled : bool) (k : Z)
    (now now' : Time) : outcome (Receiver P * backoff * run_next * Metrics * Mock.server) :=
  let '(res, m, s) := Poll (client (r_cfg r)) (next_request r) m s in
  outcome_bind
    (run_after_poll r bo (poll_request r)
       (match res with inl e => PollError (is_auth e) | inr resp => PollReply resp end) cancelled k now now')
    (fun '(r, bo, next) => Done (r, bo, next, m, s)).

(** An agent set up from what the mock server prints. *)
Record set_up (cfg : Config) (s : Mock.server) : Prop := {
  su_endpoint : points_at_mock cfg;
  su_token : ServerToken cfg = Mock.token s;
  su_key : ServerPublicKey cfg = b64_encode (Mock.pub s);
  su_size : String.length (Mock.pub s) = PublicKeySize;
  su_writer : WriterEnabled cfg = true;
  su_cluster : valid_utf8 (ClusterID cfg) = true;
}.

Lemma set_up_key cfg s : set_up cfg s -> PublicKey cfg = inr (Mock.pub s).
Proof. intros [_ _ Hk Hs _ _]. unfold PublicKey. by rewrite Hk, b64_decode_encode, Hs. Qed.

(** C16. From the command file to the handler: an agent set up from what a mock
    server printed at its start gets the commands of the server's file on its
    first poll and dispatches every one of them, in order, provided IDs and nonces
    differ, the clock is within five minutes of the timestamps and the response is
    under 16 MiB; nothing is refused, and every later poll gets no command. *)
Theorem command_file_is_executed `{!Ed25519Laws} tok file key ReadFile rnd clock s cfg (push : option P) m k now now' :
  Mock.newServer json_error tok file key ReadFile rnd clock = Done (inr s) -> set_up cfg s ->
  NoDup (Cmd_ID <$> Mock.commands s) -> NoDup (Cmd_Nonce <$> Mock.commands s) ->
  Forall (fun c => - maxClockSkew <= Sub now (Unix (Cmd_Timestamp c)) <= maxClockSkew) (Mock.commands s) ->
  fits (print (Mock.write_pollResponse true (Mock.commands s)) ^^ nl) ->
  exists r' m' s',
    poll_round (set_running (Receiver.New cfg push) true) (mkBackoff 0 false) m s false k now now'
      = Done (r', mkBackoff 0 false, Sleep (PollInterval cfg), m', s') /\
    r_spawned r' = (fun c => (c, RunCtx)) <$> Mock.commands s /\ r_metrics r' = empty_metrics /\
    forall req m2, poll_ok req = true ->
      Poll (client cfg) req m2 s' = (inr (mkPollResponse true []), SetTunnelConnected true m2, s').
Proof.
  intros Hnew Hsu Hids Hnon Hskew Hfit. pose proof (set_up_key _ _ Hsu) as Hkey.
  destruct (Mock.newServer_spec _ _ _ _ _ _ _ _ Hnew) as (_ & _ & _ & Hdel & _ & Hsig).
  destruct Hsu as [Hend Htok _ _ Hwr Hcl].
  assert (pending s = Mock.commands s) as Hpend by (unfold pending; by rewrite Hdel).
  unfold poll_round. change (r_cfg (set_running (Receiver.New cfg push) true)) with cfg.
  rewrite poll_mock; [|done|done|unfold poll_ok; cbn -[valid_utf8]; by rewrite Hcl|rewrite Hpend; by eapply signed_ok_commands|by rewrite Hpend].
  rewrite Hpend. cbn [run_after_poll Resp_OK Resp_Commands].
  set (r0 := set_queue _ _).
  destruct (process_all_fresh now now' (Mock.commands s) r0) as (r' & Hpa & Hsp & Hcfg & Hm); [done|done| |].
  { apply Forall_forall. intros c Hc. rewrite Forall_forall in Hskew, Hsig.
    split; [split; [done|split; [|by apply Hskew]]|split; cbn; apply not_elem_of_empty].
    exists (Mock.pub s). split; [exact Hkey|]. by apply Hsig. }
  rewrite Hpa. cbn [outcome_bind]. eexists r', _, _. split; [by rewrite Hcfg|]. split; [exact Hsp|]. split; [exact Hm|].
  intros req m2 Hreq. rewrite poll_mock; done || (vm_compute; discriminate) || constructor.
Qed.

(** ** Reports *)

Lemma clear_all q : clearSent (snapshot q) q = mkReportQueue (q_cap q) [].
Proof.
  unfold clearSent, snapshot. f_equal. rewrite <- (app_nil_r (q_ll q)) at 2. apply drop_sent_app; [|constructor].
  apply Forall_forall. intros r Hr. apply list_elem_of_fmap. by exists r.
Qed.

(** Reports reach the control plane: one poll of a receiver with nothing new
    to fetch hands every queued report to the server, which logs exactly them, in
    order and field by field, and empties the queue; and what the client writes to
    an accepted WebSocket connection is logged in full as well. *)
Theorem reports_reach_server (r : Receiver P) s bo m k now now' n limit c reps :
  set_up (r_cfg r) s -> valid_utf8 (ServerToken (r_cfg r)) = true -> pending s = [] ->
  Forall (fun p => report_ok (rp_val p) = true) (q_ll (r_queue r)) ->
  c_connected c = true -> c_conn c = Some 1%nat -> Forall (fun rep => report_ok rep = true) reps ->
  (exists resp,
     Mock.poll ("Bearer " ^^ ServerToken (r_cfg r)) (encode_poll (next_request r)) s
       = Done (resp, rp_val <$> q_ll (r_queue r), Mock.set_delivered s)) /\
  poll_round r bo m s false k now now'
    = Done (set_queue r (mkReportQueue (q_cap (r_queue r)) []), reset bo, Sleep (PollInterval (r_cfg r)),
            SetTunnelConnected true m, Mock.set_delivered s) /\
  exists es c' w', send_all reps c (opened (r_cfg r) s n limit) = (es, c', w') /\ Forall (eq None) es /\
    exists out s', Mock.ws all_writes (ss_written w') s = Done (out, reps, s').
Proof.
  intros [Hend Htok _ _ _ Hcl] Htu Hpend Hq Hc Hk Hreps.
  assert (poll_ok (next_request r) = true) as Hreq.
  { unfold poll_ok, next_request. cbn [Poll_ClusterID Poll_Version Poll_Reports]. rewrite Hcl. cbn [andb].
    apply Forall_forallb, Forall_fmap. exact Hq. }
  split_and!.
  - eexists. unfold Mock.poll, Mock.authorized. rewrite Htok, eqb_refl_string. cbn [negb].
    change (encode_poll ?q) with (marshal write_PollRequest q).
    erewrite decode_text; [|eauto with wire|lia|eauto with wire]. cbn [PR_Reports sent_poll].
    by rewrite log_reports_some.
  - unfold poll_round. rewrite poll_mock; [|done..|by rewrite Hpend|rewrite Hpend; vm_compute; discriminate].
    rewrite Hpend. cbn [run_after_poll Resp_OK Resp_Commands fmap list_fmap process_all outcome_bind].
    unfold poll_request. by rewrite clear_all.
  - by apply fast_path_reports_logged.
Qed.
End ControlPlane.


(** ** A concrete pair

    The mock server on its default address with a file of two commands, and an
    agent with the environment its banner asks for. *)
Module MockExample.

#[local] Existing Instance ToyEd25519.toy.
#[local] Existing Instance ToyEd25519.toy_laws.
#[local] Instance no_push : PushChannel Empty_set := {
  Connected p := match p with end;
  SendReport _ p := match p with end;
}.

Definition address : string := "127.0.0.1:8443".
Definition json_err (_ : string) : string := "invalid JSON".
Definition upgrade : Z * string := (426, "Upgrade Required").
Definition noon : Time := mkTime (1700000000 + unixToInternal) 0.

Definition field (k v : string) : string := quoted k ^^ ":" ^^ v.
Definition file_text : string :=
  "[{" ^^ field "verb" (quoted "delete") ^^ ", " ^^ field "target" ("{" ^^ field "resource" (quoted "pods") ^^ "}") ^^ "}, {"
  ^^ field "id" (quoted "c-2") ^^ ", " ^^ field "nonce" (quoted "n-2") ^^ ", " ^^ field "verb" (quoted "restart") ^^ "}]".

Definition start : outcome (string + Mock.server) :=
  Mock.newServer json_err "dev-token" "commands.json" (inr sample_key) (fun _ => inr file_text)
    (fun i => (FormatInt (Z.of_nat i), "nonce")) (fun _ => noon).
Definition srv : Mock.server :=
  Eval vm_compute in
    match start with Done (inr s) => s | _ => Mock.mkServer "" "" "" [] false false end.

Lemma start_srv : start = Done (inr srv).
Proof. vm_compute. reflexivity. Qed.

Example srv_commands : (fun c => (Cmd_ID c, Cmd_Nonce c, Cmd_Timestamp c, Cmd_Verb c)) <$> Mock.commands srv =
  [("30", hex_encode "nonce", 1700000000, "delete"); ("c-2", "n-2", 1700000000, "restart")].
Proof. vm_compute. reflexivity. Qed.

Definition env (tok key : string) : string :=
  if key =s "SERVER_ENDPOINT" then "http://127.0.0.1:8443/audit_ready/"
  else if key =s "SERVER_TOKEN" then tok
  else if key =s "SERVER_PUBLIC_KEY" then b64_encode (Mock.pub srv)
  else "".
Definition cfg : Config := Eval vm_compute in read_env (env "dev-token").
Definition stranger : Config := Eval vm_compute in read_env (env "other").

Lemma cfg_set_up : set_up address cfg srv.
Proof. split; vm_compute; reflexivity. Qed.

Lemma command_file_is_executed_witness :
  exists r' m' s',
    poll_round json_err address upgrade (set_running (Receiver.New cfg (None : option Empty_set)) true)
      (mkBackoff 0 false) empty_metrics srv false 0 noon noon
      = Done (r', mkBackoff 0 false, Sleep (PollInterval cfg), m', s') /\
    r_spawned r' = (fun c => (c, RunCtx)) <$> Mock.commands srv /\ r_metrics r' = empty_metrics /\
    forall req m2, poll_ok req = true ->
      @Poll _ (mock_transport json_err address upgrade) (wire_messages json_err) (client cfg) req m2 s'
      = (inr (mkPollResponse true []), SetTunnelConnected true m2, s').
Proof.
  apply (command_file_is_executed json_err address upgrade "dev-token" "commands.json" (inr sample_key)
    (fun _ => inr file_text) (fun i => (FormatInt (Z.of_nat i), "nonce")) (fun _ => noon));
    [exact start_srv|exact cfg_set_up|apply (bool_decide_unpack _); vm_compute; exact I
    |apply (bool_decide_unpack _); vm_compute; exact I
    |repeat constructor; vm_compute; discriminate|vm_compute; discriminate].
Defined.

Lemma fast_path_delivers_witness :
  exists cl' w' sent lost,
    Mock.commands srv = sent ++ lost /\ forallb readable sent = true /\
    (true = true -> lost = []) /\ (true = false -> exists c, head lost = Some c /\ readLimit < Z.of_nat (String.length (command_frame c))) /\
    @connectOnce _ (mock_sockets address) (wire_frames json_err) 10 cfg (mkBackoff 0 false)
      (SetCommandHandler WsClient.New) (mkSession srv [] 0 0)
      = Done (Some (ConnErr "read: closed"), reset (mkBackoff 0 false), cl', w') /\
    c_events cl' = [] ++ [WHello 1 (Some (Mock.hello_ack true ""))] ++ ((fun c => WCommand 1 (Some c)) <$> sent) ++ [WClosed 1] /\
    WsClient.Connected cl' = false /\ ws_pending (ss_server w') = [].
Proof.
  apply (fast_path_delivers json_err address "dev-token" "commands.json" (inr sample_key)
    (fun _ => inr file_text) (fun i => (FormatInt (Z.of_nat i), "nonce")) (fun _ => noon));
    [exact start_srv|vm_compute; reflexivity|vm_compute; reflexivity|split; vm_compute; reflexivity
    |vm_compute; reflexivity|reflexivity|vm_compute; lia].
Defined.

Definition connected_client : WsClient.Client := set_connected true (set_conn (Some 1%nat) WsClient.New).
Definition done_report : Report := mkReport "" "c-2" StatusSucceeded "restarted" "" 100 1700000001.

Definition polled : Mock.server := Mock.set_delivered srv.
Definition reporting : Receiver Empty_set := deliverReport (Receiver.New cfg None) done_report.

Lemma reports_reach_server_witness :
  (exists resp,
     Mock.poll "Bearer dev-token" (marshal write_PollRequest (next_request reporting)) polled
       = Done (resp, [done_report], Mock.set_delivered polled)) /\
  poll_round json_err address upgrade reporting new_backoff empty_metrics polled false 0 noon noon
    = Done (set_queue reporting (mkReportQueue 1000 []), reset new_backoff, Sleep (PollInterval cfg),
            SetTunnelConnected true empty_metrics, Mock.set_delivered polled) /\
  exists es c' w',
    send_all json_err address [done_report; done_report] connected_client (opened json_err cfg polled 1 readLimit) = (es, c', w') /\
    Forall (eq None) es /\
    exists out s', Mock.ws all_writes (ss_written w') polled = Done (out, [done_report; done_report], s').
Proof.
  apply (reports_reach_server json_err address upgrade reporting polled new_backoff empty_metrics 0 noon noon 1 readLimit
    connected_client [done_report; done_report]);
    [split; vm_compute; reflexivity|vm_compute; reflexivity|reflexivity|repeat constructor|reflexivity|reflexivity
    |repeat constructor].
Defined.

Lemma wrong_token_rejected_witness :
  (forall req, exists body,
     @Poll _ (mock_transport json_err address upgrade) (wire_messages json_err) (client stranger) req empty_metrics srv
     = (inl (AuthError 401 body), SetTunnelConnected false empty_metrics, srv)) /\
  (forall b, exists body,
     @Inventory _ (mock_transport json_err address upgrade) (wire_messages json_err) (client stranger) b empty_metrics srv
     = (inl (AuthError 401 body), SetTunnelConnected false empty_metrics, srv)) /\
  (agent_utf8 stranger ->
     (@handshake _ (mock_sockets address) (wire_frames json_err) stranger 1 (new_session srv)).1
     = Some (AuthErr "hello rejected: unauthorized")).
Proof. apply (wrong_token_rejected json_err address upgrade); [vm_compute; reflexivity|vm_compute; discriminate]. Defined.

(** An uploader with a buffered event and one in its spill file. *)
Definition pod (name : string) : InventoryEvent :=
  mkInventoryEvent "add" (mkResourceRef "" "v1" "pods" "default" name) "{}" 1700000000.
Definition busy : Uploader :=
  set_buf (Uploader.New (mkDisk (Some (marshal write_InventoryEvent (pod "a") ^^ nl)) (Some "7"))) [pod "b"].

Lemma mock_uploads_drain_witness :
  exists u' m',
    @run_until_idle wire_events _ (mock_sender json_err address upgrade cfg) 3 cfg (fun _ => seq_ok) true true
      (fun _ => [pod "c"]) 0 initialBackoff busy (empty_metrics, srv) = Done (Some (u', (m', srv))) /\
    @backlog wire_events u' = [] /\ u_needSnapshot u' = false /\
    sent_count u' = sent_count busy + Z.of_nat (length [pod "c"] + length (@backlog wire_events busy)).
Proof.
  apply (mock_uploads_drain json_err address upgrade cfg srv 3 (fun _ => [pod "c"]) 0 initialBackoff busy);
    [vm_compute; reflexivity|vm_compute; reflexivity|vm_compute; reflexivity|repeat constructor|repeat constructor
    |vm_compute; lia].
Defined.
End MockExample.
