(* ===== verification/AgentSystem.v ===== *)
(** * The agent, its control plane and the network between them

    [Goroutines] runs the agent's receiver; [MockServer] is the control plane.
    Here they run together: poll requests and replies are texts in transit, which
    can be lost, and a request the agent gave up on may still be handled later;
    the server pushes command frames on each connection it accepts, and reads the
    report frames the agent has written; a connection that breaks loses any of
    them.  A world step is a step of the agent, of the server or of the network, in
    any order; a whole session of the handler is a run of such steps
    ([session_run]).

    A reply with a null command, which crashes the agent, has no step. *)

From S2P Require Import Prelude GoStrings GoTime Json JsonString JsonText JsonParse Protocol Wire Config Metrics Backoff NonceCache ReportQueue Receiver Goroutines HttpClient WsClient Codecs MockServer ControlPlane.
Local Open Scope Z_scope.

Section AgentSystem.
Context `{Ed25519} {P : Type} `{!PushChannel P}.
Variable json_error : string -> string.
Variable cfg : Config.

#[local] Instance messages : Messages := wire_messages json_error.
#[local] Instance frames : Frames := wire_frames json_error.

(** ** The client's side *)

(** The reply to the request under way, or none. *)
#[local] Instance reply_transport : Transport (option (Z * string)) := {
  build_error _ := None;
  do_request _ reply :=
    match reply with
    | Some (code, text) => (inr (mkResponse code (inr text)), None)
    | None => (inl "EOF", None)
    end;
}.

(** What the poll loop makes of a reply (the request does not matter for it). *)
Definition reply_result (reply : Z * string) : poll_result :=
  poll_outcome (client cfg) (mkPollRequest "" "" []) empty_metrics (Some reply).

(** The command the read loop takes from a frame. *)
Definition frame_command (data : string) : option Command :=
  match dispatch 1 true data (SetCommandHandler WsClient.New) with
  | Done c => match c_events c with [WCommand _ (Some cmd)] => Some cmd | _ => None end
  | Panic => None
  end.

(** The session of the mock server, from its hello on and frame by frame. *)
Lemma read_reports_cons data up :
  (forall reps, Mock.read_reports (data :: up) = Done reps ->
     exists r1 r2, Mock.read_reports [data] = Done r1 /\ Mock.read_reports up = Done r2 /\ reps = r1 ++ r2) /\
  (Mock.read_reports [data] = Panic -> Mock.read_reports (data :: up) = Panic).
Proof.
  cbn [Mock.read_reports]. destruct (unmarshal read_WsEnvelope _ data) as [env|]; [|naive_solver].
  destruct (negb _); [naive_solver|]. destruct (unmarshal read_WsReportMessage _ data) as [msg|]; [|naive_solver].
  destruct (RepMsg_Report msg) as [rep|]; [|naive_solver].
  destruct (Mock.read_reports up) as [rs|]; cbn [outcome_bind]; [|naive_solver].
  split; [|done]. intros reps [= <-]. by exists [rep], rs.
Qed.

Lemma ws_hello write_ok hello up srv out reps srv' :
  Mock.ws write_ok (hello :: up) srv = Done (out, reps, srv') ->
  Mock.ws write_ok [hello] srv = Done (out, [], srv') /\ (reps = [] \/ Mock.read_reports up = Done reps).
Proof.
  unfold Mock.ws. destruct (unmarshal _ _ _) as [h|]; [|intros; simplify_eq; by auto].
  destruct (negb (Hello_Type h =s _)); [intros; simplify_eq; by auto|].
  destruct (negb (Hello_Token h =s _)); [intros; simplify_eq; by auto|].
  destruct (negb (write_ok 0%nat)); [intros; simplify_eq; by auto|].
  destruct (if Mock.wsDelivered srv then _ else _) as [fs ok]. destruct (negb ok); [intros; simplify_eq; by auto|].
  destruct (Mock.read_reports up) as [rs|]; [|done]. cbn. intros; simplify_eq. by auto.
Qed.

(** ** The world *)

Record world := mkWorld {
  w_sys : sys (P := P);
  w_srv : Mock.server;
  w_log : list Report;              (* reports the poll handler has logged *)
  w_request : option string;        (* the poll under way: its request, then its reply *)
  w_reply : option (Z * string);
  w_stale : list string;            (* requests the agent no longer waits for *)
  w_frames : list string;           (* frames pushed and not yet read *)
  w_up : list string;               (* report frames written and not yet read *)
}.

Definition world_start (s0 : Mock.server) (push : option P) : world :=
  mkWorld (sys_start cfg push) s0 [] None None [] [] [].

(** What a step of the agent writes to the fast path. *)
Definition sent_frames (y y' : sys (P := P)) : list string :=
  encode_report ∘ rp_val <$> drop (length (h_fast (y_hist y))) (h_fast (y_hist y')).

Definition bearer : string := "Bearer " ^^ ServerToken cfg.

Inductive wstep : world -> world -> Prop :=
(** The agent. *)
| ws_local y y' srv log rq rp st fr up :
    lstep y y' -> wstep (mkWorld y srv log rq rp st fr up)
      (mkWorld y' srv log rq rp st fr (up ++ sent_frames y y'))
| ws_poll r ts h i srv log st fr up :
    ts !! i = Some (KPoll, []) ->
    wstep (mkWorld (mkSys r ts None h) srv log None None st fr up)
      (mkWorld (mkSys r ts (Some (poll_request r)) h) srv log (Some (encode_poll (next_request r))) None st fr up)
| ws_reply r ts sent h i cmds srv log rp st fr up :
    ts !! i = Some (KPoll, []) -> reply_result rp = PollReply (mkPollResponse true (Some <$> cmds)) ->
    wstep (mkWorld (mkSys r ts (Some sent) h) srv log None (Some rp) st fr up)
      (mkWorld (mkSys (set_queue r (clearSent sent (r_queue r))) (<[i := (KPoll, OpSeenID <$> cmds)]> ts) None
                  (note_taken cmds (note_ack sent h))) srv log None None st fr up)
| ws_not_ok r ts sent h i cmds srv log rp st fr up :
    ts !! i = Some (KPoll, []) -> reply_result rp = PollReply (mkPollResponse false (Some <$> cmds)) ->
    wstep (mkWorld (mkSys r ts (Some sent) h) srv log None (Some rp) st fr up)
      (mkWorld (mkSys r (<[i := (KPoll, OpSeenID <$> cmds)]> ts) None (note_taken cmds h)) srv log None None st fr up)
(** An error: the connection broke, the deadline passed, the reply was refused;
    the request may be on its way still. *)
| ws_fail r ts sent h srv log rq rp st fr up :
    wstep (mkWorld (mkSys r ts (Some sent) h) srv log rq rp st fr up)
      (mkWorld (mkSys r ts None h) srv log None None (st ++ option_list rq) fr up)
| ws_frame r ts fl h i cmd data srv log rq rp st fr up :
    ts !! i = Some (KWs, []) -> is_Some (r_push r) -> Z.of_nat (String.length data) <= readLimit ->
    frame_command data = Some cmd ->
    wstep (mkWorld (mkSys r ts fl h) srv log rq rp st (data :: fr) up)
      (mkWorld (mkSys r (<[i := (KWs, [OpSeenID cmd])]> ts) fl (note_taken [cmd] h)) srv log rq rp st fr up)
(** The server. *)
| ws_handle y srv log body code text reps srv' st fr up :
    Mock.poll bearer body srv = Done ((code, text), reps, srv') ->
    wstep (mkWorld y srv log (Some body) None st fr up) (mkWorld y srv' (log ++ reps) None (Some (code, text)) st fr up)
| ws_handle_stale y srv log rq rp body reply reps srv' st fr up :
    body ∈ st -> Mock.poll bearer body srv = Done (reply, reps, srv') ->
    wstep (mkWorld y srv log rq rp st fr up) (mkWorld y srv' (log ++ reps) rq rp st fr up)
(** A connection: what the server writes after its hello, until a write fails. *)
| ws_connect y srv log rq rp st fr up write_ok ack out reps srv' :
    Mock.ws write_ok [encode_hello (agent_hello cfg)] srv = Done (ack :: out, reps, srv') ->
    wstep (mkWorld y srv log rq rp st fr up) (mkWorld y srv' log rq rp st out up)
(** The handler of a connection reads a report frame. *)
| ws_report y srv log rq rp st fr data up reps :
    Mock.read_reports [data] = Done reps ->
    wstep (mkWorld y srv log rq rp st fr (data :: up)) (mkWorld y srv (log ++ reps) rq rp st fr up)
(** A connection is lost, and with it what was on its way. *)
| ws_drop y srv log rq rp st fr up up' :
    up' `sublist_of` up -> wstep (mkWorld y srv log rq rp st fr up) (mkWorld y srv log rq rp st [] up').

(** The handler's session as steps: the connection, then its frames one by one. *)
Lemma read_reports_run y srv log rq rp st fr up reps :
  Mock.read_reports up = Done reps ->
  rtc wstep (mkWorld y srv log rq rp st fr up) (mkWorld y srv (log ++ reps) rq rp st fr []).
Proof.
  revert log reps. induction up as [|data up IH]; intros log reps Hr.
  { cbn in Hr. simplify_eq. rewrite app_nil_r. apply rtc_refl. }
  destruct (read_reports_cons data up) as [Hc _]. destruct (Hc reps Hr) as (r1 & r2 & H1 & H2 & ->).
  eapply rtc_l; [by apply ws_report|]. rewrite (assoc_L (++)). by apply IH.
Qed.

Lemma session_run y srv log rq rp st fr up write_ok ack out reps srv' :
  Mock.ws write_ok (encode_hello (agent_hello cfg) :: up) srv = Done (ack :: out, reps, srv') ->
  rtc wstep (mkWorld y srv log rq rp st fr up) (mkWorld y srv' (log ++ reps) rq rp st out []) \/
  reps = [] /\ rtc wstep (mkWorld y srv log rq rp st fr up) (mkWorld y srv' log rq rp st out up).
Proof.
  intros Hw. destruct (ws_hello _ _ _ _ _ _ _ Hw) as [Hh Hr].
  assert (wstep (mkWorld y srv log rq rp st fr up) (mkWorld y srv' log rq rp st out up)) as Hc by (by eapply ws_connect).
  destruct Hr as [-> |Hr]; [right; split; [done|by apply rtc_once]|left].
  eapply rtc_l; [exact Hc|]. by apply read_reports_run.
Qed.

(** The agent of the world is the agent of [Goroutines]. *)
Lemma world_step w w' : wstep w w' -> rtc sstep (w_sys w) (w_sys w').
Proof.
  destruct 1; cbn [w_sys]; try apply rtc_refl; apply rtc_once; first
    [by apply ss_local|apply ss_net; first [by eapply ss_poll|by eapply ss_reply|by eapply ss_not_ok|by eapply ss_push|by apply ss_fail]].
Qed.

Lemma world_run w w' : rtc wstep w w' -> rtc sstep (w_sys w) (w_sys w').
Proof. induction 1 as [|w1 w2 w3 Hs _ IH]; [apply rtc_refl|]. etrans; [by apply world_step|done]. Qed.

(** ** What is in transit *)

(** A reply of the poll handler. *)
Lemma poll_reply auth body srv code text reps srv' :
  Mock.poll auth body srv = Done ((code, text), reps, srv') ->
  (code <> 200 /\ reps = [] /\ srv' = srv) \/
  (code = 200 /\ text = print (Mock.write_pollResponse true (ControlPlane.pending srv)) ^^ nl /\
     srv' = Mock.set_delivered srv).
Proof.
  unfold Mock.poll, Mock.writeJSON. destruct (negb _); [intros [= <- _ <- <-]; by left|].
  destruct (Mock.decode_body _ _ _) as [q|]; [|intros [= <- _ <- <-]; by left].
  destruct (Mock.log_reports _) as [l|]; [|done]. cbn [outcome_bind]. intros [= <- <- _ <-]. by right.
Qed.

(** The reply as the client sees it. *)
Lemma reply_result_ok code text resp :
  reply_result (code, text) = PollReply resp ->
  code = 200 /\ unmarshal read_PollResponse zero_PollResponse (take_bytes maxBody text) = Some resp.
Proof.
  unfold reply_result, poll_outcome, Poll, post. cbn [build_error do_request reply_transport Body StatusCode].
  destruct (Z.eqb_spec code 200) as [->|]; [|by destruct (_ || _)].
  cbn [decode_poll messages wire_messages]. unfold unmarshal_or.
  destruct (unmarshal _ _ _) as [a|]; cbn; [by intros [= ->]|done].
Qed.

Lemma reply_result_commands cs :
  Forall (fun c => command_ok c = true) cs -> fits (print (Mock.write_pollResponse true cs) ^^ nl) ->
  reply_result (200, print (Mock.write_pollResponse true cs) ^^ nl) = PollReply (mkPollResponse true (Some <$> cs)).
Proof.
  intros Hc Hf. unfold reply_result, poll_outcome, Poll, post.
  cbn [build_error do_request reply_transport Body StatusCode]. rewrite fits_take by done. cbn [Z.eqb Pos.eqb].
  cbn [decode_poll messages wire_messages]. unfold unmarshal_or.
  by erewrite unmarshal_line; [|by apply write_pollResponse_ok|lia|by apply read_pollResponse].
Qed.

Lemma frame_of_command c : command_ok c = true -> frame_command (command_frame c) = Some c.
Proof. intros Hc. unfold frame_command. by rewrite (dispatch_command json_error). Qed.

(** The frames of a connection carry commands of the server. *)
Lemma push_commands_frames write_ok i cs :
  Forall (fun f => exists c, c ∈ cs /\ f = command_frame c) (Mock.push_commands write_ok i cs).1.
Proof.
  revert i. induction cs as [|c cs IH]; intros i; cbn [Mock.push_commands]; [constructor|].
  destruct (write_ok i); [|constructor]. specialize (IH (S i)).
  destruct (Mock.push_commands write_ok (S i) cs) as [fs ok]. cbn [fst] in *. constructor; [set_solver|].
  eapply Forall_impl; [exact IH|]. cbn. set_solver.
Qed.

Lemma ws_frames write_ok hello srv ack out reps srv' :
  Mock.ws write_ok [hello] srv = Done (ack :: out, reps, srv') ->
  Forall (fun f => exists c, c ∈ Mock.commands srv /\ f = command_frame c) out /\
  Mock.commands srv' = Mock.commands srv /\ Mock.token srv' = Mock.token srv.
Proof.
  unfold Mock.ws. destruct (unmarshal _ _ _) as [h|];
    [|destruct (write_ok 0%nat); intros Hout; simplify_eq; by split].
  destruct (negb (Hello_Type h =s _)); [destruct (write_ok 0%nat); intros Hout; simplify_eq; by split|].
  destruct (negb (Hello_Token h =s _)); [destruct (write_ok 0%nat); intros Hout; simplify_eq; by split|].
  destruct (negb (write_ok 0%nat)); [done|].
  assert (Forall (fun f => exists c, c ∈ Mock.commands srv /\ f = command_frame c)
    (if Mock.wsDelivered srv then ([], true) else Mock.push_commands write_ok 1 (Mock.commands srv)).1) as Hall
    by (destruct (Mock.wsDelivered srv); [constructor|apply push_commands_frames]).
  destruct (if Mock.wsDelivered srv then _ else _) as [fs ok]. cbn [fst] in Hall.
  destruct (negb ok); cbn [Mock.read_reports outcome_bind]; by intros [= <- <- <- <-].
Qed.

(** The server keeps its token. *)
Lemma token_run s0 push w : rtc wstep (world_start s0 push) w -> Mock.token (w_srv w) = Mock.token s0.
Proof.
  intros Hrun. refine (rtc_ind_r (fun w => Mock.token (w_srv w) = Mock.token s0) (world_start s0 push) eq_refl _ w Hrun).
  clear w Hrun. intros w w' _ Hstep <-.
  destruct Hstep as [| | | | | |y srv log body code text reps srv' st fr up Hp|y srv log rq rp body [code text] reps srv' st fr up _ Hp
    |y srv log rq rp st fr up write_ok ack out reps srv' Hw| |]; cbn [w_srv]; try done.
  - by apply poll_reply in Hp as [(_ & _ & ->)|(_ & _ & ->)].
  - by apply poll_reply in Hp as [(_ & _ & ->)|(_ & _ & ->)].
  - by apply ws_frames in Hw as (_ & _ & ?).
Qed.

(** ** Commands *)

Section Commands.
Variable cmds0 : list Command.
Hypothesis cmds0_ok : Forall (fun c => command_ok c = true) cmds0.
Hypothesis cmds0_fit : fits (print (Mock.write_pollResponse true cmds0) ^^ nl).

(** All commands in the world are the server's. *)
Record command_inv (w : world) : Prop := {
  ci_srv : Mock.commands (w_srv w) = cmds0;
  ci_reply : forall text, w_reply w = Some (200, text) ->
    exists cs, (cs = [] \/ cs = cmds0) /\ text = print (Mock.write_pollResponse true cs) ^^ nl;
  ci_frames : Forall (fun f => exists c, c ∈ cmds0 /\ f = command_frame c) (w_frames w);
  ci_taken : Forall (fun c => c ∈ cmds0) (h_taken (y_hist (w_sys w)));
}.

Lemma fits_none : fits (print (Mock.write_pollResponse true []) ^^ nl).
Proof. vm_compute. discriminate. Qed.

Lemma taken_local y y' : lstep y y' -> h_taken (y_hist y') = h_taken (y_hist y).
Proof.
  destruct 1 as [r ts fl h i k o ops now new r' Hi He|y y' []]; cbn [y_hist]; try done.
  destruct o; cbn [note]; repeat case_match; done.
Qed.

(** The commands of a reply are all the server's or none. *)
Lemma reply_commands w rp resp cs :
  command_inv w -> w_reply w = Some rp -> reply_result rp = PollReply resp -> Resp_Commands resp = Some <$> cs ->
  Forall (fun c => c ∈ cmds0) cs.
Proof.
  intros Hinv Hw Hr Hcs. destruct rp as [code text]. pose proof (reply_result_ok _ _ _ Hr) as [-> _].
  destruct (ci_reply w Hinv text Hw) as (cs' & Hcs' & ->).
  assert (Forall (fun c => command_ok c = true) cs' /\ fits (print (Mock.write_pollResponse true cs') ^^ nl)) as [Hok Hf]
    by (destruct Hcs' as [-> | ->]; [split; [constructor|exact fits_none]|exact (conj cmds0_ok cmds0_fit)]).
  rewrite (reply_result_commands cs' Hok Hf) in Hr. injection Hr as <-. cbn [Resp_Commands] in Hcs.
  apply (inj (fmap (M:=list) Some)) in Hcs as <-. destruct Hcs' as [-> | ->]; [constructor|by apply Forall_forall].
Qed.

Lemma command_step w w' : wstep w w' -> command_inv w -> command_inv w'.
Proof.
  intros Hstep Hinv. pose proof Hinv as [Hs Hr Hf Ht].
  destruct Hstep as [y y' srv log rq rp st fr up Hl|r ts h i srv log st fr up Hi|r ts sent h i cs srv log rp st fr up Hi Hrp
    |r ts sent h i cs srv log rp st fr up Hi Hrp|r ts sent h srv log rq rp st fr up|r ts fl h i cmd data srv log rq rp st fr up Hi Hpush Hlim Hd
    |y srv log body code text reps srv' st fr up Hp|y srv log rq rp body [code text] reps srv' st fr up Hb Hp
    |y srv log rq rp st fr up write_ok ack out reps srv' Hw|y srv log rq rp st fr data up reps Hrd|y srv log rq rp st fr up up' Hup];
    cbn [w_sys w_srv w_reply w_frames y_hist note_taken note_ack h_taken] in *.
  - split; cbn; try done. by rewrite (taken_local _ _ Hl).
  - split; done.
  - split; try done. apply Forall_app. split; [done|]. by eapply reply_commands.
  - split; try done. apply Forall_app. split; [done|]. by eapply reply_commands.
  - split; done.
  - apply Forall_cons in Hf as [(c & Hc & ->) Hf].
    rewrite frame_of_command in Hd by (by rewrite Forall_forall in cmds0_ok; apply cmds0_ok). injection Hd as <-.
    split; try done. apply Forall_app. split; [done|]. by constructor.
  - apply poll_reply in Hp as [(Hc & _ & ->)|(-> & -> & ->)]; split; try done; cbn [w_reply].
    + by intros text' [= -> _].
    + intros text' [= <-]. unfold ControlPlane.pending. rewrite Hs. destruct (Mock.delivered srv); eauto.
  - apply poll_reply in Hp as [(Hc & _ & ->)|(-> & -> & ->)]; by split.
  - apply ws_frames in Hw as (Hout & Hsrv & _). rewrite Hs in *. by split.
  - by split.
  - by split.
Qed.

Lemma command_run s0 push w :
  Mock.commands s0 = cmds0 -> rtc wstep (world_start s0 push) w -> command_inv w.
Proof.
  intros Hs Hr. assert (forall a b, rtc wstep a b -> command_inv a -> command_inv b) as Hstar
    by (induction 1; eauto using command_step).
  eapply Hstar; [exact Hr|]. by split.
Qed.

End Commands.

(** C3. Each command at most once, whatever the network does: against a mock
    control plane with at most 10000 commands, under lost requests, lost replies,
    requests handled after the agent gave up on them, connections broken and made
    again, and any interleaving of the two channels (a cache lookup being one
    step), what the agent has started
    are commands of the server's file, unchanged and signed, no ID twice; all of
    this only with the writer enabled. *)
Theorem at_most_once `{!Ed25519Laws} tok file key ReadFile rnd clock s0 push w :
  Mock.newServer json_error tok file key ReadFile rnd clock = Done (inr s0) ->
  Z.of_nat (length (Mock.commands s0)) <= maxIDs -> fits (print (Mock.write_pollResponse true (Mock.commands s0)) ^^ nl) ->
  rtc wstep (world_start s0 push) w ->
  let started := (r_spawned (y_r (w_sys w))).*1 in
  NoDup (Cmd_ID <$> started) /\ Forall (fun c => c ∈ Mock.commands s0 /\ signed cfg c) started.
Proof.
  intros Hnew Hlen Hfit Hrun started.
  destruct (Mock.newServer_spec _ _ _ _ _ _ _ _ Hnew) as (_ & _ & _ & _ & _ & Hsig).
  pose proof (command_run _ (signed_ok_commands _ _ Hsig) Hfit s0 push w eq_refl Hrun) as [_ _ _ Ht].
  pose proof (world_run _ _ Hrun) as Hs. cbn [w_sys world_start] in Hs.
  destruct (reachable_intake cfg push _ Hs) as [_ _ _ _ _ Hiw Hsg Hsp Hnew' Htk].
  assert (started ⊆+ h_val (y_hist (w_sys w))) as Hst by (unfold started; rewrite Hsp; by apply submseteq_inserts_r).
  assert (h_val (y_hist (w_sys w)) ⊆+ h_ids (y_hist (w_sys w))) as Hv
    by (etrans; [|exact Hnew']; by apply submseteq_inserts_r).
  assert (h_ids (y_hist (w_sys w)) ⊆+ h_taken (y_hist (w_sys w))) as Hi
    by (etrans; [|exact Htk]; by apply submseteq_inserts_r).
  rewrite Forall_forall in Ht, Hsg. split.
  - assert (Cmd_ID <$> started ⊆+ Cmd_ID <$> h_ids (y_hist (w_sys w))) as Hsub by (by rewrite Hst, Hv).
    apply (submseteq_NoDup _ _ Hsub), (window_distinct_few maxIDs _ (Cmd_ID <$> Mock.commands s0)); [done| |by rewrite length_fmap].
    intros x (c & -> & Hc)%list_elem_of_fmap. apply list_elem_of_fmap_2, Ht. by eapply elem_of_submseteq.
  - apply Forall_forall. intros c Hc. apply (elem_of_submseteq _ _ _ Hc) in Hst.
    split; [|by apply Hsg]. apply Ht. exact (elem_of_submseteq _ _ _ (elem_of_submseteq _ _ _ Hst Hv) Hi).
Qed.

(** ** Reports *)

Lemma fmap_subseteq {A B} (f : A -> B) (l k : list A) : l ⊆ k -> f <$> l ⊆ f <$> k.
Proof. intros Hs x (y & -> & Hy)%list_elem_of_fmap. by apply list_elem_of_fmap_2, Hs. Qed.

(** The body of a poll that carries [sent]. *)
Definition poll_text (sent : list ReportPtr) : string :=
  encode_poll (mkPollRequest (ClusterID cfg) agentVersion (rp_val <$> sent)).

Definition encodable (h : hist) : Prop := Forall (fun p => report_ok (rp_val p) = true) (h_made h).

(** The fast path takes one report after the other. *)
Lemma local_fast y y' : lstep y y' -> exists new, h_fast (y_hist y') = h_fast (y_hist y) ++ new.
Proof.
  destruct 1 as [r ts fl h i k o ops now new r' Hi He|y y' []]; cbn [y_hist note_made h_fast];
    [|by exists []; rewrite app_nil_r..].
  destruct o; cbn [note]; repeat case_match; cbn [h_fast note_made]; first [by exists []; rewrite app_nil_r|by eexists].
Qed.

(** Queued, made and fast-path reports stay so. *)
Lemma local_grows y y' :
  lstep y y' ->
  y_flight y' = y_flight y /\ h_ack (y_hist y') = h_ack (y_hist y) /\
  h_enq (y_hist y) ⊆ h_enq (y_hist y') /\ h_made (y_hist y) ⊆ h_made (y_hist y') /\
  h_fast (y_hist y) ⊆ h_fast (y_hist y').
Proof.
  destruct 1 as [r ts fl h i k o ops now new r' Hi He|y y' []]; cbn [y_hist y_flight note_made h_made h_enq h_ack h_fast];
    [|by split_and!; set_solver..].
  destruct o; cbn [note]; repeat case_match; cbn [h_made h_enq h_ack h_fast note_made]; split_and!; set_solver.
Qed.

Lemma world_made w w' : wstep w w' -> h_made (y_hist (w_sys w)) ⊆ h_made (y_hist (w_sys w')).
Proof. destruct 1; cbn [w_sys]; try done. by apply local_grows. Qed.

Lemma world_queued w w' :
  wstep w w' -> h_enq (y_hist (w_sys w)) ⊆ h_enq (y_hist (w_sys w')) /\ h_fast (y_hist (w_sys w)) ⊆ h_fast (y_hist (w_sys w')).
Proof. destruct 1; cbn [w_sys]; try done. destruct (local_grows y y') as (_ & _ & ? & _ & ?); done. Qed.

Lemma encodable_mono h h' : h_made h ⊆ h_made h' -> encodable h' -> encodable h.
Proof. unfold encodable. rewrite !Forall_forall. set_solver. Qed.

Section Reports.
Hypothesis cluster_utf8 : valid_utf8 (ClusterID cfg) = true.

Lemma poll_text_decodes sent :
  Forall (fun p => report_ok (rp_val p) = true) sent ->
  Mock.decode_body read_PollRequest zero_PollRead (poll_text sent)
    = Some (sent_poll (mkPollRequest (ClusterID cfg) agentVersion (rp_val <$> sent))).
Proof.
  intros Hsent. unfold poll_text. change (encode_poll ?q) with (marshal write_PollRequest q).
  assert (poll_ok (mkPollRequest (ClusterID cfg) agentVersion (rp_val <$> sent)) = true) as Hok.
  { unfold poll_ok. cbn [Poll_ClusterID Poll_Version Poll_Reports]. rewrite cluster_utf8. cbn [andb].
    by apply Forall_forallb, Forall_fmap. }
  eapply decode_text; [eauto with wire|lia|eauto with wire].
Qed.

(** A poll the server accepts logs what it carries. *)
Lemma poll_text_logged sent srv code text reps srv' :
  Forall (fun p => report_ok (rp_val p) = true) sent -> Mock.poll bearer (poll_text sent) srv = Done ((code, text), reps, srv') ->
  (code <> 200 /\ reps = []) \/ (code = 200 /\ reps = rp_val <$> sent).
Proof.
  intros Hsent. unfold Mock.poll, Mock.writeJSON. destruct (negb _); [intros [= <- _ <- _]; by left|].
  rewrite poll_text_decodes by done. cbn [PR_Reports sent_poll Poll_Reports].
  rewrite log_reports_some. cbn [outcome_bind]. intros [= <- _ <- _]. by right.
Qed.

(** What the polls in transit carry was queued, what the frames in transit carry
    was accepted by the fast path, what was acknowledged is in the server's log, and
    the log holds nothing else. *)
Record transit_inv (w : world) : Prop := {
  ti_request : forall body, w_request w = Some body ->
    exists sent, y_flight (w_sys w) = Some sent /\ body = poll_text sent;
  ti_stale : Forall (fun body => exists sent, body = poll_text sent /\ sent ⊆ h_enq (y_hist (w_sys w))) (w_stale w);
  ti_flight : forall sent, y_flight (w_sys w) = Some sent -> sent ⊆ h_enq (y_hist (w_sys w));
  ti_reply : forall code text, w_reply w = Some (code, text) ->
    exists sent, y_flight (w_sys w) = Some sent /\ (code = 200 -> rp_val <$> sent ⊆ w_log w);
  ti_acked : rp_val <$> h_ack (y_hist (w_sys w)) ⊆ w_log w;
  ti_logged : w_log w ⊆ rp_val <$> h_enq (y_hist (w_sys w)) ++ h_fast (y_hist (w_sys w));
  ti_up : Forall (fun data => exists p, data = encode_report (rp_val p) /\ p ∈ h_fast (y_hist (w_sys w))) (w_up w);
}.

(** A request handled, awaited or not. *)
Lemma transit_handle y srv srv' log sent code text reps rq rp st fr up :
  transit_inv (mkWorld y srv log rq rp st fr up) -> sent ⊆ h_enq (y_hist y) -> h_enq (y_hist y) ⊆ h_made (y_hist y) ->
  encodable (y_hist y) -> Mock.poll bearer (poll_text sent) srv = Done ((code, text), reps, srv') ->
  transit_inv (mkWorld y srv' (log ++ reps) rq rp st fr up) /\ (code = 200 -> rp_val <$> sent ⊆ log ++ reps).
Proof.
  intros [Hrq Hst Hfl Hrp Hak Hlg Hup] Hsent Hmade Henc Hp. cbn [w_sys w_srv w_log w_request w_reply w_stale w_frames] in *.
  assert (Forall (fun p => report_ok (rp_val p) = true) sent) as Hok.
  { unfold encodable in Henc. rewrite Forall_forall in Henc. apply Forall_forall. intros p Hp'. by apply Henc, Hmade, Hsent. }
  apply poll_text_logged in Hp as [[Hc ->]|[_ ->]]; [| |done].
  - rewrite app_nil_r. by split.
  - split; [|intros _; by apply list_subseteq_app_r].
    split; cbn [w_sys w_srv w_log w_request w_reply w_stale w_frames]; try done.
    + intros code' text' Ht. destruct (Hrp code' text' Ht) as (s & Hs & Hin). exists s. split; [done|].
      intros Hc'. by apply list_subseteq_app_l, Hin.
    + by apply list_subseteq_app_l.
    + apply list_subseteq_app_iff_l. split; [done|]. apply fmap_subseteq. set_solver.
Qed.

Lemma transit_step push s0 w w' :
  rtc wstep (world_start s0 push) w -> wstep w w' -> encodable (y_hist (w_sys w)) ->
  transit_inv w -> transit_inv w'.
Proof.
  intros Hrun Hstep Henc Hinv. apply world_run in Hrun. cbn [w_sys world_start] in Hrun.
  pose proof (in_cfg _ _ _ _ (reachable_intake _ _ _ Hrun)) as Hcfg.
  assert (h_enq (y_hist (w_sys w)) ⊆ h_made (y_hist (w_sys w))) as Hmade.
  { pose proof (rp_made _ _ _ (reachable_reports _ _ _ Hrun)) as Hm. intros p Hp.
    eapply elem_of_submseteq; [|exact Hm]. set_solver. }
  pose proof (rp_fast _ _ _ (reachable_reports _ _ _ Hrun)) as Hfmade.
  destruct (reachable_queue_inv _ _ _ Hrun) as [[_ _ _ (gone & He & _) _] _].
  cbn [queue_of QueueSystem.s_queue QueueSystem.s_enqueued] in He.
  pose proof Hinv as [Hrq Hst Hfl Hrp Hak Hlg Hup0].
  destruct Hstep as [y y' srv log rq rp st fr up Hl|r ts h i srv log st fr up Hi|r ts sent h i cs srv log rp st fr up Hi Hres
    |r ts sent h i cs srv log rp st fr up Hi Hres|r ts sent h srv log rq rp st fr up|r ts fl h i cmd data srv log rq rp st fr up Hi Hpush Hlim Hd
    |y srv log body code text reps srv' st fr up Hp|y srv log rq rp body [code text] reps srv' st fr up Hb Hp
    |y srv log rq rp st fr up write_ok ack out reps srv' Hw|y srv log rq rp st fr data up reps Hrd|y srv log rq rp st fr up up' Hup];
    cbn [w_sys w_srv w_log w_request w_reply w_stale w_frames y_hist y_flight y_r note_taken note_ack h_enq h_ack h_made] in *.
  - destruct (local_grows _ _ Hl) as (Hf & Ha & Hq & _ & Hfa).
    split; cbn [w_sys w_srv w_log w_request w_reply w_stale w_frames w_up]; rewrite ?Hf, ?Ha; try done; [| |set_solver|].
    + eapply Forall_impl; [exact Hst|]. cbn. set_solver.
    + intros sent Hs. specialize (Hfl sent Hs). set_solver.
    + apply Forall_app. split; [eapply Forall_impl; [exact Hup0|]; cbn; set_solver|].
      unfold sent_frames. destruct (local_fast _ _ Hl) as [new ->]. rewrite drop_app_length.
      apply Forall_fmap, Forall_forall. intros p Hp. exists p. split; [done|]. set_solver.
  - split; cbn [w_sys w_log w_request w_reply w_stale y_hist y_flight]; try done.
    + intros body [= <-]. exists (poll_request r). split; [done|]. unfold next_request. by rewrite Hcfg.
    + intros sent [= <-]. rewrite He. unfold poll_request, snapshot. set_solver.
  - destruct rp as [code text]. destruct (reply_result_ok _ _ _ Hres) as [-> _].
    destruct (Hrp 200 text eq_refl) as (sent' & [= <-] & Hin). specialize (Hin eq_refl).
    split; cbn [w_sys w_log w_request w_reply w_stale y_hist y_flight]; [done|exact Hst|done|done| |exact Hlg|exact Hup0].
    cbn [y_hist h_ack note_taken note_ack]. rewrite fmap_app. apply list_subseteq_app_iff_l. exact (conj Hak Hin).
  - split; try done.
  - split; cbn [w_sys w_log w_request w_reply w_stale y_hist y_flight]; try done.
    apply Forall_app. split; [done|]. destruct rq as [body|]; [|constructor].
    destruct (Hrq body eq_refl) as (sent' & [= <-] & ->). repeat constructor. exists sent. split; [done|]. by apply Hfl.
  - by split.
  - destruct (Hrq body eq_refl) as (sent & Hs & ->).
    destruct (transit_handle _ _ _ _ _ _ _ _ _ _ _ _ _ Hinv (Hfl _ Hs) Hmade Henc Hp) as [[_ Hst' _ _ Hak' Hlg' _] Hlog].
    split; cbn [w_sys w_log w_request w_reply w_stale] in *; try done.
    intros code' text' [= <- _]. exists sent. split; [done|]. exact Hlog.
  - rewrite Forall_forall in Hst. destruct (Hst body Hb) as (sent & -> & Hs).
    by destruct (transit_handle _ _ _ _ _ _ _ _ _ _ _ _ _ Hinv Hs Hmade Henc Hp) as [? _].
  - by split.
  - cbn [w_up] in Hup0. apply Forall_cons in Hup0 as [(p & -> & Hp) Hup0].
    assert (Mock.read_reports [encode_report (rp_val p)] = Done [rp_val p]) as Hrd'.
    { apply (read_reports_sent json_error [rp_val p]). constructor; [|constructor].
      unfold encodable in Henc. rewrite Forall_forall in Henc. by apply Henc, Hfmade. }
    rewrite Hrd' in Hrd. injection Hrd as <-.
    split; cbn [w_sys w_log w_request w_reply w_stale w_up]; try done.
    + intros code text Hc. destruct (Hrp code text Hc) as (s & Hs & Hin). exists s. split; [done|].
      intros Hcode. by apply list_subseteq_app_l, Hin.
    + by apply list_subseteq_app_l.
    + apply list_subseteq_app_iff_l. split; [done|]. intros x ->%list_elem_of_singleton.
      apply list_elem_of_fmap_2. set_solver.
  - split; try done. cbn [w_up] in *. rewrite Forall_forall in Hup0. apply Forall_forall. intros data Hd.
    apply Hup0. by eapply elem_of_sublist.
Qed.

Lemma transit_run push s0 w :
  rtc wstep (world_start s0 push) w -> encodable (y_hist (w_sys w)) -> transit_inv w.
Proof.
  intros Hrun. refine (rtc_ind_r (fun w => encodable (y_hist (w_sys w)) -> transit_inv w) (world_start s0 push) _ _ w Hrun).
  - intros _. by split.
  - clear w Hrun. intros w w' Hrun Hstep IH Henc.
    assert (encodable (y_hist (w_sys w))) as Hw by (by eapply encodable_mono; [apply world_made|]).
    eapply transit_step; [exact Hrun|exact Hstep|done|by apply IH].
Qed.

(** C4. Reports reach the control plane at least once, whatever the network
    does: provided that every report the agent has made is encodable (its texts
    are UTF-8), then under lost requests and replies, late requests, broken
    connections and any interleaving every report the agent has made is in the
    server's log, is queued or carried to the queue, was pushed out by an overflow,
    or is not terminal and was accepted by the fast path; what the agent took for
    acknowledged is in the log; and the log, of polls and WebSocket frames, holds
    nothing but reports the agent queued or wrote to the fast path. *)
Theorem at_least_once s0 push w :
  rtc wstep (world_start s0 push) w -> encodable (y_hist (w_sys w)) ->
  let s := w_sys w in
  (forall ptr, ptr ∈ h_made (y_hist s) ->
     rp_val ptr ∈ w_log w \/ ptr ∈ q_ll (r_queue (y_r s)) \/ ptr ∈ omap carrying (Goroutines.pending (y_threads s)) \/
     ptr ∈ h_drop (y_hist s) \/ (ptr ∈ h_fast (y_hist s) /\ isTerminal (Rep_Status (rp_val ptr)) = false)) /\
  rp_val <$> h_ack (y_hist s) ⊆ w_log w /\ w_log w ⊆ rp_val <$> h_enq (y_hist s) ++ h_fast (y_hist s).
Proof.
  intros Hrun Henc s. destruct (transit_run _ _ _ Hrun Henc) as [_ _ _ _ Hak Hlg _]. split; [|done].
  intros ptr Hp. apply world_run in Hrun. cbn [w_sys world_start] in Hrun.
  destruct (reachable_placed _ _ _ _ Hrun Hp) as [Hc|[Hq|[Ha|[Hd|Hf]]]]; [tauto|tauto| |tauto|tauto].
  left. apply Hak. by apply list_elem_of_fmap_2.
Qed.

(** The server's answer when the agent has its token. *)
Lemma poll_text_answer sent srv :
  ServerToken cfg = Mock.token srv -> Forall (fun p => report_ok (rp_val p) = true) sent ->
  Mock.poll bearer (poll_text sent) srv
    = Done ((200, print (Mock.write_pollResponse true (ControlPlane.pending srv)) ^^ nl), rp_val <$> sent, Mock.set_delivered srv).
Proof.
  intros Ht Hsent. unfold Mock.poll, Mock.authorized, bearer. rewrite Ht, eqb_refl_string. cbn [negb].
  rewrite poll_text_decodes by done. cbn [PR_Reports sent_poll Poll_Reports].
  by rewrite log_reports_some.
Qed.

(** One poll that goes through. *)
Lemma poll_goes_through r ts h i srv log st fr up :
  ts !! i = Some (KPoll, []) -> r_cfg r = cfg -> ServerToken cfg = Mock.token srv ->
  Forall (fun p => report_ok (rp_val p) = true) (q_ll (r_queue r)) ->
  Forall (fun c => command_ok c = true) (ControlPlane.pending srv) ->
  fits (print (Mock.write_pollResponse true (ControlPlane.pending srv)) ^^ nl) ->
  rtc wstep (mkWorld (mkSys r ts None h) srv log None None st fr up)
    (mkWorld (mkSys (set_queue r (mkReportQueue (q_cap (r_queue r)) []))
                (<[i := (KPoll, OpSeenID <$> ControlPlane.pending srv)]> ts) None
                (note_taken (ControlPlane.pending srv) (note_ack (q_ll (r_queue r)) h)))
       (Mock.set_delivered srv) (log ++ (rp_val <$> q_ll (r_queue r))) None None st fr up).
Proof.
  intros Hi Hcfg Htok Hq Hc Hf.
  eapply rtc_l; [by eapply ws_poll|].
  eapply rtc_l; [apply ws_handle|].
  { unfold next_request. rewrite Hcfg. by apply (poll_text_answer (poll_request r)). }
  apply rtc_once. rewrite <- clear_all. apply ws_reply; [done|]. by apply reply_result_commands.
Qed.

(** C20. The queue can always be drained: from every state a run can come to in
    which the poll loop waits, an agent with the server's token needs one poll
    that goes through for everything it had queued to be in the server's log, its
    queue empty, and no report made or dropped meanwhile.  So no loss, delay or
    late request ever leaves the agent in a state it cannot report from. *)
Theorem queue_can_drain s0 push w i :
  rtc wstep (world_start s0 push) w -> encodable (y_hist (w_sys w)) ->
  Forall (fun c => command_ok c = true) (Mock.commands s0) -> fits (print (Mock.write_pollResponse true (Mock.commands s0)) ^^ nl) ->
  ServerToken cfg = Mock.token s0 -> y_threads (w_sys w) !! i = Some (KPoll, []) ->
  exists w', rtc wstep w w' /\ q_ll (r_queue (y_r (w_sys w'))) = [] /\
    rp_val <$> q_ll (r_queue (y_r (w_sys w))) ⊆ w_log w' /\
    h_made (y_hist (w_sys w')) = h_made (y_hist (w_sys w)) /\ h_drop (y_hist (w_sys w')) = h_drop (y_hist (w_sys w)).
Proof.
  intros Hrun Henc Hcok Hfit Htok Hi.
  pose proof (command_run _ Hcok Hfit s0 push w eq_refl Hrun) as [Hsrv _ _ _].
  pose proof (token_run _ _ _ Hrun) as Htk. pose proof (transit_run _ _ _ Hrun Henc) as [Hrq _ _ Hrp _ _ _].
  apply world_run in Hrun. cbn [w_sys world_start] in Hrun.
  pose proof (in_cfg _ _ _ _ (reachable_intake _ _ _ Hrun)) as Hcfg.
  pose proof (rp_made _ _ _ (reachable_reports _ _ _ Hrun)) as Hm.
  destruct (reachable_queue_inv _ _ _ Hrun) as [[_ _ _ (gone & He & _) _] _].
  cbn [queue_of QueueSystem.s_queue QueueSystem.s_enqueued] in He.
  destruct w as [[r ts fl h] srv log rq rp st fr up].
  cbn [w_sys w_srv w_log w_request w_reply y_r y_threads y_flight y_hist] in *.
  assert (Forall (fun p => report_ok (rp_val p) = true) (q_ll (r_queue r))) as Hq.
  { unfold encodable in Henc. rewrite Forall_forall in Henc. apply Forall_forall. intros p Hp. apply Henc.
    eapply elem_of_submseteq; [|exact Hm]. rewrite He. set_solver. }
  assert (Forall (fun c => command_ok c = true) (ControlPlane.pending srv) /\
    fits (print (Mock.write_pollResponse true (ControlPlane.pending srv)) ^^ nl)) as [Hc Hf].
  { unfold ControlPlane.pending. rewrite Hsrv. destruct (Mock.delivered srv);
      [exact (conj (Forall_nil_2 _) fits_none)|exact (conj Hcok Hfit)]. }
  assert (exists st', rtc wstep (mkWorld (mkSys r ts fl h) srv log rq rp st fr up)
    (mkWorld (mkSys r ts None h) srv log None None st' fr up)) as (st' & Hidle).
  { destruct fl as [sent|]; [eexists; apply rtc_once, ws_fail|]. exists st.
    destruct rq as [body|]; [by destruct (Hrq body eq_refl) as (? & ? & _)|].
    destruct rp as [[code text]|]; [by destruct (Hrp code text eq_refl) as (? & ? & _)|]. apply rtc_refl. }
  eexists. split; [etrans; [exact Hidle|]; apply (poll_goes_through r ts h i); [done..|by rewrite Htok|done|done|exact Hf]|].
  cbn. split_and!; [done| |done|done]. by apply list_subseteq_app_r.
Qed.

End Reports.

(** Steps inside the agent, in the world. *)
Lemma lrun_fast y y' : rtc lstep y y' -> exists new, h_fast (y_hist y') = h_fast (y_hist y) ++ new.
Proof.
  induction 1 as [|y1 y2 y3 Hs _ (new' & IH)]; [by exists []; rewrite app_nil_r|].
  destruct (local_fast _ _ Hs) as (new & Hn). exists (new ++ new'). by rewrite IH, Hn, <- app_assoc.
Qed.

Lemma local_run y y' srv log rq rp st fr up :
  rtc lstep y y' -> rtc wstep (mkWorld y srv log rq rp st fr up) (mkWorld y' srv log rq rp st fr (up ++ sent_frames y y')).
Proof.
  intros Hr. revert up. induction Hr as [y|y1 y2 y3 Hs Hr IH]; intros up; unfold sent_frames.
  - rewrite drop_all. cbn. rewrite app_nil_r. apply rtc_refl.
  - eapply rtc_l; [by apply ws_local|]. specialize (IH (up ++ sent_frames y1 y2)). unfold sent_frames in *.
    destruct (local_fast _ _ Hs) as (new & Hn). destruct (lrun_fast _ _ Hr) as (new' & Hn').
    assert (drop (length (h_fast (y_hist y1))) (h_fast (y_hist y2)) = new) as E1 by (by rewrite Hn, drop_app_length).
    assert (drop (length (h_fast (y_hist y2))) (h_fast (y_hist y3)) = new') as E2 by (by rewrite Hn', drop_app_length).
    assert (drop (length (h_fast (y_hist y1))) (h_fast (y_hist y3)) = new ++ new') as ->
      by (by rewrite Hn', Hn, <- app_assoc, drop_app_length).
    rewrite E1, E2 in IH. rewrite E1, fmap_app, app_assoc. exact IH.
Qed.

End AgentSystem.

(** ** The concrete pair at work

    The agent fetches both commands of the file in its first poll, its poll loop
    accepts and starts them, and the two receipts wait for the next poll. *)
Module AgentExample.
Import MockExample.
#[local] Existing Instance ToyEd25519.toy.
#[local] Existing Instance ToyEd25519.toy_laws.
#[local] Existing Instance no_push.

Definition fetched : sys (P := Empty_set) :=
  mkSys (set_queue (Receiver.New cfg None) (mkReportQueue maxQueuedReports []))
    (<[0%nat := (KPoll, OpSeenID <$> Mock.commands srv)]> [(KPoll, []); (KWs, [])]) None
    (note_taken (Mock.commands srv) (note_ack [] empty_hist)).
Definition busy_agent : sys := run_sections 12 0 noon fetched.
Definition waiting : world :=
  mkWorld busy_agent (Mock.set_delivered srv) [] None None [] [] [].

Lemma waiting_reachable : rtc (wstep json_err cfg) (world_start cfg srv None) waiting.
Proof.
  etrans; [|exact (local_run json_err cfg fetched busy_agent (Mock.set_delivered srv) [] None None [] [] []
                     (sections_run 12 0 noon fetched))].
  apply (poll_goes_through json_err cfg eq_refl (Receiver.New cfg None) [(KPoll, []); (KWs, [])] empty_hist 0 srv [] [] [] []);
    [done|done|done|constructor|apply (bool_decide_unpack _); vm_compute; exact I|vm_compute; discriminate].
Qed.

Example waiting_state :
  (Cmd_ID <$> (r_spawned (y_r busy_agent)).*1, Rep_Status ∘ rp_val <$> q_ll (r_queue (y_r busy_agent)))
  = (["30"; "c-2"], [StatusReceived; StatusReceived]).
Proof. vm_compute. reflexivity. Qed.

Lemma waiting_encodable : encodable (y_hist busy_agent).
Proof. apply (bool_decide_unpack _). vm_compute. exact I. Qed.

Lemma at_most_once_witness : NoDup (Cmd_ID <$> (r_spawned (y_r (w_sys waiting))).*1).
Proof.
  assert (Z.of_nat (length (Mock.commands srv)) <= maxIDs) as Hl by (vm_compute; discriminate).
  assert (fits (print (Mock.write_pollResponse true (Mock.commands srv)) ^^ nl)) as Hf by (vm_compute; discriminate).
  destruct (at_most_once json_err cfg "dev-token" "commands.json" (inr sample_key) (fun _ => inr file_text)
    (fun i => (FormatInt (Z.of_nat i), "nonce")) (fun _ => noon) srv None waiting start_srv Hl Hf waiting_reachable) as [Hn _].
  exact Hn.
Defined.

Lemma at_least_once_witness : w_log waiting ⊆ rp_val <$> h_enq (y_hist (w_sys waiting)) ++ h_fast (y_hist (w_sys waiting)).
Proof.
  destruct (at_least_once json_err cfg eq_refl srv None waiting waiting_reachable waiting_encodable) as (_ & _ & Hl).
  exact Hl.
Defined.

Lemma queue_can_drain_witness :
  exists w', rtc (wstep json_err cfg) waiting w' /\ q_ll (r_queue (y_r (w_sys w'))) = [] /\
    rp_val <$> q_ll (r_queue (y_r (w_sys waiting))) ⊆ w_log w' /\
    h_made (y_hist (w_sys w')) = h_made (y_hist (w_sys waiting)) /\
    h_drop (y_hist (w_sys w')) = h_drop (y_hist (w_sys waiting)).
Proof.
  assert (Forall (fun c => command_ok c = true) (Mock.commands srv)) as Hc
    by (apply (bool_decide_unpack _); vm_compute; exact I).
  assert (fits (print (Mock.write_pollResponse true (Mock.commands srv)) ^^ nl)) as Hf by (vm_compute; discriminate).
  assert (y_threads (w_sys waiting) !! 0%nat = Some (KPoll, [])) as Hi by (vm_compute; reflexivity).
  exact (queue_can_drain json_err cfg eq_refl srv None waiting 0 waiting_reachable waiting_encodable Hc Hf eq_refl Hi).
Defined.
End AgentExample.
