(* ===== verification/Outcomes.v ===== *)
(** * From a started command to the server's log

    [AgentSystem] lets a command goroutine report anything at any time.  Here the
    goroutine of a started command runs the executor: its reports are those of a
    run of [HandleCommand], in order, each delivered before the next, while the
    other goroutines, the server and the network take their steps.  A handler that
    crashes (a Helm verb without its section) takes the process with it and has no
    run here. *)

From S2P Require Import Prelude GoStrings GoTime Json JsonString Protocol Wire Config NonceCache ReportQueue Receiver Goroutines Unstructured Drift Merge Cluster Executor ExecutorReports Operator HttpClient WsClient MockServer ControlPlane AgentSystem.
Local Open Scope Z_scope.

Section Outcomes.
Context `{Ed25519} {P : Type} `{!PushChannel P}.
Context `{Unstructured} `{Quantities} `{Decoders} {W : Type} `{!Cluster W}.
Context (has_mapper : bool).
Variable json_error : string -> string.
Variable cfg : Config.

(** A command goroutine: the command, the executor's reports delivered and still
    to be delivered, and the reports they were stamped into. *)
Record cmd_run := mkRun {
  ru_cmd : Command;
  ru_done : list Report;
  ru_todo : list Report;
  ru_mine : list ReportPtr;
}.

Definition with_sys (w : world (P := P)) (y : sys (P := P)) : world :=
  mkWorld y (w_srv w) (w_log w) (w_request w) (w_reply w) (w_stale w) (w_frames w) (w_up w ++ sent_frames json_error (w_sys w) y).

(** The goroutines of commands follow the two loops in the order of their start. *)
Inductive ostep : world (P := P) * list cmd_run -> world * list cmd_run -> Prop :=
(** A loop starts a goroutine, which runs the executor on some state of the
    cluster. *)
| os_spawn w runs r ts fl h i k cmd ops now r' fuel (cl : W) cl' tr :
    w_sys w = mkSys r ts fl h -> (i < 2)%nat -> ts !! i = Some (k, OpSpawn cmd :: ops) ->
    exec_op (OpSpawn cmd) now r = ([], r') -> HandleCommand cfg has_mapper fuel cmd cl = (Ret tt, cl', tr) ->
    ostep (w, runs)
      (with_sys w (mkSys r' (<[i := (k, ops)]> ts ++ [(KCommand cmd, [])]) fl h), runs ++ [mkRun cmd [] (reports_of tr) []])
(** It delivers the next report of the executor, section by section. *)
| os_report w runs r ts fl h j cmd dn rep todo mine now ptr r' :
    w_sys w = mkSys r ts fl h -> runs !! j = Some (mkRun cmd dn (rep :: todo) mine) ->
    ts !! (2 + j)%nat = Some (KCommand cmd, []) -> allocate r (stamp_report r cmd now rep) = (ptr, r') ->
    ostep (w, runs)
      (with_sys w (mkSys r' (<[(2 + j)%nat := (KCommand cmd, [OpSend ptr])]> ts) fl (note_made ptr h)),
       <[j := mkRun cmd (dn ++ [rep]) todo (mine ++ [ptr])]> runs)
| os_section w runs r ts fl h j k o ops now new r' :
    w_sys w = mkSys r ts fl h -> ts !! (2 + j)%nat = Some (k, o :: ops) -> (forall cmd, o <> OpSpawn cmd) ->
    exec_op o now r = (new, r') ->
    ostep (w, runs) (with_sys w (mkSys r' (<[(2 + j)%nat := (k, new ++ ops)]> ts) fl (note o now r h)), runs)
(** Any other step of the world. *)
| os_other w w' runs :
    wstep json_error cfg w w' -> drop 2 (y_threads (w_sys w')) = drop 2 (y_threads (w_sys w)) ->
    ostep (w, runs) (w', runs).

Lemma local_world w y' : lstep (w_sys w) y' -> wstep json_error cfg w (with_sys w y').
Proof. destruct w. apply ws_local. Qed.

(** These are steps of the world. *)
Lemma ostep_world s s' : ostep s s' -> wstep json_error cfg s.1 s'.1.
Proof.
  destruct 1 as [w runs r ts fl h i k cmd ops now r' fuel cl cl' tr Hw Hi Hk He _
    |w runs r ts fl h j cmd dn rep todo mine now ptr r' Hw _ Hk Ha
    |w runs r ts fl h j k o ops now new r' Hw Hk Ho He|w w' runs Hs _]; cbn [fst]; [..|done];
    apply local_world; rewrite Hw.
  - exact (ls_op r ts fl h i k (OpSpawn cmd) ops now [] r' Hk He).
  - apply ls_idle. by eapply is_report.
  - pose proof (ls_op r ts fl h (2 + j) k o ops now new r' Hk He) as Hl.
    assert (started_by o = []) as Hn by (destruct o; [done..|by destruct (Ho cmd)]).
    by rewrite Hn, app_nil_r in Hl.
Qed.

Lemma orun_world s s' : rtc ostep s s' -> rtc (wstep json_error cfg) s.1 s'.1.
Proof. induction 1 as [|s1 s2 s3 Hs _ IH]; [apply rtc_refl|]. eapply rtc_l; [by apply ostep_world|exact IH]. Qed.

(** ** What a command goroutine has reported *)

(** Its reports are the executor's, stamped with its command; the last one is
    terminal, or the stall notice of a drain. *)
Record run_ok (run : cmd_run) : Prop := {
  ro_stamped : Forall2 (fun rep ptr => exists (r : Receiver P) now,
    r_cfg r = cfg /\ rp_val ptr = stamp_report r (ru_cmd run) now rep)
    (ru_done run) (ru_mine run);
  ro_terminal : exists pre rep, ru_done run ++ ru_todo run = pre ++ [rep] /\
    (isTerminal (Rep_Status rep) = true \/ Cmd_Verb (ru_cmd run) = VerbDrainNode /\ stall_notice rep);
}.

Definition run_rel (h : hist) (run : cmd_run) (t : kind * list op) : Prop :=
  t.1 = KCommand (ru_cmd run) /\ run_ok run /\ Forall (located h t.2) (ru_mine run).

Record outcome_inv (s : world (P := P) * list cmd_run) : Prop := {
  oi_loops : (2 <= length (y_threads (w_sys s.1)))%nat;
  oi_runs : Forall2 (run_rel (y_hist (w_sys s.1))) s.2 (drop 2 (y_threads (w_sys s.1)));
  oi_started : (r_spawned (y_r (w_sys s.1))).*1 = ru_cmd <$> s.2;
}.

Lemma run_rel_mono h h' run t :
  h_enq h ⊆ h_enq h' -> h_fast h ⊆ h_fast h' -> run_rel h run t -> run_rel h' run t.
Proof.
  intros He Hf (Hk & Hr & Hl). split_and!; [done..|]. eapply Forall_impl; [exact Hl|]. intros p. by apply located_mono.
Qed.

Lemma runs_mono h h' runs ts :
  h_enq h ⊆ h_enq h' -> h_fast h ⊆ h_fast h' -> Forall2 (run_rel h) runs ts -> Forall2 (run_rel h') runs ts.
Proof. intros He Hf Hr. eapply Forall2_impl; [exact Hr|]. intros run t. by apply run_rel_mono. Qed.

(** Only [OpSpawn] starts a command. *)
Lemma exec_spawned o now r new r' :
  exec_op o now r = (new, r') -> (exists cmd, o = OpSpawn cmd) \/ r_spawned r' = r_spawned r.
Proof.
  destruct o as [cmd|cmd|cmd st msg|ptr|ptr|cmd]; cbn [exec_op]; intros He; [right..|left; by eexists].
  - destruct (seen _ _) as [[] ids]; by simplify_eq/=.
  - destruct (validate_spec r cmd now) as [_ Hst]. destruct (validate r cmd now) as [reason r2].
    cbn [fst snd] in *. destruct (reason =s ""); injection He as <- <-; by rewrite Hst.
  - by simplify_eq/=.
  - destruct (try_push_frame ptr r) as [p Hf]. destruct (try_push ptr r) as [sent r1]. cbn in Hf. by simplify_eq/=.
  - by simplify_eq/=.
Qed.

(** A step after which the command goroutines are where they were started none. *)
Lemma quiet_step w w' :
  wstep json_error cfg w w' -> (2 <= length (y_threads (w_sys w)))%nat ->
  drop 2 (y_threads (w_sys w')) = drop 2 (y_threads (w_sys w)) ->
  (2 <= length (y_threads (w_sys w')))%nat /\ r_spawned (y_r (w_sys w')) = r_spawned (y_r (w_sys w)).
Proof.
  intros Hstep Hlen Hd.
  destruct Hstep as [y y' srv log rq rp st fr up Hl| | | | | | | | | |]; cbn [w_sys y_threads y_r] in *;
    try (by rewrite ?length_insert); [].
  destruct Hl as [r ts fl h i k o ops now new r' Hi He|y y' []]; cbn [y_threads y_r] in *; rewrite ?length_app, ?length_insert;
    try done; [split; [lia|]|].
  - destruct (exec_spawned _ _ _ _ _ He) as [[cmd ->]|Hs]; [|done]. exfalso.
    apply (f_equal length) in Hd. rewrite !length_drop, length_app, length_insert in Hd. cbn in Hd. lia.
  - unfold allocate in *. by simplify_eq/=.
Qed.

Lemma drop_two_loops ts i (x : kind * list op) : (i < 2)%nat -> drop 2 (<[i := x]> ts) = drop 2 ts.
Proof. intros Hi. by apply drop_insert_lt. Qed.

Lemma drop_two_commands ts j (x : kind * list op) : drop 2 (<[(2 + j)%nat := x]> ts) = <[j := x]> (drop 2 ts).
Proof. rewrite drop_insert_ge by lia. f_equal. lia. Qed.

Lemma outcome_step s s' :
  ostep s s' -> r_cfg (y_r (w_sys s.1)) = cfg -> outcome_inv s -> outcome_inv s'.
Proof.
  intros Hstep Hcfg [Htwo Hruns Hst].
  destruct Hstep as [w runs r ts fl h i k cmd ops now r' fuel cl cl' tr Hw Hi Hk He Hh
    |w runs r ts fl h j cmd dn rep todo mine now ptr r' Hw Hj Hk Ha
    |w runs r ts fl h j k o ops now new r' Hw Hk Ho He|w w' runs Hs Hd]; cbn [fst snd] in *;
    try (rewrite Hw in Htwo, Hruns, Hst, Hcfg; cbn [y_threads y_hist y_r] in Htwo, Hruns, Hst, Hcfg).
  - split; cbn [fst snd with_sys w_sys y_threads y_hist y_r].
    + rewrite length_app, length_insert. lia.
    + rewrite drop_app_le, drop_two_loops by (rewrite ?length_insert; lia).
      apply Forall2_app; [done|]. constructor; [|constructor]. split_and!; [done| |constructor].
      split; [constructor|by eapply command_reports].
    + cbn in He. injection He as <-. cbn. by rewrite !fmap_app, Hst.
  - unfold allocate in Ha. injection Ha as <- <-. split; cbn [fst snd with_sys w_sys y_threads y_hist y_r].
    + by rewrite length_insert.
    + rewrite drop_two_commands. destruct (Forall2_lookup_l _ _ _ _ _ Hruns Hj) as ([k' ops'] & Hj' & _ & [Hs Ht] & Hl).
      rewrite lookup_drop, Hk in Hj'. injection Hj' as <- <-. cbn [ru_cmd ru_done ru_todo ru_mine fst snd] in *.
      apply Forall2_insert; [by eapply runs_mono, Hruns|]. split_and!; [done| |].
      * split; cbn [ru_cmd ru_done ru_todo ru_mine]; [|by rewrite <- app_assoc].
        apply Forall2_app; [done|]. constructor; [by exists r, now|constructor].
      * cbn. apply Forall_app. split; [|constructor; [right; left; cbn; set_solver|constructor]].
        eapply Forall_impl; [exact Hl|]. unfold located. cbn. set_solver.
    + cbn. rewrite list_fmap_insert, Hst. symmetry. apply list_insert_id. by rewrite list_lookup_fmap, Hj.
  - assert (forall p todo, located h todo p -> located (note o now r h) todo p) as Hmono.
    { intros p todo. apply located_mono; destruct o; cbn [note]; repeat case_match; cbn; set_solver. }
    split; cbn [fst snd with_sys w_sys y_threads y_hist y_r].
    + by rewrite length_insert.
    + rewrite drop_two_commands.
      assert (drop 2 ts !! j = Some (k, o :: ops)) as Hj' by (by rewrite lookup_drop).
      destruct (Forall2_lookup_r _ _ _ _ _ Hruns Hj') as (run & Hj & Hkc & Hr & Hl).
      rewrite <- (list_insert_id runs j run Hj). apply Forall2_insert.
      * eapply Forall2_impl; [exact Hruns|]. intros run' t (? & ? & Hl'). split_and!; [done..|].
        eapply Forall_impl; [exact Hl'|]. intros p. apply Hmono.
      * split_and!; [done..|]. eapply Forall_impl; [exact Hl|]. intros p. by eapply located_exec.
    + destruct (exec_spawned _ _ _ _ _ He) as [[cmd ->]|Hs]; [by destruct (Ho cmd)|]. by rewrite Hs.
  - destruct (quiet_step _ _ Hs Htwo Hd) as [Htwo' Hsp]. pose proof Hs as [Hq Hf]%world_queued.
    split; cbn [fst snd]; [done| |by rewrite Hsp]. rewrite Hd. by eapply runs_mono, Hruns.
Qed.

Definition outcome_start (s0 : Mock.server) (push : option P) : world (P := P) * list cmd_run := (world_start cfg s0 push, []).

(** The agent underneath keeps its configuration. *)
Lemma outcome_agent s0 push s : rtc ostep (outcome_start s0 push) s -> rtc sstep (sys_start cfg push) (w_sys s.1).
Proof. intros Hs%orun_world%world_run. exact Hs. Qed.

Lemma outcome_run s0 push s : rtc ostep (outcome_start s0 push) s -> outcome_inv s.
Proof.
  intros Hs. refine (rtc_ind_r outcome_inv (outcome_start s0 push) _ _ s Hs).
  - split; cbn; [done|constructor|done].
  - intros s1 s2 Hs1 Hstep. apply outcome_step; [done|]. apply outcome_agent in Hs1.
    exact (in_cfg _ _ _ _ (reachable_intake _ _ _ Hs1)).
Qed.

(** The goroutine of the [j]-th started command has ended. *)
Definition ended (s : world (P := P) * list cmd_run) (j : nat) : Prop :=
  exists run k, s.2 !! j = Some run /\ ru_todo run = [] /\ y_threads (w_sys s.1) !! (2 + j)%nat = Some (k, []).

(** Where a report of the agent can be found: in the server's log, in the queue
    for the next poll, or, with the queue over its limit, among what it pushed
    out. *)
Definition accounted (w : world (P := P)) (ptr : ReportPtr) : Prop :=
  rp_val ptr ∈ w_log w \/ ptr ∈ q_ll (r_queue (y_r (w_sys w))) \/ ptr ∈ h_drop (y_hist (w_sys w)).

(** A report its goroutine no longer carries. *)
Lemma located_accounted s0 push w runs ptr :
  valid_utf8 (ClusterID cfg) = true -> rtc ostep (outcome_start s0 push) (w, runs) -> encodable (y_hist (w_sys w)) ->
  located (y_hist (w_sys w)) [] ptr ->
  accounted w ptr \/ isTerminal (Rep_Status (rp_val ptr)) = false /\ ptr ∈ h_fast (y_hist (w_sys w)).
Proof.
  intros Hutf Hrun Henc Hloc. pose proof (outcome_agent _ _ _ Hrun) as Hagent. apply orun_world in Hrun.
  cbn [fst outcome_start] in Hrun, Hagent.
  pose proof (ti_acked _ _ _ (transit_run _ _ Hutf _ _ _ Hrun Henc)) as Hak.
  destruct (reachable_queue_inv _ _ _ Hagent) as [[_ _ _ (gone & He & Hg & _) _] _].
  cbn [queue_of QueueSystem.s_queue QueueSystem.s_enqueued QueueSystem.s_acked QueueSystem.s_dropped] in *.
  unfold accounted. destruct Hloc as [Hq|[Hq|[Hf Ht]]]; [|by apply not_elem_of_nil in Hq|by right].
  left. rewrite He in Hq. apply elem_of_app in Hq as [Hq|Hq]; [|by right; left].
  destruct (Hg _ Hq) as [Ha|Hd]; [left|by right; right]. apply Hak. by apply list_elem_of_fmap_2.
Qed.

(** C5. Every executed command has its outcome reported: in any interleaving of
    goroutines, server and network, and provided that every report the agent has
    made is encodable (its texts are UTF-8), once the goroutine of a started command
    has ended, its last report, stamped with the command's ID and the cluster, is a
    terminal one, and it is in the server's log, or is queued for the next poll, or
    was pushed out by an overflow of the queue.  The one exception is a drain that
    stalled: its last report may be the notice that it waits for a human, which is
    not terminal and may have gone out over the fast path alone. *)
Theorem outcome_reported s0 push w runs j cmd ctx :
  valid_utf8 (ClusterID cfg) = true -> rtc ostep (outcome_start s0 push) (w, runs) -> encodable (y_hist (w_sys w)) ->
  r_spawned (y_r (w_sys w)) !! j = Some (cmd, ctx) -> ended (w, runs) j ->
  exists ptr run, runs !! j = Some run /\ last (ru_mine run) = Some ptr /\
    Rep_CommandID (rp_val ptr) = Cmd_ID cmd /\ Rep_ClusterID (rp_val ptr) = ClusterID cfg /\
    (isTerminal (Rep_Status (rp_val ptr)) = true /\ accounted w ptr \/
     Cmd_Verb cmd = VerbDrainNode /\ stall_notice (rp_val ptr) /\ (accounted w ptr \/ ptr ∈ h_fast (y_hist (w_sys w)))).
Proof.
  intros Hutf Hrun Henc Hj (run & k & Hr & Htodo & Hk). cbn [fst snd] in *.
  destruct (outcome_run _ _ _ Hrun) as [Htwo Hruns Hst]. cbn [fst snd] in *.
  destruct (Forall2_lookup_l _ _ _ _ _ Hruns Hr) as (t & Ht & _ & [Hstamp Hterm] & Hloc).
  rewrite lookup_drop, Hk in Ht. injection Ht as <-. cbn [snd] in Hloc.
  assert (ru_cmd run = cmd) as Hcmd.
  { apply (f_equal (fun l => l !! j)) in Hst. rewrite !list_lookup_fmap, Hj, Hr in Hst. by injection Hst. }
  rewrite Htodo, app_nil_r, Hcmd in Hterm. destruct Hterm as (pre & rep & Hdone & Hrep).
  rewrite Hdone in Hstamp. apply Forall2_app_inv_l in Hstamp as (mine1 & mine2 & _ & Hlast & Hmine).
  apply Forall2_cons_inv_l in Hlast as (ptr & nil & (r & now & Hcfg & Hval) & Hnil & ->).
  apply Forall2_nil_inv_l in Hnil as ->.
  exists ptr, run. split; [done|]. split; [by rewrite Hmine, last_snoc|].
  rewrite Hval at 1 2. split; [cbn; by rewrite Hcmd|]. split; [cbn; by rewrite Hcfg|].
  assert (ptr ∈ ru_mine run) as Hin by (rewrite Hmine; set_solver).
  assert (accounted w ptr \/ isTerminal (Rep_Status (rp_val ptr)) = false /\ ptr ∈ h_fast (y_hist (w_sys w))) as Hacc
    by (rewrite Forall_forall in Hloc; eapply located_accounted; [done..|exact Henc|by apply Hloc]).
  assert (Rep_Status (rp_val ptr) = Rep_Status rep) as Es by (by rewrite Hval).
  assert (stall_notice rep -> stall_notice (rp_val ptr)) as Hno by (by rewrite Hval).
  destruct Hrep as [Hrep|[Hv Hrep]].
  - left. rewrite Es in *. destruct Hacc as [Hacc|[Hnt _]]; [done|congruence].
  - right. split; [done|]. split; [by apply Hno|]. tauto.
Qed.

(** ** Schedules of the agent

    Loops and command goroutines by their position; a step that cannot be taken
    is skipped. *)

Inductive oevent :=
| OLoop (i : nat) (now : Time)
| OSpawn (i : nat) (now : Time) (fuel : nat) (cl : W)
| OReport (j : nat) (now : Time)
| OSection (j : nat) (now : Time).

Definition spawns (o : op) : bool := match o with OpSpawn _ => true | _ => false end.

Definition ofire (e : oevent) (s : world (P := P) * list cmd_run) : world * list cmd_run :=
  let '(w, runs) := s in
  let '(mkSys r ts fl h) := w_sys w in
  match e with
  | OLoop i now =>
      match ts !! i with
      | Some (k, o :: ops) =>
          if (i <? 2)%nat && negb (spawns o) then
            let '(new, r') := exec_op o now r in
            (with_sys w (mkSys r' (<[i := (k, new ++ ops)]> ts ++ started_by o) fl (note o now r h)), runs)
          else s
      | _ => s
      end
  | OSpawn i now fuel cl =>
      match ts !! i with
      | Some (k, OpSpawn cmd :: ops) =>
          match HandleCommand cfg has_mapper fuel cmd cl with
          | (Ret tt, _, tr) =>
              if (i <? 2)%nat then
                (with_sys w (mkSys (exec_op (OpSpawn cmd) now r).2 (<[i := (k, ops)]> ts ++ [(KCommand cmd, [])]) fl h),
                 runs ++ [mkRun cmd [] (reports_of tr) []])
              else s
          | _ => s
          end
      | _ => s
      end
  | OReport j now =>
      match runs !! j, ts !! (2 + j)%nat with
      | Some (mkRun cmd dn (rep :: todo) mine), Some (KCommand cmd', []) =>
          if decide (cmd' = cmd) then
            let '(ptr, r') := allocate r (stamp_report r cmd now rep) in
            (with_sys w (mkSys r' (<[(2 + j)%nat := (KCommand cmd, [OpSend ptr])]> ts) fl (note_made ptr h)),
             <[j := mkRun cmd (dn ++ [rep]) todo (mine ++ [ptr])]> runs)
          else s
      | _, _ => s
      end
  | OSection j now =>
      match ts !! (2 + j)%nat with
      | Some (k, o :: ops) =>
          if negb (spawns o) then
            let '(new, r') := exec_op o now r in
            (with_sys w (mkSys r' (<[(2 + j)%nat := (k, new ++ ops)]> ts) fl (note o now r h)), runs)
          else s
      | _ => s
      end
  end.

Lemma spawns_false o : spawns o = false -> (forall cmd, o <> OpSpawn cmd) /\ started_by o = [].
Proof. by destruct o. Qed.

Lemma ofire_reach e s : rtc ostep s (ofire e s).
Proof.
  destruct s as [w runs]. unfold ofire. destruct (w_sys w) as [r ts fl h] eqn:Hw.
  destruct e as [i now|i now fuel cl|j now|j now].
  - destruct (ts !! i) as [[k [|o ops]]|] eqn:Hi; try apply rtc_refl.
    destruct (_ && _) eqn:Hg; [|apply rtc_refl]. apply andb_true_iff in Hg as [Hlt%Nat.ltb_lt Hs%negb_true_iff].
    destruct (exec_op o now r) as [new r'] eqn:He. destruct (spawns_false o Hs) as [_ Hn].
    apply rtc_once, os_other; [apply local_world; rewrite Hw; by apply ls_op|].
    cbn [with_sys w_sys y_threads]. by rewrite Hw, Hn, app_nil_r, drop_two_loops.
  - destruct (ts !! i) as [[k [|[] ops]]|] eqn:Hi; try apply rtc_refl.
    destruct (HandleCommand _ _ _ _ _) as [[[[]| |] cl'] tr] eqn:Hh; try apply rtc_refl.
    destruct (i <? 2)%nat eqn:Hlt; [|apply rtc_refl]. apply Nat.ltb_lt in Hlt.
    apply rtc_once. by eapply (os_spawn _ _ _ _ _ _ _ _ _ _ now).
  - destruct (runs !! j) as [[cmd dn [|rep todo] mine]|] eqn:Hj; try apply rtc_refl.
    destruct (ts !! (2 + j)%nat) as [[[| |cmd'] [|]]|] eqn:Hk; try apply rtc_refl.
    case_decide; [subst cmd'|apply rtc_refl]. destruct (allocate _ _) as [ptr r'] eqn:Ha.
    apply rtc_once. by eapply os_report.
  - destruct (ts !! (2 + j)%nat) as [[k [|o ops]]|] eqn:Hk; try apply rtc_refl.
    destruct (spawns o) eqn:Hs; [apply rtc_refl|]. cbn [negb]. destruct (exec_op o now r) as [new r'] eqn:He.
    apply rtc_once. eapply os_section; [done|done|by apply spawns_false|done].
Qed.

Definition orun (es : list oevent) (s : world (P := P) * list cmd_run) : world * list cmd_run := foldl (fun s e => ofire e s) s es.

Lemma orun_reach es s : rtc ostep s (orun es s).
Proof. revert s. induction es as [|e es IH]; intros s; [apply rtc_refl|]. cbn. etrans; [apply ofire_reach|apply IH]. Qed.

End Outcomes.

(** ** A delete on a concrete cluster

    The agent of [AgentExample] starts the delete of its command file on the
    scripted cluster; its reports go to the queue and on to the server. *)
Module OutcomesExample.
Import ReferenceUnstructured MergeExample MockExample.
#[local] Existing Instance ToyEd25519.toy.
#[local] Existing Instance no_push.
#[local] Existing Instance ScriptedCluster.scripted.
#[local] Existing Instance ScriptedCluster.decoders.

Definition fetched : world (P := Empty_set) :=
  mkWorld AgentExample.fetched (Mock.set_delivered srv) [] None None [] [] [].

(** The poll loop up to the start; then each report, made, tried on the fast path
    and queued. *)
Definition schedule : list (oevent (W := ScriptedCluster.world)) :=
  replicate 5 (OLoop 0 noon) ++ [OSpawn 0 noon 1 ScriptedCluster.start] ++
  mjoin (replicate 4 [OReport 0 noon; OSection 0 noon; OSection 0 noon]).

Definition finished_run : world (P := Empty_set) * list cmd_run := orun true json_err cfg schedule (fetched, []).

(** The delete is done, and all its reports are queued. *)
Example finished_statuses :
  (Rep_Status ∘ rp_val <$> q_ll (r_queue (y_r (w_sys finished_run.1))),
   (fun r => (Cmd_ID (ru_cmd r), length (ru_todo r), length (ru_mine r))) <$> finished_run.2)
  = (["received"; "validating"; "dry-run"; "applying"; "succeeded"], [("30", 0%nat, 4%nat)]).
Proof. vm_compute. reflexivity. Qed.

Lemma fetched_reachable : rtc (ostep true json_err cfg) (outcome_start cfg srv None) (fetched, []).
Proof.
  assert (Forall (fun c => command_ok c = true) (ControlPlane.pending srv)) as Hc
    by (apply (bool_decide_unpack _); vm_compute; exact I).
  assert (fits (JsonParse.print (Mock.write_pollResponse true (ControlPlane.pending srv)) ^^ nl)) as Hf by (vm_compute; discriminate).
  eapply rtc_l; [apply os_other; [by apply (ws_poll json_err cfg _ _ _ 0)|reflexivity]|].
  eapply rtc_l; [apply os_other; [apply ws_handle, (poll_text_answer json_err cfg eq_refl []); [reflexivity|constructor]|reflexivity]|].
  apply rtc_once, os_other; [|reflexivity].
  exact (ws_reply json_err cfg (Receiver.New cfg None) [(KPoll, []); (KWs, [])] [] empty_hist 0 _ (Mock.set_delivered srv) []
    _ [] [] [] eq_refl (reply_result_commands json_err cfg _ Hc Hf)).
Qed.

Lemma finished_reachable : rtc (ostep true json_err cfg) (outcome_start cfg srv None) finished_run.
Proof. etrans; [exact fetched_reachable|exact (orun_reach true json_err cfg schedule (fetched, []))]. Qed.

Lemma outcome_reported_witness :
  exists ptr run, finished_run.2 !! 0%nat = Some run /\ last (ru_mine run) = Some ptr /\
    Rep_CommandID (rp_val ptr) = "30" /\ Rep_ClusterID (rp_val ptr) = ClusterID cfg /\
    (isTerminal (Rep_Status (rp_val ptr)) = true /\ accounted finished_run.1 ptr \/
     VerbDelete = VerbDrainNode /\ stall_notice (rp_val ptr) /\
       (accounted finished_run.1 ptr \/ ptr ∈ h_fast (y_hist (w_sys finished_run.1)))).
Proof.
  assert (exists cmd, r_spawned (y_r (w_sys finished_run.1)) !! 0%nat = Some (cmd, Background) /\
    Cmd_ID cmd = "30" /\ Cmd_Verb cmd = VerbDelete) as (cmd & Hj & <- & <-)
    by (eexists; split; [vm_compute; reflexivity|split; reflexivity]).
  assert (encodable (y_hist (w_sys finished_run.1))) as He by (apply (bool_decide_unpack _); vm_compute; exact I).
  assert (ended (finished_run.1, finished_run.2) 0) as Hend
    by (eexists _, _; split; [vm_compute; reflexivity|split; [reflexivity|vm_compute; reflexivity]]).
  assert (rtc (ostep true json_err cfg) (outcome_start cfg srv None) (finished_run.1, finished_run.2)) as Hr
    by (rewrite <- surjective_pairing; exact finished_reachable).
  exact (outcome_reported true json_err cfg srv None finished_run.1 finished_run.2 0 cmd Background eq_refl Hr He Hj Hend).
Defined.
End OutcomesExample.
